(* ===== verification/_CoqProject ===== *)
-Q . S2P
Prelude.v
Statics.v
MemoryMap.v
Mmu.v
Fdt.v
BootArgs.v
Print.v
BootConfig.v
Hfs.v
VirtioDev.v
Virtio.v
HfsCatalog.v
BootLoader.v
Console.v
LineEditor.v
ConsoleMem.v
ConsoleCmd.v
ConsoleElf.v
Uart.v
Trap.v
Booter.v
Kernel.v
Stage0.v
KernelVirtio.v
KernelHfs.v
Syscalls.v
SyscallSpec.v
SyscallMem.v
KernelRun.v
SyscallFiles.v
Start.v
Payload.v
PayloadSpec.v
FdtList.v
Diag.v
VirtDtb.v
Layout.v
Demos.v
User.v
Pipeline.v
PipelineSpec.v
UserSpec.v
