(* ===== verification/Prelude.v ===== *)
(** * CaribeOS runtime for RV32: a verification development

    CaribeOS boots a 32-bit RISC-V machine in two programs written in C.
    CaribeBootX (src/booter/, with the block driver src/virtio_blk_legacy.c) reads
    the device tree, installs an identity map, mounts an HFS+ volume over
    virtio-blk, reads the boot configuration, loads an ELF kernel and jumps to it
    with a block of boot arguments that has a memory map.  The stage-0 kernel
    (src/kernel_xnu_entry.c) reads the arguments and the device tree, probes the
    disk, starts the timer, remaps memory and runs a user program, whose Linux
    system calls it serves.

    ** The model

    A w-bit integer is a [Z] with its wrap-around written out ([u8] .. [u64] and the
    operators of [c_scope]); memory is a function from addresses to bytes ([mem]),
    so that buffers alias as in the source; characters are their codes and a
    printer is the text it sends to the UART.  Code that threads state is in the
    state monad [ST] (or in a state and failure monad of the component), one
    definition per C function, with the early returns of the source as branches.

    - Prelude.v: machine integers, memory, big-endian reads, [memzero] and [memcopy],
      strings, the monads with their reasoning rules, tactics and hints.
    - Statics.v: static variables as bytes at an address, for the components that say
      where their statics are.
    - MemoryMap.v: [page_down] .. [xnu_build_memory_map] of src/booter/hfsplus_boot.c.
    - Mmu.v: src/booter/mmu_sv32.c and [stage0_install_umode_mmu] of the kernel, with
      the Sv32 walk they configure.
    - Fdt.v: the walkers of src/booter/fdt_min.c on encoded device trees.
    - BootArgs.v: src/booter/bootargs_pack.c.
    - Print.v: src/booter/print.c, the kernel's printers and the number parsers of
      src/booter/console.c.
    - BootConfig.v: the string helpers of src/booter/hfsplus_boot.c and the extraction
      of the kernel flags from com.apple.Boot.plist.
    - Hfs.v: the HFS+ reader ([disk_read] .. [hfsplus_read_file]) over a block device
      given by the classes [BlockDevice] and [BlockDeviceSpec].
    - VirtioDev.v, Virtio.v: the virtio device as a class of documented laws and the
      driver src/virtio_blk_legacy.c, which is an instance of the block device.
    - HfsCatalog.v: abstract catalogs, their encoding in B-tree nodes, and the
      theorems that the reader implements searches and path look-ups in them.
    - BootLoader.v: [elf32_load_and_jump], the boot arguments and
      [caribe_hfsplus_boot]; the jump is the record of what is handed over, and the
      statics that hold it are in memory when the kernel is entered.
    - Console.v: src/booter/console.c, the line editor, the commands and the BootX
      block, with a trace of what it prints, reads, writes and jumps to.
      LineEditor.v has the abstract editor it refines, ConsoleMem.v the console with
      its variables in the memory its commands write, ConsoleCmd.v the memory
      commands and [set bootargs], ConsoleElf.v the loader of [bootelf].
    - Uart.v: src/booter/uart.c and plic_min.c over a bus, and what the 16550A and
      the PLIC promise; Trap.v: src/booter/trap.c, which drives the console.
    - Booter.v: [s_mode_entry] of src/booter/booter.c, the booter from its entry to
      the console.
    - Kernel.v, Syscalls.v: the primitives of the kernel and every branch of
      [xnu_stage0_user_trap_dispatch].
    - Stage0.v: [stage0_init], the device-tree probe and the reports of the kernel.
    - KernelVirtio.v, KernelHfs.v: the kernel's own block driver, on the device of
      VirtioDev.v, and its search for /kernel.elf.
    - SyscallSpec.v, SyscallMem.v, SyscallFiles.v: what holds of all system calls, and
      where the kernel's statics are in memory.
    - KernelRun.v: the vector of user traps (src/kernel_xnu_stage0_trap.S) and the runs
      of user steps and traps, with the globals of the kernel in memory.
    - Start.v: [_start] of the kernel, with the timer test and the entry into user
      mode, over the parts above.
    - Payload.v: src/payload_hfsplus_boot.c, a boot path of its own on the same block
      driver; PayloadSpec.v: what it does, on the catalogs of HfsCatalog.v.
    - FdtList.v: the payloads that list or dump the device tree (src/payload_fdt_ls.c,
      payload_fdt_ls_fixed.c, payload_fdt_auto.c, payload_md_dtb.c), on the trees of
      Fdt.v; VirtDtb.v: the device tree in the firmware (src/mfw/virt_dtb.c).
    - Diag.v: src/payload_virtio_diag.c, on the device of VirtioDev.v.
    - Layout.v: the struct declarations of the sources with their sizes and offsets,
      and the byte-order helpers the files have each for themselves.
    - Demos.v: the small payloads and boot commands (src/payload.c, payload_menu.c,
      payload_sbi_info.c, cmd_bootelf.c and others) as traces of what they print and
      of the firmware calls they make.
    - User.v: seven test programs of src/userland/ as trees of their system calls, with
      a logic for all answers; Pipeline.v: processes, pipes and signals as POSIX has
      them, and the parts of the pipeline test; PipelineSpec.v: these parts together;
      UserSpec.v: the other programs.

    ** The theorems

    - Memory map: the map is an exact partition of RAM, never truncated, and no
      reserved page is conventional.
    - Page tables: the exact translation of the two tables; user mode reaches only
      its own region.
    - Device tree and arguments: the walkers compute searches of the abstract tree.
    - Text: print and parse round trips, agreement of the two printers and of the
      two parsers, exact results of the plist and path routines.
    - Disk: initialisation and reads of the driver are right for any number of
      requests; reads of forks, the mount, the catalog scan and the path look-up are
      refinements of the abstract volume; they end on every disk, however corrupt,
      with the volume as it was and nothing written outside the buffers.
    - Loader: the exact condition of the jump, what it may write, and what is in memory
      when the kernel is entered: the segments, the arguments, the memory map and the
      command line, for images that are not loaded over the booter.
    - Console: for any input the buffers hold what the abstract editor holds; with the
      variables in memory, no index leaves its array as long as the commands leave the
      booter's memory alone; which addresses [mem rd] touches; boot arguments set
      are read back; the two ELF loaders agree.
    - Interrupts: every byte received reaches the console in order and what it
      prints is sent; a timer interrupt is one tick and arms the next.
    - Booter: when the disk cannot be booted from, the booter ends at a console that
      has all that the theorems on interrupts ask for.
    - Kernel start: the kernel accepts the memory map of the booter and counts its
      pages; its driver and its search agree with those of the booter; the timer test
      ends with exactly the ticks it saw; [_start] reaches user mode with the payload
      in place, isolated, the kernel's image still mapped, and in a state from which the
      system calls keep their invariant, under the condition on output buffers below.
    - Payload: it reads the files the booter reads and enters the kernel the boot
      configuration names, on volumes with 4096-byte blocks and files in one extent,
      for paths of plain components under 128 characters; the kernel is an ELF image the
      booter's loader accepts, with no segment over its headers.
    - Other payloads: the listing of a tree is complete and in document order, the
      boot arguments found are those the booter finds, the dump of a sector can be
      read back; every answer of the menu makes the call it says.
    - User programs: the pipeline test passes in every interleaving of its processes;
      the consumer accepts exactly what the producer writes, the process tests pass
      only when no child is left, the terminal test restores the terminal.
    - Layouts: lemmas that compare numeric offsets of the models with the declared
      structs, and that the byte-order helpers agree.
    - System calls: what is in the registers of a program when a trap returns, what a
      call may write, an invariant of every reachable state, disjointness of mmap
      blocks, reading files and listing directories of /proc against their abstract
      contents.  The first four hold when the output buffers a program names lie in
      the RAM above the kernel's image ([buffers_plain]), where they cannot hit the
      globals, the trap frame or the page table.  The kernel does not check this
      ([rt_sigaction_unchecked]), and [rt_sigaction_resets_break] shows that the
      invariant is lost when it does not hold.

    Several theorems state what the code does where that is surely not meant: the
    first record of a B-tree leaf is never examined, a catalog node larger than a
    block is destroyed while it is read, a queue of fewer than 8 entries makes every
    read time out, [reg] is read from its first cell, system calls write through
    unchecked pointers and can reset the break of the mmap area, the vector of user
    traps returns with the stack pointer in t0 and does not keep t3 to t6, [mem wr] can
    break the history ring of the console, the kernel counts one processor too many and never leaves the
    probe of a corrupt device tree, [mem rd] of a range that wraps around reads what
    it means to forbid, a second blank after [mem rd] makes both numbers equal, the
    table of src/sv32_map_identity_256mb.c is not an identity map, the payload
    ignores all extents but the first and overruns its buffer on larger blocks, the
    first listing program never finds /chosen, the second overruns its path on a deep
    tree, the driver of the diagnosis program can be used once, and the device tree in
    the firmware is that of another machine.

    ** Bounds and fuel

    Loops with a bound in the source recurse on that bound.  The walkers of a device
    tree take fuel, and the theorems ask for as much as the blob has tokens; those of
    the payloads also bound the scan of a name, by the longest name in the blob.  The
    HFS+ loops take a measure (blocks left, nodes left, characters of the path left)
    under which [hfsplus_read_file] is total, as [hfsplus_read_file_ends] shows.  The
    wait of the driver has the 10^8 turns of the source; the device is assumed to
    answer within fewer barriers.  The console's walk of the device tree has the
    fuel of the class [Machine]; polls of the UART and turns of the receive loops are
    parameters, enough when the device empties its transmitter within them and fewer
    bytes arrive than turns are given.  [rdtime64] has two rounds, enough unless the
    high word of the timer changes twice within six reads.  The timer test waits at
    most 10^6 times, as in the source.  The copies of a segment in the payload read
    their bound from memory at every turn and take fuel; the size of the segment is
    enough when the headers are not loaded over.  The loops of the user programs have no
    fuel: that they end is part of what [must] says, given that a process is
    interrupted finitely often.

    ** Not modelled

    The assembly of the trap entries, except the vector of user traps, and of src/mfw/,
    what the SBI firmware does, the instruction-level behaviour of the jump into the
    kernel and into user mode, and the interrupts taken while the booter starts.
    Memory is total: an access that the page table would refuse, or one to the registers
    of a device, is a plain access in the handlers of the kernel.  The statics a
    component keeps as a record are apart from the memory it works on, where no theorem
    says where they are: those of the HFS+ reader, of the drivers (but for the queue and
    the request), and, in the refinement of LineEditor.v, of the console.  The fetches
    of the kernel after it has written satp are not steps of the model; [kernel_boots]
    states that the table maps the kernel's image to itself.  Code that is never run: the
    functions of src/payload_hfsplus_boot.c without a caller and its block under
    #if 0, and src/hfs_find_root_file_linear.c, a fragment without its declarations.
    The kernel the user programs run on is not in the repository: POSIX takes its place,
    as a relation; in Pipeline.v pipe, fork, dup2 and close succeed, and a process is
    interrupted finitely often.  The user programs
    that only print what they are told, and those in assembly, are left out. *)

From stdpp Require Export base numbers list list_numbers strings.
From Stdlib Require Export ZArith Lia.

#[global] Open Scope Z_scope.

(** ** Machine integers

    A w-bit unsigned integer is a [Z] in [0, 2^w); every C operation that can
    leave the range wraps explicitly. *)

Definition u8 (x : Z) : Z := x mod 256.

Definition u16 (x : Z) : Z := x mod 65536.

Definition u32 (x : Z) : Z := x mod 4294967296.

Definition u64 (x : Z) : Z := x mod 18446744073709551616.

Definition is_u8 (x : Z) : Prop := 0 <= x < 256.

Definition is_u16 (x : Z) : Prop := 0 <= x < 65536.

Definition is_u32 (x : Z) : Prop := 0 <= x < 4294967296.

Definition is_u64 (x : Z) : Prop := 0 <= x < 18446744073709551616.

(** Bitwise complement of a [uint32_t]: [~x]. *)
Definition not32 (x : Z) : Z := Z.lxor x 4294967295.

Declare Scope c_scope.
Delimit Scope c_scope with C.

(** Wrapping [uint32_t] arithmetic. *)
Notation "a +! b" := (u32 (a + b)) (at level 50, left associativity) : c_scope.
Notation "a -! b" := (u32 (a - b)) (at level 50, left associativity) : c_scope.
Notation "a *! b" := (u32 (a * b)) (at level 40, left associativity) : c_scope.
Notation "a <<! b" := (u32 (Z.shiftl a b)) (at level 45, left associativity) : c_scope.
Notation "a |! b" := (Z.lor a b) (at level 52, left associativity) : c_scope.
Notation "a &! b" := (Z.land a b) (at level 46, left associativity) : c_scope.

#[global] Open Scope c_scope.

Ltac Zify.zify_post_hook ::= Z.div_mod_to_equations.

(** [mlia] closes linear goals about wrapped integers. *)
Ltac wunfold := unfold is_u8, is_u16, is_u32, is_u64, u8, u16, u32, u64 in *.
Ltac mlia := wunfold; lia.

(** Boolean comparisons of the model, turned into propositions. *)
Ltac zbool :=
  repeat match goal with
  | H : _ && _ = true |- _ => apply andb_true_iff in H; destruct H
  | H : _ || _ = false |- _ => apply orb_false_iff in H; destruct H
  | H : _ && _ = false |- _ => apply andb_false_iff in H; destruct H
  | H : _ || _ = true |- _ => apply orb_true_iff in H; destruct H
  | H : negb _ = true |- _ => apply negb_true_iff in H
  | H : negb _ = false |- _ => apply negb_false_iff in H
  | H : (_ =? _) = true |- _ => apply Z.eqb_eq in H
  | H : (_ =? _) = false |- _ => apply Z.eqb_neq in H
  | H : (_ <? _) = true |- _ => apply Z.ltb_lt in H
  | H : (_ <? _) = false |- _ => apply Z.ltb_ge in H
  | H : (_ <=? _) = true |- _ => apply Z.leb_le in H
  | H : (_ <=? _) = false |- _ => apply Z.leb_gt in H
  end.

(** Splits the first boolean test of the goal. *)
Ltac case_if :=
  match goal with
  | |- context [if ?b then _ else _] => destruct b eqn:?
  end.

(** Case analysis on every test of the goal; arithmetic closes the rest. *)
Ltac zcases := repeat case_if; zbool; try lia; try done.

(** Decidable goals about concrete data. *)
Ltac by_computation := refine (bool_decide_unpack _ _); vm_compute; exact I.

(** Constants that fit in a word. *)
Ltac u32_consts := repeat first [apply Forall_nil_2 | apply Forall_cons_2; [mlia|]].

Create HintDb words.
Create Rewrite HintDb words.

Lemma u8_range x : is_u8 (u8 x).
Proof. mlia. Qed.

Lemma u16_range x : is_u16 (u16 x).
Proof. mlia. Qed.

Lemma u32_range x : is_u32 (u32 x).
Proof. mlia. Qed.

Lemma u32_small x : is_u32 x -> u32 x = x.
Proof. intros. apply Z.mod_small. done. Qed.

Lemma u8_small x : is_u8 x -> u8 x = x.
Proof. intros. apply Z.mod_small. done. Qed.

Lemma u32_idem x : u32 (u32 x) = u32 x.
Proof. apply u32_small, u32_range. Qed.

Lemma u8_idem x : u8 (u8 x) = u8 x.
Proof. apply u8_small, u8_range. Qed.

Lemma u32_add_l x y : u32 (u32 x + y) = u32 (x + y).
Proof. unfold u32. by rewrite Zplus_mod_idemp_l. Qed.

Lemma u32_add_r x y : u32 (x + u32 y) = u32 (x + y).
Proof. unfold u32. by rewrite Zplus_mod_idemp_r. Qed.

#[export] Hint Resolve u8_range u16_range u32_range : words.
#[export] Hint Rewrite u32_idem u32_add_l u32_add_r u8_idem : words.

(** Clearing the low [k] bits of a 32-bit word rounds it down. *)
Lemma land_not32_ones v k :
  is_u32 v -> 0 <= k <= 32 ->
  Z.land v (not32 (Z.ones k)) = v - v mod 2 ^ k.
Proof.
  intros Hv Hk.
  assert (Z.land v (not32 (Z.ones k)) = Z.ldiff v (Z.ones k)) as ->.
  { apply Z.bits_inj'; intros i Hi. unfold not32.
    change 4294967295 with (Z.ones 32).
    rewrite Z.land_spec, Z.lxor_spec, Z.ldiff_spec.
    destruct (decide (i < 32)).
    - rewrite (Z.ones_spec_low 32) by lia. by rewrite xorb_true_r.
    - rewrite <- (Z.mod_small v (2 ^ 32)) by done.
      rewrite Z.mod_pow2_bits_high by lia. done. }
  rewrite Z.ldiff_ones_r, Z.shiftl_mul_pow2, Z.shiftr_div_pow2 by lia.
  pose proof (Z.div_mod v (2 ^ k) ltac:(apply Z.pow_nonzero; lia)). lia.
Qed.

(** Or-ing disjoint fields is addition. *)
Lemma lor_shiftl_add a b k :
  0 <= k -> 0 <= b < 2 ^ k -> Z.lor (Z.shiftl a k) b = Z.shiftl a k + b.
Proof.
  intros Hk Hb.
  assert (Z.land (Z.shiftl a k) b = 0) as Hz.
  { apply Z.bits_inj'; intros i Hi. rewrite Z.land_spec, Z.bits_0.
    destruct (decide (i < k)).
    - rewrite Z.shiftl_spec_low by lia. done.
    - rewrite <- (Z.mod_small b (2 ^ k)) by done.
      rewrite Z.mod_pow2_bits_high by lia. apply andb_false_r. }
  rewrite <- Z.lxor_lor by done. symmetry. by apply Z.add_nocarry_lxor.
Qed.

(** ** Memory

    Physical memory is one flat array of bytes indexed by a 32-bit address;
    every pointer of the program is an address, so two C objects alias exactly
    when their addresses do.  Addresses wrap at 2^32. *)

Definition mem : Type := Z -> Z.

Definition mem_ok (m : mem) : Prop := forall a, is_u8 (m a).

(** [*(uint8_t * )a] *)
Definition load8 (m : mem) (a : Z) : Z := m (u32 a).

(** [*(uint8_t * )a = v] *)
Definition store8 (m : mem) (a v : Z) : mem :=
  fun x => if x =? u32 a then u8 v else m x.

(** [*(uint16_t * )a], [*(uint32_t * )a], [*(uint64_t * )a]: RV32 is little-endian. *)
Definition load16 (m : mem) (a : Z) : Z := load8 m a + 256 * load8 m (a + 1).

Definition load32 (m : mem) (a : Z) : Z := load16 m a + 65536 * load16 m (a + 2).

Definition load64 (m : mem) (a : Z) : Z := load32 m a + 4294967296 * load32 m (a + 4).

Definition store16 (m : mem) (a v : Z) : mem :=
  store8 (store8 m a v) (a + 1) (v / 256).

Definition store32 (m : mem) (a v : Z) : mem :=
  store16 (store16 m a v) (a + 2) (v / 65536).

Definition store64 (m : mem) (a v : Z) : mem :=
  store32 (store32 m a v) (a + 4) (v / 4294967296).

(** The bytes at [a, a+n). *)
Fixpoint read_bytes (m : mem) (a : Z) (n : nat) : list Z :=
  match n with
  | O => []
  | S n' => load8 m a :: read_bytes m (a + 1) n'
  end.

(** Storing a sequence of bytes, first to last. *)
Fixpoint write_bytes (m : mem) (a : Z) (l : list Z) : mem :=
  match l with
  | [] => m
  | b :: l' => write_bytes (store8 m a b) (a + 1) l'
  end.

(** [for (i = 0; i < n; i++) dst[i] = src[i];] *)
Fixpoint copy_loop (m : mem) (dst src : Z) (n : nat) : mem :=
  match n with
  | O => m
  | S n' => copy_loop (store8 m dst (load8 m src)) (dst + 1) (src + 1) n'
  end.

(** [for (i = 0; i < n; i++) dst[i] = 0;] *)
Fixpoint zero_loop (m : mem) (dst : Z) (n : nat) : mem :=
  match n with
  | O => m
  | S n' => zero_loop (store8 m dst 0) (dst + 1) n'
  end.

(** Two memories are equivalent when every byte agrees. *)
Definition mem_eq (m1 m2 : mem) : Prop := forall a, m1 a = m2 a.

#[global] Instance mem_eq_equivalence : Equivalence mem_eq.
Proof.
  split; [intros m a; done | intros m1 m2 H a; done |].
  intros m1 m2 m3 H1 H2 a. by rewrite (H1 a).
Qed.

#[global] Instance load8_proper : Proper (mem_eq ==> eq ==> eq) load8.
Proof. intros m1 m2 Hm a ? <-. apply Hm. Qed.

#[global] Instance store8_proper : Proper (mem_eq ==> eq ==> eq ==> mem_eq) store8.
Proof. intros m1 m2 Hm a ? <- v ? <- x. unfold store8. case_if; [done | apply Hm]. Qed.

#[global] Instance copy_loop_proper : Proper (mem_eq ==> eq ==> eq ==> eq ==> mem_eq) copy_loop.
Proof.
  intros m1 m2 Hm d ? <- s ? <- n ? <-. revert m1 m2 Hm d s.
  induction n as [|n IH]; intros m1 m2 Hm d s; simpl; [done|].
  apply IH. by rewrite Hm.
Qed.

(** A region [a, a+n) that does not run past the end of the address space. *)
Definition region (a n : Z) : Prop := 0 <= a /\ 0 <= n /\ a + n <= 4294967296.

Definition inside (a n x : Z) : Prop := a <= x < a + n.

Definition disjoint_reg (a n b k : Z) : Prop := a + n <= b \/ b + k <= a.

(** [m'] agrees with [m] outside [a, a+n). *)
Definition frame (m m' : mem) (a n : Z) : Prop :=
  forall x, ~ inside a n x -> m' x = m x.

Lemma load8_region m a : is_u32 a -> load8 m a = m a.
Proof. intros. unfold load8. by rewrite u32_small. Qed.

Lemma store8_same m a v : store8 m a v (u32 a) = u8 v.
Proof. unfold store8. by rewrite Z.eqb_refl. Qed.

Lemma store8_other m a v x : x <> u32 a -> store8 m a v x = m x.
Proof. intros. unfold store8. case_if; zbool; done. Qed.

Lemma load8_store8_same m a v : load8 (store8 m a v) a = u8 v.
Proof. apply store8_same. Qed.

Lemma load8_store8_other m a b v :
  u32 a <> u32 b -> load8 (store8 m b v) a = load8 m a.
Proof. intros. by apply (store8_other m b v (u32 a)). Qed.

Lemma mem_ok_store8 m a v : mem_ok m -> mem_ok (store8 m a v).
Proof. intros Hm x. unfold store8. case_if; [apply u8_range | apply Hm]. Qed.

Lemma mem_ok_load8 m a : mem_ok m -> is_u8 (load8 m a).
Proof. intros Hm. apply Hm. Qed.

Lemma mem_ok_zero_loop m a n : mem_ok m -> mem_ok (zero_loop m a n).
Proof. revert m a. induction n; intros; simpl; auto using mem_ok_store8. Qed.

Lemma mem_ok_copy_loop m d s n : mem_ok m -> mem_ok (copy_loop m d s n).
Proof. revert m d s. induction n; intros; simpl; auto using mem_ok_store8. Qed.

Lemma mem_ok_write_bytes m a l : mem_ok m -> mem_ok (write_bytes m a l).
Proof. revert m a. induction l; intros; simpl; auto using mem_ok_store8. Qed.

#[export] Hint Resolve mem_ok_store8 mem_ok_load8 mem_ok_zero_loop
  mem_ok_copy_loop mem_ok_write_bytes : words.

Lemma load16_range m a : mem_ok m -> is_u16 (load16 m a).
Proof.
  intros Hm. unfold load16.
  pose proof (mem_ok_load8 m a Hm). pose proof (mem_ok_load8 m (a + 1) Hm). mlia.
Qed.

Lemma load32_range m a : mem_ok m -> is_u32 (load32 m a).
Proof.
  intros Hm. unfold load32.
  pose proof (load16_range m a Hm). pose proof (load16_range m (a + 2) Hm). mlia.
Qed.

#[export] Hint Resolve load16_range load32_range : words.

(** *** Loops over regions *)

Lemma zero_loop_spec m a n x :
  region a (Z.of_nat n) ->
  zero_loop m a n x = if (a <=? x) && (x <? a + Z.of_nat n) then 0 else m x.
Proof.
  revert m a. induction n as [|n IH]; intros m a Hr; simpl zero_loop.
  - zcases.
  - destruct Hr as (? & ? & ?). rewrite IH by (unfold region; lia).
    unfold store8. rewrite (u32_small a) by mlia.
    zcases.
Qed.

Lemma write_bytes_frame m a l :
  region a (Z.of_nat (length l)) -> frame m (write_bytes m a l) a (Z.of_nat (length l)).
Proof.
  revert m a. induction l as [|b l IH]; intros m a Hr x Hx; simpl in *; [done|].
  destruct Hr as (? & ? & ?). rewrite IH; [|unfold region; lia | unfold inside in *; lia].
  apply store8_other. rewrite u32_small by mlia. unfold inside in Hx. lia.
Qed.

Lemma write_bytes_lookup m a l i :
  region a (Z.of_nat (length l)) -> (i < length l)%nat ->
  write_bytes m a l (a + Z.of_nat i) = u8 (l !!! i).
Proof.
  revert m a i. induction l as [|b l IH]; intros m a i Hr Hi; simpl in *; [lia|].
  destruct Hr as (? & ? & ?). destruct i as [|i].
  - rewrite write_bytes_frame; [|unfold region; lia | unfold inside; lia].
    simpl. rewrite <- (u32_small (a + Z.of_nat 0)) by mlia.
    replace (a + Z.of_nat 0) with a by lia. apply store8_same.
  - simpl. replace (a + Z.of_nat (S i)) with (a + 1 + Z.of_nat i) by lia.
    apply IH; [unfold region|]; lia.
Qed.

(** A forward byte copy is correct when the ranges do not overlap, and also
    when the destination starts at or below the source. *)
Lemma copy_loop_spec m d s n x :
  region d (Z.of_nat n) -> region s (Z.of_nat n) ->
  d <= s \/ s + Z.of_nat n <= d -> mem_ok m ->
  copy_loop m d s n x =
    if (d <=? x) && (x <? d + Z.of_nat n) then m (x - d + s) else m x.
Proof.
  revert m d s. induction n as [|n IH]; intros m d s Hd Hs Hov Hm; simpl copy_loop.
  - zcases.
  - destruct Hd as (? & ? & ?), Hs as (? & ? & ?).
    rewrite IH; [|unfold region; lia | unfold region; lia | lia | auto with words].
    unfold store8, load8. rewrite (u32_small d), (u32_small s) by mlia.
    rewrite (u8_small (m s)) by apply Hm.
    zcases; f_equal; lia.
Qed.

Lemma copy_loop_frame m d s n :
  region d (Z.of_nat n) -> frame m (copy_loop m d s n) d (Z.of_nat n).
Proof.
  revert m d s. induction n as [|n IH]; intros m d s Hd x Hx; simpl; [done|].
  destruct Hd as (? & ? & ?). rewrite IH; [|unfold region; lia | unfold inside in *; lia].
  apply store8_other. rewrite u32_small by mlia. unfold inside in Hx. lia.
Qed.

Lemma length_read_bytes m a n : length (read_bytes m a n) = n.
Proof. revert a. induction n; intros; simpl; auto. Qed.

Lemma read_bytes_lookup m a n i :
  (i < n)%nat -> read_bytes m a n !!! i = load8 m (a + Z.of_nat i).
Proof.
  revert a i. induction n as [|n IH]; intros a i Hi; [lia|]. destruct i as [|i]; simpl.
  - f_equal. lia.
  - rewrite IH by lia. f_equal. lia.
Qed.

Lemma read_bytes_ext m1 m2 a n :
  (forall i, 0 <= i < Z.of_nat n -> load8 m1 (a + i) = load8 m2 (a + i)) ->
  read_bytes m1 a n = read_bytes m2 a n.
Proof.
  revert a. induction n as [|n IH]; intros a Heq; simpl; [done|]. f_equal.
  - replace a with (a + 0) by lia. apply Heq. lia.
  - apply IH. intros i Hi. replace (a + 1 + i) with (a + (1 + i)) by lia. apply Heq. lia.
Qed.

Lemma read_bytes_app m a n k :
  read_bytes m a (n + k) = read_bytes m a n ++ read_bytes m (a + Z.of_nat n) k.
Proof.
  revert a. induction n as [|n IH]; intros a; simpl.
  - f_equal. lia.
  - rewrite IH. do 3 f_equal. lia.
Qed.

(** Reading back what was written. *)
Lemma read_write_bytes m a l :
  region a (Z.of_nat (length l)) -> Forall is_u8 l ->
  read_bytes (write_bytes m a l) a (length l) = l.
Proof.
  intros Hr Hl. apply list_eq_same_length with (length l); [done | apply length_read_bytes|].
  intros i x y Hi Hx Hy. apply list_lookup_total_correct in Hx as <-.
  rewrite read_bytes_lookup by done. destruct Hr as (? & ? & ?).
  rewrite load8_region by mlia. rewrite write_bytes_lookup by (done || unfold region; lia).
  rewrite (list_lookup_total_correct _ _ _ Hy). apply u8_small.
  by apply (Forall_lookup_1 _ _ _ _ Hl Hy).
Qed.

(** Writes apart from what is read. *)
Lemma read_bytes_frame m m' b k a n :
  frame m m' b k -> region a (Z.of_nat n) -> disjoint_reg a (Z.of_nat n) b k ->
  read_bytes m' a n = read_bytes m a n.
Proof.
  intros Hf (? & ? & ?) Hd. apply read_bytes_ext. intros i Hi. rewrite !load8_region by mlia.
  apply Hf. unfold inside, disjoint_reg in *. lia.
Qed.

(** A byte stored in what is read. *)
Lemma read_bytes_store8 m a n i v :
  region a (Z.of_nat n) -> 0 <= i < Z.of_nat n ->
  read_bytes (store8 m (a + i) v) a n = <[Z.to_nat i := u8 v]> (read_bytes m a n).
Proof.
  intros (? & ? & ?) Hi. apply list_eq_same_length with n;
    [by rewrite length_insert, length_read_bytes | apply length_read_bytes|].
  intros j x y Hj Hx Hy. apply list_lookup_total_correct in Hx as <-, Hy as <-.
  rewrite read_bytes_lookup by done. destruct (decide (j = Z.to_nat i)) as [->|Hne].
  - rewrite list_lookup_total_insert_eq by (rewrite length_read_bytes; lia).
    rewrite Z2Nat.id by lia. apply load8_store8_same.
  - rewrite list_lookup_total_insert_ne by done. rewrite read_bytes_lookup by done.
    apply load8_store8_other. rewrite !u32_small by mlia. lia.
Qed.

Lemma read_bytes_zero m a n :
  region a (Z.of_nat n) -> read_bytes (zero_loop m a n) a n = replicate n 0.
Proof.
  intros Hr. pose proof Hr as (? & ? & ?).
  apply list_eq_same_length with n; [apply length_replicate | apply length_read_bytes|].
  intros j x y Hj Hx Hy. apply list_lookup_total_correct in Hx as <-.
  rewrite read_bytes_lookup by done. apply lookup_replicate in Hy as [-> _].
  rewrite load8_region by mlia. rewrite zero_loop_spec by done. zcases.
Qed.

(** *** Fields of 2, 4 and 8 bytes *)

Lemma frame_refl m a n : frame m m a n.
Proof. done. Qed.

Lemma frame_trans m1 m2 m3 a n : frame m1 m2 a n -> frame m2 m3 a n -> frame m1 m3 a n.
Proof. intros H1 H2 x Hx. by rewrite H2, H1. Qed.

Lemma frame_sub m m' a n b k : frame m m' b k -> a <= b -> b + k <= a + n -> frame m m' a n.
Proof. intros H Ha Hn x Hx. apply H. unfold inside in *. lia. Qed.

Lemma frame_store8 m a v : is_u32 a -> frame m (store8 m a v) a 1.
Proof. intros Ha x Hx. apply store8_other. rewrite u32_small by done. unfold inside in Hx. lia. Qed.

Lemma frame_store16 m a v : region a 2 -> frame m (store16 m a v) a 2.
Proof.
  intros (? & ? & ?). apply (frame_trans _ (store8 m a v));
    (eapply frame_sub; [apply frame_store8; mlia | lia | lia]).
Qed.

Lemma frame_store32 m a v : region a 4 -> frame m (store32 m a v) a 4.
Proof.
  intros (? & ? & ?). apply (frame_trans _ (store16 m a v));
    (eapply frame_sub; [apply frame_store16; unfold region; lia | lia | lia]).
Qed.

Lemma frame_store64 m a v : region a 8 -> frame m (store64 m a v) a 8.
Proof.
  intros (? & ? & ?). apply (frame_trans _ (store32 m a v));
    (eapply frame_sub; [apply frame_store32; unfold region; lia | lia | lia]).
Qed.

Lemma load8_frame m m' b k a :
  frame m m' b k -> is_u32 a -> disjoint_reg a 1 b k -> load8 m' a = load8 m a.
Proof.
  intros Hf Ha Hd. rewrite !load8_region by done. apply Hf. unfold inside, disjoint_reg in *. lia.
Qed.

Lemma load16_frame m m' b k a :
  frame m m' b k -> region a 2 -> disjoint_reg a 2 b k -> load16 m' a = load16 m a.
Proof.
  intros Hf (? & ? & ?) Hd. unfold load16, disjoint_reg in *.
  by rewrite !(load8_frame m m' b k) by (done || mlia || unfold disjoint_reg; lia).
Qed.

Lemma load16_ext m' m a :
  region a 2 -> (forall x, inside a 2 x -> m' x = m x) -> load16 m' a = load16 m a.
Proof.
  intros (? & ? & ?) He. unfold load16. rewrite !load8_region by mlia.
  by rewrite !He by (unfold inside; lia).
Qed.

Lemma load32_frame m m' b k a :
  frame m m' b k -> region a 4 -> disjoint_reg a 4 b k -> load32 m' a = load32 m a.
Proof.
  intros Hf (? & ? & ?) Hd. unfold load32, disjoint_reg in *.
  by rewrite !(load16_frame m m' b k) by (done || unfold region, disjoint_reg; lia).
Qed.

Lemma load64_frame m m' b k a :
  frame m m' b k -> region a 8 -> disjoint_reg a 8 b k -> load64 m' a = load64 m a.
Proof.
  intros Hf (? & ? & ?) Hd. unfold load64, disjoint_reg in *.
  by rewrite !(load32_frame m m' b k) by (done || unfold region, disjoint_reg; lia).
Qed.

Lemma load16_store16 m a v : region a 2 -> load16 (store16 m a v) a = u16 v.
Proof.
  intros (? & ? & ?). unfold load16, store16. rewrite load8_store8_same.
  rewrite load8_store8_other by (rewrite !u32_small by mlia; lia). rewrite load8_store8_same. mlia.
Qed.

Lemma load32_store32 m a v : region a 4 -> load32 (store32 m a v) a = u32 v.
Proof.
  intros (? & ? & ?). unfold load32, store32. rewrite load16_store16 by (unfold region; lia).
  rewrite (load16_frame (store16 m a v) _ (a + 2) 2);
    [| apply frame_store16; unfold region; lia | unfold region; lia | unfold disjoint_reg; lia].
  rewrite load16_store16 by (unfold region; lia). mlia.
Qed.

Lemma load64_store64 m a v : region a 8 -> load64 (store64 m a v) a = u64 v.
Proof.
  intros (? & ? & ?). unfold load64, store64. rewrite load32_store32 by (unfold region; lia).
  rewrite (load32_frame (store32 m a v) _ (a + 4) 4);
    [| apply frame_store32; unfold region; lia | unfold region; lia | unfold disjoint_reg; lia].
  rewrite load32_store32 by (unfold region; lia). mlia.
Qed.

Lemma mem_ok_store16 m a v : mem_ok m -> mem_ok (store16 m a v).
Proof. intros. by apply mem_ok_store8, mem_ok_store8. Qed.

Lemma mem_ok_store32 m a v : mem_ok m -> mem_ok (store32 m a v).
Proof. intros. by apply mem_ok_store16, mem_ok_store16. Qed.

Lemma mem_ok_store64 m a v : mem_ok m -> mem_ok (store64 m a v).
Proof. intros. by apply mem_ok_store32, mem_ok_store32. Qed.

#[export] Hint Resolve mem_ok_store16 mem_ok_store32 mem_ok_store64 : words.

(** A memory holding [l] at [base] and zeros elsewhere: concrete inputs. *)
Definition mem_of_list (base : Z) (l : list Z) : mem :=
  fun a => if (base <=? a) && (a <? base + Z.of_nat (length l))
           then l !!! Z.to_nat (a - base) else 0.

(** ** C strings

    A C string is its list of bytes without the terminating NUL.  Literals are
    written with the escapes of the source: [\n], [\r], [\t], [\b], [\e] for
    the ESC character and [\q] for a double quote. *)

Definition byte_of_ascii (c : Ascii.ascii) : Z := Z.of_N (Ascii.N_of_ascii c).

Definition escape_char (c : Z) : Z :=
  if c =? 110 then 10 else if c =? 114 then 13 else if c =? 116 then 9
  else if c =? 98 then 8 else if c =? 101 then 27 else if c =? 113 then 34 else c.

Fixpoint unescape (l : list Z) : list Z :=
  match l with
  | 92 :: c :: l' => escape_char c :: unescape l'
  | c :: l' => c :: unescape l'
  | [] => []
  end.

Definition cstr (s : string) : list Z :=
  unescape (byte_of_ascii <$> String.list_ascii_of_string s).

Coercion cstr : string >-> list.

#[global] Arguments cstr : simpl never.

(** The contents of a string: bytes other than NUL. *)
Definition is_cstr (l : list Z) : Prop := Forall (fun c => 0 < c < 256) l.

(** The string [l] with its NUL is at address [a]. *)
Fixpoint cstr_at (m : mem) (a : Z) (l : list Z) : Prop :=
  match l with
  | [] => load8 m a = 0
  | c :: l' => load8 m a = c /\ 0 < c < 256 /\ cstr_at m (a + 1) l'
  end.

(** Byte strings are compared with stdpp's decidable equality on [list Z]. *)
Definition bytes_eqb (a b : list Z) : bool := bool_decide (a = b).

Lemma bytes_eqb_eq a b : bytes_eqb a b = true <-> a = b.
Proof. unfold bytes_eqb. by rewrite bool_decide_eq_true. Qed.

Lemma bytes_eqb_neq a b : bytes_eqb a b = false <-> a <> b.
Proof. unfold bytes_eqb. by rewrite bool_decide_eq_false. Qed.

(** ** Big-endian reads: FDT headers and HFS+ structures. *)

Definition be16 (m : mem) (a : Z) : Z :=
  Z.lor (Z.shiftl (load8 m a) 8) (load8 m (a + 1)).

Definition be32 (m : mem) (a : Z) : Z :=
  Z.lor (Z.lor (Z.lor (Z.shiftl (load8 m a) 24) (Z.shiftl (load8 m (a + 1)) 16))
    (Z.shiftl (load8 m (a + 2)) 8)) (load8 m (a + 3)).

Definition be64 (m : mem) (a : Z) : Z :=
  Z.lor (Z.shiftl (be32 m a) 32) (be32 m (a + 4)).

(** The same [n] bytes at [a] in [m] and at [a'] in [m']. *)
Definition same_bytes (m : mem) (a : Z) (m' : mem) (a' n : Z) : Prop :=
  forall i, 0 <= i < n -> load8 m (a + i) = load8 m' (a' + i).

Lemma same_bytes_sub m a m' a' n i k :
  same_bytes m a m' a' n -> 0 <= i -> i + k <= n -> same_bytes m (a + i) m' (a' + i) k.
Proof. intros H Hi Hk j Hj. rewrite <- !Z.add_assoc. apply H. lia. Qed.

Lemma same_be16 m a m' a' i n :
  same_bytes m a m' a' n -> 0 <= i -> i + 2 <= n -> be16 m (a + i) = be16 m' (a' + i).
Proof.
  intros H Hi Hn. unfold be16. rewrite <- !Z.add_assoc, (H i), (H (i + 1)) by lia. done.
Qed.

Lemma same_be32 m a m' a' i n :
  same_bytes m a m' a' n -> 0 <= i -> i + 4 <= n -> be32 m (a + i) = be32 m' (a' + i).
Proof.
  intros H Hi Hn. unfold be32. rewrite <- !Z.add_assoc.
  rewrite (H i), (H (i + 1)), (H (i + 2)), (H (i + 3)) by lia. done.
Qed.

Lemma same_be64 m a m' a' i n :
  same_bytes m a m' a' n -> 0 <= i -> i + 8 <= n -> be64 m (a + i) = be64 m' (a' + i).
Proof.
  intros H Hi Hn. unfold be64. rewrite <- !Z.add_assoc.
  by rewrite (same_be32 m a m' a' i n), (same_be32 m a m' a' (i + 4) n) by (done || lia).
Qed.

Lemma be16_range m a : mem_ok m -> is_u16 (be16 m a).
Proof.
  intros Hm. pose proof (mem_ok_load8 m a Hm). pose proof (mem_ok_load8 m (a + 1) Hm).
  unfold be16. rewrite lor_shiftl_add, Z.shiftl_mul_pow2 by (try change (2 ^ 8) with 256; mlia).
  change (2 ^ 8) with 256. mlia.
Qed.

(** The bytes of a big-endian word are its digits in base 256. *)
Lemma be32_bytes m a : mem_ok m ->
  be32 m a = 16777216 * load8 m a + 65536 * load8 m (a + 1) + 256 * load8 m (a + 2) + load8 m (a + 3).
Proof.
  intros Hm. pose proof (mem_ok_load8 m a Hm). pose proof (mem_ok_load8 m (a + 1) Hm).
  pose proof (mem_ok_load8 m (a + 2) Hm). pose proof (mem_ok_load8 m (a + 3) Hm). unfold be32.
  rewrite (Z.shiftl_mul_pow2 _ 16), (Z.shiftl_mul_pow2 (load8 m (a + 2)) 8) by lia.
  rewrite (lor_shiftl_add _ _ 24) by (change (2 ^ 16) with 65536; change (2 ^ 24) with 16777216; mlia).
  rewrite !Z.shiftl_mul_pow2 by lia. change (2 ^ 24) with 16777216. change (2 ^ 16) with 65536.
  change (2 ^ 8) with 256.
  replace (load8 m a * 16777216 + load8 m (a + 1) * 65536) with
    (Z.shiftl (load8 m a * 256 + load8 m (a + 1)) 16) by (rewrite Z.shiftl_mul_pow2 by lia; lia).
  rewrite lor_shiftl_add by (change (2 ^ 16) with 65536; mlia). rewrite Z.shiftl_mul_pow2 by lia.
  change (2 ^ 16) with 65536.
  replace ((load8 m a * 256 + load8 m (a + 1)) * 65536 + load8 m (a + 2) * 256) with
    (Z.shiftl (load8 m a * 65536 + load8 m (a + 1) * 256 + load8 m (a + 2)) 8)
    by (rewrite Z.shiftl_mul_pow2 by lia; lia).
  rewrite lor_shiftl_add by (change (2 ^ 8) with 256; mlia). rewrite Z.shiftl_mul_pow2 by lia. lia.
Qed.

Lemma be32_range m a : mem_ok m -> is_u32 (be32 m a).
Proof.
  intros Hm. rewrite be32_bytes by done. pose proof (mem_ok_load8 m a Hm).
  pose proof (mem_ok_load8 m (a + 1) Hm). pose proof (mem_ok_load8 m (a + 2) Hm).
  pose proof (mem_ok_load8 m (a + 3) Hm). mlia.
Qed.

(** ** State monad *)

Definition ST (S A : Type) : Type := S -> A * S.

#[global] Instance ST_ret S : MRet (ST S) := fun A a s => (a, s).

#[global] Instance ST_bind S : MBind (ST S) :=
  fun A B f c s => let (a, s') := c s in f a s'.

Definition getS {S} : ST S S := fun s => (s, s).

Definition getsS {S A} (f : S -> A) : ST S A := fun s => (f s, s).

Definition modifyS {S} (f : S -> S) : ST S unit := fun s => (tt, f s).

(** What a computation guarantees of its result. *)
Definition yields {S A} (c : ST S A) (s : S) (Q : A -> S -> Prop) : Prop :=
  let (a, s') := c s in Q a s'.

Lemma yields_ret {S A} (a : A) (s : S) (Q : A -> S -> Prop) : Q a s -> yields (mret a) s Q.
Proof. done. Qed.

Lemma yields_bind {S A B} (c : ST S A) (f : A -> ST S B) (s : S) (Q : B -> S -> Prop) :
  yields c s (fun a s' => yields (f a) s' Q) -> yields (c ≫= f) s Q.
Proof. unfold yields, mbind, ST_bind. by destruct (c s). Qed.

Lemma yields_gets {S A B} (f : S -> A) (k : A -> ST S B) (s : S) (Q : B -> S -> Prop) :
  yields (k (f s)) s Q -> yields (getsS f ≫= k) s Q.
Proof. done. Qed.

Lemma yields_modify {S B} (f : S -> S) (k : unit -> ST S B) (s : S) (Q : B -> S -> Prop) :
  yields (k tt) (f s) Q -> yields (modifyS f ≫= k) s Q.
Proof. done. Qed.

Lemma yields_mono {S A} (c : ST S A) (s : S) (Q R : A -> S -> Prop) :
  yields c s R -> (forall a s', R a s' -> Q a s') -> yields c s Q.
Proof. unfold yields. destruct (c s). auto. Qed.

(** ** Partial state monad

    For code with loops that are not structural: [None] is a loop that ran out of
    the iterations it was given, never a C-level error (those are return codes).
    The components prove that the iterations they give are enough. *)

Definition PST (S A : Type) : Type := S -> option (A * S).

#[global] Instance PST_ret S : MRet (PST S) := fun A a s => Some (a, s).

#[global] Instance PST_bind S : MBind (PST S) :=
  fun A B f c s => match c s with Some (a, s') => f a s' | None => None end.

Definition getP {S A} (f : S -> A) : PST S A := fun s => Some (f s, s).

Definition modifyP {S} (f : S -> S) : PST S unit := fun s => Some (tt, f s).

Definition out_of_fuel {S A} : PST S A := fun _ => None.

(** What a partial computation guarantees of its result. *)
Definition returns {S A} (c : PST S A) (s : S) (Q : A -> S -> Prop) : Prop :=
  match c s with Some (a, s') => Q a s' | None => False end.

Lemma returns_ret {S A} (a : A) (s : S) (Q : A -> S -> Prop) : Q a s -> returns (mret a) s Q.
Proof. done. Qed.

Lemma returns_bind {S A B} (c : PST S A) (f : A -> PST S B) (s : S) (Q : B -> S -> Prop)
    (R : A -> S -> Prop) :
  returns c s R -> (forall a s', R a s' -> returns (f a) s' Q) -> returns (c ≫= f) s Q.
Proof.
  unfold returns, mbind, PST_bind. destruct (c s) as [[a s']|]; [|done].
  intros HR Hf. by apply Hf.
Qed.

Lemma returns_get {S A B} (f : S -> A) (k : A -> PST S B) (s : S) (Q : B -> S -> Prop) :
  returns (k (f s)) s Q -> returns (getP f ≫= k) s Q.
Proof. done. Qed.

Lemma returns_modify {S B} (f : S -> S) (k : unit -> PST S B) (s : S) (Q : B -> S -> Prop) :
  returns (k tt) (f s) Q -> returns (modifyP f ≫= k) s Q.
Proof. done. Qed.

Lemma returns_mono {S A} (c : PST S A) (s : S) (Q R : A -> S -> Prop) :
  returns c s R -> (forall a s', R a s' -> Q a s') -> returns c s Q.
Proof. unfold returns. destruct (c s) as [[a s']|]; auto. Qed.

Lemma returns_and {S A} (c : PST S A) (s : S) (Q R : A -> S -> Prop) :
  returns c s Q -> returns c s R -> returns c s (fun a s' => Q a s' /\ R a s').
Proof. unfold returns. by destruct (c s) as [[a s']|]. Qed.

(** A computation that ends from every state of [P], in a state of [P]. *)
Definition ends {S A} (P : S -> Prop) (c : PST S A) : Prop :=
  forall s, P s -> returns c s (fun _ s' => P s').

Lemma ends_ret {S A} (P : S -> Prop) (a : A) : ends P (mret a).
Proof. by intros s Hs. Qed.

Lemma ends_bind {S A B} (P : S -> Prop) (c : PST S A) (f : A -> PST S B) :
  ends P c -> (forall a, ends P (f a)) -> ends P (c ≫= f).
Proof. intros Hc Hf s Hs. eapply returns_bind; [by apply Hc|]. intros a s' Hs'. by apply Hf. Qed.

Lemma ends_get {S A B} (P : S -> Prop) (f : S -> A) (k : A -> PST S B) :
  (forall s, P s -> ends P (k (f s))) -> ends P (getP f ≫= k).
Proof. intros Hk s Hs. by apply Hk. Qed.

Lemma ends_modify {S} (P : S -> Prop) (f : S -> S) :
  (forall s, P s -> P (f s)) -> ends P (modifyP f).
Proof. intros Hf s Hs. by apply Hf. Qed.

Lemma ends_if {S A} (P : S -> Prop) (b : bool) (c d : PST S A) :
  ends P c -> ends P d -> ends P (if b then c else d).
Proof. by destruct b. Qed.

Create HintDb ends.

#[export] Hint Resolve ends_ret ends_bind ends_if : ends.

(** ** The hardware timer

    [timer n] is the 64-bit counter at the [n]-th read of one of its two CSRs. *)

Definition high (t : Z) : Z := u32 (Z.shiftr t 32).

(** A counter that does not go back and advances less than 2^32 ticks within six
    reads is steady. *)
Definition slow (timer : nat -> Z) : Prop :=
  forall n, is_u64 (timer n) /\ timer n <= timer (S n) /\
    timer (5 + n)%nat < timer n + 4294967296.

Lemma slow_mono timer : slow timer -> forall i n, timer n <= timer (i + n)%nat.
Proof.
  intros Hs. induction i as [|i IH]; intros n; [done|]. simpl.
  destruct (Hs (i + n)%nat) as (_ & ? & _). specialize (IH n). lia.
Qed.

Lemma high_div t : is_u64 t -> high t = t / 4294967296.
Proof.
  intros Ht. unfold high. rewrite Z.shiftr_div_pow2 by lia. change (2 ^ 32) with 4294967296.
  apply u32_small. mlia.
Qed.

(** Three consecutive reads, the first and last high words equal. *)
Lemma read_consistent timer n :
  slow timer -> high (timer n) = high (timer (2 + n)%nat) ->
  Z.lor (Z.shiftl (high (timer n)) 32) (u32 (timer (1 + n)%nat)) = timer (1 + n)%nat.
Proof.
  intros Hs Heq. pose proof (slow_mono timer Hs 1 n). pose proof (slow_mono timer Hs 1 (1 + n)).
  destruct (Hs n) as [Hn _], (Hs (1 + n)%nat) as [H1 _], (Hs (2 + n)%nat) as [H2 _].
  rewrite !high_div in * by done. simpl in *.
  rewrite lor_shiftl_add; [|lia | change (2 ^ 32) with 4294967296; mlia].
  rewrite Z.shiftl_mul_pow2 by lia. change (2 ^ 32) with 4294967296. mlia.
Qed.

(** When the high word changed during the first round it does not in the second. *)
Lemma second_round timer n :
  slow timer -> high (timer n) <> high (timer (2 + n)%nat) ->
  high (timer (3 + n)%nat) = high (timer (5 + n)%nat).
Proof.
  intros Hs Hne. pose proof (slow_mono timer Hs 2 n). pose proof (slow_mono timer Hs 1 (2 + n)).
  pose proof (slow_mono timer Hs 2 (3 + n)). destruct (Hs n) as (Hn & _ & Hlt).
  destruct (Hs (2 + n)%nat) as [H2 _], (Hs (3 + n)%nat) as [H3 _], (Hs (5 + n)%nat) as [H5 _].
  simpl in *. rewrite !high_div in * by done. lia.
Qed.
