(* ===== verification/Statics.v ===== *)
(** Static variables in memory: what the components that keep their statics as
    records share when they say where those statics are.

    A static is a list of bytes at an address; the statics of a component are
    pairwise disjoint.  [write_fields] stores them, and reading one back gives
    what was stored. *)

From S2P Require Import Prelude.

Module Statics.

(** ** Bytes of words *)

(** The bytes of a 32-bit word, in the order of memory. *)
Definition le4 (w : Z) : list Z :=
  [u8 w; u8 (Z.shiftr w 8); u8 (Z.shiftr w 16); u8 (Z.shiftr w 24)].

Definition words_bytes (ws : list Z) : list Z := concat (le4 <$> ws).

Lemma length_words_bytes ws : length (words_bytes ws) = (4 * length ws)%nat.
Proof.
  induction ws as [|w ws IH]; [done|]. change (words_bytes (w :: ws)) with (le4 w ++ words_bytes ws).
  rewrite length_app, IH. simpl. lia.
Qed.

Lemma words_bytes_u8 ws : Forall is_u8 (words_bytes ws).
Proof.
  induction ws as [|w ws IH]; [constructor|]. change (words_bytes (w :: ws)) with (le4 w ++ words_bytes ws).
  repeat (apply Forall_cons_2; [apply u8_range|]). done.
Qed.

(** A word read back from its bytes. *)
Lemma load32_le4 m a w :
  read_bytes m a 4 = le4 w -> load32 m a = u32 w.
Proof.
  simpl. replace (a + 1 + 1) with (a + 2) by lia. replace (a + 2 + 1) with (a + 2 + 1) by lia.
  intros [= H0 H1 H2 H3]. unfold load32, load16. rewrite H0, H1, H2, H3.
  rewrite !Z.shiftr_div_pow2 by lia. change (2 ^ 8) with 256. change (2 ^ 16) with 65536.
  change (2 ^ 24) with 16777216. mlia.
Qed.

(** The [i]-th word of a block of words. *)
Lemma load32_words m a ws : forall i w,
  read_bytes m a (4 * length ws) = words_bytes ws -> ws !! i = Some w ->
  load32 m (a + 4 * Z.of_nat i) = u32 w.
Proof.
  revert a. induction ws as [|v ws IH]; intros a i w Hr Hi; [done|].
  replace (4 * length (v :: ws))%nat with (4 + 4 * length ws)%nat in Hr by (simpl; lia).
  rewrite read_bytes_app in Hr. change (words_bytes (v :: ws)) with (le4 v ++ words_bytes ws) in Hr.
  apply app_inj_1 in Hr as [H1 H2]; [|by rewrite length_read_bytes].
  destruct i as [|i]; simpl in Hi.
  - injection Hi as <-. rewrite Z.add_0_r. by apply load32_le4.
  - replace (a + 4 * Z.of_nat (S i)) with (a + Z.of_nat 4 + 4 * Z.of_nat i) by lia. by apply IH.
Qed.

Lemma read_bytes_prefix m a l l' :
  read_bytes m a (length (l ++ l')) = l ++ l' -> read_bytes m a (length l) = l.
Proof.
  rewrite length_app, read_bytes_app. intros H. by apply app_inj_1 in H as [H _]; [|rewrite length_read_bytes].
Qed.

(** ** Fields *)

Abbreviation field := (Z * list Z)%type.

Definition flen (f : field) : Z := Z.of_nat (length f.2).

Definition fields_apart (f g : field) : Prop := disjoint_reg f.1 (flen f) g.1 (flen g).

(** Every field is inside the address space and no two meet. *)
Definition fields_ok (fs : list field) : Prop :=
  Forall (fun f => region f.1 (flen f)) fs /\ ForallOrdPairs fields_apart fs.

(** The address [x] is in one of the fields. *)
Definition in_fields (fs : list field) (x : Z) : Prop :=
  exists f, f ∈ fs /\ inside f.1 (flen f) x.

Definition write_fields (m : mem) (fs : list field) : mem :=
  foldl (fun m f => write_bytes m f.1 f.2) m fs.

(** The memory [m] holds the fields. *)
Definition holds (m : mem) (fs : list field) : Prop :=
  Forall (fun f => read_bytes m f.1 (length f.2) = f.2) fs.

Lemma mem_ok_write_fields fs : forall m, mem_ok m -> mem_ok (write_fields m fs).
Proof. induction fs as [|f fs IH]; intros m Hm; [done|]. apply IH. auto with words. Qed.

#[export] Hint Resolve mem_ok_write_fields : words.

Lemma write_fields_frame fs : forall m x,
  Forall (fun f => region f.1 (flen f)) fs -> ~ in_fields fs x -> write_fields m fs x = m x.
Proof.
  induction fs as [|f fs IH]; intros m x Hr Hx; [done|]. apply Forall_cons in Hr as [Hf Hr].
  change (write_fields (write_bytes m f.1 f.2) fs x = m x). rewrite IH; [|done|].
  - apply write_bytes_frame; [done|]. intros Hin. apply Hx. exists f. split; [by left | done].
  - intros (g & Hg & Hin). apply Hx. exists g. split; [by right | done].
Qed.

(** Bytes apart from every field. *)
Lemma write_fields_read_other fs m a n :
  Forall (fun f => region f.1 (flen f)) fs -> region a (Z.of_nat n) ->
  Forall (fun f => disjoint_reg a (Z.of_nat n) f.1 (flen f)) fs ->
  read_bytes (write_fields m fs) a n = read_bytes m a n.
Proof.
  intros Hr (? & ? & ?) Hd. apply read_bytes_ext. intros i Hi. rewrite !load8_region by mlia.
  apply write_fields_frame; [done|]. intros (f & Hf & Hin). rewrite Forall_forall in Hd.
  specialize (Hd f Hf). unfold disjoint_reg, inside in *. lia.
Qed.

Lemma read_write_any m a l :
  region a (Z.of_nat (length l)) -> read_bytes (write_bytes m a l) a (length l) = u8 <$> l.
Proof.
  intros Hr. apply list_eq_same_length with (length l); [by rewrite length_fmap | apply length_read_bytes|].
  intros i x y Hi Hx Hy. apply list_lookup_total_correct in Hx as <-.
  rewrite read_bytes_lookup by done. pose proof Hr as (? & ? & ?).
  rewrite load8_region by mlia. rewrite write_bytes_lookup by done.
  apply list_lookup_fmap_Some in Hy as (z & -> & Hz). by rewrite (list_lookup_total_correct _ _ _ Hz).
Qed.

Lemma fmap_u8 l : Forall is_u8 l -> u8 <$> l = l.
Proof. induction 1 as [|c l Hc Hl IH]; [done|]. rewrite fmap_cons, IH. by rewrite u8_small. Qed.

Lemma fields_ok_pair f g :
  region f.1 (flen f) -> region g.1 (flen g) -> fields_apart f g -> fields_ok [f; g].
Proof.
  intros Hf Hg Ha. split.
  - apply Forall_cons_2; [done|]. apply Forall_cons_2; [done|]. apply Forall_nil_2.
  - apply FOP_cons; [|apply FOP_cons; [apply Forall_nil_2 | apply FOP_nil]].
    apply Forall_cons_2; [done | apply Forall_nil_2].
Qed.

(** Every field reads back as the bytes stored in it. *)
Lemma write_fields_read fs : forall m f,
  fields_ok fs -> f ∈ fs -> read_bytes (write_fields m fs) f.1 (length f.2) = u8 <$> f.2.
Proof.
  induction fs as [|g fs IH]; intros m f [Hr Hp] Hin; [by apply elem_of_nil in Hin|].
  apply Forall_cons in Hr as [Hg Hr]. inversion_clear Hp as [|? ? Hgs Hp'].
  change (read_bytes (write_fields (write_bytes m g.1 g.2) fs) f.1 (length f.2) = u8 <$> f.2).
  apply elem_of_cons in Hin as [-> | Hin]; [|by apply IH].
  rewrite write_fields_read_other by done. by apply read_write_any.
Qed.

Lemma write_fields_holds m fs :
  fields_ok fs -> Forall (fun f => Forall is_u8 f.2) fs -> holds (write_fields m fs) fs.
Proof.
  intros Hok Hu. apply Forall_forall. intros f Hf. rewrite write_fields_read by done.
  rewrite Forall_forall in Hu. by apply fmap_u8, Hu.
Qed.

(** Fields are held as long as none of their bytes changes. *)
Lemma holds_same m m' fs :
  Forall (fun f => region f.1 (flen f)) fs -> holds m fs ->
  (forall x, in_fields fs x -> m' x = m x) -> holds m' fs.
Proof.
  intros Hr Hh Hs. unfold holds in *. rewrite Forall_forall in *. intros f Hf.
  rewrite <- (Hh f Hf) at 2. apply read_bytes_ext. intros i Hi.
  pose proof (Hr f Hf) as (? & ? & ?). unfold flen in *. rewrite !load8_region by mlia.
  apply Hs. exists f. split; [done|]. unfold inside, flen. lia.
Qed.

(** A block of words that is held. *)
Lemma holds_load32 m fs a ws i w :
  holds m fs -> (a, words_bytes ws) ∈ fs -> ws !! i = Some w ->
  load32 m (a + 4 * Z.of_nat i) = u32 w.
Proof.
  intros Hh Hin. apply load32_words. unfold holds in Hh. rewrite Forall_forall in Hh.
  specialize (Hh _ Hin). simpl in Hh. by rewrite length_words_bytes in Hh.
Qed.

End Statics.
