(* ===== verification/MemoryMap.v ===== *)
(** The EFI-style memory map CaribeBootX hands to the kernel
    (src/booter/hfsplus_boot.c: [page_down] .. [xnu_build_memory_map]).

    The theorems show that the map is an exact partition of usable RAM into
    consecutive page ranges, that it never overflows its 16-entry table, and
    that a page is reported as conventional (free) exactly when none of the
    reserved requests covers it. *)

From S2P Require Import Prelude.
From Stdlib Require Import Sorted.

Module MemoryMap.

Definition XNU_EFI_LOADER_CODE : Z := 1.

Definition XNU_EFI_LOADER_DATA : Z := 2.

Definition XNU_EFI_CONVENTIONAL : Z := 7.

Definition XNU_MEMORY_MAP_MAX : Z := 16.

Definition XNU_OPENSBI_BASE : Z := 0x80000000.

Definition XNU_OPENSBI_RESERVED : Z := 0x00200000.

(** [riscv32_xnu_memory_range_t] *)
Record mem_range := MemRange {
  mr_type : Z;
  mr_pad : Z;
  physical_start : Z;
  virtual_start : Z;
  number_of_pages : Z;
  attribute : Z
}.

(** [XnuReservedRange] *)
Record reserved_range := Reserved {
  rs_start : Z;
  rs_end : Z;
  rs_type : Z
}.

(** What [memzero] leaves in an array slot. *)
Definition zero_range : mem_range := MemRange 0 0 0 0 0 0.

Definition zero_reserved : reserved_range := Reserved 0 0 0.

#[global] Instance mem_range_inhabited : Inhabited mem_range := populate zero_range.

#[global] Instance reserved_range_inhabited : Inhabited reserved_range :=
  populate zero_reserved.

Definition page_down (value : Z) : Z := value &! not32 4095.

Definition page_up (value : Z) : Z := (value +! 4095) &! not32 4095.

(** Returns the array and [*count] after the call. *)
Definition xnu_memory_map_add (map : list mem_range) (count type start end_ : Z)
  : list mem_range * Z :=
  if (end_ <=? start) || (XNU_MEMORY_MAP_MAX <=? count) then (map, count)
  else (<[Z.to_nat count :=
           MemRange type 0 start start (Z.shiftr (end_ -! start) 12) 0]> map,
        count +! 1).

(** [for (i = *count; i > 0 && ranges[i-1].start > item.start; i--)
     ranges[i] = ranges[i-1]; ranges[i] = item;] *)
Fixpoint shift_insert (ranges : list reserved_range) (i : nat) (item : reserved_range)
  : list reserved_range :=
  match i with
  | O => <[O := item]> ranges
  | S j =>
      if rs_start item <? rs_start (ranges !!! j)
      then shift_insert (<[i := ranges !!! j]> ranges) j item
      else <[i := item]> ranges
  end.

Definition xnu_reserved_insert (ranges : list reserved_range) (count : Z)
    (mem_start mem_end base size type : Z) : list reserved_range * Z :=
  if (base =? 0) || (size =? 0) || (XNU_MEMORY_MAP_MAX <=? count) then (ranges, count)
  else
    let end_ := base +! size in
    if end_ <? base then (ranges, count)
    else
      let istart := page_down base in
      let iend := page_up end_ in
      if (iend <=? mem_start) || (mem_end <=? istart) then (ranges, count)
      else
        let istart := if istart <? mem_start then mem_start else istart in
        let iend := if mem_end <? iend then mem_end else iend in
        if iend <=? istart then (ranges, count)
        else (shift_insert ranges (Z.to_nat count) (Reserved istart iend type),
              count +! 1).

(** One iteration of the loop over the reserved ranges; the state is the map,
    [map_count] and [cursor]. *)
Definition map_step (st : list mem_range * Z * Z) (r : reserved_range)
  : list mem_range * Z * Z :=
  let '(map, n, cursor) := st in
  let res_start := rs_start r in
  let res_end := rs_end r in
  if res_end <=? cursor then st
  else
    let '(map, n) :=
      if cursor <? res_start
      then xnu_memory_map_add map n XNU_EFI_CONVENTIONAL cursor res_start
      else (map, n) in
    let res_start := if res_start <? cursor then cursor else res_start in
    let '(map, n) := xnu_memory_map_add map n (rs_type r) res_start res_end in
    (map, n, res_end).

(** [bootx_start] and [bootx_end] are the addresses of the linker symbols
    [__caribebootx_start] and [__caribebootx_end].  Returns [xnu_memory_map]
    and the returned count. *)
Definition xnu_build_memory_map (bootx_start bootx_end mem_base mem_size
    kernel_base kernel_size dtb_base dtb_size initrd_base initrd_size : Z)
  : list mem_range * Z :=
  let reserved := replicate 16 zero_reserved in
  let map := replicate 16 zero_range in
  let mem_start := page_up mem_base in
  let mem_end := page_down (mem_base +! mem_size) in
  if mem_end <=? mem_start then (map, 0)
  else
    let '(reserved, n) := xnu_reserved_insert reserved 0 mem_start mem_end
      XNU_OPENSBI_BASE XNU_OPENSBI_RESERVED XNU_EFI_LOADER_CODE in
    let '(reserved, n) := xnu_reserved_insert reserved n mem_start mem_end
      bootx_start (bootx_end -! bootx_start) XNU_EFI_LOADER_CODE in
    let '(reserved, n) := xnu_reserved_insert reserved n mem_start mem_end
      kernel_base kernel_size XNU_EFI_LOADER_CODE in
    let '(reserved, n) := xnu_reserved_insert reserved n mem_start mem_end
      dtb_base dtb_size XNU_EFI_LOADER_DATA in
    let '(reserved, n) := xnu_reserved_insert reserved n mem_start mem_end
      initrd_base initrd_size XNU_EFI_LOADER_DATA in
    let '(map, map_count, cursor) :=
      foldl map_step (map, 0, mem_start) (take (Z.to_nat n) reserved) in
    if cursor <? mem_end
    then xnu_memory_map_add map map_count XNU_EFI_CONVENTIONAL cursor mem_end
    else (map, map_count).

(** *** Specification vocabulary *)

(** A memory map entry as the address interval it describes. *)
Definition range_end (r : mem_range) : Z := physical_start r + 4096 * number_of_pages r.

(** The entries are consecutive, non-empty, page-granular and identity-mapped
    from [lo] to [hi]. *)
Fixpoint chain (lo : Z) (l : list mem_range) (hi : Z) : Prop :=
  match l with
  | [] => lo = hi
  | r :: l' => physical_start r = lo /\ virtual_start r = lo /\
      0 < number_of_pages r /\ chain (range_end r) l' hi
  end.

(** The type the map gives to address [x]. *)
Fixpoint type_at (l : list mem_range) (x : Z) : option Z :=
  match l with
  | [] => None
  | r :: l' => if (physical_start r <=? x) && (x <? range_end r) then Some (mr_type r)
               else type_at l' x
  end.

(** The requests of the builder, in the order of its calls. *)
Definition requests (bootx_start bootx_end kernel_base kernel_size dtb_base
    dtb_size initrd_base initrd_size : Z) : list (Z * Z * Z) :=
  [ (XNU_OPENSBI_BASE, XNU_OPENSBI_RESERVED, XNU_EFI_LOADER_CODE);
    (bootx_start, bootx_end -! bootx_start, XNU_EFI_LOADER_CODE);
    (kernel_base, kernel_size, XNU_EFI_LOADER_CODE);
    (dtb_base, dtb_size, XNU_EFI_LOADER_DATA);
    (initrd_base, initrd_size, XNU_EFI_LOADER_DATA) ].

(** The pages a request reserves: those its bytes touch, unless it is empty or
    its end leaves the 32-bit address space. *)
Definition request_covers (q : Z * Z * Z) (x : Z) : Prop :=
  let '(base, size, _) := q in
  base <> 0 /\ size <> 0 /\ base + size < 4294967296 /\
  page_down base <= x < page_up (base + size).

Definition request_type (q : Z * Z * Z) : Z := q.2.

(** [x] has type [t] according to a list of reserved ranges. *)
Definition classify (rs : list reserved_range) (x t : Z) : Prop :=
  (exists r, r ∈ rs /\ rs_start r <= x < rs_end r /\ t = rs_type r) \/
  (t = XNU_EFI_CONVENTIONAL /\ forall r, r ∈ rs -> ~ (rs_start r <= x < rs_end r)).

(** *** Page arithmetic *)

Lemma page_down_eq v : is_u32 v -> page_down v = v - v mod 4096.
Proof.
  intros Hv. unfold page_down. change 4095 with (Z.ones 12).
  by rewrite land_not32_ones by (done || lia).
Qed.

Lemma page_up_eq v : page_up v = (v +! 4095) - (v +! 4095) mod 4096.
Proof.
  unfold page_up. change 4095 with (Z.ones 12) at 2.
  by rewrite land_not32_ones by (apply u32_range || lia).
Qed.

Lemma page_down_aligned v : is_u32 v ->
  page_down v mod 4096 = 0 /\ 0 <= page_down v <= v /\ v - page_down v < 4096.
Proof. intros Hv. rewrite page_down_eq by done. mlia. Qed.

Lemma page_up_aligned v :
  page_up v mod 4096 = 0 /\ is_u32 (page_up v).
Proof. rewrite page_up_eq. mlia. Qed.

Lemma page_up_ge v : is_u32 v -> v <= 4294963200 -> v <= page_up v < v + 4096.
Proof. intros Hv ?. rewrite page_up_eq. mlia. Qed.

Lemma pages_between lo hi :
  0 <= lo < hi -> hi < 4294967296 -> lo mod 4096 = 0 -> hi mod 4096 = 0 ->
  lo + 4096 * Z.shiftr (hi -! lo) 12 = hi /\ 0 < Z.shiftr (hi -! lo) 12.
Proof.
  intros. rewrite Z.shiftr_div_pow2 by lia. change (2 ^ 12) with 4096.
  rewrite u32_small by mlia. lia.
Qed.

(** *** The sorted table of reserved ranges *)

Definition by_start (a b : reserved_range) : Prop := rs_start a <= rs_start b.

(** A range that fits in usable RAM. *)
Definition fits (ms me : Z) (r : reserved_range) : Prop :=
  ms <= rs_start r < rs_end r /\ rs_end r <= me /\
  rs_start r mod 4096 = 0 /\ rs_end r mod 4096 = 0.

Lemma shift_insert_split item i ranges :
  (i < length ranges)%nat ->
  exists l1 l2, take i ranges = l1 ++ l2 /\
    shift_insert ranges i item = l1 ++ item :: l2 ++ drop (S i) ranges /\
    Forall (fun r => rs_start item < rs_start r) l2 /\
    (forall r, last l1 = Some r -> rs_start r <= rs_start item).
Proof.
  revert ranges. induction i as [|j IH]; intros ranges Hi.
  - exists [], []. destruct ranges as [|r0 ranges]; [simpl in Hi; lia|].
    split_and!; done.
  - simpl shift_insert.
    assert (ranges !! j = Some (ranges !!! j)) as Hj
      by (apply list_lookup_lookup_total_lt; lia).
    case_if; zbool.
    + destruct (IH (<[S j := ranges !!! j]> ranges)) as (l1 & l2 & Ht & Hs & Hl2 & Hl1).
      { rewrite length_insert. lia. }
      rewrite take_insert_ge in Ht by lia. rewrite drop_insert_ge in Hs by lia.
      rewrite Nat.sub_diag in Hs.
      exists l1, (l2 ++ [ranges !!! j]). split_and!.
      * rewrite (take_S_r _ _ _ Hj), Ht, <- app_assoc. done.
      * rewrite Hs. rewrite <- app_assoc. simpl.
        destruct (lookup_lt_is_Some_2 ranges (S j) Hi) as [y Hy].
        rewrite (drop_S _ _ _ Hy). done.
      * apply Forall_app. split; [done|]. by constructor; [|constructor].
      * done.
    + exists (take (S j) ranges), []. rewrite app_nil_r. split_and!; try done.
      * by rewrite insert_take_drop by lia.
      * intros r Hr. rewrite (take_S_r _ _ _ Hj), last_snoc in Hr.
        injection Hr as <-. done.
Qed.

Lemma sorted_last_le l r item :
  StronglySorted by_start l -> last l = Some r -> rs_start r <= rs_start item ->
  Forall (fun y => by_start y item) l.
Proof.
  intros Hs Hl Hr. destruct (last_Some l r) as [H _]. destruct (H Hl) as [l' ->].
  clear H Hl. apply Forall_app. split; [|by constructor; [|constructor]].
  induction l' as [|y l' IH]; [done|]. inversion_clear Hs as [|? ? Hs' Hy].
  constructor; [|by apply IH]. apply Forall_app in Hy as [_ Hy].
  inversion_clear Hy. unfold by_start in *. lia.
Qed.

Lemma sorted_insert_mid l1 l2 item :
  StronglySorted by_start (l1 ++ l2) ->
  Forall (fun r => rs_start item < rs_start r) l2 ->
  (forall r, last l1 = Some r -> rs_start r <= rs_start item) ->
  StronglySorted by_start (l1 ++ item :: l2).
Proof.
  intros Hs Hl2 Hl1.
  assert (Forall (fun y => by_start y item) l1) as Hle.
  { destruct (last l1) as [r|] eqn:Hlast.
    - eapply sorted_last_le; [|done | by apply Hl1].
      clear -Hs. induction l1 as [|y l1 IH]; [constructor|].
      inversion_clear Hs as [|? ? Hs' Hy]. apply Forall_app in Hy as [Hy _].
      constructor; [by apply IH | done].
    - apply last_None in Hlast. subst. constructor. }
  clear Hl1. induction l1 as [|y l1 IH]; simpl in *.
  - constructor; [done|]. eapply Forall_impl; [exact Hl2|].
    unfold by_start. intros; simpl in *; lia.
  - inversion_clear Hs as [|? ? Hs' Hy]. inversion_clear Hle.
    constructor; [by apply IH|]. apply Forall_app in Hy as [??].
    apply Forall_app. split; [done|]. by constructor.
Qed.

(** The invariant of the table [ranges] with [n] used slots. *)
Definition table_ok (ms me : Z) (ranges : list reserved_range) (n : Z) : Prop :=
  length ranges = 16%nat /\ 0 <= n <= 16 /\
  StronglySorted by_start (take (Z.to_nat n) ranges) /\
  Forall (fits ms me) (take (Z.to_nat n) ranges).

Lemma table_insert ms me ranges n item :
  table_ok ms me ranges n -> n < 16 -> fits ms me item ->
  table_ok ms me (shift_insert ranges (Z.to_nat n) item) (n +! 1) /\
  forall r, r ∈ take (Z.to_nat (n +! 1)) (shift_insert ranges (Z.to_nat n) item) <->
            r = item \/ r ∈ take (Z.to_nat n) ranges.
Proof.
  intros (Hlen & Hn & Hs & Hf) Hlt Hit.
  destruct (shift_insert_split item (Z.to_nat n) ranges) as (l1 & l2 & Ht & Hsi & Hl2 & Hl1);
    [lia|].
  rewrite u32_small by mlia. rewrite Ht in Hs, Hf.
  assert (length (l1 ++ l2) = Z.to_nat n) as Hll
    by (rewrite <- Ht, length_take; lia).
  assert (take (Z.to_nat (n + 1)) (shift_insert ranges (Z.to_nat n) item)
          = l1 ++ item :: l2) as Htake.
  { rewrite Hsi. replace (l1 ++ item :: l2 ++ drop (S (Z.to_nat n)) ranges)
      with ((l1 ++ item :: l2) ++ drop (S (Z.to_nat n)) ranges)
      by (rewrite <- app_assoc; done).
    apply take_app_length'. rewrite length_app in *. simpl in *. lia. }
  unfold table_ok. rewrite Htake, Ht. split; [split_and!|].
  - rewrite Hsi. rewrite length_app in *. simpl. rewrite length_app, length_drop. lia.
  - lia.
  - lia.
  - by apply sorted_insert_mid.
  - apply Forall_app in Hf as [??]. apply Forall_app. split; [done|]. by constructor.
  - intros r. rewrite !elem_of_app, elem_of_cons. tauto.
Qed.

(** [x] lies in a range of type [t] of the list. *)
Definition held (l : list reserved_range) (x t : Z) : Prop :=
  exists r, r ∈ l /\ rs_start r <= x < rs_end r /\ rs_type r = t.

(** The bounds of usable RAM. *)
Definition ram_bounds (ms me : Z) : Prop :=
  0 <= ms < me /\ me < 4294967296 /\ ms mod 4096 = 0 /\ me mod 4096 = 0.

(** What one call of [xnu_reserved_insert] does to the table. *)
Definition inserted (ms me : Z) (q : Z * Z * Z) (before after : list reserved_range * Z)
  : Prop :=
  table_ok ms me after.1 after.2 /\ before.2 <= after.2 <= before.2 + 1 /\
  forall x t, ms <= x < me ->
    held (take (Z.to_nat after.2) after.1) x t <->
    held (take (Z.to_nat before.2) before.1) x t \/
    (request_covers q x /\ t = request_type q).

Lemma inserted_none ms me q ranges n :
  table_ok ms me ranges n ->
  (forall x, ms <= x < me -> ~ request_covers q x) ->
  inserted ms me q (ranges, n) (ranges, n).
Proof.
  intros Ht Hq. split_and!; simpl; try lia; [done|]. intros x t Hx.
  specialize (Hq x Hx). tauto.
Qed.

Lemma xnu_reserved_insert_ok ms me ranges n base size type :
  ram_bounds ms me -> table_ok ms me ranges n -> n < 16 ->
  is_u32 base -> is_u32 size ->
  inserted ms me (base, size, type) (ranges, n)
    (xnu_reserved_insert ranges n ms me base size type).
Proof.
  intros Hram Ht Hn Hb Hs. unfold xnu_reserved_insert, XNU_MEMORY_MAP_MAX.
  pose proof (page_down_aligned base Hb) as Hd.
  pose proof (page_up_aligned (base +! size)) as Hu.
  destruct Hram as (? & ? & ? & ?).
  assert (base + size < 4294967296 -> base +! size = base + size) as Hnw
    by (intros; apply u32_small; mlia).
  destruct (_ || _) eqn:E1.
  { apply inserted_none; [done|]. intros x Hx (? & ? & ?). zbool; lia. }
  destruct (_ <? base) eqn:E2; zbool.
  { apply inserted_none; [done|]. intros x Hx (? & ? & Hc & ?).
    rewrite (Hnw Hc) in E2. mlia. }
  assert (base + size < 4294967296) as Hlt by mlia. rewrite Hnw in * by done.
  destruct (_ || _) eqn:E3.
  { apply inserted_none; [done|]. intros x Hx (? & ? & ? & ?). zbool; lia. }
  zbool.
  set (a := if page_down base <? ms then ms else page_down base).
  set (b := if me <? page_up (base + size) then me else page_up (base + size)).
  assert (a = Z.max ms (page_down base) /\ b = Z.min me (page_up (base + size))) as [Ha Hbb]
    by (unfold a, b; zcases).
  clearbody a b. destruct (b <=? a) eqn:E4; zbool.
  { apply inserted_none; [done|]. intros x Hx (? & ? & ? & ?). lia. }
  destruct (table_insert ms me ranges n (Reserved a b type)) as [Hok Hin];
    [done | lia | unfold fits; simpl; lia |].
  assert (n +! 1 = n + 1) as Hn1 by (apply u32_small; unfold table_ok in Ht; mlia).
  split_and!; simpl; [done | lia .. |].
  intros x t Hx. unfold held. setoid_rewrite Hin. split.
  - intros (r & [-> | Hr] & Hr1 & <-); simpl in *; [right | left; eauto 10].
    unfold request_type. simpl. split_and!; done || lia.
  - intros [(r & Hr & ? & ?) | ((_ & _ & _ & ?) & ->)]; [eauto 10|].
    eexists. split; [by left|]. simpl. lia.
Qed.

(** *** Emitting the map *)

Lemma chain_snoc lo l r hi :
  chain lo l (physical_start r) -> virtual_start r = physical_start r ->
  0 < number_of_pages r -> range_end r = hi -> chain lo (l ++ [r]) hi.
Proof.
  revert lo. induction l as [|y l IH]; intros lo; simpl.
  - intros <- ??<-. done.
  - intros (? & ? & ? & ?) ???. split_and!; auto.
Qed.

Lemma chain_le lo l hi : chain lo l hi -> lo <= hi.
Proof.
  revert lo. induction l as [|y l IH]; intros lo; simpl; [lia|].
  intros (? & ? & ? & Hc). apply IH in Hc. unfold range_end in *. lia.
Qed.

Lemma type_at_above lo l hi x : chain lo l hi -> hi <= x -> type_at l x = None.
Proof.
  revert lo. induction l as [|y l IH]; intros lo; simpl; [done|].
  intros (? & ? & ? & Hc) Hx. pose proof (chain_le _ _ _ Hc). unfold range_end in *. zcases; eauto.
Qed.

Lemma type_at_app l1 l2 x :
  type_at (l1 ++ l2) x =
    match type_at l1 x with Some t => Some t | None => type_at l2 x end.
Proof. induction l1 as [|y l1 IH]; simpl; [done|]. by case_if. Qed.

(** The map covers [ms, cursor) and classifies every address there. *)
Definition mapped (ms : Z) (rs : list reserved_range) (map : list mem_range) (n cursor : Z)
  : Prop :=
  length map = 16%nat /\ 0 <= n /\ cursor mod 4096 = 0 /\
  chain ms (take (Z.to_nat n) map) cursor /\
  forall x, ms <= x < cursor ->
    exists t, type_at (take (Z.to_nat n) map) x = Some t /\ classify rs x t.

Lemma mapped_add ms rs map n lo hi type :
  0 <= ms -> mapped ms rs map n lo -> n < 16 -> lo < hi < 4294967296 -> hi mod 4096 = 0 ->
  (forall x, lo <= x < hi -> classify rs x type) ->
  let st := xnu_memory_map_add map n type lo hi in
  st.2 = n + 1 /\ mapped ms rs st.1 st.2 hi.
Proof.
  intros Hms (Hlen & Hn & Hal & Hc & Hx) Hlt Hlh Hhi Hcl.
  unfold xnu_memory_map_add, XNU_MEMORY_MAP_MAX. case_if; zbool; try lia. simpl.
  pose proof (chain_le _ _ _ Hc).
  rewrite (u32_small (n + 1)) by mlia. split; [done|].
  destruct (pages_between lo hi) as [Hp1 Hp2]; [lia.. | done | done |].
  set (r := MemRange _ _ _ _ _ _).
  assert (take (Z.to_nat (n + 1)) (<[Z.to_nat n := r]> map)
          = take (Z.to_nat n) map ++ [r]) as Htk.
  { replace (Z.to_nat (n + 1)) with (S (Z.to_nat n)) by lia.
    rewrite (take_S_r _ _ r).
    - by rewrite take_insert_ge by lia.
    - apply list_lookup_insert_eq. lia. }
  unfold mapped. rewrite Htk. split_and!; [by rewrite length_insert | lia | done | |].
  - apply chain_snoc; simpl; done.
  - intros x Hxx. rewrite type_at_app. destruct (decide (x < lo)).
    + destruct (Hx x) as (t & -> & Ht); [lia|]. eauto.
    + rewrite (type_at_above _ _ _ x Hc) by lia. exists type. simpl.
      unfold range_end. simpl. split; [|apply Hcl; lia]. zcases.
Qed.

(** The loop invariant after the ranges [done], with [todo] left. *)
Definition loop_inv (ms me : Z) (done todo : list reserved_range)
    (st : list mem_range * Z * Z) : Prop :=
  let '(map, n, cursor) := st in
  mapped ms (done ++ todo) map n cursor /\ ms <= cursor <= me /\
  n <= 2 * Z.of_nat (length done) /\
  forall r, r ∈ done -> rs_end r <= cursor.

Lemma map_step_inv ms me done r todo st :
  ram_bounds ms me ->
  StronglySorted by_start (done ++ r :: todo) ->
  Forall (fits ms me) (done ++ r :: todo) ->
  (length (done ++ r :: todo) <= 7)%nat ->
  loop_inv ms me done (r :: todo) st ->
  loop_inv ms me (done ++ [r]) todo (map_step st r).
Proof.
  intros Hram Hs Hf Hlen. destruct st as [[map n] cursor].
  intros (Hm & Hcur & Hn & Hd).
  rewrite length_app in Hlen. simpl in Hlen. destruct Hram as (? & ? & ? & ?).
  assert (fits ms me r) as (? & ? & ? & ?) by (apply Forall_app in Hf as [_ Hf]; by inversion Hf).
  assert (forall y, y ∈ todo -> rs_start r <= rs_start y) as Htodo.
  { clear -Hs. induction done as [|d done IH]; inversion_clear Hs as [|? ? Hs' Hy].
    - intros y Hin. rewrite Forall_forall in Hy. by apply Hy.
    - by apply IH. }
  assert (forall y, y ∈ done ++ [r] <-> y ∈ done \/ y = r) as Hdr.
  { intros y. rewrite elem_of_app, list_elem_of_singleton. done. }
  unfold map_step. destruct (_ <=? cursor) eqn:E; zbool.
  { split_and!; [by rewrite <- app_assoc | lia | lia | rewrite length_app; simpl; lia |].
    intros y [Hy | ->]%Hdr; [by apply Hd | lia]. }
  set (st1 := if cursor <? rs_start r then _ else _).
  assert (mapped ms (done ++ r :: todo) st1.1 st1.2 (Z.max cursor (rs_start r)) /\
          st1.2 <= n + 1) as [Hm1 Hn1].
  { subst st1. destruct (cursor <? rs_start r) eqn:E1; zbool.
    - destruct (mapped_add ms (done ++ r :: todo) map n cursor (rs_start r)
        XNU_EFI_CONVENTIONAL) as [Hn' Hm']; try done; try lia.
      + intros x Hx. right. split; [done|].
        intros y [Hy | [-> | Hy]%elem_of_cons]%elem_of_app ?;
          [apply Hd in Hy; lia | lia | apply Htodo in Hy; lia].
      + rewrite Z.max_r by lia. split; [done | lia].
    - rewrite Z.max_l by lia. split; [done | simpl; lia]. }
  destruct st1 as [map1 n1]. simpl in Hm1, Hn1.
  assert ((if rs_start r <? cursor then cursor else rs_start r) = Z.max cursor (rs_start r))
    as -> by zcases.
  destruct (mapped_add ms (done ++ r :: todo) map1 n1 (Z.max cursor (rs_start r)) (rs_end r)
    (rs_type r)) as [Hn2 Hm2]; try done; try lia.
  { intros x Hx. left. exists r. split; [|split; [lia | done]].
    rewrite elem_of_app, elem_of_cons. auto. }
  destruct (xnu_memory_map_add _ _ _ _ _) as [map2 n2]. simpl in Hn2, Hm2.
  split_and!; [by rewrite <- app_assoc | lia | lia | rewrite length_app; simpl; lia |].
  intros y [Hy | ->]%Hdr; [apply Hd in Hy; lia | lia].
Qed.

Lemma map_loop_inv ms me todo : forall done st,
  ram_bounds ms me ->
  StronglySorted by_start (done ++ todo) ->
  Forall (fits ms me) (done ++ todo) ->
  (length (done ++ todo) <= 7)%nat ->
  loop_inv ms me done todo st ->
  loop_inv ms me (done ++ todo) [] (foldl map_step st todo).
Proof.
  induction todo as [|r todo IH]; intros done st Hram Hs Hf Hlen Hinv; simpl.
  - by rewrite app_nil_r.
  - replace (done ++ r :: todo) with ((done ++ [r]) ++ todo) in * by (by rewrite <- app_assoc).
    apply IH; try done. rewrite <- app_assoc in *. by apply map_step_inv.
Qed.

(** *** The whole builder *)

Definition insert_all (ms me : Z) (qs : list (Z * Z * Z)) (st : list reserved_range * Z)
  : list reserved_range * Z :=
  foldl (fun st q => xnu_reserved_insert st.1 st.2 ms me q.1.1 q.1.2 q.2) st qs.

Lemma insert_all_ok ms me qs : forall st,
  ram_bounds ms me -> table_ok ms me st.1 st.2 ->
  st.2 + Z.of_nat (length qs) <= 16 ->
  Forall (fun q => is_u32 q.1.1 /\ is_u32 q.1.2) qs ->
  let st' := insert_all ms me qs st in
  table_ok ms me st'.1 st'.2 /\ st'.2 <= st.2 + Z.of_nat (length qs) /\
  forall x t, ms <= x < me ->
    held (take (Z.to_nat st'.2) st'.1) x t <->
    held (take (Z.to_nat st.2) st.1) x t \/
    exists q, q ∈ qs /\ request_covers q x /\ t = request_type q.
Proof.
  induction qs as [|[[b s] ty] qs IH]; intros [ranges n] Hram Ht Hn Hq; simpl in *.
  - split_and!; [done | lia |]. intros x t Hx. split; [by left|].
    intros [?|(q & Hin & _)]; [done|]. by apply elem_of_nil in Hin.
  - apply Forall_cons in Hq as [[Hb Hs] Hq']. simpl in Hb, Hs.
    destruct (xnu_reserved_insert_ok ms me ranges n b s ty) as (Hok & Hn' & Hh);
      try done; [lia|]. simpl in Hn'.
    destruct (IH (xnu_reserved_insert ranges n ms me b s ty)) as (Hok' & Hn'' & Hh');
      try done; [lia|].
    split_and!; [done | lia |]. intros x t Hx. rewrite (Hh' x t Hx), (Hh x t Hx).
    setoid_rewrite elem_of_cons. simpl. split.
    + intros [[?|?]|(q & ? & ?)]; [by left | right; eauto | right; eauto].
    + intros [?|(q & [->|?] & ?)]; [by do 2 left | by left; right | right; eauto].
Qed.

Lemma build_memory_map_unfold bs be mb msz kb ks db ds ib isz :
  let ms := page_up mb in
  let me := page_down (mb +! msz) in
  let rs := insert_all ms me (requests bs be kb ks db ds ib isz)
              (replicate 16 zero_reserved, 0) in
  ms < me ->
  xnu_build_memory_map bs be mb msz kb ks db ds ib isz =
    let '(map, n, cursor) :=
      foldl map_step (replicate 16 zero_range, 0, ms) (take (Z.to_nat rs.2) rs.1) in
    if cursor <? me then xnu_memory_map_add map n XNU_EFI_CONVENTIONAL cursor me
    else (map, n).
Proof.
  intros ms me rs Hlt. unfold xnu_build_memory_map. fold ms me.
  destruct (me <=? ms) eqn:E; zbool; [lia|].
  subst rs. unfold insert_all, requests. cbn [foldl fst snd].
  repeat (match goal with
          | |- context [let '(_, _) := xnu_reserved_insert ?a ?b ?c ?d ?e ?f ?g in _] =>
              destruct (xnu_reserved_insert a b c d e f g) as [??]
          end; cbn [fst snd]). done.
Qed.

Lemma held_classify rs x t :
  classify rs x t ->
  held rs x t \/ (t = XNU_EFI_CONVENTIONAL /\ forall t', ~ held rs x t').
Proof.
  intros [(r & ? & ? & ->) | [-> Hno]]; [left; by exists r|].
  right. split; [done|]. intros t' (r & ? & ? & ?). by eapply Hno.
Qed.

Section Builder.
Context (bs be mb msz kb ks db ds ib isz : Z).
Context (Hmb : is_u32 mb).
Context (Hreq : Forall is_u32 [bs; be; kb; ks; db; ds; ib; isz]).

Let ms := page_up mb.
Let me := page_down (mb +! msz).
Let qs := requests bs be kb ks db ds ib isz.
Let result := xnu_build_memory_map bs be mb msz kb ks db ds ib isz.

Lemma builder_bounds : ms < me -> ram_bounds ms me.
Proof using Hmb.
  intros. destruct (page_up_aligned mb) as [? Hu].
  destruct (page_down_aligned (mb +! msz)) as (? & ? & ?); [apply u32_range|].
  pose proof (u32_range (mb + msz)). unfold ram_bounds, ms, me in *. mlia.
Qed.

Lemma requests_u32 : Forall (fun q => is_u32 q.1.1 /\ is_u32 q.1.2) qs.
Proof using Hreq.
  unfold qs, requests. clear -Hreq. rewrite !Forall_cons in *. simpl.
  destruct_and!. unfold XNU_OPENSBI_BASE, XNU_OPENSBI_RESERVED.
  split_and!; try done; try apply u32_range; mlia.
Qed.

(** Everything known about the builder's result. *)
Lemma builder_spec :
  ms < me -> exists rs,
    mapped ms rs result.1 result.2 me /\ result.2 <= 11 /\
    forall x t, ms <= x < me ->
      held rs x t <-> exists q, q ∈ qs /\ request_covers q x /\ t = request_type q.
Proof using Hmb Hreq.
  intros Hlt. pose proof (builder_bounds Hlt) as Hram.
  unfold result. rewrite build_memory_map_unfold by done. fold ms me qs.
  destruct (insert_all_ok ms me qs (replicate 16 zero_reserved, 0)) as ((Hl & Hn & Hs & Hf) & Hle & Hh);
    [done | | simpl; lia | apply requests_u32 |].
  { split_and!; simpl; try done; constructor. }
  set (rs := insert_all ms me qs _) in *. simpl in Hle.
  set (l := take (Z.to_nat rs.2) rs.1) in *.
  assert (length l <= 5)%nat as Hlen by (unfold l; rewrite length_take; lia).
  pose proof (map_loop_inv ms me l [] (replicate 16 zero_range, 0, ms) Hram Hs Hf) as Hinv.
  destruct (foldl map_step _ l) as [[map n] cursor].
  destruct Hinv as (Hm & Hcur & Hn2 & Hd); [simpl; lia | |].
  { unfold ram_bounds in Hram.
    split_and!; [split_and!; simpl; try done; intros; lia | simpl; lia .. |].
    intros r Hr. by apply elem_of_nil in Hr. }
  rewrite app_nil_r in Hm. simpl in Hm, Hd, Hn2.
  exists l. destruct (cursor <? me) eqn:E; zbool.
  - destruct (mapped_add ms l map n cursor me XNU_EFI_CONVENTIONAL) as [He Hm'];
      unfold ram_bounds in Hram; try done; try lia.
    { intros x Hx. right. split; [done|]. intros r Hr ?. apply Hd in Hr. lia. }
    split_and!; [done | lia |]. intros x t Hx. rewrite (Hh x t Hx). split; [|by right].
    intros [(r & Hr & _)|?]; [by apply elem_of_nil in Hr | done].
  - assert (cursor = me) as -> by lia. split_and!; simpl; [done | lia |].
    intros x t Hx. rewrite (Hh x t Hx). split; [|by right].
    intros [(r & Hr & _)|?]; [by apply elem_of_nil in Hr | done].
Qed.
End Builder.

(** C12: for every layout of the machine the booter's map is an exact partition
    of the usable RAM: starting at the first whole page, the entries are
    consecutive, non-empty, page-granular and identity-mapped, and they end at
    the last whole page.  The 16-entry table is never truncated. *)
Theorem xnu_build_memory_map_partition
    (bs be mb msz kb ks db ds ib isz : Z)
    (Hmb : is_u32 mb) (Hreq : Forall is_u32 [bs; be; kb; ks; db; ds; ib; isz])
    (Hram : page_up mb < page_down (mb +! msz)) :
  let '(map, n) := xnu_build_memory_map bs be mb msz kb ks db ds ib isz in
  length map = 16%nat /\ 0 < n <= 11 /\
  chain (page_up mb) (take (Z.to_nat n) map) (page_down (mb +! msz)).
Proof.
  destruct (builder_spec bs be mb msz kb ks db ds ib isz Hmb Hreq Hram)
    as (rs & (Hl & Hn & _ & Hc & _) & Hle & _).
  destruct (xnu_build_memory_map _ _ _ _ _ _ _ _ _ _) as [map n]. simpl in *.
  split_and!; try done. destruct (decide (n = 0)) as [->|]; [|lia].
  simpl in Hc. lia.
Qed.

(** The values of a boot on QEMU virt with 256 MiB: CaribeBootX at
    0x80200000, the kernel at 0x80400000, the DTB near the top of RAM and an
    initrd at 0x84000000. *)
Lemma xnu_build_memory_map_partition_witness :
  let '(map, n) := xnu_build_memory_map 0x80200000 0x80240000 0x80000000 0x10000000
    0x80400000 945004 0x8fe00000 5992 0x84000000 100000 in
  length map = 16%nat /\ 0 < n <= 11 /\
  chain (page_up 0x80000000) (take (Z.to_nat n) map)
    (page_down (0x80000000 +! 0x10000000)).
Proof.
  apply xnu_build_memory_map_partition; [mlia | u32_consts | by vm_compute].
Defined.

(** C13: no reserved page is ever offered as free memory.  Every address of
    usable RAM has a type; the type is that of a reserved request covering the
    page when there is one (OpenSBI, CaribeBootX itself, the kernel, the DTB,
    the initrd), and Conventional exactly when there is none. *)
Theorem xnu_build_memory_map_types
    (bs be mb msz kb ks db ds ib isz : Z) (x : Z)
    (Hmb : is_u32 mb) (Hreq : Forall is_u32 [bs; be; kb; ks; db; ds; ib; isz])
    (Hx : page_up mb <= x < page_down (mb +! msz)) :
  let '(map, n) := xnu_build_memory_map bs be mb msz kb ks db ds ib isz in
  let qs := requests bs be kb ks db ds ib isz in
  exists t, type_at (take (Z.to_nat n) map) x = Some t /\
    ((exists q, q ∈ qs /\ request_covers q x /\ t = request_type q) \/
     (t = XNU_EFI_CONVENTIONAL /\ forall q, q ∈ qs -> ~ request_covers q x)).
Proof.
  destruct (builder_spec bs be mb msz kb ks db ds ib isz Hmb Hreq ltac:(lia))
    as (rs & (_ & _ & _ & _ & Ht) & _ & Hh).
  destruct (xnu_build_memory_map _ _ _ _ _ _ _ _ _ _) as [map n]. simpl in *.
  destruct (Ht x Hx) as (t & Hty & Hcl). exists t. split; [done|].
  destruct (held_classify _ _ _ Hcl) as [Hheld | [-> Hno]].
  - left. by apply Hh.
  - right. split; [done|]. intros q Hq Hc.
    apply (Hno (request_type q)). apply Hh; eauto.
Qed.

Lemma xnu_build_memory_map_types_witness :
  let '(map, n) := xnu_build_memory_map 0x80200000 0x80240000 0x80000000 0x10000000
    0x80400000 945004 0x8fe00000 5992 0x84000000 100000 in
  let qs := requests 0x80200000 0x80240000 0x80400000 945004 0x8fe00000 5992
    0x84000000 100000 in
  exists t, type_at (take (Z.to_nat n) map) 0x80400010 = Some t /\
    ((exists q, q ∈ qs /\ request_covers q 0x80400010 /\ t = request_type q) \/
     (t = XNU_EFI_CONVENTIONAL /\ forall q, q ∈ qs -> ~ request_covers q 0x80400010)).
Proof.
  apply (xnu_build_memory_map_types 0x80200000 0x80240000 0x80000000 0x10000000
    0x80400000 945004 0x8fe00000 5992 0x84000000 100000 0x80400010);
    [mlia | u32_consts | split; by vm_compute].
Defined.

End MemoryMap.
