(* ===== verification/Mmu.v ===== *)
(** Sv32 page tables: the identity map CaribeBootX installs
    (src/booter/mmu_sv32.c, src/include/uapi/mmu.h) and the remap the stage-0
    kernel installs before entering U-mode (src/kernel_xnu_entry.c,
    [stage0_install_umode_mmu]), and the table of src/sv32_map_identity_256mb.c.

    [sv32_translate] is the architecture's one-level (4 MiB superpage) walk; the
    theorems give the exact translation function each table implements. *)

From S2P Require Import Prelude.

Module Sv32.

(** *** PTE bits (mmu.h) *)

Definition PTE_V : Z := 0x001.

Definition PTE_R : Z := 0x002.

Definition PTE_W : Z := 0x004.

Definition PTE_X : Z := 0x008.

Definition PTE_U : Z := 0x010.

Definition PTE_G : Z := 0x020.

Definition PTE_A : Z := 0x040.

Definition PTE_D : Z := 0x080.

(** *** The architecture: an Sv32 root table whose entries are leaves *)

Inductive access := Fetch | Load | Store.

#[global] Instance access_eq_dec : EqDecision access.
Proof. solve_decision. Defined.

Inductive mode := Supervisor (sum : bool) | User.

(** Does the leaf [pte] grant [acc] in mode [md]?  Bits 1, 2, 3, 4, 6 and 7 are
    R, W, X, U, A and D; S-mode never fetches from a U page and reads or writes
    one only when sstatus.SUM is set. *)
Definition pte_grants (md : mode) (acc : access) (pte : Z) : bool :=
  (match acc with
   | Fetch => Z.testbit pte 3
   | Load => Z.testbit pte 1
   | Store => Z.testbit pte 2 && Z.testbit pte 7
   end) && Z.testbit pte 6 &&
  (match md with
   | User => Z.testbit pte 4
   | Supervisor sum =>
       negb (Z.testbit pte 4) || (sum && negb (bool_decide (acc = Fetch)))
   end).

(** The physical address of [va], or [None] for a page fault.  A valid entry
    without R and X is a pointer to a second-level table; neither program
    creates one, and the walk below treats it as a fault. *)
Definition sv32_translate (l1 : list Z) (md : mode) (acc : access) (va : Z) : option Z :=
  let pte := l1 !!! Z.to_nat (Z.shiftr va 22) in
  if negb (Z.testbit pte 0) || (negb (Z.testbit pte 1) && Z.testbit pte 2) then None
  else if negb (Z.testbit pte 1) && negb (Z.testbit pte 3) then None
  else if negb (Z.land (Z.shiftr pte 10) 0x3ff =? 0) then None
  else if pte_grants md acc pte
  then Some (4194304 * Z.shiftr pte 20 + va mod 4194304)
  else None.

(** *** Shared code: superpage entries and the RAM loop *)

(** mmu.h [pte_super]; kernel_xnu_entry.c [pte_super_stage0] is the same
    expression with the associativity of [|] changed. *)
Definition pte_super (pa flags : Z) : Z :=
  ((Z.shiftr pa 12) <<! 10) |! (flags |! PTE_V).

Definition pte_super_stage0 (pa flags : Z) : Z :=
  ((Z.shiftr pa 12) <<! 10) |! flags |! PTE_V.

(** [idx = (va >> 22) & 0x3FF; l1[idx] = pte] *)
Definition set_super (l1 : list Z) (va pte : Z) : list Z :=
  <[Z.to_nat (Z.shiftr va 22 &! 0x3FF) := pte]> l1.

(** [for (; va < end; va += 0x400000) l1[...] = pte_of(va);] with the 32-bit
    wrap of [va]; [None] when the fuel runs out. *)
Fixpoint ram_loop (pte_of : Z -> Z) (fuel : nat) (l1 : list Z) (va end_ : Z)
  : option (list Z) :=
  if va <? end_ then
    match fuel with
    | O => None
    | S fuel => ram_loop pte_of fuel (set_super l1 va (pte_of va)) (va +! 0x400000) end_
    end
  else Some l1.

(** A root table has 1024 entries; a loop that terminates visits at most all of
    them. *)
Definition ram_fuel : nat := 1024.

(** *** mmu_sv32.c *)

Definition flags_ram : Z := PTE_R |! PTE_W |! PTE_X |! PTE_A |! PTE_D |! PTE_G.

Definition flags_io : Z := PTE_R |! PTE_W |! PTE_A |! PTE_D |! PTE_G.

Definition map_mmio (l1 : list Z) (base : Z) : list Z :=
  if base =? 0 then l1 else set_super l1 base (pte_super base flags_io).

Definition mmu_sv32_install_identity (ram_start ram_size_mb mmio0 mmio1 mmio2 : Z)
  : option (list Z) :=
  let l1 := replicate 1024 0 in
  let end_ := ram_start +! (ram_size_mb <<! 20) in
  l1 ← ram_loop (fun va => pte_super va flags_ram) ram_fuel l1 ram_start end_;
  Some (foldl map_mmio l1 [mmio0; mmio1; mmio2]).

(** The value written to satp; [l1] is the address of the table. *)
Definition mmu_sv32_enable (l1 : Z) : Z := (1 <<! 31) |! Z.shiftr l1 12.

(** *** kernel_xnu_entry.c *)

Definition XNU_STAGE0_USER_BASE : Z := 0x81000000.

Definition XNU_STAGE0_USER_REGION_SIZE : Z := 0x00400000.

Definition kernel_flags : Z := PTE_R |! PTE_W |! PTE_X |! PTE_A |! PTE_D |! PTE_G.

Definition user_flags : Z := kernel_flags |! PTE_U.

Definition io_flags : Z := PTE_R |! PTE_W |! PTE_A |! PTE_D |! PTE_G.

Definition stage0_map_super (l1 : list Z) (va pa flags : Z) : list Z :=
  set_super l1 va (pte_super_stage0 pa flags).

(** The table built from [g_info.mem_base], [mem_size], [plic_base] and
    [aclint_base]. *)
Definition stage0_install_umode_mmu (mem_base mem_size plic_base aclint_base : Z)
  : option (list Z) :=
  let ram_end := mem_base +! mem_size in
  l1 ← ram_loop (fun va => pte_super_stage0 va
         (if va =? XNU_STAGE0_USER_BASE then user_flags else kernel_flags))
         ram_fuel (replicate 1024 0) mem_base ram_end;
  let l1 := stage0_map_super l1 0x10000000 0x10000000 io_flags in
  let l1 := stage0_map_super l1 plic_base plic_base io_flags in
  Some (stage0_map_super l1 aclint_base aclint_base io_flags).

(** *** sv32_map_identity_256mb.c *)

(** The entry for the [i]-th superpage of the bank at 0x80000000. *)
Definition bank_pte (i : Z) : Z :=
  let base := 0x80000000 +! (i <<! 22) in
  let ppn1 := Z.shiftr base 22 &! 0x3FF in
  (ppn1 <<! 20) |! PTE_V |! PTE_R |! PTE_W |! PTE_X.

(** [for (i = lo; i < lo + n; i++) l1_tbl[i] = f(i);] *)
Fixpoint fill_loop (f : Z -> Z) (n lo : nat) (l1_tbl : list Z) : list Z :=
  match n with
  | O => l1_tbl
  | S n => fill_loop f n (S lo) (<[lo := f (Z.of_nat lo)]> l1_tbl)
  end.

Definition sv32_map_identity_256mb (l1_tbl : list Z) : list Z :=
  fill_loop (fun _ => 0) 960 64 (fill_loop bank_pte 64 0 l1_tbl).

(** *** Superpage entries decode to themselves *)

(** The superpage number of an address. *)
Definition super (a : Z) : Z := a / 4194304.

Lemma super_shiftr a : Z.shiftr a 22 = super a.
Proof. by rewrite Z.shiftr_div_pow2 by lia. Qed.

Lemma super_index a : is_u32 a -> Z.shiftr a 22 &! 0x3FF = super a.
Proof.
  intros. rewrite super_shiftr. change 0x3FF with (Z.ones 10).
  rewrite Z.land_ones by lia. apply Z.mod_small. unfold super. mlia.
Qed.

(** A leaf for superpage [k] with flag byte [f] (which has V set). *)
Definition leaf (k f : Z) : Z := 1048576 * k + f.

Lemma pte_super_leaf pa flags :
  is_u32 pa -> pa mod 4194304 = 0 -> 0 <= flags |! PTE_V < 1024 ->
  pte_super pa flags = leaf (super pa) (flags |! PTE_V).
Proof.
  intros Hpa Hal Hf. unfold pte_super, leaf.
  assert (Z.shiftl (Z.shiftr pa 12) 10 = 1048576 * super pa) as Hs.
  { rewrite Z.shiftl_mul_pow2, Z.shiftr_div_pow2 by lia. unfold super.
    change (2 ^ 12) with 4096. change (2 ^ 10) with 1024. lia. }
  rewrite u32_small by (rewrite Hs; unfold super; mlia).
  rewrite lor_shiftl_add, Hs by (change (2 ^ 10) with 1024; lia). done.
Qed.

Lemma pte_super_stage0_eq pa flags : pte_super_stage0 pa flags = pte_super pa flags.
Proof. unfold pte_super, pte_super_stage0. by rewrite Z.lor_assoc. Qed.

Lemma leaf_testbit k f i :
  0 <= f < 1024 -> 0 <= i < 20 -> Z.testbit (leaf k f) i = Z.testbit f i.
Proof.
  intros Hf Hi. rewrite <- (Z.mod_pow2_bits_low (leaf k f) 20 i) by lia.
  f_equal. unfold leaf. change (2 ^ 20) with 1048576. lia.
Qed.

Lemma leaf_ppn0 k f : 0 <= f < 1024 -> Z.land (Z.shiftr (leaf k f) 10) 0x3ff = 0.
Proof.
  intros. change 0x3ff with (Z.ones 10).
  rewrite Z.land_ones, Z.shiftr_div_pow2 by lia. unfold leaf.
  change (2 ^ 10) with 1024. lia.
Qed.

Lemma leaf_ppn1 k f : 0 <= f < 1024 -> Z.shiftr (leaf k f) 20 = k.
Proof.
  intros. rewrite Z.shiftr_div_pow2 by lia. unfold leaf. change (2 ^ 20) with 1048576. lia.
Qed.

(** Translation through a leaf with readable flags. *)
Lemma translate_leaf l1 md acc va f :
  is_u32 va -> l1 !!! Z.to_nat (super va) = leaf (super va) f ->
  0 <= f < 1024 -> Z.testbit f 0 = true -> Z.testbit f 1 = true ->
  sv32_translate l1 md acc va = if pte_grants md acc f then Some va else None.
Proof.
  intros Hva Hl Hf H0 H1. unfold sv32_translate. rewrite super_shiftr, Hl.
  rewrite leaf_ppn0, leaf_ppn1 by done.
  replace (pte_grants md acc (leaf (super va) f)) with (pte_grants md acc f)
    by (unfold pte_grants; by rewrite !leaf_testbit by lia).
  rewrite !leaf_testbit, H0, H1 by lia. simpl. case_if; [|done].
  f_equal. unfold super. lia.
Qed.

Lemma translate_invalid l1 md acc va :
  l1 !!! Z.to_nat (super va) = 0 -> sv32_translate l1 md acc va = None.
Proof. intros Hl. unfold sv32_translate. by rewrite super_shiftr, Hl. Qed.

(** *** The tables the two programs build *)

Lemma set_super_lookup l1 va pte k :
  length l1 = 1024%nat -> is_u32 va -> 0 <= k < 1024 ->
  set_super l1 va pte !!! Z.to_nat k = if k =? super va then pte else l1 !!! Z.to_nat k.
Proof.
  intros Hl Hva Hk. unfold set_super. rewrite super_index by done.
  assert (0 <= super va < 1024) by (unfold super; mlia).
  case_if; zbool.
  - subst. apply list_lookup_total_insert_eq. lia.
  - apply list_lookup_total_insert_ne. lia.
Qed.

Lemma length_set_super l1 va pte : length (set_super l1 va pte) = length l1.
Proof. apply length_insert. Qed.

(** The loop terminates and fills exactly the superpages of [va, end_). *)
Lemma ram_loop_spec pte_of fuel : forall l1 va end_,
  length l1 = 1024%nat -> is_u32 va -> va mod 4194304 = 0 ->
  end_ <= 0xffc00000 -> (end_ - va) / 4194304 + 1 <= Z.of_nat fuel ->
  exists l', ram_loop pte_of fuel l1 va end_ = Some l' /\ length l' = 1024%nat /\
    forall k, 0 <= k < 1024 ->
      l' !!! Z.to_nat k =
        if (super va <=? k) && (4194304 * k <? end_) then pte_of (4194304 * k)
        else l1 !!! Z.to_nat k.
Proof.
  unfold super. induction fuel as [|fuel IH]; intros l1 va end_ Hl Hva Hal He Hf;
    simpl ram_loop; destruct (va <? end_) eqn:E; zbool; try lia.
  - exists l1. split_and!; try done. intros k Hk. zcases.
  - rewrite u32_small by mlia.
    destruct (IH (set_super l1 va (pte_of va)) (va + 4194304) end_)
      as (l' & -> & Hl' & Hk'); try done; try mlia.
    { by rewrite length_set_super. }
    exists l'. split_and!; try done. intros k Hk. rewrite Hk' by done.
    rewrite set_super_lookup by done. unfold super.
    zcases; try (f_equal; lia).
  - exists l1. split_and!; try done. intros k Hk. zcases.
Qed.

(** The identity translation with a list of device superpages on top of RAM. *)
Definition identity_spec (ram_start ram_end : Z) (mmios : list Z) (acc : access) (va : Z)
  : option Z :=
  if existsb (fun b => negb (b =? 0) && (super va =? super b)) mmios
  then (if bool_decide (acc = Fetch) then None else Some va)
  else if (ram_start <=? va) && (va <? ram_end) then Some va else None.

Definition mmio_ok (b : Z) : Prop := is_u32 b /\ b mod 4194304 = 0.

Lemma map_mmio_lookup mmios : forall l1 k,
  length l1 = 1024%nat -> Forall mmio_ok mmios -> 0 <= k < 1024 ->
  length (foldl map_mmio l1 mmios) = 1024%nat /\
  foldl map_mmio l1 mmios !!! Z.to_nat k =
    if existsb (fun b => negb (b =? 0) && (k =? super b)) mmios
    then leaf k (flags_io |! PTE_V) else l1 !!! Z.to_nat k.
Proof.
  induction mmios as [|b mmios IH]; intros l1 k Hl Hm Hk; simpl; [done|].
  apply Forall_cons in Hm as [[Hb Hal] Hm].
  unfold map_mmio at 2 4. destruct (b =? 0) eqn:E; simpl.
  - by apply IH.
  - destruct (IH (set_super l1 b (pte_super b flags_io)) k) as [Hl' Hl1]; try done.
    { by rewrite length_set_super. }
    split; [done|]. rewrite Hl1, set_super_lookup by done.
    rewrite pte_super_leaf by (done || (vm_compute; split; congruence)).
    destruct (existsb _ _); [by rewrite orb_true_r|]. rewrite orb_false_r.
    case_if; zbool; by subst.
Qed.

(** The translation of the identity table. *)
Lemma identity_table_translates
    (ram_start ram_size_mb io0 io1 io2 : Z)
    (Hstart : is_u32 ram_start) (Hal : ram_start mod 4194304 = 0)
    (Hmb : 0 <= ram_size_mb) (Hmb4 : ram_size_mb mod 4 = 0)
    (Hend : ram_start + ram_size_mb * 1048576 <= 0xffc00000)
    (Hio : Forall mmio_ok [io0; io1; io2]) :
  exists l1, mmu_sv32_install_identity ram_start ram_size_mb io0 io1 io2 = Some l1 /\
    forall acc va, is_u32 va ->
      sv32_translate l1 User acc va = None /\
      forall sum, sv32_translate l1 (Supervisor sum) acc va =
        identity_spec ram_start (ram_start + ram_size_mb * 1048576) [io0; io1; io2] acc va.
Proof.
  unfold mmu_sv32_install_identity.
  assert (ram_size_mb <<! 20 = ram_size_mb * 1048576) as ->.
  { rewrite Z.shiftl_mul_pow2 by lia. change (2 ^ 20) with 1048576. apply u32_small. mlia. }
  rewrite (u32_small (ram_start + _)) by mlia.
  set (end_ := ram_start + ram_size_mb * 1048576) in *.
  destruct (ram_loop_spec (fun va => pte_super va flags_ram) ram_fuel (replicate 1024 0)
    ram_start end_) as (l0 & -> & Hl0 & Hk0); try done; [unfold ram_fuel; mlia|].
  eexists. split; [done|]. intros acc va Hva.
  assert (0 <= super va < 1024) as Hk by (unfold super; mlia).
  destruct (map_mmio_lookup [io0; io1; io2] l0 (super va)) as [_ Hl]; try done.
  unfold identity_spec. destruct (existsb _ _).
  { split; [|intros sum]; erewrite (translate_leaf _ _ _ _ _ Hva Hl) by (vm_compute; done);
      destruct acc; try destruct sum; done. }
  rewrite Hk0 in Hl by done.
  assert ((super ram_start <=? super va) && (4194304 * super va <? end_) =
          (ram_start <=? va) && (va <? end_)) as Heq.
  { unfold super. apply eq_true_iff_eq. rewrite !andb_true_iff, !Z.leb_le, !Z.ltb_lt. lia. }
  rewrite Heq in Hl. destruct (_ && _).
  - rewrite pte_super_leaf in Hl;
      [ | unfold super; mlia | lia | vm_compute; split; congruence].
    replace (super (4194304 * super va)) with (super va) in Hl by (unfold super; lia).
    split; [|intros sum]; erewrite (translate_leaf _ _ _ _ _ Hva Hl) by (vm_compute; done);
      destruct acc; try destruct sum; done.
  - assert (foldl map_mmio l0 [io0; io1; io2] !!! Z.to_nat (super va) = 0) as Hz.
    { rewrite Hl. apply lookup_total_replicate_2. lia. }
    split; [|intros sum]; by apply translate_invalid.
Qed.

(** C15: the identity map.  For a 4 MiB-aligned bank of RAM below 0xffc00000 and
    aligned device bases (0 meaning absent), installing the table terminates
    and S-mode then translates every RAM address to itself with full rights,
    every address of a device superpage to itself for loads and stores only,
    and faults on everything else; U-mode has no access at all. *)
Theorem mmu_sv32_install_identity_translates
    (ram_start ram_size_mb io0 io1 io2 : Z)
    (Hstart : is_u32 ram_start) (Hal : ram_start mod 4194304 = 0)
    (Hmb : 0 <= ram_size_mb) (Hmb4 : ram_size_mb mod 4 = 0)
    (Hend : ram_start + ram_size_mb * 1048576 <= 0xffc00000)
    (Hio : Forall mmio_ok [io0; io1; io2]) :
  exists l1, mmu_sv32_install_identity ram_start ram_size_mb io0 io1 io2 = Some l1 /\
    forall acc va, is_u32 va ->
      sv32_translate l1 User acc va = None /\
      forall sum, sv32_translate l1 (Supervisor sum) acc va =
        identity_spec ram_start (ram_start + ram_size_mb * 1048576) [io0; io1; io2] acc va.
Proof. by apply identity_table_translates. Qed.

Lemma mmu_sv32_install_identity_translates_witness :
  exists l1, mmu_sv32_install_identity 0x80000000 256 0x10000000 0x0c000000 0x02000000
    = Some l1 /\
    forall acc va, is_u32 va ->
      sv32_translate l1 User acc va = None /\
      forall sum, sv32_translate l1 (Supervisor sum) acc va =
        identity_spec 0x80000000 (0x80000000 + 256 * 1048576)
          [0x10000000; 0x0c000000; 0x02000000] acc va.
Proof.
  apply mmu_sv32_install_identity_translates; try mlia.
  repeat (apply Forall_cons_2; [unfold mmio_ok; mlia|]). apply Forall_nil_2.
Defined.

(** What the stage-0 table gives each mode: device superpages are S-mode
    read/write, the superpage at [XNU_STAGE0_USER_BASE] belongs to U-mode (and
    to S-mode data accesses under SUM), the rest of RAM to S-mode alone. *)
Definition umode_spec (ram_start ram_end : Z) (devs : list Z) (md : mode) (acc : access)
    (va : Z) : option Z :=
  let fetch := bool_decide (acc = Fetch) in
  if existsb (fun b => super va =? super b) devs
  then (match md with User => None | Supervisor _ => if fetch then None else Some va end)
  else if (ram_start <=? va) && (va <? ram_end) then
    if super va =? super XNU_STAGE0_USER_BASE
    then (match md with
          | User => Some va
          | Supervisor sum => if sum && negb fetch then Some va else None
          end)
    else (match md with User => None | Supervisor _ => Some va end)
  else None.

(** The translation of the stage-0 table. *)
Lemma umode_table_translates
    (mem_base mem_size plic aclint : Z)
    (Hstart : is_u32 mem_base) (Hal : mem_base mod 4194304 = 0)
    (Hsz : 0 <= mem_size) (Hszal : mem_size mod 4194304 = 0)
    (Hend : mem_base + mem_size <= 0xffc00000)
    (Hplic : mmio_ok plic) (Haclint : mmio_ok aclint) :
  exists l1, stage0_install_umode_mmu mem_base mem_size plic aclint = Some l1 /\
    forall md acc va, is_u32 va ->
      sv32_translate l1 md acc va =
        umode_spec mem_base (mem_base + mem_size) [0x10000000; plic; aclint] md acc va.
Proof.
  unfold stage0_install_umode_mmu. rewrite (u32_small (mem_base + mem_size)) by mlia.
  set (end_ := mem_base + mem_size) in *.
  match goal with |- context [ram_loop ?f] =>
    destruct (ram_loop_spec f ram_fuel (replicate 1024 0) mem_base end_)
      as (l0 & -> & Hl0 & Hk0); try done; [unfold ram_fuel; mlia|] end.
  eexists. split; [done|]. intros md acc va Hva.
  assert (0 <= super va < 1024) as Hk by (unfold super; mlia).
  match goal with |- sv32_translate ?t _ _ _ = _ =>
    assert (t !!! Z.to_nat (super va) =
      if existsb (fun b => super va =? super b) [0x10000000; plic; aclint]
      then leaf (super va) (io_flags |! PTE_V) else l0 !!! Z.to_nat (super va)) as Hl end.
  { destruct Hplic, Haclint. unfold stage0_map_super. rewrite !pte_super_stage0_eq.
    rewrite !set_super_lookup by (rewrite ?length_set_super; done || mlia).
    rewrite !pte_super_leaf by (done || mlia || (vm_compute; split; congruence)).
    cbn [existsb]. rewrite orb_false_r.
    repeat case_if; zbool; try congruence; lia. }
  unfold umode_spec. destruct (existsb _ _).
  { erewrite (translate_leaf _ _ _ _ _ Hva Hl) by (vm_compute; done).
    destruct md as [[]|], acc; done. }
  rewrite Hk0 in Hl by done.
  assert ((super mem_base <=? super va) && (4194304 * super va <? end_) =
          (mem_base <=? va) && (va <? end_)) as Heq.
  { unfold super. apply eq_true_iff_eq. rewrite !andb_true_iff, !Z.leb_le, !Z.ltb_lt. lia. }
  rewrite Heq in Hl. destruct ((_ <=? _) && _).
  - rewrite pte_super_stage0_eq in Hl.
    assert ((4194304 * super va =? XNU_STAGE0_USER_BASE) = (super va =? super XNU_STAGE0_USER_BASE))
      as Hu by (unfold super, XNU_STAGE0_USER_BASE; lia).
    rewrite Hu in Hl.
    rewrite pte_super_leaf in Hl;
      [ | unfold super; mlia | lia | case_if; vm_compute; split; congruence].
    replace (super (4194304 * super va)) with (super va) in Hl by (unfold super; lia).
    destruct (super va =? super XNU_STAGE0_USER_BASE);
      erewrite (translate_leaf _ _ _ _ _ Hva Hl) by (vm_compute; done);
      destruct md as [[]|], acc; done.
  - apply translate_invalid. rewrite Hl. apply lookup_total_replicate_2. lia.
Qed.

(** C14: isolation of U-mode.  With RAM and devices aligned as on QEMU virt, the
    table the kernel installs before entering user mode gives U-mode the
    4 MiB at [XNU_STAGE0_USER_BASE] and nothing else: every other RAM address,
    the kernel's included, and every device register faults from U-mode. *)
Theorem stage0_install_umode_mmu_isolates
    (mem_base mem_size plic aclint : Z)
    (Hstart : is_u32 mem_base) (Hal : mem_base mod 4194304 = 0)
    (Hsz : 0 <= mem_size) (Hszal : mem_size mod 4194304 = 0)
    (Hend : mem_base + mem_size <= 0xffc00000)
    (Hplic : mmio_ok plic) (Haclint : mmio_ok aclint) :
  exists l1, stage0_install_umode_mmu mem_base mem_size plic aclint = Some l1 /\
    forall md acc va, is_u32 va ->
      sv32_translate l1 md acc va =
        umode_spec mem_base (mem_base + mem_size) [0x10000000; plic; aclint] md acc va.
Proof. by apply umode_table_translates. Qed.

Lemma stage0_install_umode_mmu_isolates_witness :
  exists l1, stage0_install_umode_mmu 0x80000000 0x10000000 0x0c000000 0x02000000
    = Some l1 /\
    forall md acc va, is_u32 va ->
      sv32_translate l1 md acc va =
        umode_spec 0x80000000 (0x80000000 + 0x10000000)
          [0x10000000; 0x0c000000; 0x02000000] md acc va.
Proof.
  apply stage0_install_umode_mmu_isolates; unfold mmio_ok; mlia.
Defined.

(** *** The table of sv32_map_identity_256mb.c *)

Lemma fill_loop_lookup f n : forall lo l k,
  (lo + n <= length l)%nat -> (k < length l)%nat ->
  length (fill_loop f n lo l) = length l /\
  fill_loop f n lo l !!! k = if bool_decide (lo <= k < lo + n)%nat then f (Z.of_nat k) else l !!! k.
Proof.
  induction n as [|n IH]; intros lo l k Hl Hk; simpl.
  - split; [done|]. by rewrite bool_decide_eq_false_2 by lia.
  - destruct (IH (S lo) (<[lo := f (Z.of_nat lo)]> l) k) as [-> ->]; rewrite ?length_insert; try lia.
    split; [done|]. destruct (decide (lo = k)) as [<-|Hne].
    + rewrite bool_decide_eq_false_2, bool_decide_eq_true_2 by lia. apply list_lookup_total_insert_eq. lia.
    + rewrite list_lookup_total_insert_ne by done.
      by rewrite (bool_decide_ext (S lo <= k < S lo + n)%nat (lo <= k < lo + S n)%nat) by lia.
Qed.

Lemma bank_pte_leaf i : 0 <= i < 64 -> bank_pte i = leaf (super 0x80000000 + i) 0xf.
Proof.
  intros Hi. unfold bank_pte. rewrite (Z.shiftl_mul_pow2 i) by lia. change (2 ^ 22) with 4194304.
  rewrite (u32_small (i * 4194304)), (u32_small (0x80000000 + _)) by mlia. rewrite super_index by mlia.
  replace (super (0x80000000 + i * 4194304)) with (512 + i) by (unfold super; lia).
  rewrite u32_small by (rewrite Z.shiftl_mul_pow2 by lia; change (2 ^ 20) with 1048576; mlia).
  rewrite <- !Z.lor_assoc. change (PTE_V |! (PTE_R |! (PTE_W |! PTE_X))) with 15.
  rewrite lor_shiftl_add, Z.shiftl_mul_pow2 by (done || lia). unfold leaf. change (2 ^ 20) with 1048576.
  change (super 0x80000000) with 512. lia.
Qed.

(** The bank is entered in the first 64 slots, those of the addresses below 256 MiB:
    every address from there on faults, and with it the whole bank the comment of the
    source calls identity-mapped; the slot of a lower address leads into the bank. *)
Lemma map_identity_256mb_moves (l1_tbl : list Z) (va : Z) :
  length l1_tbl = 1024%nat -> is_u32 va ->
  (0x10000000 <= va -> forall md acc, sv32_translate (sv32_map_identity_256mb l1_tbl) md acc va = None) /\
  (va < 0x10000000 -> Z.shiftr (sv32_map_identity_256mb l1_tbl !!! Z.to_nat (super va)) 20 = super (0x80000000 + va)).
Proof.
  intros Hl Hva. assert (0 <= super va < 1024) as Hk by (unfold super; mlia).
  unfold sv32_map_identity_256mb.
  destruct (fill_loop_lookup bank_pte 64 0 l1_tbl (Z.to_nat (super va))) as [Hl1 H1]; [lia..|].
  destruct (fill_loop_lookup (fun _ => 0) 960 64 (fill_loop bank_pte 64 0 l1_tbl) (Z.to_nat (super va))) as [_ H2];
    [lia..|]. rewrite H1 in H2. split; intros Hlow.
  - intros md acc. apply translate_invalid. rewrite H2, bool_decide_eq_true_2; [done|]. unfold super in *. mlia.
  - assert (super va < 64) by (unfold super; mlia). rewrite H2, bool_decide_eq_false_2, bool_decide_eq_true_2 by lia.
    rewrite Z2Nat.id, bank_pte_leaf, leaf_ppn1 by (done || lia). unfold super. lia.
Qed.

End Sv32.
