(* ===== verification/Fdt.v ===== *)
(** The flattened-device-tree walkers of the booter (src/booter/fdt_min.c,
    src/booter/fdt_min.h).

    The three C functions share one token reader; each is the reader driven by
    its own state update.  The theorems relate them to an abstract device tree:
    on a blob that encodes a tree of depth at most 32 every walker terminates
    and returns the value a search of the tree gives. *)

From S2P Require Import Prelude.

Module Fdt.

Definition FDT_MAGIC : Z := 0xd00dfeed.

Definition FDT_BEGIN_NODE : Z := 1.

Definition FDT_END_NODE : Z := 2.

Definition FDT_PROP : Z := 3.

Definition FDT_NOP : Z := 4.

Definition FDT_END : Z := 9.

(** *** The token reader *)

(** A token with the addresses the C code derives from it. *)
Inductive token :=
  | TBegin (name : Z)
  | TEnd
  | TProp (len pname pdata : Z)
  | TNop
  | TDone
  | TBad.

(** [while ( *p ) p++;] *)
Fixpoint skip_str (m : mem) (fuel : nat) (p : Z) : option Z :=
  if load8 m p =? 0 then Some p
  else match fuel with O => None | S fuel => skip_str m fuel (p + 1) end.

(** [while (((uintptr_t)p) & 3) p++;] *)
Fixpoint align_loop (fuel : nat) (p : Z) : Z :=
  match fuel with
  | O => p
  | S fuel => if Z.land p 3 =? 0 then p else align_loop fuel (p + 1)
  end.

Definition align_ptr (p : Z) : Z := align_loop 3 p.

(** Reads the token at [p] and moves past it and its payload; [slack] bounds the
    scan of a node name.  [strs] is the address of the strings block. *)
Definition next_token (m : mem) (strs : Z) (slack : nat) (p : Z) : option (token * Z) :=
  let tok := be32 m p in
  let p := p + 4 in
  if tok =? FDT_BEGIN_NODE then
    q ← skip_str m slack p; Some (TBegin p, align_ptr (q + 1))
  else if tok =? FDT_END_NODE then Some (TEnd, p)
  else if tok =? FDT_PROP then
    let len := be32 m p in
    let p := p + 4 in
    let nameoff := be32 m p in
    let p := p + 4 in
    Some (TProp len (strs + nameoff) p, align_ptr (p + len))
  else if tok =? FDT_NOP then Some (TNop, p)
  else if tok =? FDT_END then Some (TDone, p)
  else Some (TBad, p).

(** [while (1) { token = be32(p); p += 4; switch (token) ... }]: a step either
    continues with a new state or returns. *)
Fixpoint walk {S R} (step : token -> S -> S + R) (m : mem) (strs : Z) (slack fuel : nat)
    (p : Z) (s : S) : option R :=
  match fuel with
  | O => None
  | Datatypes.S fuel =>
      '(t, p) ← next_token m strs slack p;
      match step t s with
      | inl s => walk step m strs slack fuel p s
      | inr r => Some r
      end
  end.

(** [streq(a, b)] with [b] a literal. *)
Fixpoint streq (m : mem) (a : Z) (b : list Z) : bool :=
  match b with
  | [] => load8 m a =? 0
  | c :: b => (load8 m a =? c) && streq m (a + 1) b
  end.

(** The first string of a byte list: up to a NUL or the end. *)
Fixpoint first_str (l : list Z) : list Z :=
  match l with
  | [] => []
  | c :: l => if c =? 0 then [] else c :: first_str l
  end.

Fixpoint compat_loop (fuel : nat) (data needle : list Z) : bool :=
  match fuel, data with
  | S fuel, _ :: _ =>
      let s := first_str data in
      bytes_eqb s needle || compat_loop fuel (drop (S (length s)) data) needle
  | _, _ => false
  end.

(** [compat_matches(data, (int)len, needle)]: a length of 2^31 or more is
    negative as an [int] and matches nothing. *)
Definition compat_matches (m : mem) (data len : Z) (needle : list Z) : bool :=
  if len <? 2147483648 then
    let bytes := read_bytes m data (Z.to_nat len) in compat_loop (length bytes) bytes needle
  else false.

(** *** fdt_find_reg_base *)

Definition is_comp (m : mem) (pname : Z) : bool :=
  (load8 m pname =? 99) && (load8 m (pname + 1) =? 111) &&
  (load8 m (pname + 2) =? 109) && (load8 m (pname + 3) =? 112).

Definition is_reg (m : mem) (pname : Z) : bool :=
  (load8 m pname =? 114) && (load8 m (pname + 1) =? 101) &&
  (load8 m (pname + 2) =? 103) && (load8 m (pname + 3) =? 0).

(** [if (sp < 31) stack[++sp] = 0;] *)
Definition push0 (st : Z * list Z) : Z * list Z :=
  let '(sp, stack) := st in
  if sp <? 31 then (sp + 1, <[Z.to_nat (sp + 1) := 0]> stack) else (sp, stack).

(** The state is [sp] and [match_stack]; a return carries the code and what
    was stored through [out_base]. *)
Definition find_reg_step (m : mem) (compat : list Z) (t : token) (st : Z * list Z)
  : (Z * list Z) + (Z * option Z) :=
  let '(sp, stack) := st in
  match t with
  | TBegin _ => inl (push0 st)
  | TEnd => inl (if 0 <=? sp then sp - 1 else sp, stack)
  | TProp len pname pdata =>
      if sp <? 0 then inl st
      else
        let stack :=
          if is_comp m pname && compat_matches m pdata len compat
          then <[Z.to_nat sp := 1]> stack else stack in
        if is_reg m pname && negb (stack !!! Z.to_nat sp =? 0) && (4 <=? len)
        then inr (0, Some (be32 m pdata))
        else inl (sp, stack)
  | TNop => inl st
  | TDone => inr (-3, None)
  | TBad => inr (-4, None)
  end.

Definition fdt_find_reg_base (m : mem) (slack fuel : nat) (dtb : Z) (compat : list Z)
  : option (Z * option Z) :=
  if dtb =? 0 then Some (-1, None)
  else if negb (be32 m dtb =? FDT_MAGIC) then Some (-2, None)
  else
    let off_struct := be32 m (dtb + 0x8) in
    let off_strings := be32 m (dtb + 0xc) in
    walk (find_reg_step m compat) m (dtb + off_strings) slack fuel (dtb + off_struct)
      (-1, replicate 32 0).

(** *** fdt_get_chosen_bootargs *)

(** [while (n + 1 < out_cap && n < len && pdata[n]) out[n++] = pdata[n];] with
    [k] the remaining room. *)
Fixpoint copy_arg (m : mem) (a : Z) (k : nat) : list Z :=
  match k with
  | O => []
  | S k => if load8 m a =? 0 then [] else load8 m a :: copy_arg m (a + 1) k
  end.

(** The state is [depth] and [chosen_depth]; a return carries the code and the
    string left in [out]. *)
Definition bootargs_step (m : mem) (out_cap : Z) (t : token) (st : Z * Z)
  : (Z * Z) + (Z * list Z) :=
  let '(depth, chosen) := st in
  match t with
  | TBegin name =>
      let depth := depth + 1 in
      inl (depth, if (depth =? 1) && streq m name "chosen" then depth else chosen)
  | TEnd => inl (depth - 1, if depth =? chosen then -1 else chosen)
  | TProp len pname pdata =>
      if (depth =? chosen) && streq m pname "bootargs" then
        let out := copy_arg m pdata (Z.to_nat (Z.min (out_cap - 1) len)) in
        inr (if bool_decide (out = []) then -3 else 0, out)
      else inl st
  | TNop => inl st
  | TDone => inr (-4, [])
  | TBad => inr (-5, [])
  end.

Definition fdt_get_chosen_bootargs (m : mem) (slack fuel : nat) (dtb out_cap : Z)
  : option (Z * list Z) :=
  if (dtb =? 0) || (out_cap =? 0) then Some (-1, [])
  else if negb (be32 m dtb =? FDT_MAGIC) then Some (-2, [])
  else
    let off_struct := be32 m (dtb + 0x8) in
    let off_strings := be32 m (dtb + 0xc) in
    walk (bootargs_step m out_cap) m (dtb + off_strings) slack fuel (dtb + off_struct)
      (-1, -1).

(** *** fdt_count_cpus *)

(** The state is [sp], [cpu_stack] and [count]. *)
Definition count_step (m : mem) (t : token) (st : Z * list Z * Z)
  : (Z * list Z * Z) + Z :=
  let '(sp, stack, count) := st in
  match t with
  | TBegin _ => inl (push0 (sp, stack), count)
  | TEnd =>
      if 0 <=? sp
      then inl (sp - 1, stack, if stack !!! Z.to_nat sp =? 0 then count else count +! 1)
      else inl st
  | TProp len pname pdata =>
      if (0 <=? sp) && streq m pname "device_type" && (4 <=? len) &&
         (load8 m pdata =? 99) && (load8 m (pdata + 1) =? 112) &&
         (load8 m (pdata + 2) =? 117) && (load8 m (pdata + 3) =? 0)
      then inl (sp, <[Z.to_nat sp := 1]> stack, count)
      else inl st
  | TNop => inl st
  | TDone => inr count
  | TBad => inr count
  end.

Definition fdt_count_cpus (m : mem) (slack fuel : nat) (dtb : Z) : option Z :=
  if (dtb =? 0) || negb (be32 m dtb =? FDT_MAGIC) then Some 0
  else
    let off_struct := be32 m (dtb + 0x8) in
    let off_strings := be32 m (dtb + 0xc) in
    walk (count_step m) m (dtb + off_strings) slack fuel (dtb + off_struct)
      (-1, replicate 32 0, 0).

(** *** The abstract device tree and its encoding *)

(** A property is its name and its value. *)
Inductive node := Node (name : list Z) (props : list (list Z * list Z)) (children : list node).

(** Tokens with their strings resolved. *)
Inductive tok :=
  | BeginNode (name : list Z)
  | EndNode
  | PropTok (name data : list Z)
  | NopTok
  | DoneTok.

Fixpoint flatten (t : node) : list tok :=
  match t with
  | Node name props children =>
      BeginNode name :: map (fun p => PropTok p.1 p.2) props ++
      concat (map flatten children) ++ [EndNode]
  end.

Definition align4 (p : Z) : Z := (p + 3) / 4 * 4.

(** The token [t] is encoded at [p] and ends before [p']. *)
Definition tok_at (m : mem) (strs p : Z) (t : tok) (p' : Z) : Prop :=
  match t with
  | BeginNode name => be32 m p = FDT_BEGIN_NODE /\ cstr_at m (p + 4) name /\
      p' = align4 (p + 4 + Z.of_nat (length name) + 1)
  | EndNode => be32 m p = FDT_END_NODE /\ p' = p + 4
  | PropTok name data =>
      be32 m p = FDT_PROP /\ be32 m (p + 4) = Z.of_nat (length data) /\
      Z.of_nat (length data) < 2147483648 /\
      cstr_at m (strs + be32 m (p + 8)) name /\
      read_bytes m (p + 12) (length data) = data /\
      p' = align4 (p + 12 + Z.of_nat (length data))
  | NopTok => be32 m p = FDT_NOP /\ p' = p + 4
  | DoneTok => be32 m p = FDT_END /\ p' = p + 4
  end.

Inductive toks_at (m : mem) (strs : Z) : Z -> list tok -> Prop :=
  | toks_nil p : toks_at m strs p []
  | toks_cons p p' t ts :
      tok_at m strs p t p' -> toks_at m strs p' ts -> toks_at m strs p (t :: ts).

(** The blob at [dtb] encodes the tree [t]. *)
Definition blob_at (m : mem) (dtb : Z) (t : node) : Prop :=
  dtb <> 0 /\ be32 m dtb = FDT_MAGIC /\
  toks_at m (dtb + be32 m (dtb + 0xc)) (dtb + be32 m (dtb + 0x8)) (flatten t ++ [DoneTok]).

(** Every node name is shorter than [slack]. *)
Definition names_short (slack : nat) (ts : list tok) : Prop :=
  Forall (fun t => match t with BeginNode n => (length n <= slack)%nat | _ => True end) ts.

(** *** Reading one token *)

Lemma align_ptr_align4 p : align_ptr p = align4 p.
Proof.
  assert (forall q, (Z.land q 3 =? 0) = (q mod 4 =? 0)) as Hl.
  { intros q. change 3 with (Z.ones 2). by rewrite Z.land_ones by lia. }
  unfold align_ptr, align4. simpl. rewrite !Hl. zcases.
Qed.

Lemma skip_str_at m name : forall fuel p,
  cstr_at m p name -> (length name <= fuel)%nat ->
  skip_str m fuel p = Some (p + Z.of_nat (length name)).
Proof.
  induction name as [|c name IH]; intros fuel p Hat Hf; destruct fuel as [|fuel];
    simpl in *; try lia.
  - rewrite Hat. simpl. f_equal. lia.
  - rewrite Hat. simpl. f_equal. lia.
  - destruct Hat as (-> & Hc & Hat). case_if; zbool; [lia|].
    rewrite IH by (done || lia). f_equal. lia.
Qed.

Lemma streq_at m lit : forall a s, is_cstr lit -> cstr_at m a s ->
  streq m a lit = bytes_eqb s lit.
Proof.
  induction lit as [|c lit IH]; intros a s Hl Hat; simpl.
  - destruct s as [|d s]; simpl in Hat.
    + rewrite Hat. symmetry. by apply bytes_eqb_eq.
    + destruct Hat as (-> & ? & _). transitivity false; [lia|].
      symmetry. by apply bytes_eqb_neq.
  - apply Forall_cons in Hl as [Hc Hl]. destruct s as [|d s]; simpl in Hat.
    + rewrite Hat. transitivity false; [destruct (0 =? c) eqn:?; zbool; lia || done|].
      symmetry. by apply bytes_eqb_neq.
    + destruct Hat as (-> & ? & Hat). rewrite (IH _ s) by done.
      destruct (d =? c) eqn:E; zbool; simpl.
      * subst. apply eq_true_iff_eq. rewrite !bytes_eqb_eq. naive_solver.
      * symmetry. apply bytes_eqb_neq. congruence.
Qed.

#[global] Arguments streq : simpl never.

(** The token a memory token stands for; [TProp] addresses are existential. *)
Definition tok_view (m : mem) (t : tok) (v : token) : Prop :=
  match t with
  | BeginNode name => exists a, v = TBegin a /\ cstr_at m a name
  | EndNode => v = TEnd
  | PropTok name data => exists pname pdata,
      v = TProp (Z.of_nat (length data)) pname pdata /\ cstr_at m pname name /\
      read_bytes m pdata (length data) = data /\ Z.of_nat (length data) < 2147483648
  | NopTok => v = TNop
  | DoneTok => v = TDone
  end.

Lemma next_token_at m strs slack p t p' :
  tok_at m strs p t p' ->
  (match t with BeginNode n => (length n <= slack)%nat | _ => True end) ->
  exists v, next_token m strs slack p = Some (v, p') /\ tok_view m t v.
Proof.
  unfold next_token. intros Hat Hs. destruct t as [name| |name data| |]; simpl in Hat.
  - destruct Hat as (-> & Hc & ->). simpl. rewrite (skip_str_at m name) by done.
    simpl. rewrite align_ptr_align4. eexists. split; [done|]. simpl. eauto.
  - destruct Hat as (-> & ->). simpl. eauto.
  - destruct Hat as (-> & Hlen & Hlt & Hc & Hd & ->). simpl.
    rewrite align_ptr_align4, Hlen. replace (p + 4 + 4 + 4) with (p + 12) by lia.
    replace (p + 4 + 4) with (p + 8) by lia.
    eexists. split; [done|]. simpl. eauto 10.
  - destruct Hat as (-> & ->). simpl. eauto.
  - destruct Hat as (-> & ->). simpl. eauto.
Qed.

(** Running an abstract step over resolved tokens. *)
Fixpoint run {S R} (astep : tok -> S -> S + R) (ts : list tok) (s : S) : S + R :=
  match ts with
  | [] => inl s
  | t :: ts => match astep t s with inl s => run astep ts s | inr r => inr r end
  end.

Lemma run_app {S R} (astep : tok -> S -> S + R) ts1 ts2 s :
  run astep (ts1 ++ ts2) s =
    match run astep ts1 s with inl s => run astep ts2 s | inr r => inr r end.
Proof. revert s. induction ts1 as [|t ts1 IH]; intros s; simpl; [done|]. by destruct (astep t s). Qed.

(** A walker whose step agrees with an abstract step computes its run. *)
Lemma walk_run {S R} (step : token -> S -> S + R) (astep : tok -> S -> S + R) m strs slack :
  (forall t v s, tok_view m t v -> step v s = astep t s) ->
  forall ts fuel p s r,
    toks_at m strs p ts -> names_short slack ts -> (length ts <= fuel)%nat ->
    run astep ts s = inr r -> walk step m strs slack fuel p s = Some r.
Proof.
  intros Hstep. induction ts as [|t ts IH]; intros fuel p s r Hat Hn Hf Hr; [done|].
  inversion Hat as [|? p' ? ? Ht Hts]; subst. apply Forall_cons in Hn as [Hn1 Hn].
  destruct fuel as [|fuel]; simpl in Hf; [lia|]. simpl.
  destruct (next_token_at _ _ slack _ _ _ Ht Hn1) as (v & -> & Hv). simpl.
  rewrite (Hstep _ _ _ Hv). simpl in Hr. destruct (astep t s) as [s'|r'].
  - apply IH; try done. lia.
  - by injection Hr as <-.
Qed.

(** *** Tree induction *)

Section NodeInd.
Context (P : node -> Prop).
Context (IHnode : forall name props children,
  Forall P children -> P (Node name props children)).

Fixpoint node_ind' (t : node) : P t :=
  match t with
  | Node name props children =>
      IHnode name props children
        ((fix go (l : list node) : Forall P l :=
            match l with
            | [] => Forall_nil_2 P
            | t :: l => Forall_cons_2 P t l (node_ind' t) (go l)
            end) children)
  end.
End NodeInd.

Fixpoint height (t : node) : Z :=
  match t with
  | Node _ _ children => 1 + foldr Z.max 0 (map height children)
  end.

Lemma height_child t l : t ∈ l -> height t <= foldr Z.max 0 (map height l).
Proof.
  induction l as [|y l IH]; [by intros ?%elem_of_nil|].
  intros [->|Hin]%elem_of_cons; simpl; [lia|]. specialize (IH Hin). lia.
Qed.

(** *** Counting CPUs *)

(** [pdata] starts with "cpu" and a NUL. *)
Definition cpu_value (data : list Z) : bool :=
  match data with 99 :: 112 :: 117 :: 0 :: _ => true | _ => false end.

Definition is_cpu (props : list (list Z * list Z)) : bool :=
  existsb (fun p => bytes_eqb p.1 "device_type" && cpu_value p.2) props.

(** The number of nodes with [device_type = "cpu"]. *)
Fixpoint count_cpu_nodes (t : node) : Z :=
  match t with
  | Node _ props children =>
      (if is_cpu props then 1 else 0) + foldr Z.add 0 (map count_cpu_nodes children)
  end.

Definition acount (t : tok) (st : Z * list Z * Z) : (Z * list Z * Z) + Z :=
  let '(sp, stack, count) := st in
  match t with
  | BeginNode _ => inl (push0 (sp, stack), count)
  | EndNode =>
      if 0 <=? sp
      then inl (sp - 1, stack, if stack !!! Z.to_nat sp =? 0 then count else count +! 1)
      else inl st
  | PropTok name data =>
      if (0 <=? sp) && (bytes_eqb name "device_type" && cpu_value data)
      then inl (sp, <[Z.to_nat sp := 1]> stack, count)
      else inl st
  | NopTok => inl st
  | DoneTok => inr count
  end.

(** The first bytes of a property, read back from memory. *)
Lemma cpu_value_at m pdata data :
  read_bytes m pdata (length data) = data ->
  (4 <=? Z.of_nat (length data)) && (load8 m pdata =? 99) && (load8 m (pdata + 1) =? 112) &&
  (load8 m (pdata + 2) =? 117) && (load8 m (pdata + 3) =? 0) = cpu_value data.
Proof.
  intros Hd. destruct (4 <=? Z.of_nat (length data)) eqn:E; zbool; simpl.
  - do 4 (destruct data as [|? data]; [simpl in E; lia|]).
    simpl length in Hd. cbn [read_bytes] in Hd. injection Hd as <- <- <- <- _.
    replace (pdata + 1 + 1 + 1) with (pdata + 3) by lia.
    replace (pdata + 1 + 1) with (pdata + 2) by lia. unfold cpu_value.
    destruct (load8 m pdata =? 99) eqn:E1; zbool;
      [rewrite E1; simpl | simpl; repeat case_match; congruence].
    destruct (load8 m (pdata + 1) =? 112) eqn:E2; zbool;
      [rewrite E2; simpl | simpl; repeat case_match; congruence].
    destruct (load8 m (pdata + 2) =? 117) eqn:E3; zbool;
      [rewrite E3; simpl | simpl; repeat case_match; congruence].
    destruct (load8 m (pdata + 3) =? 0) eqn:E4; zbool;
      [by rewrite E4 | repeat case_match; congruence].
  - unfold cpu_value. repeat case_match; simpl in E; lia || done.
Qed.

Lemma lit_cstr (l : list Z) : forallb (fun c => (0 <? c) && (c <? 256)) l = true -> is_cstr l.
Proof.
  unfold is_cstr. induction l as [|c l IH]; [by constructor|]. simpl.
  intros [Hc Hl]%andb_true_iff. constructor; [zbool; lia | by apply IH].
Qed.

Lemma count_step_abs m t v st : tok_view m t v -> count_step m v st = acount t st.
Proof.
  destruct st as [[sp stack] count]. intros Hv.
  destruct t as [name| |name data| |]; simpl in Hv.
  - destruct Hv as (a & -> & _). done.
  - by subst.
  - destruct Hv as (pname & pdata & -> & Hc & Hd & Hl). simpl.
    rewrite (streq_at m _ pname name) by (done || by apply lit_cstr).
    rewrite <- (cpu_value_at m pdata data Hd). rewrite !andb_assoc. done.
  - by subst.
  - by subst.
Qed.

(** Stacks that agree on the slots up to [sp]. *)
Definition agree (sp : Z) (s1 s2 : list Z) : Prop :=
  length s1 = length s2 /\ forall i, 0 <= i <= sp -> s1 !!! Z.to_nat i = s2 !!! Z.to_nat i.

Lemma agree_refl sp s : agree sp s s.
Proof. done. Qed.

Lemma agree_trans sp s1 s2 s3 : agree sp s1 s2 -> agree sp s2 s3 -> agree sp s1 s3.
Proof.
  intros [Hl1 H1] [Hl2 H2]. split; [congruence|]. intros i Hi. by rewrite H1, H2.
Qed.

Lemma agree_pred sp s1 s2 : agree sp s1 s2 -> agree (sp - 1) s1 s2.
Proof. intros [Hl H]. split; [done|]. intros i Hi. apply H. lia. Qed.

Lemma agree_insert sp i v s : sp < i -> agree sp s (<[Z.to_nat i := v]> s).
Proof.
  intros Hi. split; [by rewrite length_insert|]. intros j Hj.
  symmetry. apply list_lookup_total_insert_ne. lia.
Qed.

(** Properties of one node: the top slot records whether one of them says "cpu". *)
Lemma run_props_count props : forall sp stack c,
  0 <= sp <= 31 -> length stack = 32%nat ->
  exists stack', run acount (map (fun p => PropTok p.1 p.2) props) (sp, stack, c) =
    inl (sp, stack', c) /\ agree (sp - 1) stack stack' /\
    stack' !!! Z.to_nat sp = if is_cpu props then 1 else stack !!! Z.to_nat sp.
Proof.
  induction props as [|[name data] props IH]; intros sp stack c Hsp Hlen; simpl; [exists stack; split_and!; done|].
  rewrite (proj2 (Z.leb_le 0 sp)) by lia.
  destruct (bytes_eqb name "device_type" && cpu_value data); simpl.
  - destruct (IH sp (<[Z.to_nat sp := 1]> stack) c) as (st' & -> & Hag & Htop);
      [done | by rewrite length_insert |].
    exists st'. split_and!; [done | |].
    + eapply agree_trans; [|done]. apply agree_insert. lia.
    + rewrite Htop, list_lookup_total_insert_eq by lia. by case_if.
  - destruct (IH sp stack c) as (st' & -> & Hag & Htop); eauto.
Qed.

Lemma run_flatten_count t : forall sp stack c,
  -1 <= sp -> sp + height t <= 31 -> length stack = 32%nat -> is_u32 c ->
  exists stack', run acount (flatten t) (sp, stack, c) =
    inl (sp, stack', c +! count_cpu_nodes t) /\ agree sp stack stack'.
Proof.
  induction t as [name props children IH] using node_ind'.
  intros sp stack c Hsp Hh Hlen Hc.
  assert (forall l sp stack c, Forall (fun t => forall sp stack c,
      -1 <= sp -> sp + height t <= 31 -> length stack = 32%nat -> is_u32 c ->
      exists stack', run acount (flatten t) (sp, stack, c) =
        inl (sp, stack', c +! count_cpu_nodes t) /\ agree sp stack stack') l ->
    -1 <= sp -> sp + foldr Z.max 0 (map height l) <= 31 -> length stack = 32%nat ->
    is_u32 c ->
    exists stack', run acount (concat (map flatten l)) (sp, stack, c) =
      inl (sp, stack', c +! foldr Z.add 0 (map count_cpu_nodes l)) /\
      agree sp stack stack') as Hch.
  { clear. induction l as [|t l IHl]; intros sp stack c Hl Hsp Hh Hlen Hc; simpl.
    - exists stack. rewrite Z.add_0_r, u32_small by done. done.
    - apply Forall_cons in Hl as [Ht Hl]. simpl in Hh. rewrite run_app.
      destruct (Ht sp stack c) as (st1 & -> & Ha1); [lia..|done|done|].
      destruct (IHl sp st1 (c +! count_cpu_nodes t)) as (st2 & -> & Ha2);
        [done|lia|lia|by destruct Ha1; lia|auto with words|].
      exists st2. split; [|by eapply agree_trans]. rewrite u32_add_l. do 3 f_equal. lia. }
  simpl. unfold push0. simpl in Hh.
  assert (0 <= foldr Z.max 0 (map height children)) by
    (clear; induction children; simpl; lia).
  destruct (sp <? 31) eqn:E; zbool; [|lia].
  rewrite run_app.
  destruct (run_props_count props (sp + 1) (<[Z.to_nat (sp + 1) := 0]> stack) c)
    as (st1 & -> & Ha1 & Ht1); [lia | by rewrite length_insert |].
  rewrite run_app.
  destruct (Hch children (sp + 1) st1 c) as (st2 & -> & Ha2);
    [done | lia | lia | destruct Ha1 as [Hl1 _]; rewrite length_insert in Hl1; lia | done |].
  clear Hch. simpl. rewrite (proj2 (Z.leb_le 0 (sp + 1))) by lia.
  destruct Ha2 as [Hl2 Ha2]. rewrite <- Ha2, Ht1 by lia.
  rewrite list_lookup_total_insert_eq by lia.
  exists st2. split.
  - replace (sp + 1 - 1) with sp by lia. do 2 f_equal.
    destruct (is_cpu props); simpl; [rewrite u32_add_l|]; f_equal; lia.
  - replace (sp + 1 - 1) with sp in Ha1 by lia.
    eapply agree_trans; [by apply (agree_insert sp (sp + 1) 0 stack); lia|].
    eapply agree_trans; [exact Ha1|]. split; [done|]. intros i Hi. apply Ha2. lia.
Qed.

Lemma fdt_count_cpus_tree (m : mem) (slack fuel : nat) (dtb : Z) (t : node)
    (Hblob : blob_at m dtb t) (Hdepth : height t <= 32)
    (Hnames : names_short slack (flatten t ++ [DoneTok]))
    (Hfuel : (length (flatten t ++ [DoneTok]) <= fuel)%nat) :
  fdt_count_cpus m slack fuel dtb = Some (u32 (count_cpu_nodes t)).
Proof.
  destruct Hblob as (Hnz & Hmagic & Htoks). unfold fdt_count_cpus.
  rewrite (proj2 (Z.eqb_neq dtb 0)), Hmagic, Z.eqb_refl by done. cbn [orb negb].
  apply (walk_run _ acount m _ _ (count_step_abs m) (flatten t ++ [DoneTok])); try done.
  rewrite run_app.
  destruct (run_flatten_count t (-1) (replicate 32 0) 0) as (st & -> & _); try done; lia.
Qed.

(** *** The boot arguments of /chosen *)

Lemma copy_arg_first m : forall k a, copy_arg m a k = first_str (read_bytes m a k).
Proof. induction k as [|k IH]; intros a; simpl; [done|]. case_if; [done | by rewrite IH]. Qed.

Lemma read_bytes_take m a n k :
  (k <= n)%nat -> read_bytes m a k = take k (read_bytes m a n).
Proof.
  intros Hk. replace n with (k + (n - k))%nat by lia.
  rewrite read_bytes_app, take_app_length' by (by rewrite length_read_bytes). done.
Qed.

(** What the caller gets for a value [data]: the code and the string in [out]. *)
Definition bootargs_result (out_cap : Z) (data : list Z) : Z * list Z :=
  let out := first_str (take (Z.to_nat (out_cap - 1)) data) in
  (if bool_decide (out = []) then -3 else 0, out).

Definition abootargs (out_cap : Z) (t : tok) (st : Z * Z) : (Z * Z) + (Z * list Z) :=
  let '(depth, chosen) := st in
  match t with
  | BeginNode name =>
      inl (depth + 1, if (depth + 1 =? 1) && bytes_eqb name "chosen" then depth + 1 else chosen)
  | EndNode => inl (depth - 1, if depth =? chosen then -1 else chosen)
  | PropTok name data =>
      if (depth =? chosen) && bytes_eqb name "bootargs"
      then inr (bootargs_result out_cap data) else inl st
  | NopTok => inl st
  | DoneTok => inr (-4, [])
  end.

Lemma bootargs_step_abs m out_cap t v st :
  0 < out_cap -> tok_view m t v -> bootargs_step m out_cap v st = abootargs out_cap t st.
Proof.
  intros Hcap. destruct st as [depth chosen]. intros Hv.
  destruct t as [name| |name data| |]; simpl in Hv.
  - destruct Hv as (a & -> & Hc). simpl.
    by rewrite (streq_at m _ a name) by (done || by apply lit_cstr).
  - by subst.
  - destruct Hv as (pname & pdata & -> & Hc & Hd & Hl). simpl.
    rewrite (streq_at m _ pname name) by (done || by apply lit_cstr).
    case_if; [|done]. unfold bootargs_result. rewrite copy_arg_first.
    replace (read_bytes m pdata (Z.to_nat (Z.min (out_cap - 1) (Z.of_nat (length data)))))
      with (take (Z.to_nat (out_cap - 1)) data); [done|].
    rewrite (read_bytes_take m pdata (length data)) by lia. rewrite Hd.
    destruct (decide (out_cap - 1 <= Z.of_nat (length data))).
    + by rewrite Z.min_l by lia.
    + rewrite Z.min_r, Nat2Z.id by lia. rewrite !take_ge by lia. done.
  - by subst.
  - by subst.
Qed.

Definition prop_value (name : list Z) (props : list (list Z * list Z)) : option (list Z) :=
  match list_find (fun p => p.1 = name) props with Some (_, p) => Some p.2 | None => None end.

(** The value of /chosen/bootargs: the first one found in a child of the root
    called "chosen". *)
Fixpoint chosen_bootargs (children : list node) : option (list Z) :=
  match children with
  | [] => None
  | Node name props _ :: l =>
      match (if bytes_eqb name "chosen" then prop_value "bootargs" props else None) with
      | Some data => Some data
      | None => chosen_bootargs l
      end
  end.

Lemma run_props_bootargs cap props : forall depth chosen,
  run (abootargs cap) (map (fun p => PropTok p.1 p.2) props) (depth, chosen) =
    match (if depth =? chosen then prop_value "bootargs" props else None) with
    | Some data => inr (bootargs_result cap data)
    | None => inl (depth, chosen)
    end.
Proof.
  unfold prop_value.
  induction props as [|[name data] props IH]; intros depth chosen; simpl; [by case_if|].
  destruct (depth =? chosen) eqn:E; simpl.
  - unfold bytes_eqb. case_bool_decide.
    + subst. by rewrite decide_True by done.
    + rewrite decide_False by done. rewrite IH, E.
      by destruct (list_find _ props) as [[??]|].
  - by rewrite IH, E.
Qed.

(** Below the children of the root nothing is looked at. *)
Lemma run_deep_bootargs cap t : forall d ch,
  1 <= d -> ch <= d -> run (abootargs cap) (flatten t) (d, ch) = inl (d, ch).
Proof.
  induction t as [name props children IH] using node_ind'. intros d ch Hd Hch. simpl.
  rewrite (proj2 (Z.eqb_neq (d + 1) 1)) by lia. simpl.
  rewrite run_app, run_props_bootargs, (proj2 (Z.eqb_neq (d + 1) ch)) by lia.
  rewrite run_app.
  assert (run (abootargs cap) (concat (map flatten children)) (d + 1, ch) = inl (d + 1, ch))
    as ->.
  { assert (1 <= d + 1 /\ ch <= d + 1) as [Hd1 Hch1] by lia. revert IH.
    generalize (d + 1) Hd1 Hch1. clear. intros e He Hche.
    induction 1 as [|t l Ht Hl IHl]; simpl; [done|]. by rewrite run_app, Ht. }
  simpl. rewrite (proj2 (Z.eqb_neq (d + 1) ch)) by lia. do 2 f_equal. lia.
Qed.

Lemma run_child_bootargs cap name props children :
  run (abootargs cap) (flatten (Node name props children)) (0, -1) =
    match (if bytes_eqb name "chosen" then prop_value "bootargs" props else None) with
    | Some data => inr (bootargs_result cap data)
    | None => inl (0, -1)
    end.
Proof.
  simpl. rewrite run_app, run_props_bootargs.
  assert (forall ch, ch <= 1 ->
    run (abootargs cap) (concat (map flatten children)) (1, ch) = inl (1, ch)) as Hch.
  { intros ch Hle. induction children as [|t l IHl]; simpl; [done|].
    by rewrite run_app, run_deep_bootargs by lia. }
  destruct (bytes_eqb name "chosen"); simpl.
  - destruct (prop_value "bootargs" props); [done|]. by rewrite run_app, Hch by lia.
  - by rewrite run_app, Hch by lia.
Qed.

(** The walker on a tree. *)
Lemma fdt_get_chosen_bootargs_tree (m : mem) (slack fuel : nat) (dtb out_cap : Z)
    (name : list Z) (props : list (list Z * list Z)) (children : list node)
    (Hcap : 0 < out_cap)
    (Hblob : blob_at m dtb (Node name props children))
    (Hnames : names_short slack (flatten (Node name props children) ++ [DoneTok]))
    (Hfuel : (length (flatten (Node name props children) ++ [DoneTok]) <= fuel)%nat) :
  fdt_get_chosen_bootargs m slack fuel dtb out_cap =
    Some (match chosen_bootargs children with
          | Some data => bootargs_result out_cap data
          | None => (-4, [])
          end).
Proof.
  destruct Hblob as (Hnz & Hmagic & Htoks). unfold fdt_get_chosen_bootargs.
  rewrite (proj2 (Z.eqb_neq dtb 0)), (proj2 (Z.eqb_neq out_cap 0)), Hmagic, Z.eqb_refl by lia.
  cbn [orb negb].
  eapply (walk_run _ (abootargs out_cap) m); try done.
  { intros. by apply bootargs_step_abs. }
  rewrite run_app. simpl. rewrite run_app, run_props_bootargs. simpl. rewrite run_app.
  change (-1 + 1) with 0.
  assert (run (abootargs out_cap) (concat (map flatten children)) (0, -1) =
    match chosen_bootargs children with
    | Some data => inr (bootargs_result out_cap data)
    | None => inl (0, -1)
    end) as ->.
  { clear. induction children as [|[n p c] l IH]; [done|].
    cbn [map concat]. rewrite run_app, run_child_bootargs. cbn [chosen_bootargs].
    destruct (if bytes_eqb n "chosen" then _ else _); [done | apply IH]. }
  by destruct (chosen_bootargs children).
Qed.

(** On a blob encoding a device tree (of any depth) the walker terminates
    and returns the first /chosen/bootargs value, cut at its NUL and at the
    capacity of the buffer, with code 0 (or -3 when it is empty); without such
    a property it returns -4 and the empty string. *)
Theorem fdt_get_chosen_bootargs_finds (m : mem) (slack fuel : nat) (dtb out_cap : Z)
    (name : list Z) (props : list (list Z * list Z)) (children : list node)
    (Hcap : 0 < out_cap)
    (Hblob : blob_at m dtb (Node name props children))
    (Hnames : names_short slack (flatten (Node name props children) ++ [DoneTok]))
    (Hfuel : (length (flatten (Node name props children) ++ [DoneTok]) <= fuel)%nat) :
  fdt_get_chosen_bootargs m slack fuel dtb out_cap =
    Some (match chosen_bootargs children with
          | Some data => bootargs_result out_cap data
          | None => (-4, [])
          end).
Proof. by apply (fdt_get_chosen_bootargs_tree m slack fuel dtb out_cap name props). Qed.

(** *** The base address of a compatible device *)

(** The strings of a [compatible] value. *)
Fixpoint compat_strings (fuel : nat) (data : list Z) : list (list Z) :=
  match fuel, data with
  | S fuel, _ :: _ => first_str data :: compat_strings fuel (drop (S (length (first_str data))) data)
  | _, _ => []
  end.

Lemma compat_loop_strings needle : forall fuel data,
  compat_loop fuel data needle = bool_decide (needle ∈ compat_strings fuel data).
Proof.
  induction fuel as [|fuel IH]; intros data; simpl.
  - done.
  - destruct data as [|c data].
    + done.
    + rewrite IH. unfold bytes_eqb. apply eq_true_iff_eq.
      rewrite orb_true_iff, !bool_decide_eq_true, elem_of_cons. naive_solver.
Qed.

Definition compat_in (needle data : list Z) : bool :=
  bool_decide (needle ∈ compat_strings (length data) data).

(** The big-endian word at the start of a value. *)
Definition first_cell (data : list Z) : Z :=
  Z.lor (Z.lor (Z.lor (Z.shiftl (data !!! 0%nat) 24) (Z.shiftl (data !!! 1%nat) 16))
    (Z.shiftl (data !!! 2%nat) 8)) (data !!! 3%nat).

Definition comp_prefix (name : list Z) : bool := bytes_eqb (take 4 name) "comp".

(** The C code marks a node when a property whose name starts with "comp" lists
    the wanted string, and takes the first cell of a later [reg]. *)
Fixpoint scan_props (compat : list Z) (marked : bool) (props : list (list Z * list Z))
  : option Z :=
  match props with
  | [] => None
  | (name, data) :: props =>
      let marked := marked || (comp_prefix name && compat_in compat data) in
      if bytes_eqb name "reg" && marked && (4 <=? Z.of_nat (length data))
      then Some (first_cell data)
      else scan_props compat marked props
  end.

(** Pre-order search of the tree. *)
Fixpoint find_reg (compat : list Z) (t : node) : option Z :=
  match t with
  | Node _ props children =>
      match scan_props compat false props with
      | Some b => Some b
      | None => foldr (fun r acc => match r with Some b => Some b | None => acc end) None
                  (map (find_reg compat) children)
      end
  end.

Definition afind (compat : list Z) (t : tok) (st : Z * list Z)
  : (Z * list Z) + (Z * option Z) :=
  let '(sp, stack) := st in
  match t with
  | BeginNode _ => inl (push0 st)
  | EndNode => inl (if 0 <=? sp then sp - 1 else sp, stack)
  | PropTok name data =>
      if sp <? 0 then inl st
      else
        let stack := if comp_prefix name && compat_in compat data
                     then <[Z.to_nat sp := 1]> stack else stack in
        if bytes_eqb name "reg" && negb (stack !!! Z.to_nat sp =? 0) &&
           (4 <=? Z.of_nat (length data))
        then inr (0, Some (first_cell data))
        else inl (sp, stack)
  | NopTok => inl st
  | DoneTok => inr (-3, None)
  end.

Lemma cons_eqb c d (s l : list Z) : bytes_eqb (c :: s) (d :: l) = (c =? d) && bytes_eqb s l.
Proof.
  apply eq_true_iff_eq. rewrite andb_true_iff, !bytes_eqb_eq, Z.eqb_eq. naive_solver.
Qed.

Lemma is_comp_at m a name : cstr_at m a name -> is_comp m a = comp_prefix name.
Proof.
  unfold is_comp, comp_prefix. intros Hat. change (cstr "comp") with [99; 111; 109; 112].
  destruct name as [|c0 name]; simpl in Hat; [by rewrite Hat|]. destruct Hat as (-> & _ & Hat).
  destruct name as [|c1 name]; simpl in Hat;
    [rewrite Hat; simpl; rewrite cons_eqb; by destruct (c0 =? 99)|].
  destruct Hat as (-> & _ & Hat). replace (a + 1 + 1) with (a + 2) in Hat by lia.
  destruct name as [|c2 name]; simpl in Hat;
    [rewrite Hat; simpl; rewrite !cons_eqb; by destruct (c0 =? 99), (c1 =? 111)|].
  destruct Hat as (-> & _ & Hat). replace (a + 2 + 1) with (a + 3) in Hat by lia.
  destruct name as [|c3 name]; simpl in Hat;
    [rewrite Hat; simpl; rewrite !cons_eqb;
     by destruct (c0 =? 99), (c1 =? 111), (c2 =? 109)|].
  destruct Hat as (-> & _ & _). simpl. rewrite !cons_eqb.
  replace (bytes_eqb (take 0 name) []) with true by (symmetry; by apply bytes_eqb_eq).
  by rewrite andb_true_r, !andb_assoc.
Qed.

Lemma is_reg_at m a name : cstr_at m a name -> is_reg m a = bytes_eqb name "reg".
Proof.
  intros Hat. rewrite <- (streq_at m _ a name) by (done || by apply lit_cstr).
  change (cstr "reg") with [114; 101; 103]. unfold streq, is_reg.
  replace (a + 1 + 1 + 1) with (a + 3) by lia. replace (a + 1 + 1) with (a + 2) by lia.
  by rewrite !andb_assoc.
Qed.

Lemma first_cell_at m pdata data :
  read_bytes m pdata (length data) = data -> 4 <= Z.of_nat (length data) ->
  be32 m pdata = first_cell data.
Proof.
  intros Hd Hl. unfold be32, first_cell. rewrite <- Hd.
  rewrite !read_bytes_lookup by lia. repeat f_equal; lia.
Qed.

Lemma find_reg_step_abs m compat t v st :
  tok_view m t v -> find_reg_step m compat v st = afind compat t st.
Proof.
  destruct st as [sp stack]. intros Hv.
  destruct t as [name| |name data| |]; simpl in Hv.
  - destruct Hv as (a & -> & _). done.
  - by subst.
  - destruct Hv as (pname & pdata & -> & Hc & Hd & Hl). simpl.
    rewrite (is_comp_at m pname name), (is_reg_at m pname name) by done.
    unfold compat_matches.
    rewrite (proj2 (Z.ltb_lt (Z.of_nat (length data)) 2147483648)), Nat2Z.id, Hd by done.
    rewrite compat_loop_strings. fold (compat_in compat data).
    case_if; [done|]. set (st' := if _ && compat_in _ _ then _ else _).
    destruct (bytes_eqb name "reg" && negb (st' !!! Z.to_nat sp =? 0)); simpl; [|done].
    case_if; zbool; [|done]. by rewrite (first_cell_at m pdata data).
  - by subst.
  - by subst.
Qed.

Lemma run_props_find compat props : forall sp stack,
  0 <= sp <= 31 -> length stack = 32%nat ->
  match scan_props compat (negb (stack !!! Z.to_nat sp =? 0)) props with
  | Some b => run (afind compat) (map (fun p => PropTok p.1 p.2) props) (sp, stack) =
      inr (0, Some b)
  | None => exists stack',
      run (afind compat) (map (fun p => PropTok p.1 p.2) props) (sp, stack) =
        inl (sp, stack') /\ agree (sp - 1) stack stack'
  end.
Proof.
  induction props as [|[name data] props IH]; intros sp stack Hsp Hlen; cbn [scan_props map run].
  { exists stack. split_and!; done. }
  cbn [afind fst snd]. rewrite (proj2 (Z.ltb_ge sp 0)) by lia.
  set (stack1 := if comp_prefix name && compat_in compat data then _ else _).
  assert (length stack1 = 32%nat /\ agree (sp - 1) stack stack1 /\
    negb (stack1 !!! Z.to_nat sp =? 0) =
      negb (stack !!! Z.to_nat sp =? 0) || (comp_prefix name && compat_in compat data))
    as (Hl1 & Ha1 & Hm1).
  { subst stack1. destruct (comp_prefix name && compat_in compat data).
    - rewrite length_insert, list_lookup_total_insert_eq, orb_true_r by lia.
      split_and!; [done | apply agree_insert; lia | done].
    - rewrite orb_false_r. done. }
  rewrite <- Hm1. case_if; [done|].
  specialize (IH sp stack1 Hsp Hl1). destruct (scan_props _ _ props); [done|].
  destruct IH as (st' & -> & Ha2). exists st'. split; [done|]. by eapply agree_trans.
Qed.

Lemma run_flatten_find compat t : forall sp stack,
  -1 <= sp -> sp + height t <= 31 -> length stack = 32%nat ->
  match find_reg compat t with
  | Some b => run (afind compat) (flatten t) (sp, stack) = inr (0, Some b)
  | None => exists stack', run (afind compat) (flatten t) (sp, stack) = inl (sp, stack') /\
      agree sp stack stack'
  end.
Proof.
  induction t as [name props children IH] using node_ind'.
  intros sp stack Hsp Hh Hlen. cbn [find_reg flatten run afind]. cbn [height] in Hh.
  assert (0 <= foldr Z.max 0 (map height children)) by
    (clear; induction children; simpl; lia).
  unfold push0. destruct (sp <? 31) eqn:E; zbool; [|lia]. rewrite run_app.
  pose proof (run_props_find compat props (sp + 1) (<[Z.to_nat (sp + 1) := 0]> stack)) as Hp.
  rewrite list_lookup_total_insert_eq, length_insert in Hp by lia.
  specialize (Hp ltac:(lia) Hlen). simpl in Hp.
  destruct (scan_props compat false props) as [b|]; [by rewrite Hp|].
  destruct Hp as (st1 & -> & Ha1). replace (sp + 1 - 1) with sp in Ha1 by lia.
  rewrite run_app.
  assert (length st1 = 32%nat) as Hl1
    by (destruct Ha1 as [Hl _]; rewrite length_insert in Hl; lia).
  assert (agree sp stack st1) as Ha0
    by (eapply agree_trans; [apply (agree_insert sp (sp + 1) 0 stack); lia | done]).
  clear Ha1.
  assert (match foldr (fun r acc => match r with Some b => Some b | None => acc end) None
              (map (find_reg compat) children) with
          | Some b => run (afind compat) (concat (map flatten children)) (sp + 1, st1) =
              inr (0, Some b)
          | None => exists st2,
              run (afind compat) (concat (map flatten children)) (sp + 1, st1) =
                inl (sp + 1, st2) /\ agree (sp + 1) st1 st2
          end) as Hch.
  { clear -IH Hh Hl1 Hsp. revert st1 Hl1 Hh.
    induction IH as [|t l Ht Hl IHl]; intros st1 Hl1 Hh; simpl in *.
    { exists st1. split_and!; done. }
    specialize (Ht (sp + 1) st1 ltac:(lia) ltac:(lia) Hl1). rewrite run_app.
    destruct (find_reg compat t); [by rewrite Ht|]. destruct Ht as (st2 & -> & Ha2).
    specialize (IHl st2 ltac:(destruct Ha2; lia) ltac:(lia)).
    destruct (foldr _ None _); [done|]. destruct IHl as (st3 & -> & Ha3).
    exists st3. split; [done|]. by eapply agree_trans. }
  destruct (foldr _ None _); [by rewrite Hch|]. destruct Hch as (st2 & -> & Ha2).
  simpl. rewrite (proj2 (Z.leb_le 0 (sp + 1))) by lia.
  exists st2. split; [by replace (sp + 1 - 1) with sp by lia|].
  eapply agree_trans; [exact Ha0|]. replace sp with (sp + 1 - 1) by lia. by apply agree_pred.
Qed.

Lemma fdt_find_reg_base_tree (m : mem) (slack fuel : nat) (dtb : Z) (compat : list Z)
    (t : node) (Hblob : blob_at m dtb t) (Hdepth : height t <= 32)
    (Hnames : names_short slack (flatten t ++ [DoneTok]))
    (Hfuel : (length (flatten t ++ [DoneTok]) <= fuel)%nat) :
  fdt_find_reg_base m slack fuel dtb compat =
    Some (match find_reg compat t with Some b => (0, Some b) | None => (-3, None) end).
Proof.
  destruct Hblob as (Hnz & Hmagic & Htoks). unfold fdt_find_reg_base.
  rewrite (proj2 (Z.eqb_neq dtb 0)), Hmagic, Z.eqb_refl by done. cbn [negb].
  apply (walk_run _ (afind compat) m _ _ (find_reg_step_abs m compat) (flatten t ++ [DoneTok]));
    try done.
  rewrite run_app.
  pose proof (run_flatten_find compat t (-1) (replicate 32 0) ltac:(lia) ltac:(lia) eq_refl) as H.
  destruct (find_reg compat t); [by rewrite H|]. by destruct H as (st & -> & _).
Qed.

(** *** The walkers on encoded trees *)

(** On a blob encoding any device tree of depth at most 32, with fuel for
    its tokens, [fdt_count_cpus] terminates and returns the number of nodes
    whose device_type is "cpu". *)
Theorem fdt_count_cpus_counts (m : mem) (slack fuel : nat) (dtb : Z) (t : node)
    (Hblob : blob_at m dtb t) (Hdepth : height t <= 32)
    (Hnames : names_short slack (flatten t ++ [DoneTok]))
    (Hfuel : (length (flatten t ++ [DoneTok]) <= fuel)%nat) :
  fdt_count_cpus m slack fuel dtb = Some (u32 (count_cpu_nodes t)).
Proof. by apply fdt_count_cpus_tree. Qed.

(** On a blob encoding a device tree of depth at most 32 the search
    terminates; it returns the first cell of the first [reg] (in document
    order) that follows, in the same node, a "comp..." property listing the
    wanted string, and -3 when no node has one. *)
Theorem fdt_find_reg_base_finds (m : mem) (slack fuel : nat) (dtb : Z) (compat : list Z)
    (t : node) (Hblob : blob_at m dtb t) (Hdepth : height t <= 32)
    (Hnames : names_short slack (flatten t ++ [DoneTok]))
    (Hfuel : (length (flatten t ++ [DoneTok]) <= fuel)%nat) :
  fdt_find_reg_base m slack fuel dtb compat =
    Some (match find_reg compat t with Some b => (0, Some b) | None => (-3, None) end).
Proof. by apply fdt_find_reg_base_tree. Qed.

(** *** A concrete blob

    A root with a CPU, /chosen/bootargs and a UART, in the layout of a DTB. *)

Definition w32 (x : Z) : list Z :=
  [Z.shiftr x 24; u8 (Z.shiftr x 16); u8 (Z.shiftr x 8); u8 x].

Definition pad4 (l : list Z) : list Z := l ++ replicate (Z.to_nat (- Z.of_nat (length l) mod 4)) 0.

Definition enc_begin (name : list Z) : list Z := w32 1 ++ pad4 (name ++ [0]).

Definition enc_prop (nameoff : Z) (data : list Z) : list Z :=
  w32 3 ++ w32 (Z.of_nat (length data)) ++ w32 nameoff ++ pad4 data.

Definition example_strings : list Z :=
  "device_type" ++ [0] ++ "bootargs" ++ [0] ++ "compatible" ++ [0] ++ "reg" ++ [0].

Definition example_struct : list Z :=
  enc_begin [] ++
    enc_begin "cpu@0" ++ enc_prop 0 ("cpu" ++ [0]) ++ w32 2 ++
    enc_begin "chosen" ++ enc_prop 12 ("smp-start" ++ [0]) ++ w32 2 ++
    enc_begin "uart" ++ enc_prop 21 ("ns16550a" ++ [0]) ++ enc_prop 32 (w32 0x10000000) ++
    w32 2 ++
  w32 2 ++ w32 9.

Definition example_blob : list Z :=
  w32 FDT_MAGIC ++ w32 0x200 ++ w32 0x28 ++ w32 (0x28 + Z.of_nat (length example_struct)) ++
  replicate 24 0 ++ example_struct ++ example_strings.

Definition example_tree : node :=
  Node [] []
    [ Node "cpu@0" [(cstr "device_type", "cpu" ++ [0])] [];
      Node "chosen" [(cstr "bootargs", "smp-start" ++ [0])] [];
      Node "uart" [(cstr "compatible", "ns16550a" ++ [0]); (cstr "reg", w32 0x10000000)] [] ].

Definition example_mem : mem := mem_of_list 0x8fe00000 example_blob.

Lemma example_blob_at : blob_at example_mem 0x8fe00000 example_tree.
Proof.
  split; [lia|]. split; [vm_compute; done|].
  match goal with |- toks_at ?m ?s ?p ?l =>
    let s' := eval vm_compute in s in let p' := eval vm_compute in p in
    let l' := eval vm_compute in l in change (toks_at m s' p' l') end.
  repeat first [apply toks_nil |
    eapply toks_cons; [cbn [tok_at length]; split_and!; try (vm_compute; reflexivity);
      vm_compute; intuition congruence|];
    match goal with |- toks_at _ _ ?p _ =>
      let p' := eval vm_compute in p in change p with p' end].
Qed.

Lemma example_names : names_short 8 (flatten example_tree ++ [DoneTok]).
Proof.
  unfold names_short. simpl. repeat (apply Forall_cons_2; [try done; vm_compute; lia|]).
  apply Forall_nil_2.
Qed.

Lemma fdt_count_cpus_counts_example :
  fdt_count_cpus example_mem 8 40 0x8fe00000 = Some (u32 (count_cpu_nodes example_tree)) /\
  count_cpu_nodes example_tree = 1.
Proof.
  split; [|done].
  apply (fdt_count_cpus_counts example_mem 8 40 0x8fe00000 example_tree example_blob_at);
    [vm_compute; congruence | exact example_names | vm_compute; lia].
Defined.

Lemma fdt_get_chosen_bootargs_finds_example :
  fdt_get_chosen_bootargs example_mem 8 40 0x8fe00000 128 = Some (0, cstr "smp-start").
Proof.
  change (0, cstr "smp-start") with
    (match chosen_bootargs
       [ Node "cpu@0" [(cstr "device_type", "cpu" ++ [0])] [];
         Node "chosen" [(cstr "bootargs", "smp-start" ++ [0])] [];
         Node "uart" [(cstr "compatible", "ns16550a" ++ [0]); (cstr "reg", w32 0x10000000)] [] ]
     with Some data => bootargs_result 128 data | None => (-4, []) end).
  apply (fdt_get_chosen_bootargs_finds example_mem 8 40 0x8fe00000 128 [] []);
    [lia | exact example_blob_at | exact example_names | vm_compute; lia].
Defined.

Lemma fdt_find_reg_base_finds_example :
  fdt_find_reg_base example_mem 8 40 0x8fe00000 "ns16550a" =
    Some (match find_reg "ns16550a" example_tree with
          | Some b => (0, Some b) | None => (-3, None) end) /\
  find_reg "ns16550a" example_tree = Some 0x10000000.
Proof.
  split; [|done].
  apply (fdt_find_reg_base_finds example_mem 8 40 0x8fe00000 "ns16550a" example_tree
    example_blob_at); [vm_compute; congruence | exact example_names | vm_compute; lia].
Defined.

End Fdt.
