(* ===== verification/BootArgs.v ===== *)
(** The platform description of the booter (src/booter/bootargs_pack.c,
    src/include/uapi/bootargs.h): device bases, memory size and CPU count taken
    from the device tree, with the QEMU virt defaults. *)

From S2P Require Import Prelude Fdt.
Import Fdt.

Module BootArgs.

(** [caribe_boot_args] *)
Record boot_args := {
  ba_dtb : Z;
  uart_base : Z;
  plic_base : Z;
  aclint_base : Z;
  mem_mb : Z;
  ncpus : Z
}.

(** The bounds on the walks: node names and tokens. *)
Record fdt_fuel := { slack : nat; fuel : nat }.

Definition try_compat (m : mem) (f : fdt_fuel) (dtb : Z) (compat : list Z) (def : Z)
  : option Z :=
  r ← fdt_find_reg_base m (slack f) (fuel f) dtb compat;
  Some (match r with
        | (0, Some base) => base
        | (0, None) => 0
        | _ => def
        end).

Definition def_uart : Z := 0x10000000.

Definition def_plic : Z := 0x0c000000.

Definition def_aclint : Z := 0x02000000.

Definition caribe_pack_boot_args (m : mem) (f : fdt_fuel) (dtb : Z) : option boot_args :=
  uart ← try_compat m f dtb "ns16550a" def_uart;
  plic ← try_compat m f dtb "riscv,plic0" def_plic;
  clint ← try_compat m f dtb "riscv,clint0" def_aclint;
  tmr ← try_compat m f dtb "riscv,aclint-mtimer" clint;
  n ← fdt_count_cpus m (slack f) (fuel f) dtb;
  Some {| ba_dtb := dtb; uart_base := uart; plic_base := plic; aclint_base := tmr;
          mem_mb := 256; ncpus := if n =? 0 then 1 else n |}.

(** *** What the device tree says *)

Definition tree_base (t : node) (compat : list Z) (def : Z) : Z :=
  default def (find_reg compat t).

Definition tree_boot_args (dtb : Z) (t : node) : boot_args :=
  {| ba_dtb := dtb;
     uart_base := tree_base t "ns16550a" def_uart;
     plic_base := tree_base t "riscv,plic0" def_plic;
     aclint_base := tree_base t "riscv,aclint-mtimer" (tree_base t "riscv,clint0" def_aclint);
     mem_mb := 256;
     ncpus := Z.max 1 (count_cpu_nodes t) |}.

(** Enough fuel for the tree [t]. *)
Definition fuel_ok (f : fdt_fuel) (t : node) : Prop :=
  names_short (slack f) (flatten t ++ [DoneTok]) /\
  (length (flatten t ++ [DoneTok]) <= fuel f)%nat.

Lemma try_compat_tree m f dtb t compat def :
  blob_at m dtb t -> height t <= 32 -> fuel_ok f t ->
  try_compat m f dtb compat def = Some (tree_base t compat def).
Proof.
  intros Hb Hh [Hn Hf]. unfold try_compat, tree_base.
  rewrite (fdt_find_reg_base_tree m (slack f) (fuel f) dtb compat t) by done.
  simpl. by destruct (find_reg compat t).
Qed.

(** The packed arguments are those of the tree. *)
Lemma pack_tree (m : mem) (f : fdt_fuel) (dtb : Z) (t : node)
    (Hblob : blob_at m dtb t) (Hdepth : height t <= 32) (Hfuel : fuel_ok f t)
    (Hcpus : is_u32 (count_cpu_nodes t)) :
  caribe_pack_boot_args m f dtb = Some (tree_boot_args dtb t).
Proof.
  unfold caribe_pack_boot_args.
  rewrite !(try_compat_tree m f dtb t) by done. simpl.
  rewrite (try_compat_tree m f dtb t) by done. simpl.
  destruct Hfuel as [Hn Hf]. rewrite (fdt_count_cpus_tree m (slack f) (fuel f) dtb t) by done.
  simpl. unfold tree_boot_args. do 2 f_equal. rewrite u32_small by done.
  case_if; zbool; mlia.
Qed.

(** C33: the packed arguments are a function of the device tree: on a blob
    encoding a tree of depth at most 32 (with fewer than 2^32 CPUs) packing
    terminates, each device base is the one the tree gives or the QEMU virt
    default, the mtimer base falls back to the CLINT base before the default,
    and there is always at least one CPU. *)
Theorem caribe_pack_boot_args_tree (m : mem) (f : fdt_fuel) (dtb : Z) (t : node)
    (Hblob : blob_at m dtb t) (Hdepth : height t <= 32) (Hfuel : fuel_ok f t)
    (Hcpus : is_u32 (count_cpu_nodes t)) :
  caribe_pack_boot_args m f dtb = Some (tree_boot_args dtb t).
Proof. by apply pack_tree. Qed.

Definition example_fuel : fdt_fuel := {| slack := 8; fuel := 40 |}.

Lemma caribe_pack_boot_args_tree_witness :
  caribe_pack_boot_args example_mem example_fuel 0x8fe00000 =
    Some (tree_boot_args 0x8fe00000 example_tree) /\
  uart_base (tree_boot_args 0x8fe00000 example_tree) = 0x10000000.
Proof.
  split; [|done].
  apply caribe_pack_boot_args_tree;
    [exact example_blob_at | vm_compute; congruence | | vm_compute; intuition congruence].
  split; [exact example_names | vm_compute; lia].
Defined.

(** *** QEMU virt

    The serial node of src/virt.dts has two-cell addresses and its [reg] before
    its [compatible]. *)

Definition virt_strings : list Z := "reg" ++ [0] ++ "compatible" ++ [0].

Definition virt_reg : list Z :=
  enc_prop 0 (w32 0 ++ w32 0x10000000 ++ w32 0 ++ w32 0x100).

Definition virt_compatible : list Z := enc_prop 4 ("ns16550a" ++ [0]).

Definition virt_blob (props : list Z) : list Z :=
  let structs := enc_begin [] ++ enc_begin "soc" ++ enc_begin "serial@10000000" ++
                 props ++ w32 2 ++ w32 2 ++ w32 2 ++ w32 9 in
  w32 FDT_MAGIC ++ w32 0x200 ++ w32 0x28 ++ w32 (0x28 + Z.of_nat (length structs)) ++
  replicate 24 0 ++ structs ++ virt_strings.

Definition virt_uart (props : list Z) : option Z :=
  uart_base <$> caribe_pack_boot_args (mem_of_list 0x8fe00000 (virt_blob props))
    {| slack := 20; fuel := 20 |} 0x8fe00000.

(** On the serial node of virt.dts the UART base is the built-in default,
    because [reg] precedes [compatible] and the node is never matched; with the
    two properties in the other order the packed base is the upper address
    cell, 0, and not 0x10000000. *)
Theorem caribe_pack_boot_args_virt_serial :
  virt_uart (virt_reg ++ virt_compatible) = Some def_uart /\
  virt_uart (virt_compatible ++ virt_reg) = Some 0.
Proof. split; vm_compute; reflexivity. Qed.

End BootArgs.
