(* ===== verification/Print.v ===== *)
(** Numbers as text: the booter's printers (src/booter/print.c), the kernel's
    (src/kernel_xnu_entry.c, [puthex32], [putdec]) and the number parsers of the
    console (src/booter/console.c, [parse_uint_auto], [bx_parse_uint_auto]).

    A printer is the string it hands to the UART.  The theorems are the round
    trips: what is printed in decimal or hexadecimal parses back to the number. *)

From S2P Require Import Prelude.

Module Print.

(** [static const char HEX[] = "0123456789abcdef";] *)
Definition HEX : list Z := "0123456789abcdef".

(** [for (i = 0; i < 8; i++) { s[9-i] = HEX[v & 0xF]; v >>= 4; }]: the digits are
    produced last to first. *)
Fixpoint hex_loop (n : nat) (v : Z) (acc : list Z) : list Z :=
  match n with
  | O => acc
  | S n => hex_loop n (Z.shiftr v 4) (HEX !!! Z.to_nat (Z.land v 0xF) :: acc)
  end.

Definition uart_puthex32 (v : Z) : list Z := [48; 120] ++ hex_loop 8 v [].

(** [while (v) { b[i--] = '0' + (v % 10); v /= 10; }]; the fuel is the number of
    free bytes of [b]. *)
Fixpoint dec_loop (fuel : nat) (v : Z) (acc : list Z) : list Z :=
  match fuel with
  | O => acc
  | S fuel => if v =? 0 then acc else dec_loop fuel (v / 10) (48 + v mod 10 :: acc)
  end.

(** The buffer is [char b[32]] with the NUL in its last byte. *)
Definition uart_putdec (v : Z) : list Z :=
  if v =? 0 then [48] else dec_loop 31 v [].

(** kernel_xnu_entry.c [puthex32]: [for (i = 7; i >= 0; i--)
    putc(hex[(v >> (i * 4)) & 0xf]);] *)
Fixpoint puthex_from (n : nat) (v : Z) : list Z :=
  match n with
  | O => []
  | S i => HEX !!! Z.to_nat (Z.land (Z.shiftr v (Z.of_nat i * 4)) 0xf) :: puthex_from i v
  end.

Definition puthex32 (v : Z) : list Z := puthex_from 8 v.

Definition puthex64 (v : Z) : list Z := puthex32 (u32 (Z.shiftr v 32)) ++ puthex32 (u32 v).

(** kernel_xnu_entry.c [putdec]: digits into [char buf[10]], then backwards. *)
Definition putdec (v : Z) : list Z := if v =? 0 then [48] else dec_loop 10 v [].

(** *** Parsers of the console *)

(** [*s==' '||*s=='\t'] *)
Definition is_blank (c : Z) : bool := (c =? 32) || (c =? 9).

Fixpoint skip_blank (s : list Z) : list Z :=
  match s with
  | c :: s' => if is_blank c then skip_blank s' else s
  | [] => []
  end.

(** The digit tests of [parse_uint_auto]. *)
Definition dec_digit (c : Z) : option Z :=
  if (48 <=? c) && (c <=? 57) then Some (c - 48) else None.

Definition hex_digit (c : Z) : option Z :=
  if (48 <=? c) && (c <=? 57) then Some (c - 48)
  else if (97 <=? c) && (c <=? 102) then Some (c - 97 + 10)
  else if (65 <=? c) && (c <=? 70) then Some (c - 65 + 10)
  else None.

(** [v=(v<<4)|d; any=1; s++;] *)
Fixpoint hex_scan (s : list Z) (v : Z) (any : bool) : Z * bool :=
  match s with
  | c :: s => match hex_digit c with
              | Some d => hex_scan s ((v <<! 4) |! d) true
              | None => (v, any)
              end
  | [] => (v, any)
  end.

(** [v=v*10+(uint32_t)( *s-'0'); any=1; s++;] *)
Fixpoint dec_scan (s : list Z) (v : Z) (any : bool) : Z * bool :=
  match s with
  | c :: s => match dec_digit c with
              | Some d => dec_scan s (v *! 10 +! d) true
              | None => (v, any)
              end
  | [] => (v, any)
  end.

(** [s[0]=='0' && (s[1]=='x'||s[1]=='X')] *)
Definition hex_prefix (s : list Z) : bool :=
  match s with 48 :: c :: _ => (c =? 120) || (c =? 88) | _ => false end.

Definition parse_uint_auto (s : list Z) : option Z :=
  let s := skip_blank s in
  let '(v, any) := if hex_prefix s then hex_scan (drop 2 s) 0 false else dec_scan s 0 false in
  if any then Some v else None.

(** [bx_is_space] and [bx_skip_ws] *)
Definition bx_is_space (c : Z) : bool := (c =? 32) || (c =? 9) || (c =? 13) || (c =? 10).

Fixpoint bx_skip_ws (s : list Z) : list Z :=
  match s with
  | c :: s' => if bx_is_space c then bx_skip_ws s' else s
  | [] => []
  end.

Definition bx_is_hex (c : Z) : bool :=
  ((48 <=? c) && (c <=? 57)) || ((97 <=? c) && (c <=? 102)) || ((65 <=? c) && (c <=? 70)).

Definition bx_hexv (c : Z) : Z :=
  if (48 <=? c) && (c <=? 57) then c - 48
  else if (97 <=? c) && (c <=? 102) then 10 + (c - 97)
  else 10 + (c - 65).

Fixpoint bx_hex_scan (s : list Z) (v : Z) (any : bool) : Z * bool :=
  match s with
  | c :: s => if bx_is_hex c then bx_hex_scan s ((v <<! 4) |! bx_hexv c) true else (v, any)
  | [] => (v, any)
  end.

Fixpoint bx_dec_scan (s : list Z) (v : Z) : Z :=
  match s with
  | c :: s => if (48 <=? c) && (c <=? 57) then bx_dec_scan s (v *! 10 +! (c - 48)) else v
  | [] => v
  end.

Definition bx_parse_uint_auto (s : list Z) : option Z :=
  let s := bx_skip_ws s in
  if hex_prefix s then
    let '(v, any) := bx_hex_scan (drop 2 s) 0 false in
    if any then Some v else None
  else
    match s with
    | c :: _ => if (c <? 48) || (57 <? c) then None else Some (bx_dec_scan s 0)
    | [] => None
    end.

(** *** Round trips *)

Lemma hex_digit_HEX d : 0 <= d < 16 -> hex_digit (HEX !!! Z.to_nat d) = Some d.
Proof.
  intros Hd.
  assert (d = 0 \/ d = 1 \/ d = 2 \/ d = 3 \/ d = 4 \/ d = 5 \/ d = 6 \/ d = 7 \/ d = 8 \/
    d = 9 \/ d = 10 \/ d = 11 \/ d = 12 \/ d = 13 \/ d = 14 \/ d = 15) as Hc by lia.
  repeat (destruct Hc as [-> | Hc]; [done|]). by subst.
Qed.

Lemma hex_step x d : 0 <= d < 16 -> (x <<! 4) |! d = u32 (16 * x + d).
Proof.
  intros Hd. rewrite Z.shiftl_mul_pow2 by lia. change (2 ^ 4) with 16.
  assert (u32 (x * 16) = Z.shiftl (x mod 268435456) 4) as ->.
  { rewrite Z.shiftl_mul_pow2 by lia. change (2 ^ 4) with 16. mlia. }
  rewrite lor_shiftl_add by (change (2 ^ 4) with 16; lia).
  rewrite Z.shiftl_mul_pow2 by lia. change (2 ^ 4) with 16. mlia.
Qed.

Lemma land_15 v : Z.land v 15 = v mod 16.
Proof. change 15 with (Z.ones 4). by rewrite Z.land_ones by lia. Qed.

Lemma hex_scan_loop n : forall v acc w any,
  hex_scan (hex_loop (S n) v acc) w any =
    hex_scan acc (u32 (16 ^ Z.of_nat (S n) * w + v mod 16 ^ Z.of_nat (S n))) true.
Proof.
  induction n as [|n IH]; intros v acc w any.
  - simpl hex_loop. rewrite land_15. cbn [hex_scan]. rewrite hex_digit_HEX by lia.
    rewrite hex_step by lia. done.
  - change (hex_loop (S (S n)) v acc) with
      (hex_loop (S n) (Z.shiftr v 4) (HEX !!! Z.to_nat (Z.land v 0xF) :: acc)).
    rewrite IH. cbn [hex_scan]. rewrite land_15, hex_digit_HEX by lia.
    rewrite hex_step by lia. f_equal.
    rewrite Z.shiftr_div_pow2 by lia. change (2 ^ 4) with 16.
    rewrite (Nat2Z.inj_succ (S n)), Z.pow_succ_r by lia.
    set (k := 16 ^ Z.of_nat (S n)).
    assert (0 < k) as Hk by (apply Z.pow_pos_nonneg; lia).
    rewrite (Z.rem_mul_r v 16 k) by lia.
    assert (forall x, u32 (16 * u32 x + v mod 16) = u32 (16 * x + v mod 16)) as Hu.
    { intros x. mlia. }
    rewrite Hu. f_equal. lia.
Qed.

Lemma dec_scan_loop fuel : forall v acc any,
  0 < v < 10 ^ Z.of_nat fuel -> is_u32 v ->
  dec_scan (dec_loop fuel v acc) 0 any = dec_scan acc v true.
Proof.
  induction fuel as [|fuel IH]; intros v acc any Hv Hu; [simpl in Hv; lia|].
  rewrite Nat2Z.inj_succ, Z.pow_succ_r in Hv by lia.
  cbn [dec_loop]. rewrite (proj2 (Z.eqb_neq v 0)) by lia.
  assert (dec_digit (48 + v mod 10) = Some (v mod 10)) as Hd
    by (unfold dec_digit; zcases; f_equal; lia).
  destruct (decide (v / 10 = 0)) as [Hz|Hnz].
  - rewrite Hz. assert (dec_loop fuel 0 (48 + v mod 10 :: acc) = 48 + v mod 10 :: acc) as ->
      by (by destruct fuel). cbn [dec_scan]. rewrite Hd. f_equal. mlia.
  - rewrite IH by (unfold is_u32 in *; lia). cbn [dec_scan]. rewrite Hd. f_equal.
    rewrite u32_small by mlia. rewrite u32_small; mlia.
Qed.

(** A text that does not continue a number. *)
Definition ends_number (rest : list Z) : Prop :=
  match rest with c :: _ => hex_digit c = None /\ c <> 120 /\ c <> 88 | [] => True end.

Lemma scan_end_hex rest v : ends_number rest -> hex_scan rest v true = (v, true).
Proof. destruct rest as [|c rest]; simpl; [done|]. by intros [-> _]. Qed.

Lemma scan_end_dec rest v : ends_number rest -> dec_scan rest v true = (v, true).
Proof.
  destruct rest as [|c rest]; simpl; [done|]. unfold hex_digit, dec_digit. intros [Hc _].
  by destruct ((48 <=? c) && (c <=? 57)).
Qed.

Lemma hex_loop_app n : forall v acc rest, hex_loop n v acc ++ rest = hex_loop n v (acc ++ rest).
Proof. induction n as [|n IH]; intros; simpl; [done|]. by rewrite IH. Qed.

Lemma dec_loop_app n : forall v acc rest, dec_loop n v acc ++ rest = dec_loop n v (acc ++ rest).
Proof. induction n as [|n IH]; intros; simpl; [done|]. case_if; [done|]. by rewrite IH. Qed.

Lemma dec_loop_head fuel : forall v acc,
  0 < v < 10 ^ Z.of_nat fuel ->
  exists d l, dec_loop fuel v acc = 48 + d :: l /\ 0 < d <= 9.
Proof.
  induction fuel as [|fuel IH]; intros v acc Hv; [simpl in Hv; lia|].
  rewrite Nat2Z.inj_succ, Z.pow_succ_r in Hv by lia.
  cbn [dec_loop]. rewrite (proj2 (Z.eqb_neq v 0)) by lia.
  destruct (decide (v / 10 = 0)) as [Hz|Hnz].
  - rewrite Hz. exists (v mod 10), acc. split; [by destruct fuel | lia].
  - apply IH. lia.
Qed.

(** The decimal text fits: at most ten digits, so neither [b[32]] nor the
    kernel's [buf[10]] overflows and both loops stop on [v = 0]. *)
Lemma dec_loop_length fuel : forall v acc n,
  0 <= v < 10 ^ Z.of_nat n -> (n <= fuel)%nat ->
  (length (dec_loop fuel v acc) <= length acc + n)%nat.
Proof.
  induction fuel as [|fuel IH]; intros v acc n Hv Hn; simpl; [lia|].
  case_if; zbool; [lia|]. destruct n as [|n]; [simpl in Hv; lia|].
  rewrite Nat2Z.inj_succ, Z.pow_succ_r in Hv by lia.
  specialize (IH (v / 10) (48 + v mod 10 :: acc) n ltac:(lia) ltac:(lia)). simpl in IH. lia.
Qed.

Lemma dec_loop_fuel f1 : forall f2 v acc,
  0 <= v < 10 ^ Z.of_nat f1 -> (f1 <= f2)%nat -> dec_loop f2 v acc = dec_loop f1 v acc.
Proof.
  induction f1 as [|f1 IH]; intros f2 v acc Hv Hf.
  - simpl in Hv. assert (v = 0) as -> by lia. by destruct f2.
  - destruct f2 as [|f2]; [lia|]. simpl. case_if; [done|].
    rewrite Nat2Z.inj_succ, Z.pow_succ_r in Hv by lia. apply IH; lia.
Qed.

Lemma puthex_from_snoc n : forall v,
  puthex_from (S n) v = puthex_from n (Z.shiftr v 4) ++ [HEX !!! Z.to_nat (Z.land v 0xf)].
Proof.
  induction n as [|n IH]; intros v; [done|].
  change (puthex_from (S (S n)) v) with
    (HEX !!! Z.to_nat (Z.land (Z.shiftr v (Z.of_nat (S n) * 4)) 0xf) :: puthex_from (S n) v).
  rewrite IH. simpl. rewrite Z.shiftr_shiftr by lia. do 4 f_equal. f_equal. lia.
Qed.

Lemma hex_loop_puthex n : forall v acc, hex_loop n v acc = puthex_from n v ++ acc.
Proof.
  induction n as [|n IH]; intros v acc; [done|]. rewrite puthex_from_snoc. simpl.
  rewrite IH. by rewrite <- app_assoc.
Qed.

(** Printing and parsing numbers.  Whatever text follows, as long as it
    does not continue the number, the console's parser reads back every 32-bit
    value from the decimal and from the hexadecimal form the booter prints. *)
Theorem parse_print_roundtrip (v : Z) (rest : list Z)
    (Hv : is_u32 v) (Hrest : ends_number rest) :
  parse_uint_auto (uart_putdec v ++ rest) = Some v /\
  parse_uint_auto (uart_puthex32 v ++ rest) = Some v.
Proof.
  unfold parse_uint_auto. split.
  - unfold uart_putdec. destruct (v =? 0) eqn:E; zbool.
    + subst. assert (hex_prefix ([48] ++ rest) = false) as Hp.
      { destruct rest as [|c rest]; [done|]. destruct Hrest as (_ & ? & ?). simpl.
        by rewrite (proj2 (Z.eqb_neq c 120)), (proj2 (Z.eqb_neq c 88)). }
      change (skip_blank ([48] ++ rest)) with ([48] ++ rest). rewrite Hp.
      change (dec_scan ([48] ++ rest) 0 false) with (dec_scan rest 0 true).
      by rewrite scan_end_dec.
    + assert (0 < v < 10 ^ Z.of_nat 31) as Hb.
      { change (10 ^ Z.of_nat 31) with 10000000000000000000000000000000. mlia. }
      destruct (dec_loop_head 31 v rest Hb) as (d & l & Hl & Hd).
      rewrite dec_loop_app. cbn [app]. rewrite Hl. cbn [skip_blank].
      assert (is_blank (48 + d) = false) as -> by (unfold is_blank; lia).
      assert (hex_prefix (48 + d :: l) = false) as ->.
      { unfold hex_prefix. assert (48 + d <> 48) by lia. repeat case_match; done || lia. }
      rewrite <- Hl, dec_scan_loop, scan_end_dec by done. done.
  - unfold uart_puthex32. rewrite <- app_assoc, hex_loop_app.
    cbn [app]. set (l := hex_loop 8 v rest).
    change ((let '(w, any) := hex_scan l 0 false in if any then Some w else None) = Some v).
    subst l. rewrite hex_scan_loop, scan_end_hex by done.
    f_equal. change (16 ^ Z.of_nat 8) with 4294967296. mlia.
Qed.

Lemma parse_print_roundtrip_example :
  parse_uint_auto (uart_putdec 945004 ++ " bytes") = Some 945004 /\
  parse_uint_auto (uart_puthex32 945004 ++ " bytes") = Some 945004.
Proof. apply parse_print_roundtrip; [mlia | vm_compute; intuition congruence]. Defined.

(** The kernel prints numbers as the booter does.  Its hexadecimal printer
    gives the booter's eight digits without the 0x, its decimal printer the
    same text, and the text never exceeds the ten bytes of its buffer. *)
Theorem kernel_print_agrees (v : Z) (Hv : is_u32 v) :
  [48; 120] ++ puthex32 v = uart_puthex32 v /\
  putdec v = uart_putdec v /\ (length (putdec v) <= 10)%nat.
Proof.
  unfold puthex32, uart_puthex32. rewrite hex_loop_puthex, app_nil_r. split; [done|].
  assert (0 <= v < 10 ^ Z.of_nat 10) as Hb
    by (change (10 ^ Z.of_nat 10) with 10000000000; mlia).
  unfold putdec, uart_putdec. rewrite (dec_loop_fuel 10 31) by (done || lia).
  split; [done|]. case_if; [simpl; lia|].
  pose proof (dec_loop_length 10 v [] 10 Hb ltac:(lia)). simpl in *. lia.
Qed.

Lemma kernel_print_agrees_example :
  [48; 120] ++ puthex32 4294967295 = uart_puthex32 4294967295 /\
  putdec 4294967295 = uart_putdec 4294967295 /\ (length (putdec 4294967295) <= 10)%nat.
Proof. apply kernel_print_agrees. mlia. Defined.

Lemma bx_hex_scan_eq s : forall v any, bx_hex_scan s v any = hex_scan s v any.
Proof.
  induction s as [|c s IH]; intros v any; simpl; [done|].
  unfold bx_is_hex, bx_hexv, hex_digit.
  destruct ((48 <=? c) && (c <=? 57)); simpl; [apply IH|].
  destruct ((97 <=? c) && (c <=? 102)); simpl; [rewrite IH; do 2 f_equal; lia|].
  destruct ((65 <=? c) && (c <=? 70)); [rewrite IH; do 2 f_equal; lia | done].
Qed.

Lemma bx_dec_scan_eq s : forall v, dec_scan s v true = (bx_dec_scan s v, true).
Proof.
  induction s as [|c s IH]; intros v; simpl; [done|]. unfold dec_digit.
  by destruct ((48 <=? c) && (c <=? 57)).
Qed.

Lemma bx_skip_ws_eq s :
  Forall (fun c => c <> 13 /\ c <> 10) s -> bx_skip_ws s = skip_blank s.
Proof.
  induction 1 as [|c s [H1 H2] Hs IH]; simpl; [done|].
  unfold bx_is_space, is_blank. rewrite (proj2 (Z.eqb_neq c 13)), (proj2 (Z.eqb_neq c 10)) by done.
  rewrite !orb_false_r. by rewrite IH.
Qed.

(** The two number parsers of the console agree: on a line without CR and
    LF, which is what the line editor stores, [bx_parse_uint_auto] accepts the
    same texts as [parse_uint_auto] and returns the same values. *)
Lemma bx_parse_uint_auto_agrees (s : list Z)
    (Hs : Forall (fun c => c <> 13 /\ c <> 10) s) :
  bx_parse_uint_auto s = parse_uint_auto s.
Proof.
  unfold bx_parse_uint_auto, parse_uint_auto. rewrite bx_skip_ws_eq by done.
  destruct (hex_prefix (skip_blank s)); [by rewrite bx_hex_scan_eq|].
  destruct (skip_blank s) as [|c l]; [done|]. cbn [dec_scan bx_dec_scan]. unfold dec_digit.
  destruct ((48 <=? c) && (c <=? 57)) eqn:E.
  - rewrite bx_dec_scan_eq. zbool. zcases.
  - zbool; zcases.
Qed.

End Print.
