(* ===== verification/BootConfig.v ===== *)
(** Boot configuration text (src/booter/hfsplus_boot.c): bounded string
    helpers, path splitting, and the extraction of the kernel flags and of the
    [kernel=] and [initrd=] settings from com.apple.Boot.plist.

    A character buffer of capacity [cap] is the C string it holds; a function
    that fills one is shown to leave room for the NUL. *)

From S2P Require Import Prelude.

Module BootConfig.

(** Cuts a buffer at its first NUL: what a reader of the C string sees. *)
Fixpoint c_string (l : list Z) : list Z :=
  match l with
  | [] => []
  | c :: l => if c =? 0 then [] else c :: c_string l
  end.

Definition slen (s : list Z) : Z := Z.of_nat (length s).

(** [scopy(dst, cap, src)]: the string left in [dst]; [None] when [cap] is 0 and
    [dst] is not touched. *)
Definition scopy (cap : Z) (src : list Z) : option (list Z) :=
  if cap =? 0 then None else Some (take (Z.to_nat (cap - 1)) src).

(** [sappend_token(dst, cap, src)] *)
Definition sappend_token (dst : list Z) (cap : Z) (src : list Z) : list Z :=
  if (cap =? 0) || bool_decide (src = []) then dst
  else
    let i := slen dst in
    if cap <=? i + 1 then dst
    else
      let dst := if negb (i =? 0) && negb (default 0 (last dst) =? 32) then dst ++ [32] else dst in
      dst ++ take (Z.to_nat (cap - 1 - slen dst)) src.

(** [s_eq(a, b)]: equality of C strings. *)
Fixpoint s_eq (a b : list Z) : bool :=
  match a, b with
  | [], [] => true
  | x :: a, y :: b => (x =? y) && s_eq a b
  | _, _ => false
  end.

(** [s_starts_at(s, len, pos, pat)] on the suffix [l] of [s] at [pos]. *)
Fixpoint s_starts (l pat : list Z) {struct pat} : bool :=
  match pat with
  | [] => true
  | c :: pat => match l with d :: l => (d =? c) && s_starts l pat | [] => false end
  end.

(** *** Paths *)

Fixpoint skip_slashes (p : list Z) : list Z :=
  match p with
  | c :: p' => if c =? 47 then skip_slashes p' else p
  | [] => []
  end.

(** The characters of a component, all of them, and what follows. *)
Fixpoint span_component (p : list Z) : list Z * list Z :=
  match p with
  | c :: p' => if c =? 47 then ([], p) else let '(a, b) := span_component p' in (c :: a, b)
  | [] => ([], [])
  end.

(** [split_next_path_component(path, start, out, cap)] on the suffix of [path]
    at [start]: the component stored in [out] and the suffix at the returned
    position, or [None] for -1. *)
Definition split_next_path_component (p : list Z) (cap : Z) : option (list Z * list Z) :=
  match skip_slashes p with
  | [] => None
  | p => let '(comp, p) := span_component p in
         Some (take (Z.to_nat (cap - 1)) comp, skip_slashes p)
  end.

Definition path_has_more (p : list Z) : bool := negb (bool_decide (skip_slashes p = [])).

(** *** Flags *)

(** The characters that end the value of a flag. *)
Definition flag_end (c : Z) : bool :=
  (c =? 32) || (c =? 9) || (c =? 13) || (c =? 10) || (c =? 60) || (c =? 34) || (c =? 39).

(** [while (j < len && k + 1 < cap) { ... out[k++] = c; j++; }] *)
Fixpoint flag_value (l : list Z) (room : nat) : list Z :=
  match l, room with
  | c :: l, S room => if flag_end c then [] else c :: flag_value l room
  | _, _ => []
  end.

(** The loop over [i], on the suffix of [text] at [i]. *)
Fixpoint named_flag_loop (l name : list Z) (cap : Z) : Z * option (list Z) :=
  match l with
  | [] => (-1, None)
  | _ :: l' =>
      if slen l <=? slen name then (-1, None)
      else if s_starts l name && (l !!! length name =? 61)
      then let v := flag_value (drop (S (length name)) l) (Z.to_nat (cap - 1)) in
           (if bool_decide (v = []) then -1 else 0, Some v)
      else named_flag_loop l' name cap
  end.

(** [extract_named_flag(text, len, name, out, cap)]: the returned code and what
    was stored in [out], if anything. *)
Definition extract_named_flag (text name : list Z) (cap : Z) : Z * option (list Z) :=
  if (cap <=? 0) || (slen name <=? 0) then (-1, None) else named_flag_loop text name cap.

(** The search loops of [extract_kernel_flags_string]: the first position of
    [pat] in the suffix [l] that starts at [pos]. *)
Fixpoint find_from (l pat : list Z) (pos : Z) : option Z :=
  if s_starts l pat then Some pos
  else match l with [] => None | _ :: l => find_from l pat (pos + 1) end.

Definition extract_kernel_flags_string (text : list Z) (cap : Z) : Z * option (list Z) :=
  let key : list Z := "Kernel Flags" in
  let open : list Z := "<string>" in
  let close : list Z := "</string>" in
  if cap <=? 0 then (-1, None)
  else
    match find_from text key 0 with
    | None => (-1, None)
    | Some key_pos =>
        let i := key_pos + slen key in
        match find_from (drop (Z.to_nat i) text) open i with
        | None => (-1, None)
        | Some j =>
            let open_pos := j + slen open in
            match find_from (drop (Z.to_nat open_pos) text) close open_pos with
            | None => (-1, None)
            | Some close_pos =>
                let out := take (Z.to_nat (Z.min (close_pos - open_pos) (cap - 1)))
                             (drop (Z.to_nat open_pos) text) in
                (if bool_decide (out = []) then -1 else 0, Some out)
            end
        end
    end.

(** *** Capacity *)

Lemma scopy_room cap src out : 0 <= cap -> scopy cap src = Some out -> slen out < cap.
Proof.
  unfold scopy, slen. case_if; zbool; [done|]. intros ? [= <-]. rewrite length_take. lia.
Qed.

Lemma sappend_token_room dst cap src :
  slen dst < cap -> slen (sappend_token dst cap src) < cap.
Proof.
  unfold sappend_token, slen. intros Hd. case_if; [done|]. case_if; zbool; [done|..].
  all: rewrite length_app, length_take; case_if; rewrite ?length_app; simpl; lia.
Qed.

Lemma flag_value_room l : forall room, (length (flag_value l room) <= room)%nat.
Proof.
  induction l as [|c l IH]; intros [|room]; simpl; try lia. case_if; simpl; [lia|].
  specialize (IH room). lia.
Qed.

(** *** Searching *)

Lemma s_starts_prefix l pat : s_starts l pat = true <-> pat `prefix_of` l.
Proof.
  revert l. induction pat as [|c pat IH]; intros l; simpl.
  - split; [intros; apply prefix_nil | done].
  - destruct l as [|d l]; [split; [done | by intros [k Hk]]|].
    rewrite andb_true_iff, IH, Z.eqb_eq. split.
    + intros [-> H]. by apply prefix_cons.
    + intros H. split; [symmetry; by apply prefix_cons_inv_1 in H | by apply prefix_cons_inv_2 in H].
Qed.

Lemma s_starts_prefix_false l pat : s_starts l pat = false -> ~ pat `prefix_of` l.
Proof. intros H Hp. apply s_starts_prefix in Hp. congruence. Qed.

(** No occurrence of [pat] in [l] before position [n]. *)
Definition none_before (pat l : list Z) (n : nat) : Prop :=
  forall j, (j < n)%nat -> ~ pat `prefix_of` drop j l.

Lemma none_before_cons pat c l n :
  ~ pat `prefix_of` (c :: l) -> none_before pat l n -> none_before pat (c :: l) (S n).
Proof. intros H0 H [|j] Hj; [done|]. apply H. lia. Qed.

Lemma find_from_first pat : forall n l pos,
  pat `prefix_of` drop n l -> none_before pat l n ->
  find_from l pat pos = Some (pos + Z.of_nat n).
Proof.
  induction n as [|n IH]; intros l pos Hp Hn.
  - rewrite drop_0 in Hp. assert (s_starts l pat = true) as Hs by (by apply s_starts_prefix).
    destruct l; simpl; rewrite Hs; f_equal; lia.
  - assert (s_starts l pat = false) as Hs.
    { apply not_true_iff_false. rewrite s_starts_prefix. apply (Hn 0%nat). lia. }
    destruct l as [|c l].
    + rewrite drop_nil in Hp. apply s_starts_prefix in Hp. congruence.
    + cbn [find_from]. rewrite Hs. rewrite (IH l (pos + 1)); [f_equal; lia | done |].
      intros j Hj. apply (Hn (S j)). lia.
Qed.

(** The longest prefix of [l] without a delimiter. *)
Fixpoint until_flag_end (l : list Z) : list Z :=
  match l with
  | c :: l => if flag_end c then [] else c :: until_flag_end l
  | [] => []
  end.

Lemma flag_value_take l : forall room, flag_value l room = take room (until_flag_end l).
Proof.
  induction l as [|c l IH]; intros [|room]; simpl; try done.
  case_if; [done|]. by rewrite IH.
Qed.

Lemma starts_eq_iff l name :
  (length name < length l)%nat ->
  s_starts l name && (l !!! length name =? 61) = true <-> (name ++ [61]) `prefix_of` l.
Proof.
  intros Hlen. rewrite andb_true_iff, s_starts_prefix, Z.eqb_eq. split.
  - intros [[k ->] Hk]. rewrite length_app in Hlen. destruct k as [|c k]; simpl in Hlen; [lia|].
    rewrite lookup_total_app_r, Nat.sub_diag in Hk by lia. simpl in Hk. subst.
    exists k. by rewrite <- app_assoc.
  - intros [k ->]. rewrite <- app_assoc. split; [by eexists|].
    rewrite lookup_total_app_r, Nat.sub_diag by lia. done.
Qed.

Lemma named_flag_loop_spec name cap l :
  match (named_flag_loop l name cap).2 with
  | Some v => exists i, (name ++ [61]) `prefix_of` drop i l /\
      none_before (name ++ [61]) l i /\
      v = take (Z.to_nat (cap - 1)) (until_flag_end (drop (i + S (length name)) l)) /\
      (named_flag_loop l name cap).1 = if bool_decide (v = []) then -1 else 0
  | None => (forall i, ~ (name ++ [61]) `prefix_of` drop i l) /\
      (named_flag_loop l name cap).1 = -1
  end.
Proof.
  assert (forall k : list Z, (length k <= length name)%nat ->
    forall i, ~ (name ++ [61]) `prefix_of` drop i k) as Hshort.
  { intros k Hk i Hp. apply prefix_length in Hp. rewrite length_app, length_drop in Hp.
    simpl in Hp. lia. }
  induction l as [|c l IH]; cbn [named_flag_loop].
  { split; [|done]. apply Hshort. simpl. lia. }
  case_if; zbool; unfold slen in *; [by split; [apply Hshort; lia|]|].
  pose proof (starts_eq_iff (c :: l) name ltac:(lia)) as Hiff.
  destruct (s_starts _ name && _).
  - simpl snd. simpl fst. exists 0%nat. rewrite drop_0. split_and!; [by apply Hiff | | | done].
    + intros j Hj. lia.
    + by rewrite flag_value_take.
  - assert (~ (name ++ [61]) `prefix_of` (c :: l)) as Hno by (by rewrite <- Hiff).
    destruct (named_flag_loop l name cap) as [rc [v|]]; simpl in *.
    + destruct IH as (i & Hp & Hn & Hv & Hrc). exists (S i). split_and!; try done.
      by apply none_before_cons.
    + destruct IH as [IH Hrc]. split; [|done]. intros [|i]; [done | apply IH].
Qed.

(** Extracting a named flag.  The value stored is what follows the first
    occurrence of "name=" up to a delimiter, cut to the capacity; the code is 0
    exactly when that value is not empty.  When "name=" does not occur anywhere
    nothing is stored and the code is -1. *)
Theorem extract_named_flag_first (text name : list Z) (cap : Z)
    (Hcap : 0 < cap) (Hname : name <> []) :
  let '(rc, out) := extract_named_flag text name cap in
  match out with
  | Some v => exists i, (name ++ [61]) `prefix_of` drop i text /\
      none_before (name ++ [61]) text i /\
      v = take (Z.to_nat (cap - 1)) (until_flag_end (drop (i + S (length name)) text)) /\
      rc = (if bool_decide (v = []) then -1 else 0)
  | None => (forall i, ~ (name ++ [61]) `prefix_of` drop i text) /\ rc = -1
  end.
Proof.
  unfold extract_named_flag, slen. case_if; zbool.
  - lia.
  - destruct name; [done | simpl in *; lia].
  - pose proof (named_flag_loop_spec name cap text) as Hspec.
    by destruct (named_flag_loop text name cap) as [rc [v|]].
Qed.

Lemma extract_named_flag_first_example :
  let text := "console=ttyS0 kernel=/kernel.elf -v" in
  let '(rc, out) := extract_named_flag text "kernel" 128 in
  match out with
  | Some v => exists i, ("kernel" ++ [61]) `prefix_of` drop i (cstr text) /\
      none_before ("kernel" ++ [61]) text i /\
      v = take (Z.to_nat (128 - 1)) (until_flag_end (drop (i + S (length (cstr "kernel"))) (cstr text))) /\
      rc = (if bool_decide (v = []) then -1 else 0)
  | None => (forall i, ~ ("kernel" ++ [61]) `prefix_of` drop i (cstr text)) /\ rc = -1
  end.
Proof. apply extract_named_flag_first; [lia | done]. Defined.

Lemma drop_two (a b l : list Z) n :
  n = (length a + length b)%nat -> drop n (a ++ b ++ l) = l.
Proof. intros ->. by rewrite app_assoc, <- length_app, drop_app_length. Qed.

Lemma drop_four (a b c d l : list Z) n :
  n = (length a + length b + length c + length d)%nat -> drop n (a ++ b ++ c ++ d ++ l) = l.
Proof.
  intros ->. rewrite (app_assoc a b), (app_assoc c d). apply drop_two. rewrite !length_app. lia.
Qed.

(** The flags of the plist.  In a text where "Kernel Flags" is followed by a
    <string> element, the string extracted is the contents of that element, cut
    to the capacity; the code is 0 unless the element is empty. *)
Theorem extract_kernel_flags_string_value (pre mid flags post : list Z) (cap : Z)
    (Hcap : 0 < cap)
    (Hkey : none_before "Kernel Flags"
       (pre ++ "Kernel Flags" ++ mid ++ "<string>" ++ flags ++ "</string>" ++ post) (length pre))
    (Hopen : none_before "<string>"
       (mid ++ "<string>" ++ flags ++ "</string>" ++ post) (length mid))
    (Hclose : none_before "</string>" (flags ++ "</string>" ++ post) (length flags)) :
  extract_kernel_flags_string
    (pre ++ "Kernel Flags" ++ mid ++ "<string>" ++ flags ++ "</string>" ++ post) cap =
  (if bool_decide (take (Z.to_nat (cap - 1)) flags = []) then -1 else 0,
   Some (take (Z.to_nat (cap - 1)) flags)).
Proof.
  unfold extract_kernel_flags_string. rewrite (proj2 (Z.leb_gt cap 0)) by done.
  set (key := cstr "Kernel Flags") in *. set (op := cstr "<string>") in *.
  set (cl := cstr "</string>") in *. unfold slen.
  rewrite (find_from_first key (length pre)); [ | by rewrite drop_app_length; eexists | done].
  rewrite drop_two by lia.
  rewrite (find_from_first op (length mid)); [ | by rewrite drop_app_length; eexists | done].
  rewrite (drop_four pre key mid op) by lia.
  rewrite (find_from_first cl (length flags)); [ | by rewrite drop_app_length; eexists | done].
  match goal with |- context [take ?n (flags ++ _)] =>
    assert (take n (flags ++ cl ++ post) = take (Z.to_nat (cap - 1)) flags) as -> end; [|done].
  match goal with |- context [Z.min (?x + ?y - ?x) _] => replace (x + y - x) with y by lia end.
  rewrite take_app_le by lia.
  destruct (decide (cap - 1 <= Z.of_nat (length flags))).
  - by rewrite Z.min_r by lia.
  - rewrite Z.min_l, Nat2Z.id by lia. by rewrite !take_ge by lia.
Qed.

(** A com.apple.Boot.plist and its parts. *)
Lemma extract_kernel_flags_string_value_example :
  extract_kernel_flags_string
    ("<dict><key>" ++ "Kernel Flags" ++ "</key>" ++ "<string>" ++
     "kernel=/kernel.elf initrd=/initrd.img -v" ++ "</string>" ++ "</dict>") 256 =
  (if bool_decide (take (Z.to_nat (256 - 1))
      (cstr "kernel=/kernel.elf initrd=/initrd.img -v") = []) then -1 else 0,
   Some (take (Z.to_nat (256 - 1)) (cstr "kernel=/kernel.elf initrd=/initrd.img -v"))).
Proof.
  apply extract_kernel_flags_string_value; [lia | ..];
    intros j Hj; apply s_starts_prefix_false;
    repeat (destruct j as [|j]; [vm_compute; reflexivity|]); exfalso; vm_compute in Hj; lia.
Defined.

(** *** Paths *)

Definition SLASH : Z := 47.

Definition plain (c : list Z) : Prop := c <> [] /\ Forall (fun x => x <> SLASH) c.

(** The path "/c1/c2/..": components each preceded by a slash. *)
Definition slash_join (cs : list (list Z)) : list Z := concat (map (cons SLASH) cs).

#[global] Instance plain_dec c : Decision (plain c).
Proof. unfold plain. apply _. Defined.

Lemma skip_slashes_plain c l : plain c -> skip_slashes (c ++ l) = c ++ l.
Proof.
  intros [Hne Hf]. destruct c as [|x c]; [done|]. apply Forall_cons in Hf as [Hx _].
  simpl. by rewrite (proj2 (Z.eqb_neq x 47)).
Qed.

Lemma skip_slashes_replicate n l : skip_slashes (replicate n SLASH ++ l) = skip_slashes l.
Proof. induction n as [|n IH]; [done|]. simpl. apply IH. Qed.

Lemma span_component_plain c cs :
  Forall (fun x => x <> SLASH) c ->
  span_component (c ++ slash_join cs) = (c, slash_join cs).
Proof.
  induction 1 as [|x c Hx Hc IH]; simpl.
  - destruct cs as [|d cs]; done.
  - by rewrite (proj2 (Z.eqb_neq x 47)), IH.
Qed.

(** Iterating [split_next_path_component] as [hfsplus_read_file] does. *)
Fixpoint path_components (fuel : nat) (p : list Z) (cap : Z) : list (list Z) :=
  match fuel with
  | O => []
  | S fuel => match split_next_path_component p cap with
              | None => []
              | Some (c, p) => c :: path_components fuel p cap
              end
  end.

Definition unslash (cs : list (list Z)) : list Z := skip_slashes (slash_join cs).

Lemma skip_slashes_length l : (length (skip_slashes l) <= length l)%nat.
Proof. induction l as [|c l IH]; simpl; [lia|]. case_if; simpl; lia. Qed.

Lemma span_component_length l : (length (span_component l).2 <= length l)%nat.
Proof.
  induction l as [|c l IH]; simpl; [lia|]. case_if; [simpl; lia|].
  destruct (span_component l) as [a b]. simpl in *. lia.
Qed.

Lemma skip_slashes_head l c l' : skip_slashes l = c :: l' -> c <> 47.
Proof.
  induction l as [|d l IH]; simpl; [done|]. case_if; [done|]. intros [= <- _]. by zbool.
Qed.

Lemma split_next_shorter path cap comp rest :
  split_next_path_component path cap = Some (comp, rest) -> (length rest < length path)%nat.
Proof.
  unfold split_next_path_component. pose proof (skip_slashes_length path) as Hs.
  destruct (skip_slashes path) as [|c l] eqn:Heq; [done|].
  apply skip_slashes_head in Heq. cbn [span_component].
  rewrite (proj2 (Z.eqb_neq c 47)) by done.
  pose proof (span_component_length l). destruct (span_component l) as [a b].
  intros [= <- <-]. pose proof (skip_slashes_length b). simpl in *. lia.
Qed.

Lemma split_next_join c cs cap :
  plain c -> slen c < cap ->
  split_next_path_component (unslash (c :: cs)) cap = Some (c, unslash cs) /\
  split_next_path_component (slash_join (c :: cs)) cap = Some (c, unslash cs).
Proof.
  intros Hc Hlen.
  assert (skip_slashes (slash_join (c :: cs)) = c ++ slash_join cs) as Hs.
  { simpl. by apply skip_slashes_plain. }
  assert (forall p, skip_slashes p = c ++ slash_join cs ->
    split_next_path_component p cap = Some (c, unslash cs)) as H.
  { intros p Hp. unfold split_next_path_component. rewrite Hp.
    assert (take (Z.to_nat (cap - 1)) c = c) as Ht by (apply take_ge; unfold slen in Hlen; lia).
    pose proof (span_component_plain c cs (proj2 Hc)) as Hspan.
    destruct c as [|x c]; [by destruct Hc | cbn [app] in *].
    by rewrite Hspan, Ht. }
  split; apply H; [|done]. unfold unslash. rewrite Hs. by apply skip_slashes_plain.
Qed.

Lemma path_has_more_unslash cs :
  Forall plain cs -> path_has_more (unslash cs) = negb (bool_decide (cs = [])).
Proof.
  intros Hp. destruct cs as [|c cs]; [done|]. apply Forall_cons in Hp as [Hc _].
  unfold path_has_more, unslash. cbn [slash_join map concat app skip_slashes].
  simpl. rewrite !skip_slashes_plain by done. by destruct c; [destruct Hc|].
Qed.

Lemma path_components_unslash cap : forall cs fuel,
  Forall plain cs -> Forall (fun c => slen c < cap) cs -> (length cs <= fuel)%nat ->
  path_components fuel (unslash cs) cap = cs.
Proof.
  induction cs as [|c cs IH]; intros fuel Hp Hl Hf.
  { by destruct fuel. }
  apply Forall_cons in Hp as [Hc Hp]. apply Forall_cons in Hl as [Hlc Hl].
  destruct fuel as [|fuel]; simpl in Hf; [lia|].
  cbn [path_components]. destruct (split_next_join c cs cap Hc Hlc) as [-> _].
  by rewrite IH by (done || lia).
Qed.

(** Splitting a path.  Iterating the splitter over "/c1/c2/..." yields
    exactly the components, when none is empty, contains a slash or exceeds the
    buffer, and [path_has_more] says before each step whether one is left. *)
Theorem path_components_join (cs : list (list Z)) (cap : Z) (fuel : nat)
    (Hplain : Forall plain cs) (Hcap : Forall (fun c => slen c < cap) cs)
    (Hfuel : (length cs <= fuel)%nat) :
  path_components fuel (slash_join cs) cap = cs /\
  path_has_more (slash_join cs) = negb (bool_decide (cs = [])).
Proof.
  destruct cs as [|c cs]; [split; [by destruct fuel | done]|].
  apply Forall_cons in Hplain as [Hc Hp]. apply Forall_cons in Hcap as [Hlc Hl]. split.
  - destruct fuel as [|fuel]; simpl in Hfuel; [lia|].
    cbn [path_components]. destruct (split_next_join c cs cap Hc Hlc) as [_ ->].
    by rewrite path_components_unslash by (done || lia).
  - unfold path_has_more. simpl. rewrite skip_slashes_plain by done.
    destruct c; [by destruct Hc | done].
Qed.

Lemma path_components_join_example :
  let cs := [cstr "Library"; cstr "Preferences"; cstr "com.apple.Boot.plist"] in
  path_components 3 (slash_join cs) 64 = cs /\
  path_has_more (slash_join cs) = negb (bool_decide (cs = [])).
Proof.
  apply (path_components_join [cstr "Library"; cstr "Preferences"; cstr "com.apple.Boot.plist"] 64 3).
  - by_computation.
  - by_computation.
  - simpl. lia.
Defined.

End BootConfig.
