(* ===== verification/Hfs.v ===== *)
(** The HFS+ reader of the booter (src/booter/hfsplus_boot.c): block reads
    through the block device, forks and their extents, mounting, the scan of the
    catalog leaves and reading a file by its path.

    The sector buffer [secbuf] is a region of memory, so a destination that is
    [secbuf] itself aliases it as in the source.  The block device is an
    interface ([BlockDevice]) with its laws ([BlockDeviceSpec]); the virtio
    driver is an instance of it. *)

From S2P Require Import Prelude Print BootConfig.

Module Hfs.

Import Print BootConfig.

Local Open Scope c_scope.

(** ** Block device interface *)

(** [blk_init dev m] and [blk_read_blocks lba count buf dev m]: the returned code,
    the text printed, the device and the memory afterwards. *)
Class BlockDevice (D : Type) := {
  blk_init : D -> mem -> Z * list Z * D * mem;
  blk_read_blocks : Z -> Z -> Z -> D -> mem -> Z * list Z * D * mem;
}.

(** What a client may rely on: the contents of the disk are the function
    [blk_byte] of the byte offset, [blk_sectors] sectors long.  The driver owns
    the addresses [blk_private]; once initialised on hardware that is present it
    is ready, and it stays ready as long as nobody else writes there. *)
Class BlockDeviceSpec (D : Type) `{BlockDevice D} := {
  blk_ready : D -> mem -> Prop;
  blk_private : Z -> Prop;
  blk_sectors : Z;
  blk_byte : Z -> Z;
  blk_sectors_u32 : blk_sectors <= 4294967296;
  blk_byte_u8 : forall x, is_u8 (blk_byte x);
  blk_present : D -> Prop;
  blk_init_ok : forall d m,
    blk_present d -> mem_ok m ->
    let '(rc, text, d', m') := blk_init d m in
    rc = 0 /\ blk_ready d' m' /\ mem_ok m' /\
    (forall a, ~ blk_private a -> m' a = m a);
  blk_ready_frame : forall d m m',
    blk_ready d m -> (forall a, blk_private a -> m' a = m a) -> blk_ready d m';
  blk_read_ok : forall lba count buf d m,
    blk_ready d m -> mem_ok m -> 0 <= lba -> 0 < count -> lba + count <= blk_sectors ->
    512 * count < 4294967296 ->
    region buf (512 * count) -> (forall a, inside buf (512 * count) a -> ~ blk_private a) ->
    let '(rc, text, d', m') := blk_read_blocks lba count buf d m in
    rc = 0 /\ blk_ready d' m' /\ mem_ok m' /\
    (forall i, 0 <= i < 512 * count -> m' (buf + i) = blk_byte (512 * lba + i)) /\
    (forall a, ~ inside buf (512 * count) a -> ~ blk_private a -> m' a = m a);
}.

Definition HFS_SECTOR_SIZE : Z := 512.

Definition HFS_NODE_BUF_SIZE : Z := 8192.

(** [ForkMeta] *)
Record ForkMeta := Fork {
  fk_size : Z;
  fk_ext : list (Z * Z);
}.

(** The static [hfs]. *)
Record hfs_vol := {
  blockSize : Z;
  totalBlocks : Z;
  catalogNodeSize : Z;
  firstLeafNode : Z;
  lastLeafNode : Z;
  totalCatalogNodes : Z;
  catalog : ForkMeta;
}.

Section Reader.
Context {D : Type} `{BlockDevice D}.

(** The address of [secbuf], set by the linker. *)
Context (SECBUF : Z).

(** The state of the booter: memory, device, UART output so far, volume. *)
Record boot := Boot {
  b_mem : mem;
  b_dev : D;
  b_out : list Z;
  b_hfs : hfs_vol;
}.

Local Abbreviation M := (PST boot).

Definition set_mem (m : mem) (s : boot) : boot := Boot m (b_dev s) (b_out s) (b_hfs s).

Definition set_hfs (h : hfs_vol) (s : boot) : boot := Boot (b_mem s) (b_dev s) (b_out s) h.

Definition emit (text : list Z) (s : boot) : boot :=
  Boot (b_mem s) (b_dev s) (b_out s ++ text) (b_hfs s).

(** [p], [pdec], [uart_puthex32]: printing appends to the output. *)
Definition p (text : list Z) : M unit := modifyP (emit text).

Definition pdec (v : Z) : M unit := p (uart_putdec v).

(** [virtio_blk_read_blocks(lba, count, buf)] *)
Definition virtio_blk_read_blocks (lba count buf : Z) : M Z := fun s =>
  let '(rc, text, d, m) := blk_read_blocks lba count buf (b_dev s) (b_mem s) in
  Some (rc, Boot m d (b_out s ++ text) (b_hfs s)).

(** [virtio_blk_init()] *)
Definition virtio_blk_init : M Z := fun s =>
  let '(rc, text, d, m) := blk_init (b_dev s) (b_mem s) in
  Some (rc, Boot m d (b_out s ++ text) (b_hfs s)).

Definition disk_read (lba count buf : Z) : M Z :=
  p "[hfs-disk] read lba=" ≫= fun _ =>
  pdec (u32 lba) ≫= fun _ =>
  p " count=" ≫= fun _ =>
  pdec count ≫= fun _ =>
  p "\r\n" ≫= fun _ => virtio_blk_read_blocks lba count buf.

(** ** Forks *)

(** The loop over [fk->ext]: the physical block of a logical one. *)
Fixpoint find_extent (ext : list (Z * Z)) (logical : Z) : option Z :=
  match ext with
  | [] => None
  | (start, count) :: ext =>
      if count =? 0 then find_extent ext logical
      else if logical <? count then Some (start +! logical)
      else find_extent ext (logical -! count)
  end.

(** [while (len > 0) { ... }] *)
Fixpoint fork_loop (fuel : nat) (bs sectorsPerBlock : Z) (fk : ForkMeta)
    (off out len : Z) : M Z :=
  if len <=? 0 then mret 0
  else match fuel with
  | O => out_of_fuel
  | S fuel =>
      let fileBlock := off / bs in
      let inBlock := off -! (fileBlock *! bs) in
      match find_extent (fk_ext fk) fileBlock with
      | None => p "[hfs+] extent no encontrado\r\n" ≫= fun _ => mret (-1)
      | Some physBlock =>
          disk_read (physBlock *! sectorsPerBlock) sectorsPerBlock SECBUF ≫= fun rc =>
          if negb (rc =? 0) then mret (-1)
          else
            let chunk := Z.min (bs -! inBlock) len in
            modifyP (fun s =>
              set_mem (copy_loop (b_mem s) out (SECBUF + inBlock) (Z.to_nat chunk)) s) ≫= fun _ =>
            fork_loop fuel bs sectorsPerBlock fk (off +! chunk) (out +! chunk) (len - chunk)
      end
  end.

Definition block_size (h : hfs_vol) : Z := if blockSize h =? 0 then 4096 else blockSize h.

(** [fork_read(fk, off, dst, len)] *)
Definition fork_read (fk : ForkMeta) (off dst len : Z) : M Z :=
  getP b_hfs ≫= fun h =>
  let bs := block_size h in
  let sectorsPerBlock := bs / HFS_SECTOR_SIZE in
  if fk_size fk =? 0 then mret (-1)
  else
    let sectorsPerBlock := if sectorsPerBlock =? 0 then 1 else sectorsPerBlock in
    if HFS_NODE_BUF_SIZE <? bs
    then p "[hfs+] blockSize demasiado grande para secbuf\r\n" ≫= fun _ => mret (-1)
    else if fk_size fk <=? off then mret (-1)
    else
      let len := if fk_size fk <? off + len then u32 (fk_size fk - off) else len in
      fork_loop (Z.to_nat (len / bs + 3)) bs sectorsPerBlock fk off dst len.

(** Eight extents from [a]: [startBlock], [blockCount] each. *)
Fixpoint read_extents (m : mem) (a : Z) (n : nat) : list (Z * Z) :=
  match n with
  | O => []
  | S n => (be32 m a, be32 m (a + 4)) :: read_extents m (a + 8) n
  end.

(** [fork_from_volume_fork(forkPtr, out)] *)
Definition fork_from_volume_fork (m : mem) (p8 : Z) : ForkMeta :=
  Fork (be64 m p8) (read_extents m (p8 + 16) 8).

(** [fork_from_file_record(rec, out)]: [dataFork] is at offset 88 of the packed
    record, its extents at offset 104. *)
Definition fork_from_file_record (m : mem) (rec : Z) : ForkMeta :=
  Fork (be64 m (rec + 88)) (read_extents m (rec + 104) 8).

(** ** Mounting *)

(** [catalog_range(first, last)] *)
Definition catalog_range (h : hfs_vol) : Z * Z :=
  let nodeSize := if catalogNodeSize h =? 0 then 4096 else catalogNodeSize h in
  let total := if totalCatalogNodes h =? 0 then u32 (fk_size (catalog h)) / nodeSize
               else totalCatalogNodes h in
  let first := firstLeafNode h in
  let last := lastLeafNode h in
  if (first =? 0) || (last =? 0) || (total <=? first) || (total <=? last) || (last <? first)
  then if 1 <? total then (1, total - 1) else (0, 0)
  else (first, last).

(** The loop that prints the catalog extents. *)
Fixpoint print_extents (i : Z) (ext : list (Z * Z)) : M unit :=
  match ext with
  | [] => mret tt
  | (start, count) :: ext =>
      if count =? 0 then mret tt
      else
        p "[hfs+] cat.ext " ≫= fun _ => pdec i ≫= fun _ =>
        p ": start=" ≫= fun _ => pdec start ≫= fun _ =>
        p " count=" ≫= fun _ => pdec count ≫= fun _ =>
        p "\r\n" ≫= fun _ => print_extents (i + 1) ext
  end.

(** The [BTHeaderRec] behind the node descriptor of the first catalog node. *)
Definition read_btree_header (m : mem) (h : hfs_vol) : hfs_vol :=
  let hdr := SECBUF + 14 in
  let nodeSize := be16 m (hdr + 18) in
  {| blockSize := blockSize h; totalBlocks := totalBlocks h;
     catalogNodeSize := if negb (nodeSize =? 0) && (nodeSize <=? HFS_NODE_BUF_SIZE)
                        then nodeSize else catalogNodeSize h;
     firstLeafNode := be32 m (hdr + 10);
     lastLeafNode := be32 m (hdr + 14);
     totalCatalogNodes := be32 m (hdr + 22);
     catalog := catalog h |}.

(** The volume read from the header block in [secbuf]. *)
Definition read_volume_header (m : mem) : hfs_vol :=
  let cat := fork_from_volume_fork m (SECBUF + 272) in
  {| blockSize := be32 m (SECBUF + 40); totalBlocks := be32 m (SECBUF + 44);
     catalogNodeSize := 4096; firstLeafNode := 1; lastLeafNode := 1;
     totalCatalogNodes := u32 (fk_size cat) / 4096; catalog := cat |}.

Definition hfsplus_mount : M Z :=
  disk_read 2 1 SECBUF ≫= fun rc =>
  if negb (rc =? 0) then mret (-1)
  else
    getP b_mem ≫= fun m =>
    let sig := be16 m SECBUF in
    if negb (sig =? 0x482b) && negb (sig =? 0x4858)
    then p "[hfs+] firma invalida: " ≫= fun _ => p (uart_puthex32 sig) ≫= fun _ =>
         p "\r\n" ≫= fun _ => mret (-1)
    else
      modifyP (set_hfs (read_volume_header m)) ≫= fun _ =>
      fork_read (catalog (read_volume_header m)) 0 SECBUF 4096 ≫= fun rc =>
      (if rc =? 0
       then modifyP (fun s => set_hfs (read_btree_header (b_mem s) (b_hfs s)) s)
       else mret tt) ≫= fun _ =>
      getP b_hfs ≫= fun h =>
      p "[hfs+] OK bs=" ≫= fun _ => pdec (blockSize h) ≫= fun _ =>
      p " blocks=" ≫= fun _ => pdec (totalBlocks h) ≫= fun _ =>
      p " cat.size=" ≫= fun _ => pdec (u32 (fk_size (catalog h))) ≫= fun _ =>
      p " node=" ≫= fun _ => pdec (catalogNodeSize h) ≫= fun _ =>
      p "\r\n" ≫= fun _ =>
      print_extents 0 (fk_ext (catalog h)) ≫= fun _ => mret 0.

(** ** Catalog *)

(** [ascii_name_from_utf16be(src, chars, dst, cap)]: the characters stored,
    [room] of them at most. *)
Fixpoint ascii_name_from_utf16be (m : mem) (src : Z) (chars room : nat) : list Z :=
  match chars, room with
  | S chars, S room =>
      let ch := be16 m src in
      (if ch <? 128 then ch else 63) :: ascii_name_from_utf16be m (src + 2) chars room
  | _, _ => []
  end.

Inductive found := FoundFolder (id : Z) | FoundFile (fk : ForkMeta).

(** Which of [folderID], [fileFork] the caller passes. *)
Inductive wanted := WantFolder | WantFile.

(** One record of a leaf: the record type stored, if any, and the result that
    ends the scan, if any. *)
Definition scan_record (m : mem) (nodeSize parent : Z) (target : list Z) (w : wanted)
    (recOff : Z) : option Z * option found :=
  if nodeSize <=? recOff + 8 then (None, None)
  else
    let rec := SECBUF + recOff in
    let keyLen := be16 m rec in
    let recParent := be32 m (rec + 2) in
    let nameLen := be16 m (rec + 6) in
    let dataOff := recOff + 2 + keyLen in
    if nodeSize <? dataOff + 2 then (None, None)
    else
      let name := c_string (ascii_name_from_utf16be m (rec + 8) (Z.to_nat nameLen) 127) in
      if negb (recParent =? parent) || negb (s_eq name target) then (None, None)
      else
        let data := SECBUF + dataOff in
        let rtype := be16 m data in
        match w with
        | WantFolder =>
            (Some rtype, if rtype =? 1 then Some (FoundFolder (be32 m (data + 8))) else None)
        | WantFile =>
            (Some rtype, if rtype =? 2 then Some (FoundFile (fork_from_file_record m data)) else None)
        end.

(** [for (r = 0; r < num; r++)] over the offsets from [idx]. *)
Fixpoint scan_slots (m : mem) (nodeSize parent : Z) (target : list Z) (w : wanted)
    (idx : Z) (n : nat) (rtype : Z) : Z * option found :=
  match n with
  | O => (rtype, None)
  | S n =>
      let '(t, res) := scan_record m nodeSize parent target w (be16 m idx) in
      match res with
      | Some f => (default rtype t, Some f)
      | None => scan_slots m nodeSize parent target w (idx + 2) n (default rtype t)
      end
  end.

(** The node in [secbuf]. *)
Definition scan_node (m : mem) (nodeSize parent : Z) (target : list Z) (w : wanted)
    (rtype : Z) : Z * option found :=
  if negb (load8 m (SECBUF + 8) =? 0xff) then (rtype, None)
  else
    let num := be16 m (SECBUF + 10) in
    if (num =? 0) || (nodeSize <? 2 * (num + 1)) then (rtype, None)
    else scan_slots m nodeSize parent target w (SECBUF + nodeSize - 2 * (num + 1))
           (Z.to_nat num) rtype.

(** [for (node = first; node <= last; node++)], left at [node == last]. *)
Fixpoint scan_nodes (fuel : nat) (nodeSize parent : Z) (target : list Z) (w : wanted)
    (node last rtype : Z) : M (Z * Z * option found) :=
  if last <? node then mret (-1, rtype, None)
  else match fuel with
  | O => out_of_fuel
  | S fuel =>
      getP b_hfs ≫= fun h =>
      fork_read (catalog h) (node *! nodeSize) SECBUF nodeSize ≫= fun rc =>
      if negb (rc =? 0) then mret (-1, rtype, None)
      else
        getP b_mem ≫= fun m =>
        let '(rtype, res) := scan_node m nodeSize parent target w rtype in
        match res with
        | Some f => mret (0, rtype, Some f)
        | None =>
            if node =? last then mret (-1, rtype, None)
            else scan_nodes fuel nodeSize parent target w (node + 1) last rtype
        end
  end.

(** [catalog_scan_child(parent, target, folderID, fileFork, recordType)]: the
    code, the record type and what was found. *)
Definition catalog_scan_child (parent : Z) (target : list Z) (w : wanted) (rtype : Z) :
    M (Z * Z * option found) :=
  getP b_hfs ≫= fun h =>
  let nodeSize := if catalogNodeSize h =? 0 then 4096 else catalogNodeSize h in
  if HFS_NODE_BUF_SIZE <? nodeSize then mret (-1, rtype, None)
  else
    let '(first, last) := catalog_range h in
    scan_nodes (Z.to_nat (last - first + 1)) nodeSize parent target w first last rtype.

(** ** Files *)

(** The loop of [hfsplus_read_file]: [path] is what is left of the path.  The
    result is the code and [*outSize]. *)
Fixpoint read_file_loop (fuel : nat) (path : list Z) (parent dst cap : Z) : M (Z * option Z) :=
  match fuel with
  | O => out_of_fuel
  | S fuel =>
      match split_next_path_component path 128 with
      | None => mret (-1, None)
      | Some (comp, path) =>
          if path_has_more path then
            catalog_scan_child parent comp WantFolder 0 ≫= fun '(rc, rtype, res) =>
            match res with
            | Some (FoundFolder folderID) =>
                if negb (rc =? 0) || negb (rtype =? 1)
                then p "[hfs+] carpeta no encontrada: " ≫= fun _ => p comp ≫= fun _ =>
                     p "\r\n" ≫= fun _ => mret (-1, None)
                else read_file_loop fuel path folderID dst cap
            | _ => p "[hfs+] carpeta no encontrada: " ≫= fun _ => p comp ≫= fun _ =>
                   p "\r\n" ≫= fun _ => mret (-1, None)
            end
          else
            catalog_scan_child parent comp WantFile 0 ≫= fun '(rc, rtype, res) =>
            match res with
            | Some (FoundFile fk) =>
                if negb (rc =? 0) || negb (rtype =? 2)
                then p "[hfs+] archivo no encontrado: " ≫= fun _ => p comp ≫= fun _ =>
                     p "\r\n" ≫= fun _ => mret (-1, None)
                else if cap <? fk_size fk then
                  p "[hfs+] buffer chico para " ≫= fun _ => p comp ≫= fun _ =>
                  p " size=" ≫= fun _ => pdec (u32 (fk_size fk)) ≫= fun _ =>
                  p " cap=" ≫= fun _ => pdec cap ≫= fun _ =>
                  p "\r\n" ≫= fun _ => mret (-1, None)
                else
                  fork_read fk 0 dst (u32 (fk_size fk)) ≫= fun rc =>
                  if negb (rc =? 0) then mret (-1, None)
                  else mret (0, Some (u32 (fk_size fk)))
            | _ => p "[hfs+] archivo no encontrado: " ≫= fun _ => p comp ≫= fun _ =>
                   p "\r\n" ≫= fun _ => mret (-1, None)
            end
      end
  end.

(** [hfsplus_read_file(path, dst, cap, outSize)] *)
Definition hfsplus_read_file (path : list Z) (dst cap : Z) : M (Z * option Z) :=
  match path with
  | [] => mret (-1, None)
  | _ => read_file_loop (S (length path)) path 2 dst cap
  end.

End Reader.

Arguments Boot {D}.
Arguments b_mem {D}.
Arguments b_dev {D}.
Arguments b_out {D}.
Arguments b_hfs {D}.

(** ** Abstract view of a fork *)

(** The blocks of a fork in file order. *)
Definition fork_blocks (fk : ForkMeta) : list Z :=
  concat (map (fun '(start, count) => seqZ start count) (fk_ext fk)).

Definition extent_ok (e : Z * Z) : Prop :=
  0 <= e.1 /\ 0 <= e.2 /\ e.1 + e.2 <= 4294967296.

Lemma find_extent_blocks (ext : list (Z * Z)) (b : Z) :
  Forall extent_ok ext -> is_u32 b ->
  find_extent ext b =
    concat (map (fun '(start, count) => seqZ start count) ext) !! Z.to_nat b.
Proof.
  intros Hext. revert b. induction Hext as [|[start count] ext He Hext IH]; intros b Hb.
  { simpl. by rewrite lookup_nil. }
  destruct He as (? & ? & ?); simpl in *. case_if; zbool; [subst; by rewrite IH|].
  case_if; zbool.
  - rewrite lookup_app_l by (rewrite length_seqZ; mlia).
    symmetry. apply lookup_seqZ. split; [|mlia]. rewrite u32_small; mlia.
  - rewrite lookup_app_r by (rewrite length_seqZ; mlia). rewrite u32_small by mlia.
    rewrite IH by mlia. rewrite length_seqZ. f_equal. mlia.
Qed.

Lemma fork_blocks_nonneg fk i ph :
  Forall extent_ok (fk_ext fk) -> fork_blocks fk !! i = Some ph -> 0 <= ph.
Proof.
  intros Hext Hph. apply list_elem_of_lookup_2, list_elem_of_In, in_concat in Hph
    as (l & Hl & Hph).
  apply in_map_iff in Hl as ([a c] & <- & Hac). apply list_elem_of_In, elem_of_seqZ in Hph.
  apply list_elem_of_In in Hac. rewrite Forall_forall in Hext. destruct (Hext _ Hac).
  simpl in *. lia.
Qed.

(** ** Proofs against the device interface *)

Section ReaderSpec.
Context {D : Type} `{HD : BlockDevice D} `{HS : !BlockDeviceSpec D}.
Context (SECBUF : Z).
Context (Hsec : region SECBUF 8192).
Context (Hpriv : forall a, inside SECBUF 8192 a -> ~ blk_private a).

Implicit Types (s : boot (D := D)).

Definition ok s : Prop := mem_ok (b_mem s) /\ blk_ready (b_dev s) (b_mem s).

(** The byte [i] of a file on a volume with blocks of [bs] bytes. *)
Definition fork_byte (bs : Z) (fk : ForkMeta) (i : Z) : Z :=
  blk_byte (bs * (fork_blocks fk !!! Z.to_nat (i / bs)) + i mod bs).

(** Block sizes the reader handles: a multiple of the sector, at most [secbuf]. *)
Definition bs_ok (bs : Z) : Prop := 512 <= bs <= 8192 /\ bs mod 512 = 0.

(** Every byte of the fork is on the disk. *)
Definition fork_mapped (bs : Z) (fk : ForkMeta) : Prop :=
  0 < fk_size fk < 4294967296 /\ Forall extent_ok (fk_ext fk) /\
  fk_size fk <= bs * Z.of_nat (length (fork_blocks fk)) /\
  Forall (fun b => bs * (b + 1) <= 512 * blk_sectors) (fork_blocks fk).

(** [s'] differs from [s] only in the region, in the first [k] bytes of the
    sector buffer, in the memory of the driver and in the output. *)
Definition keeps s s' (a n k : Z) : Prop :=
  b_hfs s' = b_hfs s /\
  forall x, ~ inside a n x -> ~ inside SECBUF k x -> ~ blk_private x ->
    b_mem s' x = b_mem s x.

Lemma returns_p {A} text (f : unit -> PST boot A) s (Q : A -> boot -> Prop) :
  returns (f tt) (emit text s) Q -> returns (p text ≫= f) s Q.
Proof. done. Qed.

Lemma disk_read_ok lba count s :
  ok s -> 0 <= lba -> 0 < count <= 16 -> lba + count <= blk_sectors ->
  returns (disk_read lba count SECBUF) s (fun rc s' =>
    rc = 0 /\ ok s' /\ b_hfs s' = b_hfs s /\
    (forall i, 0 <= i < 512 * count -> b_mem s' (SECBUF + i) = blk_byte (512 * lba + i)) /\
    (forall a, ~ inside SECBUF (512 * count) a -> ~ blk_private a -> b_mem s' a = b_mem s a)).
Proof.
  intros [Hm Hr] Hlba Hcount Hcap. unfold disk_read, pdec.
  do 5 apply returns_p.
  unfold returns, virtio_blk_read_blocks. cbn [emit b_mem b_dev b_out b_hfs].
  destruct Hsec as (? & ? & ?).
  pose proof (blk_read_ok lba count SECBUF (b_dev s) (b_mem s) Hr Hm Hlba) as Hok.
  destruct (blk_read_blocks lba count SECBUF (b_dev s) (b_mem s)) as [[[rc text] d] m'].
  destruct Hok as (-> & Hr' & Hm' & Hbytes & Hframe).
  - lia.
  - done.
  - lia.
  - unfold region. lia.
  - intros a Ha. apply Hpriv. unfold inside in *. lia.
  - by split_and!.
Qed.

Lemma fork_byte_at bs fk q ph i :
  fork_blocks fk !! Z.to_nat q = Some ph -> 0 <= i < bs ->
  fork_byte bs fk (bs * q + i) = blk_byte (bs * ph + i).
Proof.
  intros Hph Hi. unfold fork_byte. f_equal.
  replace ((bs * q + i) / bs) with q by (apply (Z.div_unique _ _ _ i); lia).
  replace ((bs * q + i) mod bs) with i by (apply (Z.mod_unique _ _ q); lia).
  by rewrite (list_lookup_total_correct _ _ _ Hph).
Qed.

(** One round of the copying loop, for a destination that starts at or below the
    bytes it is copied from or does not meet them. *)
Lemma fork_step fuel bs fk off out len s (Q : Z -> boot -> Prop) :
  let inBlock := off mod bs in
  let chunk := Z.min (bs - inBlock) len in
  ok s -> bs_ok bs -> fork_mapped bs fk -> 0 <= off -> 0 < len -> off + len <= fk_size fk ->
  region out chunk -> (forall a, inside out chunk a -> ~ blk_private a) ->
  out <= SECBUF + inBlock \/ SECBUF + bs <= out ->
  (forall s', ok s' -> keeps s s' out chunk bs ->
     (forall i, 0 <= i < chunk -> b_mem s' (out + i) = fork_byte bs fk (off + i)) ->
     (forall i, 0 <= i < bs -> ~ inside out chunk (SECBUF + i) ->
        b_mem s' (SECBUF + i) = fork_byte bs fk (off - inBlock + i)) ->
     returns (fork_loop SECBUF fuel bs (bs / 512) fk (u32 (off + chunk)) (u32 (out + chunk))
       (len - chunk)) s' Q) ->
  returns (fork_loop SECBUF (S fuel) bs (bs / 512) fk off out len) s Q.
Proof.
  intros inBlock chunk Hok [Hbs Hbs512] (Hsize & Hext & Hblocks & Hdisk) Hoff Hlen Hend
    Hout Houtp Halias HQ.
  pose proof blk_sectors_u32 as Hcap.
  assert (0 <= off / bs /\ bs * (off / bs) + inBlock = off /\ 0 <= inBlock < bs) as (Hq & Heq & Hin).
  { pose proof (Z.mod_pos_bound off bs). pose proof (Z.div_mod off bs).
    split; [apply Z.div_pos; lia | unfold inBlock; lia]. }
  assert (exists ph, fork_blocks fk !! Z.to_nat (off / bs) = Some ph) as [ph Hph].
  { apply lookup_lt_is_Some. nia. }
  assert (bs * (ph + 1) <= 512 * blk_sectors) as Hphd by (by eapply Forall_lookup_1 in Hdisk).
  assert (0 <= ph) as Hph0 by (by eapply fork_blocks_nonneg).
  assert (off / bs < 4294967296) as Hq32 by nia.
  assert (bs / 512 * 512 = bs) as Hspb by (pose proof (Z.div_mod bs 512); lia).
  assert (find_extent (fk_ext fk) (off / bs) = Some ph) as Hfind
    by (rewrite find_extent_blocks; [done | done | mlia]).
  cbn [fork_loop]. rewrite (proj2 (Z.leb_gt len 0)) by lia. rewrite Hfind.
  rewrite (u32_small (ph * (bs / 512))) by (unfold is_u32; nia).
  rewrite (u32_small (off / bs * bs)) by (unfold is_u32; nia).
  replace (u32 (off - off / bs * bs)) with inBlock by (rewrite u32_small; [lia | mlia]).
  rewrite (u32_small (bs - inBlock)) by mlia. fold chunk.
  eapply returns_bind; [apply disk_read_ok; [done | nia | lia | nia]|].
  intros rc s1 (-> & [Hm1 Hr1] & Hh1 & Hb1 & Hf1). cbn [negb Z.eqb].
  assert (forall i, 0 <= i < bs ->
    b_mem s1 (SECBUF + i) = fork_byte bs fk (off - inBlock + i)) as Hblk.
  { intros i Hi. rewrite Hb1 by lia. replace (off - inBlock + i) with (bs * (off / bs) + i) by lia.
    rewrite (fork_byte_at bs fk (off / bs) ph i) by (done || lia).
    f_equal. nia. }
  destruct Hsec as (? & ? & ?).
  assert (region out (Z.of_nat (Z.to_nat chunk))) as Hout' by (rewrite Z2Nat.id; [done | lia]).
  assert (forall x, copy_loop (b_mem s1) out (SECBUF + inBlock) (Z.to_nat chunk) x =
    if (out <=? x) && (x <? out + chunk) then b_mem s1 (x - out + (SECBUF + inBlock))
    else b_mem s1 x) as Hcopy.
  { intros x. rewrite copy_loop_spec; [by rewrite Z2Nat.id by lia | done | | lia | done].
    unfold region. lia. }
  apply returns_modify. apply HQ; unfold set_mem; cbn [b_mem b_dev b_hfs].
  - split; cbn [b_mem b_dev]; [by apply mem_ok_copy_loop|]. eapply blk_ready_frame; [done|].
    intros a Ha. rewrite Hcopy. zcases. exfalso. eapply Houtp; [|done]. unfold inside. lia.
  - split; [done|]. intros x Hx Hx2 Hx3. cbn [b_mem]. rewrite Hcopy.
    rewrite <- Hf1; [|unfold inside in *; lia | done]. unfold inside in *. zcases.
  - intros i Hi. rewrite Hcopy. zcases. replace (off + i) with (off - inBlock + (inBlock + i)) by lia.
    rewrite <- Hblk by lia. f_equal. lia.
  - intros i Hi Hni. rewrite Hcopy. unfold inside in Hni. zcases; by apply Hblk.
Qed.

Lemma keeps_trans s s1 s2 a n a1 n1 a2 n2 k :
  keeps s s1 a1 n1 k -> keeps s1 s2 a2 n2 k ->
  (forall x, inside a1 n1 x -> inside a n x) -> (forall x, inside a2 n2 x -> inside a n x) ->
  keeps s s2 a n k.
Proof.
  intros [Hh1 Hm1] [Hh2 Hm2] H1 H2. split; [congruence|].
  intros x Hx Hs Hp. rewrite Hm2, Hm1; auto.
Qed.

Lemma fork_loop_done fuel bs spb fk off out s :
  fork_loop SECBUF fuel bs spb fk off out 0 s = Some (0, s).
Proof. by destruct fuel. Qed.

(** The loop with a destination that does not meet the sector buffer. *)
Lemma fork_loop_ok bs fk : forall fuel off out len s,
  ok s -> bs_ok bs -> fork_mapped bs fk -> 0 <= off -> 0 <= len -> off + len <= fk_size fk ->
  off mod bs + len <= Z.of_nat fuel * bs ->
  region out len -> disjoint_reg out len SECBUF 8192 ->
  (forall a, inside out len a -> ~ blk_private a) ->
  returns (fork_loop SECBUF fuel bs (bs / 512) fk off out len) s (fun rc s' =>
    rc = 0 /\ ok s' /\ keeps s s' out len bs /\
    forall i, 0 <= i < len -> b_mem s' (out + i) = fork_byte bs fk (off + i)).
Proof.
  induction fuel as [|fuel IH]; intros off out len s Hok Hbs Hfk Hoff Hlen Hend Hfuel Hout Hdis Hnp.
  all: destruct (decide (len = 0)) as [->|Hne];
    [unfold returns; rewrite fork_loop_done; split_and!; (done || lia) |].
  { destruct Hbs. pose proof (Z.mod_pos_bound off bs). lia. }
  assert (0 <= off mod bs < bs) as Hmod by (destruct Hbs; apply Z.mod_pos_bound; lia).
  destruct Hsec as (? & ? & ?), Hout as (? & ? & ?).
  apply fork_step; try done; try lia.
  - unfold region. lia.
  - intros a Ha. apply Hnp. unfold inside in *. lia.
  - destruct Hbs, Hdis; lia.
  - intros s1 Hok1 Hk1 Hb1 _. set (chunk := Z.min (bs - off mod bs) len) in *.
    destruct (decide (chunk = len)) as [Hc|Hc].
    { rewrite Hc, Z.sub_diag in *. unfold returns. rewrite fork_loop_done. by split_and!. }
    assert (chunk = bs - off mod bs) as Hchunk by lia.
    destruct Hfk as (Hsize & Hfk). rewrite !u32_small by mlia.
    assert ((off + chunk) mod bs = 0) as Hmod'.
    { symmetry. apply (Z.mod_unique_pos _ _ (off / bs + 1)); [lia|].
      pose proof (Z.div_mod off bs). lia. }
    eapply returns_mono; [apply IH; try done; try lia|].
    + unfold region. lia.
    + destruct Hdis; [left|right]; lia.
    + intros a Ha. apply Hnp. unfold inside in *. lia.
    + intros rc s2 (-> & Hok2 & Hk2 & Hb2).
      split_and!; [done | done | apply (keeps_trans s s1 s2 _ _ out chunk (out + chunk) (len - chunk)); try done;
        unfold inside; lia | ].
      intros i Hi. destruct (decide (i < chunk)).
      * destruct Hk2 as [_ Hk2]. rewrite Hk2; [by apply Hb1; lia | ..].
        -- unfold inside. lia.
        -- unfold inside. destruct Hbs, Hdis; lia.
        -- apply Hnp. unfold inside. lia.
      * replace (out + i) with (out + chunk + (i - chunk)) by lia. rewrite Hb2 by lia. f_equal. lia.
Qed.

(** The bytes of a read that starts inside the file. *)
Definition read_len (fk : ForkMeta) (off len : Z) : Z := Z.min len (fk_size fk - off).

Lemma fork_read_loop bs fk off dst len s (Q : Z -> boot -> Prop) :
  block_size (b_hfs s) = bs -> bs_ok bs -> fork_mapped bs fk -> 0 <= off < fk_size fk -> is_u32 len ->
  returns (fork_loop SECBUF (Z.to_nat (read_len fk off len / bs + 3)) bs (bs / 512) fk off dst
    (read_len fk off len)) s Q ->
  returns (fork_read SECBUF fk off dst len) s Q.
Proof.
  intros Hbs [Hb1 Hb2] (Hsize & _) Hoff Hlen HQ. unfold fork_read. apply returns_get.
  rewrite Hbs. unfold HFS_SECTOR_SIZE, HFS_NODE_BUF_SIZE.
  rewrite (proj2 (Z.eqb_neq (fk_size fk) 0)), (proj2 (Z.eqb_neq (bs / 512) 0)) by lia.
  rewrite (proj2 (Z.ltb_ge 8192 bs)), (proj2 (Z.leb_gt (fk_size fk) off)) by lia.
  replace (if fk_size fk <? off + len then u32 (fk_size fk - off) else len)
    with (read_len fk off len); [done|].
  unfold read_len. case_if; zbool; [rewrite u32_small|]; mlia.
Qed.

Lemma fork_read_outside bs fk off dst len s :
  ok s -> block_size (b_hfs s) = bs -> bs_ok bs -> fork_mapped bs fk ->
  0 <= off < fk_size fk -> is_u32 len -> region dst (read_len fk off len) ->
  disjoint_reg dst (read_len fk off len) SECBUF 8192 ->
  (forall a, inside dst (read_len fk off len) a -> ~ blk_private a) ->
  returns (fork_read SECBUF fk off dst len) s (fun rc s' =>
    rc = 0 /\ ok s' /\ keeps s s' dst (read_len fk off len) bs /\
    forall i, 0 <= i < read_len fk off len -> b_mem s' (dst + i) = fork_byte bs fk (off + i)).
Proof.
  intros Hok Hbs Hbs' Hfk Hoff Hlen Hdst Hdis Hnp.
  apply (fork_read_loop bs); try done. apply fork_loop_ok; try done; unfold read_len in *; try mlia.
  destruct Hbs' as [? _]. pose proof (Z.mod_pos_bound off bs ltac:(lia)).
  set (l := Z.min len (fk_size fk - off)). pose proof (Z.div_mod l bs ltac:(lia)).
  assert (0 <= l) by (unfold l; mlia). pose proof (Z.mod_pos_bound l bs ltac:(lia)).
  assert (0 <= l / bs) by (apply Z.div_pos; lia).
  rewrite Z2Nat.id by lia. lia.
Qed.

(** Reading into the sector buffer itself, within one block. *)
Lemma fork_read_in_block bs fk off len s :
  ok s -> block_size (b_hfs s) = bs -> bs_ok bs -> fork_mapped bs fk ->
  0 <= off -> 0 < len -> off + len <= fk_size fk -> off mod bs + len <= bs ->
  returns (fork_read SECBUF fk off SECBUF len) s (fun rc s' =>
    rc = 0 /\ ok s' /\ keeps s s' SECBUF len bs /\
    forall i, 0 <= i < len -> b_mem s' (SECBUF + i) = fork_byte bs fk (off + i)).
Proof.
  intros Hok Hbs Hbs' Hfk Hoff Hlen Hend Hin. destruct Hsec as (? & ? & ?).
  pose proof Hbs' as [? _]. pose proof Hfk as [Hsize _].
  assert (read_len fk off len = len) as Hl by (unfold read_len; lia).
  pose proof (Z.mod_pos_bound off bs ltac:(lia)).
  assert (Z.min (bs - off mod bs) len = len) as Hc by lia.
  apply (fork_read_loop bs); try done; [lia | mlia |]. rewrite Hl.
  assert (0 <= len / bs) by (apply Z.div_pos; lia).
  replace (Z.to_nat (len / bs + 3)) with (S (Z.to_nat (len / bs + 2))) by lia.
  apply fork_step; rewrite ?Hc; try done; try lia.
  - unfold region. lia.
  - intros a Ha. apply Hpriv. unfold inside in *. lia.
  - intros s1 Hok1 Hk1 Hb1 _. rewrite Z.sub_diag. unfold returns. rewrite fork_loop_done.
    by split_and!.
Qed.

(** Reading two blocks into the sector buffer: the second block read overwrites
    the first before it is used. *)
Lemma fork_read_overwrites bs fk off s :
  ok s -> block_size (b_hfs s) = bs -> bs_ok bs -> 2 * bs <= 8192 -> fork_mapped bs fk ->
  0 <= off -> off mod bs = 0 -> off + 2 * bs <= fk_size fk ->
  returns (fork_read SECBUF fk off SECBUF (2 * bs)) s (fun rc s' =>
    rc = 0 /\ forall i, 0 <= i < bs ->
      b_mem s' (SECBUF + i) = fork_byte bs fk (off + bs + i) /\
      b_mem s' (SECBUF + bs + i) = fork_byte bs fk (off + bs + i)).
Proof.
  intros Hok Hbs Hbs' H2 Hfk Hoff Hal Hend. pose proof Hsec as (? & ? & ?).
  pose proof Hbs' as [? _]. pose proof Hfk as [Hsize _].
  assert (read_len fk off (2 * bs) = 2 * bs) as Hl by (unfold read_len; lia).
  apply (fork_read_loop bs); try done; [lia | mlia |]. rewrite Hl, Z.div_mul by lia.
  change (Z.to_nat (2 + 3)) with 5%nat.
  assert (Z.min (bs - off mod bs) (2 * bs) = bs) as Hc by lia.
  apply fork_step; rewrite ?Hc; try done; try lia.
  { unfold region. lia. }
  { intros a Ha. apply Hpriv. unfold inside in *. lia. }
  intros s1 Hok1 Hk1 _ _. rewrite !u32_small by mlia.
  assert ((off + bs) mod bs = 0) as Hal' by
    (rewrite <- Hal; replace (off + bs) with (off + 1 * bs) by lia; apply Z_mod_plus_full).
  replace (2 * bs - bs) with bs by lia.
  assert (Z.min (bs - (off + bs) mod bs) bs = bs) as Hc' by lia.
  apply fork_step; rewrite ?Hc'; try done; try lia.
  { unfold region. lia. }
  { intros a Ha. apply Hpriv. unfold inside in *. lia. }
  intros s2 Hok2 Hk2 Hb2 Hr2. rewrite Z.sub_diag. unfold returns. rewrite fork_loop_done.
  split; [done|]. intros i Hi. rewrite Hal' in Hr2. split.
  - rewrite Hr2; [f_equal; lia | done | unfold inside; lia].
  - by rewrite Hb2.
Qed.

End ReaderSpec.

(** ** Termination, for every device *)

(** What the reader relies on of the volume: the widths of its fields. *)
Definition vol_ok (h : hfs_vol) : Prop :=
  is_u32 (blockSize h) /\ is_u16 (catalogNodeSize h) /\ is_u32 (firstLeafNode h) /\
  is_u32 (lastLeafNode h) /\ is_u32 (totalCatalogNodes h).

(** A device that, while [I] holds, stores only into the buffer a read names and
    into addresses of its own, [owned], whatever the read returns; [I] depends on
    nothing else in memory. *)
Record writes_within {D} `{BlockDevice D} (I : D -> mem -> Prop) (owned : Z -> Prop) : Prop := {
  within_read : forall lba count buf d m,
    I d m -> 0 < count -> region buf (512 * count) ->
    (forall a, inside buf (512 * count) a -> ~ owned a) ->
    let '(rc, text, d', m') := blk_read_blocks lba count buf d m in
    I d' m' /\ forall a, ~ inside buf (512 * count) a -> ~ owned a -> m' a = m a;
  within_stable : forall d m m', I d m -> (forall a, owned a -> m' a = m a) -> I d m';
}.

Section Ends.
Context {D : Type} `{HD : BlockDevice D} (SECBUF : Z).

(** The volume, a predicate [K] on the device and the memory that the reads into
    the sector buffer and the copies into the regions of [W] keep. *)
Context (h : hfs_vol) (K : D -> mem -> Prop) (W : Z -> Z -> Prop).
Context (Hvol : vol_ok h).
Context (K_read : forall lba count d m, 0 < count <= 16 -> K d m ->
  let '(rc, text, d', m') := blk_read_blocks lba count SECBUF d m in K d' m').
Context (K_copy : forall d m out src n, K d m -> W out (Z.of_nat n) -> K d (copy_loop m out src n)).
Context (W_prefix : forall a n k, W a n -> 0 < k <= n -> W a k).
Context (W_rest : forall a n k, W a n -> 0 < k < n -> W (u32 (a + k)) (n - k)).
Context (W_sec : W SECBUF 8192).

Definition vol_at (s : boot (D := D)) : Prop := b_hfs s = h /\ K (b_dev s) (b_mem s).

Lemma p_ends text : ends vol_at (p text).
Proof. by apply ends_modify. Qed.

Hint Resolve p_ends : ends.

Lemma disk_read_ends lba count : 0 < count <= 16 -> ends vol_at (disk_read lba count SECBUF).
Proof.
  intros Hc. unfold disk_read, pdec. do 5 (apply ends_bind; [apply p_ends | intros _]).
  intros s [Hs HK]. unfold returns, virtio_blk_read_blocks.
  specialize (K_read lba count _ _ Hc HK).
  by destruct (blk_read_blocks _ _ _ _ _) as [[[??]?]?].
Qed.

(** Iterations left, times the block size: an offset that wraps around costs one
    more. *)
Definition loop_bound (bs off len : Z) : Z :=
  (if 4294967296 <? off + len then bs else 0) + off mod bs + len.

Lemma loop_bound_step bs off len :
  0 < bs -> is_u32 off -> is_u32 len -> bs - off mod bs < len ->
  loop_bound bs (u32 (off + (bs - off mod bs))) (len - (bs - off mod bs)) + bs
    <= loop_bound bs off len.
Proof.
  intros Hbs Hoff Hlen Hc. pose proof (Z.mod_pos_bound off bs Hbs) as Hm.
  set (chunk := bs - off mod bs) in *. unfold loop_bound.
  destruct (decide (off + chunk < 4294967296)) as [Hw|Hw].
  - rewrite u32_small by mlia.
    assert ((off + chunk) mod bs = 0) as ->.
    { symmetry. apply (Z.mod_unique_pos _ _ (off / bs + 1)); [lia|].
      pose proof (Z.div_mod off bs). lia. }
    zcases; lia.
  - assert (u32 (off + chunk) = off + chunk - 4294967296) as -> by mlia.
    pose proof (Z.mod_pos_bound (off + chunk - 4294967296) bs Hbs). zcases; mlia.
Qed.

Lemma fork_loop_ends bs spb fk : forall fuel off out len,
  0 < bs -> is_u32 bs -> 0 < spb <= 16 -> is_u32 off -> is_u32 len -> (0 < len -> W out len) ->
  loop_bound bs off len <= Z.of_nat fuel * bs ->
  ends vol_at (fork_loop SECBUF fuel bs spb fk off out len).
Proof.
  induction fuel as [|fuel IH]; intros off out len Hbs Hbs32 Hspb Hoff Hlen HW Hfuel;
    cbn [fork_loop].
  all: pose proof (Z.mod_pos_bound off bs Hbs).
  { rewrite (proj2 (Z.leb_le len 0)); [apply ends_ret|]. unfold loop_bound in Hfuel.
    destruct (_ <? _); mlia. }
  case_if; zbool; [apply ends_ret|].
  assert (off / bs * bs = off - off mod bs) as -> by (pose proof (Z.div_mod off bs); lia).
  assert (0 <= off mod bs <= off) by (split; [lia | apply Z.mod_le; mlia]).
  rewrite (u32_small (off - off mod bs)) by mlia.
  replace (off - (off - off mod bs)) with (off mod bs) by lia.
  rewrite (u32_small (off mod bs)), (u32_small (bs - off mod bs)) by mlia.
  destruct (find_extent _ _); [|auto with ends].
  apply ends_bind; [by apply disk_read_ends | intros rc]. case_if; [auto with ends|].
  apply ends_bind; [apply ends_modify; intros s [Hs HK]; split; [done|] | intros _].
  { apply K_copy; [done|]. rewrite Z2Nat.id by lia. apply (W_prefix _ len); [apply HW; lia | lia]. }
  destruct (decide (bs - off mod bs < len)) as [Hc|Hc].
  - rewrite Z.min_l by lia. apply IH; try mlia; [intros _; apply W_rest; [apply HW; lia | lia] |].
    pose proof (loop_bound_step bs off len Hbs Hoff Hlen Hc). lia.
  - rewrite Z.min_r, Z.sub_diag by lia. destruct fuel; apply ends_ret.
Qed.

Lemma fork_read_ends fk off dst len :
  is_u32 off -> is_u32 len -> (off < fk_size fk -> 0 < len -> W dst len) ->
  ends vol_at (fork_read SECBUF fk off dst len).
Proof.
  intros Hoff Hlen HW. unfold fork_read. apply ends_get. intros s [-> _].
  destruct Hvol as (Hbs & _).
  set (bs := block_size h).
  assert (0 < bs /\ is_u32 bs) as [Hbs0 Hbs32] by (unfold bs, block_size; case_if; zbool; mlia).
  case_if; [auto with ends|]. unfold HFS_SECTOR_SIZE, HFS_NODE_BUF_SIZE.
  case_if; zbool; [auto with ends|]. case_if; zbool; [auto with ends|].
  set (l := if _ <? _ then _ else len).
  assert (is_u32 l) as Hl by (unfold l; case_if; [apply u32_range | done]).
  assert (0 < l -> W dst l) as HWl.
  { intros Hl0. destruct (decide (l = len)) as [E|]; [rewrite E in *; auto|].
    unfold l in *. destruct (fk_size fk <? off + len) eqn:Hlt; zbool; [|done].
    pose proof (Z.mod_le (fk_size fk - off) 4294967296 ltac:(lia) ltac:(lia)).
    apply (W_prefix _ len); [apply HW; lia | unfold u32 in *; lia]. }
  pose proof (Z.div_le_upper_bound bs 512 16). pose proof (Z.div_pos bs 512).
  apply fork_loop_ends; try done; [case_if; zbool; lia|]. unfold loop_bound.
  pose proof (Z.mod_pos_bound off bs Hbs0). pose proof (Z.div_mod l bs ltac:(lia)).
  pose proof (Z.mod_pos_bound l bs Hbs0). assert (0 <= l / bs) by (apply Z.div_pos; mlia).
  rewrite Z2Nat.id by lia. zcases; lia.
Qed.

Lemma scan_nodes_ends nodeSize parent target w last : forall fuel node rtype,
  is_u32 nodeSize -> nodeSize <= 8192 -> last - node + 1 <= Z.of_nat fuel ->
  ends vol_at (scan_nodes SECBUF fuel nodeSize parent target w node last rtype).
Proof.
  induction fuel as [|fuel IH]; intros node rtype Hn Hn8 Hf; cbn [scan_nodes].
  all: case_if; zbool; [auto with ends | try lia].
  apply ends_get. intros s Hs.
  apply ends_bind; [apply fork_read_ends; [apply u32_range | done | ] | intros rc].
  { intros _ ?. by apply (W_prefix _ 8192). }
  case_if; [auto with ends|]. apply ends_get. intros s' Hs'.
  destruct (scan_node _ _ _ _ _ _ _) as [t [f|]]; [auto with ends|].
  case_if; [auto with ends|]. apply IH; [done | done | lia].
Qed.

Lemma catalog_scan_child_ends parent target w rtype :
  ends vol_at (catalog_scan_child SECBUF parent target w rtype).
Proof.
  unfold catalog_scan_child. apply ends_get. intros s [-> _]. destruct Hvol as (_ & Hn & _).
  unfold HFS_NODE_BUF_SIZE. set (ns := if _ =? 0 then 4096 else _).
  assert (is_u32 ns) by (unfold ns; case_if; mlia).
  case_if; zbool; [auto with ends|]. destruct (catalog_range h) as [first last].
  apply scan_nodes_ends; [done | done | lia].
Qed.

Hint Resolve catalog_scan_child_ends : ends.

Lemma read_file_loop_ends dst cap : forall fuel path parent,
  W dst cap -> (length path < fuel)%nat -> ends vol_at (read_file_loop SECBUF fuel path parent dst cap).
Proof.
  induction fuel as [|fuel IH]; intros path parent HW Hf; [lia|]. cbn [read_file_loop].
  destruct (split_next_path_component path 128) as [[comp path']|] eqn:Hsplit; [|auto with ends].
  apply split_next_shorter in Hsplit. case_if.
  - apply ends_bind; [apply catalog_scan_child_ends | intros [[rc rtype] [[id|fk]|]]];
      auto 10 with ends.
    case_if; auto 10 with ends. apply IH; [done | lia].
  - apply ends_bind; [apply catalog_scan_child_ends | intros [[rc rtype] [[id|fk]|]]];
      auto 10 with ends.
    case_if; [auto 10 with ends|]. case_if; zbool; [unfold pdec; auto 20 with ends|].
    apply ends_bind; [apply fork_read_ends; [mlia | apply u32_range | ] | auto with ends].
    intros Hpos Hl. apply (W_prefix _ cap); [done|].
    pose proof (Z.mod_le (fk_size fk) 4294967296 ltac:(lia) ltac:(lia)). unfold u32 in *. lia.
Qed.

Lemma hfsplus_read_file_keeps path dst cap :
  W dst cap -> ends vol_at (hfsplus_read_file SECBUF path dst cap).
Proof.
  intros HW. unfold hfsplus_read_file. destruct path; [apply ends_ret|].
  apply read_file_loop_ends; [done | lia].
Qed.

End Ends.

(** A copy inside a region the predicate says nothing about. *)
Lemma within_copy {D} `{BlockDevice D} (I : D -> mem -> Prop) owned d m out src n :
  writes_within I owned -> I d m -> region out (Z.of_nat n) ->
  (forall a, inside out (Z.of_nat n) a -> ~ owned a) -> I d (copy_loop m out src n).
Proof.
  intros HI Hd Hr Ho. eapply (within_stable I owned HI); [done|]. intros a Ha.
  apply copy_loop_frame; [done|]. intros Hin. by apply (Ho a).
Qed.

(** Regions a read may store into. *)
Definition within_either (dst cap SECBUF o n : Z) : Prop :=
  region o n /\ ((dst <= o /\ o + n <= dst + cap) \/ (SECBUF <= o /\ o + n <= SECBUF + 8192)).

Lemma hfsplus_read_file_within {D} `{BlockDevice D} (SECBUF : Z) (h : hfs_vol) I owned a
    dst cap path :
  vol_ok h -> writes_within I owned ->
  region SECBUF 8192 -> (forall x, inside SECBUF 8192 x -> ~ owned x) ->
  region dst cap -> (forall x, inside dst cap x -> ~ owned x) ->
  ~ inside dst cap a -> ~ inside SECBUF 8192 a -> ~ owned a ->
  forall m0 : mem, ends (vol_at h (fun d m => I d m /\ m a = m0 a))
    (hfsplus_read_file SECBUF path dst cap).
Proof.
  intros Hvol HI Hsec Hso Hdst Hdo Ha1 Ha2 Ha3 m0.
  assert (forall o n x, within_either dst cap SECBUF o n -> inside o n x -> ~ owned x /\ x <> a)
    as HW.
  { intros o n x [_ Hw] Hx. unfold inside in *. split; [|lia].
    destruct Hw; [apply Hdo | apply Hso]; lia. }
  apply (hfsplus_read_file_keeps SECBUF h _ (within_either dst cap SECBUF)); try done.
  - intros lba count d m Hc [Hd Hm].
    assert (forall x, inside SECBUF (512 * count) x -> inside SECBUF 8192 x) as Hin
      by (unfold inside; lia).
    pose proof (within_read I owned HI lba count SECBUF d m Hd ltac:(lia)
      ltac:(unfold region in *; lia) ltac:(auto)) as Hr.
    destruct (blk_read_blocks _ _ _ _ _) as [[[? ?] d'] m']. destruct Hr as [? Hr].
    split; [done|]. rewrite Hr; auto.
  - intros d m out src n [Hd Hm] Hw. split.
    + eapply within_copy; try done; [apply Hw|]. intros x Hx. by eapply HW.
    + rewrite copy_loop_frame; [done | apply Hw |]. intros Hx. by eapply HW.
  - unfold within_either, region. intros o n k ??. lia.
  - unfold within_either, region. intros o n k Hw ?. rewrite u32_small by mlia. lia.
  - unfold within_either, region in *. lia.
  - unfold within_either, region in *. lia.
Qed.

(** C19: reading a file ends on any device and for any contents of the disk, the
    extents and the catalog links included, and leaves the volume as it was
    mounted.  On a device that stores only into the buffer a read names and into
    memory of its own, nothing changes in memory outside the destination, the
    sector buffer and the device's own memory. *)
Theorem hfsplus_read_file_ends {D} `{BlockDevice D} (SECBUF : Z) (path : list Z) (dst cap : Z)
    (s : boot (D := D)) (Hvol : vol_ok (b_hfs s)) :
  exists res s', hfsplus_read_file SECBUF path dst cap s = Some (res, s') /\
    b_hfs s' = b_hfs s /\
    forall I owned, writes_within I owned -> I (b_dev s) (b_mem s) ->
      region dst cap -> (forall a, inside dst cap a -> ~ owned a) ->
      region SECBUF 8192 -> (forall a, inside SECBUF 8192 a -> ~ owned a) ->
      forall a, ~ inside dst cap a -> ~ inside SECBUF 8192 a -> ~ owned a ->
        b_mem s' a = b_mem s a.
Proof.
  pose proof (hfsplus_read_file_keeps SECBUF (b_hfs s) (fun _ _ => True) (fun _ _ => True)
    Hvol) as Hends.
  specialize (Hends ltac:(by intros ?????? ; repeat case_match) ltac:(done) ltac:(done)
    ltac:(done) I path dst cap I s (conj eq_refl I)). unfold returns in Hends.
  destruct (hfsplus_read_file SECBUF path dst cap s) as [[res s']|] eqn:E; [|done].
  exists res, s'. split_and!; [done | apply Hends |].
  intros J owned HJ Hs Hdst Hdo Hsec Hso a Ha1 Ha2 Ha3.
  pose proof (hfsplus_read_file_within SECBUF (b_hfs s) J owned a dst cap path Hvol HJ Hsec
    Hso Hdst Hdo Ha1 Ha2 Ha3 (b_mem s) s (conj eq_refl (conj Hs eq_refl))) as Hk.
  unfold returns in Hk. rewrite E in Hk. apply Hk.
Qed.

End Hfs.
