(* ===== verification/VirtioDev.v ===== *)
(** The virtio block device as the drivers see it: a register window, a request
    queue in memory and a disk.

    The device is hardware, so it is a parameter: [VirtioMmio] has the register
    accesses and the work the device does on its own between two steps of the
    CPU, and [VirtioBlkSpec] has what the Virtio specification (legacy MMIO
    transport, split queues, block requests) promises of them.  Both drivers,
    src/virtio_blk_legacy.c and the one in src/kernel_xnu_entry.c, are verified
    against this interface. *)

From S2P Require Import Prelude.

Module VirtioDev.

Local Open Scope c_scope.

(** ** Registers *)

Definition VMMIO_MAGIC : Z := 0x000.

Definition VMMIO_VERSION : Z := 0x004.

Definition VMMIO_DEVICE_ID : Z := 0x008.

Definition VMMIO_VENDOR_ID : Z := 0x00c.

Definition VMMIO_DEVICE_FEATURES : Z := 0x010.

Definition VMMIO_DEVICE_FEATURES_SEL : Z := 0x014.

Definition VMMIO_DRIVER_FEATURES : Z := 0x020.

Definition VMMIO_DRIVER_FEATURES_SEL : Z := 0x024.

Definition VMMIO_GUEST_PAGE_SIZE : Z := 0x028.

Definition VMMIO_QUEUE_SEL : Z := 0x030.

Definition VMMIO_QUEUE_NUM_MAX : Z := 0x034.

Definition VMMIO_QUEUE_NUM : Z := 0x038.

Definition VMMIO_QUEUE_ALIGN : Z := 0x03c.

Definition VMMIO_QUEUE_PFN : Z := 0x040.

Definition VMMIO_QUEUE_NOTIFY : Z := 0x050.

Definition VMMIO_INTERRUPT_STATUS : Z := 0x060.

Definition VMMIO_INTERRUPT_ACK : Z := 0x064.

Definition VMMIO_STATUS : Z := 0x070.

Definition VMMIO_CONFIG : Z := 0x100.

Definition VIRTIO_MAGIC : Z := 0x74726976.

Definition VIRTIO_ID_BLOCK : Z := 2.

Definition VIRTIO_STATUS_ACKNOWLEDGE : Z := 1.

Definition VIRTIO_STATUS_DRIVER : Z := 2.

Definition VIRTIO_STATUS_DRIVER_OK : Z := 4.

Definition VIRTIO_STATUS_FEATURES_OK : Z := 8.

Definition QNUM : Z := 8.

Definition VIRTQ_DESC_F_NEXT : Z := 1.

Definition VIRTQ_DESC_F_WRITE : Z := 2.

Definition VIRTIO_BLK_T_IN : Z := 0.

(** ** The queue, as the specification lays it out *)

(** What a device knows of its driver and of queue 0; [q_done] counts the
    requests completed, [q_kick] is the delay left after a notification. *)
Record config := Config {
  q_status : Z;
  q_gpage : Z;
  q_sel : Z;
  q_num : Z;
  q_align : Z;
  q_pfn : Z;
  q_isr : Z;
  q_done : Z;
  q_kick : option nat;
}.

Definition reset_config : config := Config 0 0 0 0 0 0 0 0 None.

(** The effect of a register write; [delay] is the time the device will take to
    look at the queue after a notification. *)
Definition write_effect (off v : Z) (delay : nat) (c : config) : config :=
  let '(Config st gp sel num al pfn isr done kick) := c in
  if off =? VMMIO_STATUS then
    if v =? 0 then reset_config else Config v gp sel num al pfn isr done kick
  else if off =? VMMIO_GUEST_PAGE_SIZE then Config st v sel num al pfn isr done kick
  else if off =? VMMIO_QUEUE_SEL then Config st gp v num al pfn isr done kick
  else if negb (sel =? 0) then c
  else if off =? VMMIO_QUEUE_NUM then Config st gp sel v al pfn isr done kick
  else if off =? VMMIO_QUEUE_ALIGN then Config st gp sel num v pfn isr done kick
  else if off =? VMMIO_QUEUE_PFN then Config st gp sel num al v isr done kick
  else if off =? VMMIO_INTERRUPT_ACK then Config st gp sel num al pfn (Z.ldiff isr v) done kick
  else if off =? VMMIO_QUEUE_NOTIFY then Config st gp sel num al pfn isr done (Some delay)
  else c.

Definition desc_table (c : config) : Z := q_pfn c * q_gpage c.

Definition avail_ring (c : config) : Z := desc_table c + 16 * q_num c.

(** The used ring starts at the next boundary of the alignment. *)
Definition used_ring (c : config) : Z :=
  (avail_ring c + 4 + 2 * q_num c + q_align c - 1) / q_align c * q_align c.

(** The fields of descriptor [i]. *)
Definition desc_addr (c : config) (m : mem) (i : Z) : Z := u32 (load64 m (desc_table c + 16 * i)).

Definition desc_len (c : config) (m : mem) (i : Z) : Z := load32 m (desc_table c + 16 * i + 8).

Definition desc_next (c : config) (m : mem) (i : Z) : Z := load16 m (desc_table c + 16 * i + 14).

(** The bytes of the disk from a sector on. *)
Definition disk_bytes (disk : Z -> Z) (sector len : Z) : list Z :=
  (fun i => disk (512 * sector + i)) <$> seqZ 0 len.

(** A block request: the header at the head of the chain, one data buffer, one
    status byte.  A read in range copies the sectors and reports 0, anything
    else reports an error; then the used ring gets the chain. *)
Definition serve_request (disk : Z -> Z) (capacity : Z) (c : config) (m : mem) : mem :=
  let slot := q_done c mod q_num c in
  let head := load16 m (avail_ring c + 4 + 2 * slot) in
  let data := desc_next c m head in
  let stat := desc_next c m data in
  let type := load32 m (desc_addr c m head) in
  let sector := load64 m (desc_addr c m head + 8) in
  let len := desc_len c m data in
  let fits := (type =? VIRTIO_BLK_T_IN) && (sector + len / 512 <=? capacity) in
  let m1 := if fits then write_bytes m (desc_addr c m data) (disk_bytes disk sector len) else m in
  let m2 := store8 m1 (desc_addr c m stat) (if fits then 0 else 1) in
  let m3 := store32 m2 (used_ring c + 4 + 8 * slot) head in
  let m4 := store32 m3 (used_ring c + 8 + 8 * slot) (if fits then len + 1 else 1) in
  store16 m4 (used_ring c + 2) (q_done c + 1).

(** What the device does when it looks at the queue. *)
Definition serve_queue (disk : Z -> Z) (capacity : Z) (c : config) (m : mem) : config * mem :=
  let '(Config st gp sel num al pfn isr done _) := c in
  if (Z.land st VIRTIO_STATUS_DRIVER_OK =? 0) || (load16 m (avail_ring c + 2) =? u16 done)
  then (Config st gp sel num al pfn isr done None, m)
  else (Config st gp sel num al pfn (Z.lor isr 1) (done + 1) None, serve_request disk capacity c m).

Definition set_kick (k : option nat) (c : config) : config :=
  Config (q_status c) (q_gpage c) (q_sel c) (q_num c) (q_align c) (q_pfn c) (q_isr c) (q_done c) k.

(** One unit of the device's time. *)
Definition tick_effect (disk : Z -> Z) (capacity : Z) (c : config) (m : mem) : config * mem :=
  match q_kick c with
  | None => (c, m)
  | Some (S n) => (set_kick (Some n) c, m)
  | Some O => serve_queue disk capacity c m
  end.

(** ** Interface *)

(** Register reads and writes at a window [base], and the work of the device. *)
Class VirtioMmio (V : Type) := {
  reg_read : V -> Z -> Z -> Z;
  reg_write : V -> Z -> Z -> Z -> V;
  tick : V -> mem -> V * mem;
}.

(** The windows of QEMU virt. *)
Definition windows : list Z := (fun i => 0x10001000 + i * 0x1000) <$> seqZ 0 8.

Definition is_block {V} `{VirtioMmio V} (v : V) (base : Z) : bool :=
  (reg_read v base VMMIO_MAGIC =? VIRTIO_MAGIC) &&
  (reg_read v base VMMIO_DEVICE_ID =? VIRTIO_ID_BLOCK).

(** A machine whose first block device is at [dev_base], with its disk.  Reading
    a register has no effect; [dev_num_max] is the size of its queue. *)
Class VirtioBlkSpec (V : Type) `{VirtioMmio V} := {
  dev_base : Z;
  dev_num_max : Z;
  capacity : Z;
  disk : Z -> Z;
  conf : V -> config;
  delay : V -> nat;
  capacity_u32 : capacity <= 4294967296;
  disk_u8 : forall x, is_u8 (disk x);
  dev_first : forall v, List.find (is_block v) windows = Some dev_base;
  read_status : forall v, reg_read v dev_base VMMIO_STATUS = q_status (conf v);
  read_isr : forall v, reg_read v dev_base VMMIO_INTERRUPT_STATUS = q_isr (conf v);
  read_num_max : forall v, reg_read v dev_base VMMIO_QUEUE_NUM_MAX = dev_num_max;
  read_capacity : forall v,
    reg_read v dev_base VMMIO_CONFIG = u32 capacity /\
    reg_read v dev_base (VMMIO_CONFIG + 4) = u32 (Z.shiftr capacity 32);
  write_conf : forall v off x,
    conf (reg_write v dev_base off x) = write_effect off x (delay v) (conf v);
  tick_conf : forall v m,
    let '(v', m') := tick v m in (conf v', m') = tick_effect disk capacity (conf v) m;
  delay_short : forall v, Z.of_nat (delay v) < 100000000;
}.

(** ** Serving a request of the drivers *)

(** Both drivers keep the queue in two pages at [QT] (descriptors and available
    ring, then the used ring), the request header at [QH] and the status byte at
    [QS]. *)
Record queue_layout := {
  QT : Z;
  QH : Z;
  QS : Z;
}.

Record layout_ok (L : queue_layout) : Prop := {
  lo_T : region (QT L) 8192;
  lo_T_page : QT L mod 4096 = 0;
  lo_T_pos : 0 < QT L;
  lo_H : region (QH L) 16;
  lo_S : region (QS L) 1;
  lo_TH : disjoint_reg (QT L) 8192 (QH L) 16;
  lo_TS : disjoint_reg (QT L) 8192 (QS L) 1;
  lo_HS : disjoint_reg (QH L) 16 (QS L) 1;
}.

(** The addresses the driver and the device use for the queue. *)
Definition private (L : queue_layout) (a : Z) : Prop :=
  inside (QT L) 8192 a \/ inside (QH L) 16 a \/ inside (QS L) 1 a.

(** A device that serves the queue at [QT] with [num] entries, [n] requests done. *)
Definition serving_num (L : queue_layout) (num n : Z) (kick : option nat) (c : config) : Prop :=
  q_status c = 15 /\ q_gpage c = 4096 /\ q_sel c = 0 /\ q_num c = num /\ q_align c = 4096 /\
  q_pfn c = QT L / 4096 /\ q_done c = n /\ q_kick c = kick /\ 0 <= n.

(** The size the drivers lay the queue out for. *)
Abbreviation serving L := (serving_num L QNUM).

(** The request in memory: read [len] bytes from sector [lba] on to [buf]. *)
Definition prepared (L : queue_layout) (n lba len buf : Z) (m : mem) : Prop :=
  load16 m (QT L + 130) = u16 (n + 1) /\ load16 m (QT L + 132 + 2 * (n mod 8)) = 0 /\
  load64 m (QT L) = QH L /\ load16 m (QT L + 14) = 1 /\
  load64 m (QT L + 16) = buf /\ load32 m (QT L + 24) = len /\ load16 m (QT L + 30) = 2 /\
  load64 m (QT L + 32) = QS L /\
  load32 m (QH L) = VIRTIO_BLK_T_IN /\ load64 m (QH L + 8) = lba.

(** The result of a request: what was read, the status and the new index; nothing
    else is written but the used ring. *)
Definition served (L : queue_layout) (dsk : Z -> Z) (n lba len buf : Z) (m m' : mem) : Prop :=
  load16 m' (QT L + 4098) = u16 (n + 1) /\ load8 m' (QS L) = 0 /\
  (forall i, 0 <= i < len -> m' (buf + i) = dsk (512 * lba + i)) /\
  (forall a, ~ inside buf len a -> ~ inside (QT L + 4096) 4096 a -> ~ inside (QS L) 1 a -> m' a = m a).

Lemma serving_table L num n kick c :
  layout_ok L -> serving_num L num n kick c -> desc_table c = QT L.
Proof.
  intros [_ Hpage _ _ _ _ _ _] (_ & Hg & _ & _ & _ & Hp & _). unfold desc_table.
  rewrite Hg, Hp. pose proof (Z.div_mod (QT L) 4096). lia.
Qed.

Lemma serving_places L n kick c :
  layout_ok L -> serving L n kick c ->
  desc_table c = QT L /\ avail_ring c = QT L + 128 /\ used_ring c = QT L + 4096.
Proof.
  intros [HT Hpage _ _ _ _ _ _] (_ & Hg & _ & Hn & Ha & Hp & _). destruct HT as (? & ? & ?).
  assert (desc_table c = QT L) as Hd.
  { unfold desc_table. rewrite Hg, Hp. pose proof (Z.div_mod (QT L) 4096). lia. }
  unfold used_ring, avail_ring. rewrite Hd, Hn, Ha. unfold QNUM.
  split; [done|]. split; [lia|]. pose proof (Z.div_mod (QT L) 4096 ltac:(lia)) as Hdm.
  replace (QT L + 16 * 8 + 4 + 2 * 8 + 4096 - 1) with (147 + (QT L / 4096 + 1) * 4096) by lia.
  rewrite Z.div_add by lia. change (147 / 4096) with 0. lia.
Qed.

Lemma length_disk_bytes dsk sector len : 0 <= len -> Z.of_nat (length (disk_bytes dsk sector len)) = len.
Proof. intros. unfold disk_bytes. rewrite length_fmap, length_seqZ. lia. Qed.

Lemma disk_bytes_lookup dsk sector len i :
  0 <= i < len -> disk_bytes dsk sector len !!! Z.to_nat i = dsk (512 * sector + i).
Proof.
  intros Hi. apply list_lookup_total_correct. unfold disk_bytes. rewrite list_lookup_fmap.
  rewrite lookup_seqZ_lt by lia. simpl. do 2 f_equal. lia.
Qed.

Section Serve.
Context (L : queue_layout) (dsk : Z -> Z) (cap n lba len buf : Z).
Context (HL : layout_ok L) (Hdsk : forall x, is_u8 (dsk x)).
Context (Hbuf : region buf len) (Hlen : 0 < len).
Context (HbT : disjoint_reg buf len (QT L) 8192) (HbS : disjoint_reg buf len (QS L) 1).

Lemma write_data m a :
  write_bytes m buf (disk_bytes dsk lba len) a =
  if (buf <=? a) && (a <? buf + len) then dsk (512 * lba + (a - buf)) else m a.
Proof.
  pose proof (length_disk_bytes dsk lba len ltac:(lia)) as Hl.
  destruct (decide (inside buf len a)) as [Hin|Hout].
  - unfold inside in Hin. rewrite (proj2 (Z.leb_le _ _)), (proj2 (Z.ltb_lt _ _)) by lia. cbn [andb].
    replace a with (buf + Z.of_nat (Z.to_nat (a - buf))) at 1 by lia.
    rewrite write_bytes_lookup by (rewrite ?Hl; done || lia).
    rewrite disk_bytes_lookup by lia. apply u8_small, Hdsk.
  - rewrite write_bytes_frame by (rewrite ?Hl; done). unfold inside in Hout. zcases.
Qed.

(** The used ring is written inside its page. *)
Lemma used_ring_frame m x y z :
  frame m (store16 (store32 (store32 m (QT L + 4096 + 4 + 8 * (n mod 8)) x)
    (QT L + 4096 + 8 + 8 * (n mod 8)) y) (QT L + 4096 + 2) z) (QT L + 4096) 4096.
Proof.
  destruct HL as [(? & ? & ?) _ _ _ _ _ _ _]. pose proof (Z.mod_pos_bound n 8).
  set (m1 := store32 m _ x). set (m2 := store32 m1 _ y).
  apply (frame_trans _ m1); [|apply (frame_trans _ m2)]; (eapply frame_sub;
    [(apply frame_store32 || apply frame_store16); unfold region; lia | lia | lia]).
Qed.

Lemma serve_request_served kick c m :
  serving L n kick c -> prepared L n lba len buf m -> lba + len / 512 <= cap ->
  served L dsk n lba len buf m (serve_request dsk cap c m).
Proof.
  intros Hc (Hi & Hr & Hd0 & Hn0 & Hd1 & Hl1 & Hn1 & Hd2 & Ht & Hs) Hcap.
  destruct (serving_places L n kick c HL Hc) as (HT & Ha & Hu).
  destruct Hc as (_ & _ & _ & Hnum & _ & _ & Hdone & _ & Hn).
  assert (is_u32 (QH L) /\ is_u32 (QS L) /\ is_u32 buf) as (Hh & HS & Hb).
  { destruct HL as [_ _ _ (? & ? & ?) (? & ? & ?) _ _ _], Hbuf as (? & ? & ?). mlia. }
  unfold serve_request, desc_addr, desc_len, desc_next. rewrite HT, Ha, Hu, Hnum, Hdone. unfold QNUM.
  replace (QT L + 128 + 4 + 2 * (n mod 8)) with (QT L + 132 + 2 * (n mod 8)) by lia. rewrite Hr.
  rewrite Z.mul_0_r, Z.add_0_r, Hn0, Hd0. change (16 * 1) with 16.
  replace (QT L + 16 + 14) with (QT L + 30) by lia. replace (QT L + 16 + 8) with (QT L + 24) by lia.
  rewrite Hn1, Hd1, Hl1. change (16 * 2) with 32. rewrite Hd2, !(u32_small) by done.
  rewrite Ht, Hs. rewrite (proj2 (Z.leb_le _ _) Hcap), Z.eqb_refl. cbn [andb].
  set (m2 := store8 _ _ _).
  pose proof (used_ring_frame m2 0 (len + 1) (n + 1)) as Hframe.
  set (m5 := store16 _ _ _) in *.
  assert (forall a, ~ inside (QT L + 4096) 4096 a -> m5 a = m2 a) as H5 by exact Hframe.
  assert (forall a, ~ inside (QS L) 1 a -> m2 a = write_bytes m buf (disk_bytes dsk lba len) a) as H2.
  { exact (frame_store8 _ _ _ HS). }
  destruct HL as [(? & ? & ?) _ _ _ _ _ HTS _]. unfold served, disjoint_reg, inside in *. split_and!.
  - unfold m5. rewrite <- (load16_store16 (store32 (store32 m2 (QT L + 4096 + 4 + 8 * (n mod 8)) 0)
      (QT L + 4096 + 8 + 8 * (n mod 8)) (len + 1)) (QT L + 4096 + 2)) by (unfold region; lia).
    f_equal. lia.
  - rewrite load8_region by done. rewrite H5 by lia. unfold m2.
    rewrite <- (u32_small (QS L)) at 2 by done. by rewrite store8_same.
  - intros i Hi'. rewrite H5, H2 by lia. rewrite write_data. zcases. f_equal. lia.
  - intros a Ha1 Ha2 Ha3. rewrite H5, H2 by done. rewrite write_data. zcases.
Qed.

Lemma serve_request_mem_ok kick c m :
  serving L n kick c -> mem_ok m -> mem_ok (serve_request dsk cap c m).
Proof. intros _ Hm. unfold serve_request. case_if; auto 10 with words. Qed.

(** The device completes the request when it gets to it. *)
Lemma serve_queue_prepared kick c m :
  serving L n kick c -> prepared L n lba len buf m -> lba + len / 512 <= cap -> mem_ok m ->
  let '(c', m') := serve_queue dsk cap c m in
  serving L (n + 1) None c' /\ served L dsk n lba len buf m m' /\ mem_ok m'.
Proof.
  intros Hc Hp Hcap Hm. pose proof (serve_request_served kick c m Hc Hp Hcap) as Hs.
  pose proof (serve_request_mem_ok kick c m Hc Hm) as Hok.
  destruct (serving_places L n kick c HL Hc) as (_ & Ha & _). unfold serve_queue.
  destruct c as [st gp sel num al pfn isr done k]. rewrite Ha.
  replace (QT L + 128 + 2) with (QT L + 130) by lia. destruct Hp as (Hi & _). rewrite Hi.
  destruct Hc as (H1 & H2 & H3 & H4 & H5 & H6 & H7 & H8 & H9). cbn in *. subst.
  change (Z.land 15 VIRTIO_STATUS_DRIVER_OK =? 0) with false.
  rewrite (proj2 (Z.eqb_neq _ _)) by mlia. cbn [orb]. split; [|done].
  unfold serving. cbn. split_and!; (done || lia || idtac).
Qed.

End Serve.

End VirtioDev.
