(* ===== verification/Virtio.v ===== *)
(** The virtio block driver of the booter (src/virtio_blk_legacy.c), on the device
    interface of VirtioDev.v.  It is an instance of the block-device interface
    of the HFS+ reader ([Hfs.BlockDevice], [Hfs.BlockDeviceSpec]), so what is
    proved of the reader and of the boot sequence holds on this driver.

    [__sync_synchronize] is where the device gets to run: between a notification
    and its completion the driver only reads the index of the used ring. *)

From S2P Require Import Prelude Print BootConfig Hfs VirtioDev.

Module Virtio.

Import Print VirtioDev.

Local Open Scope c_scope.

(** ** Printing *)

Definition v_puthex8 (v : Z) : list Z :=
  [HEX !!! Z.to_nat (Z.land (Z.shiftr v 4) 0xF); HEX !!! Z.to_nat (Z.land v 0xF)].

Definition v_puthex32 (v : Z) : list Z := puthex_from 8 v.

(** [b[11]] with its NUL leaves room for ten digits. *)
Definition v_putu32 (v : Z) : list Z := if v =? 0 then [48] else dec_loop 10 v [].

(** [v_hexdump(p, len)] from index [i] on. *)
Fixpoint v_hexdump (m : mem) (p i : Z) (len : nat) : list Z :=
  match len with
  | O => [13; 10]
  | S len =>
      (if i mod 16 =? 0 then [13; 10] ++ v_puthex32 i ++ ": " else []) ++
      v_puthex8 (load8 m (p + i)) ++ [32] ++ v_hexdump m p (i + 1) len
  end.

(** [align_up32(x, a)] *)
Definition align_up32 (x a : Z) : Z := (x +! a -! 1) &! not32 (a -! 1).

(** ** Driver *)

(** The statics: the machine, [mmio], [vq_desc], [vq_avail] and [vq_used]. *)
Record vdev (V : Type) := Vdev {
  v_dev : V;
  v_mmio : Z;
  v_desc : Z;
  v_avail : Z;
  v_used : Z;
}.

Arguments Vdev {V}.
Arguments v_dev {V}.
Arguments v_mmio {V}.
Arguments v_desc {V}.
Arguments v_avail {V}.
Arguments v_used {V}.

Record drv (V : Type) := Drv {
  d_dev : vdev V;
  d_mem : mem;
  d_out : list Z;
}.

Arguments Drv {V}.
Arguments d_dev {V}.
Arguments d_mem {V}.
Arguments d_out {V}.

Section Driver.
Context {V : Type} `{VirtioMmio V}.

(** [L]: the addresses of [vr_raw], [g_hdr] and [g_status]. *)
Context (L : queue_layout).

Local Abbreviation M := (ST (drv V)).

Definition set_v (v : V) (s : drv V) : drv V :=
  let d := d_dev s in Drv (Vdev v (v_mmio d) (v_desc d) (v_avail d) (v_used d)) (d_mem s) (d_out s).

Definition set_dmem (m : mem) (s : drv V) : drv V := Drv (d_dev s) m (d_out s).

Definition v_puts (t : list Z) : M unit := modifyS (fun s => Drv (d_dev s) (d_mem s) (d_out s ++ t)).

(** [R(off)] *)
Definition R (off : Z) : M Z := getsS (fun s => reg_read (v_dev (d_dev s)) (v_mmio (d_dev s)) off).

(** [R(off) = x] *)
Definition W (off x : Z) : M unit :=
  modifyS (fun s => set_v (reg_write (v_dev (d_dev s)) (v_mmio (d_dev s)) off x) s).

(** [__sync_synchronize()] *)
Definition barrier : M unit := modifyS (fun s =>
  let '(v, m) := tick (v_dev (d_dev s)) (d_mem s) in set_dmem m (set_v v s)).

Definition modmem (f : mem -> mem) : M unit := modifyS (fun s => set_dmem (f (d_mem s)) s).

Definition getmem {A} (f : mem -> A) : M A := getsS (fun s => f (d_mem s)).

Definition dbg_regs (tag : list Z) : M unit :=
  v_puts tag;;
  v_puts " STATUS=";; x ← R VMMIO_STATUS; v_puts (v_putu32 x);;
  v_puts " ISR=";; x ← R VMMIO_INTERRUPT_STATUS; v_puts (v_putu32 x);;
  v_puts " QSEL=";; x ← R VMMIO_QUEUE_SEL; v_puts (v_putu32 x);;
  v_puts " QNUM=";; x ← R VMMIO_QUEUE_NUM; v_puts (v_putu32 x);;
  v_puts " QPFN=";; x ← R VMMIO_QUEUE_PFN; v_puts (v_putu32 x);;
  v_puts "\r\n".

(** The scan for a block device: [mmio] is set to the first one. *)
Definition find_block : M unit := modifyS (fun s =>
  let d := d_dev s in
  match List.find (is_block (v_dev d)) windows with
  | Some base => Drv (Vdev (v_dev d) base (v_desc d) (v_avail d) (v_used d)) (d_mem s) (d_out s)
  | None => s
  end).

(** The pointers into [vr_raw]. *)
Definition set_rings (desc avail used : Z) : M unit := modifyS (fun s =>
  let d := d_dev s in Drv (Vdev (v_dev d) (v_mmio d) desc avail used) (d_mem s) (d_out s)).

(** The end of [virtio_blk_init], from the choice of the queue size on. *)
Definition init_queue (qmax : Z) : M Z :=
  (if qmax <? QNUM
   then v_puts "[virtio] WARNING: qmax < QNUM, usando qmax\r\n";; W VMMIO_QUEUE_NUM qmax
   else W VMMIO_QUEUE_NUM QNUM);;
  let desc_sz := 16 * QNUM in
  let avail_off := desc_sz in
  let avail_sz := 2 * 2 + 2 * QNUM + 2 in
  let used_off := align_up32 (avail_off + avail_sz) 4096 in
  modmem (fun m => zero_loop m (QT L) (Z.to_nat 8192));;
  set_rings (QT L) (QT L + avail_off) (QT L + used_off);;
  W VMMIO_GUEST_PAGE_SIZE 4096;;
  W VMMIO_QUEUE_ALIGN 4096;;
  W VMMIO_QUEUE_PFN (Z.shiftr (QT L) 12);;
  avail ← getsS (fun s => v_avail (d_dev s));
  used ← getsS (fun s => v_used (d_dev s));
  modmem (fun m => store16 m avail 0);;
  modmem (fun m => store16 m (avail + 2) 0);;
  modmem (fun m => store16 m used 0);;
  modmem (fun m => store16 m (used + 2) 0);;
  st ← R VMMIO_STATUS;
  W VMMIO_STATUS (st |! VIRTIO_STATUS_DRIVER_OK);;
  v_puts "[virtio] desc@";; v_puts (v_puthex32 (QT L));;
  v_puts " avail@";; v_puts (v_puthex32 avail);;
  v_puts " used@";; v_puts (v_puthex32 used);;
  v_puts "\r\n";;
  dbg_regs "[virtio] after init";;
  mmio ← getsS (fun s => v_mmio (d_dev s));
  v_puts "[virtio] blk OK @ ";; v_puts (v_puthex32 mmio);; v_puts "\r\n";;
  mret 0.

(** [virtio_blk_init()] *)
Definition virtio_blk_init : M Z :=
  find_block;;
  mmio ← getsS (fun s => v_mmio (d_dev s));
  if mmio =? 0 then v_puts "[virtio] blk no encontrado\r\n";; mret (-1)
  else
    W VMMIO_STATUS 0;;
    W VMMIO_STATUS VIRTIO_STATUS_ACKNOWLEDGE;;
    st ← R VMMIO_STATUS;
    W VMMIO_STATUS (st |! VIRTIO_STATUS_DRIVER);;
    ver ← R VMMIO_VERSION;
    v_puts "[virtio] version=";; v_puts (v_putu32 ver);; v_puts "\r\n";;
    W VMMIO_DEVICE_FEATURES_SEL 0;;
    R VMMIO_DEVICE_FEATURES;;
    W VMMIO_DRIVER_FEATURES_SEL 0;;
    W VMMIO_DRIVER_FEATURES 0;;
    st ← R VMMIO_STATUS;
    W VMMIO_STATUS (st |! VIRTIO_STATUS_FEATURES_OK);;
    st ← R VMMIO_STATUS;
    if st &! VIRTIO_STATUS_FEATURES_OK =? 0
    then v_puts "[virtio] FEATURES_OK rechazado\r\n";; mret (-1)
    else
      W VMMIO_QUEUE_SEL 0;;
      qmax ← R VMMIO_QUEUE_NUM_MAX;
      v_puts "[virtio] qmax=";; v_puts (v_putu32 qmax);; v_puts "\r\n";;
      if qmax =? 0 then v_puts "[virtio] cola 0 no disponible\r\n";; mret (-1)
      else init_queue qmax.

(** The three descriptors, the header and the status byte of a request. *)
Definition fill_descriptors (desc count buf : Z) : M unit :=
  let put i addr len flags next :=
    modmem (fun m => store64 m (desc + 16 * i) addr);;
    modmem (fun m => store32 m (desc + 16 * i + 8) len);;
    modmem (fun m => store16 m (desc + 16 * i + 12) flags);;
    modmem (fun m => store16 m (desc + 16 * i + 14) next) in
  put 0 (QH L) 16 VIRTQ_DESC_F_NEXT 1;;
  put 1 buf (count *! 512) (Z.lor VIRTQ_DESC_F_NEXT VIRTQ_DESC_F_WRITE) 2;;
  put 2 (QS L) 1 VIRTQ_DESC_F_WRITE 0.

Definition fill_header (lba : Z) : M unit :=
  modmem (fun m => store32 m (QH L) VIRTIO_BLK_T_IN);;
  modmem (fun m => store32 m (QH L + 4) 0);;
  modmem (fun m => store64 m (QH L + 8) lba);;
  modmem (fun m => store8 m (QS L) 0xFF).

(** [isr = R(INTERRUPT_STATUS); if(isr) R(INTERRUPT_ACK) = isr;] *)
Definition clear_irq : M unit :=
  isr ← R VMMIO_INTERRUPT_STATUS;
  if negb (isr =? 0) then W VMMIO_INTERRUPT_ACK isr else mret tt.

(** The available ring gets descriptor 0, then its index moves. *)
Definition publish (avail : Z) : M unit :=
  aidx ← getmem (fun m => load16 m (avail + 2));
  modmem (fun m => store16 m (avail + 4 + 2 * (aidx mod QNUM)) 0);;
  barrier;;
  modmem (fun m => store16 m (avail + 2) (u16 (aidx + 1)));;
  barrier.

Definition notify : M unit :=
  W VMMIO_QUEUE_SEL 0;; barrier;; W VMMIO_QUEUE_NOTIFY 0;; barrier.

(** [while (vq_used->idx != want && spins++ < maxspins) __sync_synchronize();]
    with [spins] turns left. *)
Fixpoint spin (spins : nat) (used want : Z) : M unit :=
  match spins with
  | O => mret tt
  | S spins =>
      idx ← getmem (fun m => load16 m (used + 2));
      if idx =? want then mret tt else barrier;; spin spins used want
  end.

Definition maxspins : nat := Z.to_nat 100000000.

(** A request, from its preparation to the end of the wait: the index of the used
    ring and the one it should have. *)
Definition transfer (lba count buf : Z) : M (Z * Z) :=
  fill_header lba;;
  clear_irq;;
  d ← getsS d_dev;
  used_start ← getmem (fun m => load16 m (v_used d + 2));
  let want := u16 (used_start + 1) in
  fill_descriptors (v_desc d) count buf;;
  publish (v_avail d);;
  notify;;
  spin maxspins (v_used d) want;;
  idx ← getmem (fun m => load16 m (v_used d + 2));
  mret (idx, want).

(** [virtio_blk_read_blocks(lba, count, buf)] *)
Definition virtio_blk_read_blocks (lba count buf : Z) : M Z :=
  if count =? 0 then mret 0
  else
    r ← transfer lba count buf;
    let '(idx, want) := r in
    if negb (idx =? want) then
      v_puts "[virtio] timeout en read. used.idx=";; v_puts (v_putu32 idx);;
      v_puts " want=";; v_puts (v_putu32 want);;
      v_puts " ISR=";; x ← R VMMIO_INTERRUPT_STATUS; v_puts (v_putu32 x);;
      v_puts " STATUS=";; x ← R VMMIO_STATUS; v_puts (v_putu32 x);; v_puts "\r\n";;
      dbg_regs "[virtio] after timeout";;
      mret (-1)
    else
      clear_irq;;
      st ← getmem (fun m => load8 m (QS L));
      if negb (st =? 0) then
        v_puts "[virtio] status blk != 0: ";; v_puts (v_putu32 st);; v_puts "\r\n";; mret (-1)
      else
        v_puts "[virtio] read OK. used.idx=";; v_puts (v_putu32 idx);; v_puts "\r\n";;
        v_puts "[virtio] data lba=";; v_puts (v_putu32 (u32 lba));;
        v_puts " count=";; v_puts (v_putu32 count);; v_puts "\r\n";;
        dump ← getmem (fun m => v_hexdump m buf 0 64);
        v_puts dump;;
        mret 0.

(** The driver as a block device. *)
Definition on_drv {A} (c : M A) (d : vdev V) (m : mem) : A * list Z * vdev V * mem :=
  let '(a, s) := c (Drv d m []) in (a, d_out s, d_dev s, d_mem s).

#[global] Instance virtio_block_device : Hfs.BlockDevice (vdev V) := {|
  Hfs.blk_init := on_drv virtio_blk_init;
  Hfs.blk_read_blocks lba count buf := on_drv (virtio_blk_read_blocks lba count buf);
|}.

End Driver.

(** ** Correctness *)

Section Spec.
Context {V : Type} {HV : VirtioMmio V} {HD : VirtioBlkSpec V} (L : queue_layout) (HL : layout_ok L).

Local Abbreviation M := (ST (drv V)).

Abbreviation cf s := (conf (v_dev (d_dev s))).

(** The driver talks to the device found. *)
Definition attached (s : drv V) : Prop := v_mmio (d_dev s) = dev_base.

Lemma yields_W {B} off x (k : unit -> M B) (s : drv V) Q :
  attached s ->
  (forall v', conf v' = write_effect off x (delay (v_dev (d_dev s))) (cf s) ->
     yields (k tt) (set_v v' s) Q) ->
  yields (W off x ≫= k) s Q.
Proof.
  intros Ha Hk. unfold W. apply yields_modify. apply Hk. rewrite Ha. apply write_conf.
Qed.

Lemma yields_R {B} off (k : Z -> M B) (s : drv V) Q :
  yields (k (reg_read (v_dev (d_dev s)) (v_mmio (d_dev s)) off)) s Q -> yields (R off ≫= k) s Q.
Proof. done. Qed.

Lemma yields_barrier {B} (k : unit -> M B) (s : drv V) Q :
  (forall v' m', (conf v', m') = tick_effect disk capacity (cf s) (d_mem s) ->
     yields (k tt) (set_dmem m' (set_v v' s)) Q) ->
  yields (barrier ≫= k) s Q.
Proof.
  intros Hk. unfold barrier. apply yields_modify. pose proof (tick_conf (v_dev (d_dev s)) (d_mem s)) as Ht.
  destruct (tick _ _) as [v' m']. by apply Hk.
Qed.

(** Code that only prints. *)
Definition says {A} (c : M A) : Prop :=
  forall s, yields c s (fun _ s' => exists t, s' = Drv (d_dev s) (d_mem s) t).

Lemma yields_says {A B} (c : M A) (k : A -> M B) s Q :
  says c -> (forall a t, yields (k a) (Drv (d_dev s) (d_mem s) t) Q) -> yields (c ≫= k) s Q.
Proof.
  intros Hc Hk. apply yields_bind. eapply yields_mono; [apply Hc|]. intros a s' [t ->]. apply Hk.
Qed.

Lemma says_puts t : says (v_puts t).
Proof. intros s. by eexists. Qed.

Lemma says_bind {A B} (c : M A) (k : A -> M B) : says c -> (forall a, says (k a)) -> says (c ≫= k).
Proof.
  intros Hc Hk s. apply yields_says; [done|]. intros a t. eapply yields_mono; [apply Hk|].
  intros b s' [t' ->]. by exists t'.
Qed.

Lemma says_R off : says (R off).
Proof. intros [d m t]. by exists t. Qed.

Lemma says_dbg_regs tag : says (dbg_regs tag).
Proof.
  unfold dbg_regs. repeat (apply says_bind; [apply says_puts || apply says_R | intros ?]). apply says_puts.
Qed.

(** Goes over prints and reads. *)
Ltac vstep :=
  lazymatch goal with
  | |- yields (mbind _ (v_puts _)) _ _ => apply yields_says; [apply says_puts | intros _ ?]
  | |- yields (mbind _ (dbg_regs _)) _ _ => apply yields_says; [apply says_dbg_regs | intros _ ?]
  | |- yields (mbind _ (modmem _)) _ _ => apply yields_modify
  | |- yields (mbind _ (getmem _)) _ _ => apply yields_gets
  | |- yields (mbind _ (getsS _)) _ _ => apply yields_gets
  | |- yields (mbind _ (R _)) _ _ => apply yields_R
  | |- yields (mbind _ (mbind _ _)) _ _ => apply yields_bind
  | |- yields (mret _) _ _ => apply yields_ret
  end.

Ltac view := cbn [set_v set_dmem d_dev d_mem v_dev v_mmio v_desc v_avail v_used].

(** The statics other than the machine. *)
Definition same_ptrs (d d' : vdev V) : Prop :=
  v_mmio d' = v_mmio d /\ v_desc d' = v_desc d /\ v_avail d' = v_avail d /\ v_used d' = v_used d.

Lemma dev_base_pos (v : V) : 0 < dev_base.
Proof.
  pose proof (List.find_some _ _ (dev_first v)) as [Hin _]. apply list_elem_of_In in Hin.
  unfold windows in Hin. apply list_elem_of_fmap in Hin as (i & -> & Hi).
  apply elem_of_seqZ in Hi. lia.
Qed.

(** ** Initialisation *)

(** The queue is set up with [num] entries and [n] requests were done. *)
Definition ready_num (num n : Z) (d : vdev V) (m : mem) : Prop :=
  v_mmio d = dev_base /\ v_desc d = QT L /\ v_avail d = QT L + 128 /\ v_used d = QT L + 4096 /\
  serving_num L num n None (conf (v_dev d)) /\
  load16 m (QT L + 130) = u16 n /\ load16 m (QT L + 4098) = u16 n.

Definition ready_at : Z -> vdev V -> mem -> Prop := ready_num QNUM.

Definition ready (d : vdev V) (m : mem) : Prop := exists n, ready_at n d m.

(** A register write on a configuration that is known. *)
Ltac wr Hold v Hv :=
  apply yields_W; [done|]; view; rewrite Hold; intros v Hv;
  lazymatch type of Hv with _ = ?c => let c' := eval cbv -[QT Z.shiftr delay] in c in change c with c' in Hv end;
  clear Hold.

Lemma store16_zero m b a : m a = 0 -> store16 m b 0 a = 0.
Proof. intros Ha. unfold store16, store8. by repeat case_if. Qed.

(** The queue is cleared, its indices are zero. *)
Lemma init_memory m :
  let m' := store16 (store16 (store16 (store16 (zero_loop m (QT L) (Z.to_nat 8192))
    (QT L + 128) 0) (QT L + 128 + 2) 0) (QT L + 4096) 0) (QT L + 4096 + 2) 0 in
  frame m m' (QT L) 8192 /\ load16 m' (QT L + 130) = u16 0 /\ load16 m' (QT L + 4098) = u16 0 /\
  (forall a, inside (QT L) 8192 a -> m' a = 0).
Proof.
  destruct HL as [(? & ? & ?) _ _ _ _ _ _ _]. set (m0 := zero_loop _ _ _).
  set (m1 := store16 m0 _ _). set (m2 := store16 m1 _ _). set (m3 := store16 m2 _ _).
  assert (frame m m0 (QT L) 8192) as Hz.
  { intros x Hx. unfold m0. rewrite zero_loop_spec by (rewrite Z2Nat.id by lia; unfold region; lia).
    rewrite Z2Nat.id by lia. unfold inside in Hx. zcases. }
  split_and!.
  - apply (frame_trans _ m0); [done|]. apply (frame_trans _ m1); [|apply (frame_trans _ m2);
      [|apply (frame_trans _ m3)]]; (eapply frame_sub; [apply frame_store16; unfold region; lia | lia | lia]).
  - rewrite (load16_frame m3 _ (QT L + 4096 + 2) 2), (load16_frame m2 _ (QT L + 4096) 2);
      try (apply frame_store16 || unfold disjoint_reg); try (unfold region; lia).
    unfold m2. replace (QT L + 128 + 2) with (QT L + 130) by lia. apply load16_store16. unfold region. lia.
  - replace (QT L + 4096 + 2) with (QT L + 4098) by lia. apply load16_store16. unfold region. lia.
  - intros a Ha. do 4 (apply store16_zero). unfold m0.
    rewrite zero_loop_spec by (rewrite Z2Nat.id by lia; unfold region; lia).
    rewrite Z2Nat.id by lia. unfold inside in Ha. zcases.
Qed.

Lemma init_queue_ready qmax (s : drv V) v0 :
  attached s -> v_dev (d_dev s) = v0 -> conf v0 = Config 11 0 0 0 0 0 0 0 None ->
  mem_ok (d_mem s) ->
  yields (init_queue L qmax) s (fun rc s' =>
    rc = 0 /\ ready_num (Z.min qmax QNUM) 0 (d_dev s') (d_mem s') /\ mem_ok (d_mem s') /\
    frame (d_mem s) (d_mem s') (QT L) 8192 /\
    (forall a, inside (QT L) 8192 a -> d_mem s' a = 0)).
Proof.
  intros Ha <- Hc Hm. unfold init_queue. apply yields_bind. eapply yields_mono.
  { instantiate (1 := fun _ s' => same_ptrs (d_dev s) (d_dev s') /\ d_mem s' = d_mem s /\
      conf (v_dev (d_dev s')) = Config 11 0 0 (Z.min qmax QNUM) 0 0 0 0 None).
    destruct (Z.ltb_spec qmax QNUM).
    - vstep. unfold W, modifyS, yields. view. split; [done|]. split; [done|].
      rewrite Ha, write_conf, Hc. cbn. by rewrite Z.min_l by lia.
    - unfold W, modifyS, yields. view. split; [done|]. split; [done|].
      rewrite Ha, write_conf, Hc. cbn. by rewrite Z.min_r by lia. }
  intros [] s1 ((P1 & _ & _ & _) & Hm1 & H1). rewrite <- Hm1 in Hm |- *. clear Hm1 Hc.
  assert (attached s1) as Ha1 by (unfold attached; by rewrite P1). clear Ha P1 s. rename s1 into s, Ha1 into Ha.
  vstep. view. apply yields_modify. view.
  wr H1 v2 H2. wr H2 v3 H3. wr H3 v4 H4. do 6 vstep. view. vstep. view.
  rewrite Ha, read_status, H4. cbn [q_status]. wr H4 v5 H5. do 12 vstep. view. vstep. view.
  change (align_up32 (16 * QNUM + (2 * 2 + 2 * QNUM + 2)) 4096) with 4096. change (16 * QNUM) with 128.
  destruct (init_memory (d_mem s)) as (Hf & Ha0 & Hu0 & Hz0).
  match goal with |- context [ready_num _ _ _ ?m'] => assert (mem_ok m') as Hok end.
  { do 4 apply mem_ok_store16. by apply mem_ok_zero_loop. }
  revert Hf Ha0 Hu0 Hz0 Hok. match goal with |- context [ready_num _ _ _ ?m'] => generalize m' end.
  intros m' Hf Ha0 Hu0 Hz0 Hok. split; [done|]. split; [|done].
  unfold ready_num. cbn [v_dev v_mmio v_desc v_avail v_used].
  rewrite H5. split_and!; try done. unfold serving_num. cbn.
  rewrite Z.shiftr_div_pow2 by lia. by change (2 ^ 12) with 4096.
Qed.

Lemma init_ready d m t :
  0 < dev_num_max -> mem_ok m ->
  yields (virtio_blk_init L) (Drv d m t) (fun rc s' =>
    rc = 0 /\ ready_num (Z.min dev_num_max QNUM) 0 (d_dev s') (d_mem s') /\ mem_ok (d_mem s') /\
    frame m (d_mem s') (QT L) 8192 /\ (forall a, inside (QT L) 8192 a -> d_mem s' a = 0)).
Proof.
  intros Hnum Hm. unfold virtio_blk_init, find_block. apply yields_modify. view.
  rewrite (dev_first (v_dev d)). vstep. view.
  pose proof (dev_base_pos (v_dev d)). rewrite (proj2 (Z.eqb_neq _ _)) by lia.
  apply yields_W; [done|]. intros v1 H1. cbn [d_dev v_dev] in H1. view.
  assert (conf v1 = reset_config) as H1' by (rewrite H1; by destruct (conf (v_dev d))). clear H1.
  wr H1' v2 H2. vstep. view. rewrite read_status, H2. wr H2 v3 H3. do 4 vstep. view.
  wr H3 v4 H4. vstep. view. wr H4 v5 H5. wr H5 v6 H6. vstep. view. rewrite read_status, H6. wr H6 v7 H7.
  vstep. view. rewrite read_status, H7. cbn [q_status].
  change (_ &! VIRTIO_STATUS_FEATURES_OK =? 0) with false. wr H7 v8 H8. vstep. view.
  rewrite read_num_max. do 3 vstep. view. rewrite (proj2 (Z.eqb_neq _ _)) by lia.
  eapply yields_mono; [by apply (init_queue_ready _ _ v8)|]. done.
Qed.


(** ** Reading *)

(** The memory of a request about to be published, with the statics [d]. *)
Definition header_mem (lba : Z) (m : mem) : mem :=
  store8 (store64 (store32 (store32 m (QH L) VIRTIO_BLK_T_IN) (QH L + 4) 0) (QH L + 8) lba) (QS L) 0xFF.

Definition descriptor_mem (desc i addr len flags next : Z) (m : mem) : mem :=
  store16 (store16 (store32 (store64 m (desc + 16 * i) addr) (desc + 16 * i + 8) len)
    (desc + 16 * i + 12) flags) (desc + 16 * i + 14) next.

Definition request_mem (lba count buf : Z) (m : mem) : mem :=
  descriptor_mem (QT L) 2 (QS L) 1 VIRTQ_DESC_F_WRITE 0
    (descriptor_mem (QT L) 1 buf (count *! 512) (Z.lor VIRTQ_DESC_F_NEXT VIRTQ_DESC_F_WRITE) 2
      (descriptor_mem (QT L) 0 (QH L) 16 VIRTQ_DESC_F_NEXT 1 (header_mem lba m))).

Definition publish_mem (aidx : Z) (m : mem) : mem :=
  store16 (store16 m (QT L + 128 + 4 + 2 * (aidx mod QNUM)) 0) (QT L + 128 + 2) (u16 (aidx + 1)).

Ltac regions := solve [unfold region, disjoint_reg, inside in *; lia].

(** A store inside a frame. *)
Ltac store_frame :=
  eapply frame_sub;
  [first [apply frame_store8 | apply frame_store16 | apply frame_store32 | apply frame_store64];
   (regions || mlia) | lia | lia].

Lemma descriptor_fields desc i addr len flags next m :
  region (desc + 16 * i) 16 ->
  let m' := descriptor_mem desc i addr len flags next m in
  frame m m' (desc + 16 * i) 16 /\ load64 m' (desc + 16 * i) = u64 addr /\
  load32 m' (desc + 16 * i + 8) = u32 len /\ load16 m' (desc + 16 * i + 14) = u16 next.
Proof.
  intros (? & ? & ?). unfold descriptor_mem.
  set (m1 := store64 m _ _). set (m2 := store32 m1 _ _). set (m3 := store16 m2 _ _). cbv zeta.
  set (m4 := store16 m3 _ _).
  assert (frame m2 m4 (desc + 16 * i + 12) 4) as H24 by (apply (frame_trans _ m3); store_frame).
  assert (frame m1 m4 (desc + 16 * i + 8) 8) as H14.
  { apply (frame_trans _ m2); [store_frame|]. eapply frame_sub; [exact H24 | lia | lia]. }
  split_and!.
  - apply (frame_trans _ m1); [store_frame|]. eapply frame_sub; [exact H14 | lia | lia].
  - rewrite (load64_frame _ _ _ _ _ H14) by regions. apply load64_store64. regions.
  - rewrite (load32_frame _ _ _ _ _ H24) by regions. apply load32_store32. regions.
  - apply load16_store16. regions.
Qed.

Lemma header_fields lba m :
  let m' := header_mem lba m in
  (forall a, ~ inside (QH L) 16 a -> ~ inside (QS L) 1 a -> m' a = m a) /\
  load32 m' (QH L) = VIRTIO_BLK_T_IN /\ load64 m' (QH L + 8) = u64 lba.
Proof.
  destruct HL as [_ _ _ (? & ? & ?) (? & ? & ?) _ _ HHS]. unfold header_mem.
  set (m1 := store32 m _ _). set (m2 := store32 m1 _ _). set (m3 := store64 m2 _ _). cbv zeta.
  set (m4 := store8 m3 _ _).
  assert (frame m3 m4 (QS L) 1) as H34 by (apply frame_store8; mlia).
  assert (frame m1 m3 (QH L + 4) 12) as H13 by (apply (frame_trans _ m2); store_frame).
  assert (frame m m3 (QH L) 16) as H03.
  { apply (frame_trans _ m1); [store_frame|]. eapply frame_sub; [exact H13 | lia | lia]. }
  split_and!.
  - intros a Ha1 Ha2. rewrite H34, H03 by done. done.
  - rewrite (load32_frame _ _ _ _ _ H34) by regions. rewrite (load32_frame _ _ _ _ _ H13) by regions.
    apply load32_store32. regions.
  - rewrite (load64_frame _ _ _ _ _ H34) by regions. apply load64_store64. regions.
Qed.

Lemma publish_fields aidx m :
  let m' := publish_mem aidx m in
  frame m m' (QT L + 128) 22 /\ load16 m' (QT L + 130) = u16 (aidx + 1) /\
  load16 m' (QT L + 132 + 2 * (aidx mod QNUM)) = 0.
Proof.
  destruct HL as [(? & ? & ?) _ _ _ _ _ _ _]. unfold publish_mem.
  assert (0 <= aidx mod QNUM < 8) as Hm by (unfold QNUM; pose proof (Z.mod_pos_bound aidx 8); lia).
  set (m1 := store16 m _ 0). cbv zeta. set (m2 := store16 m1 _ _).
  assert (frame m1 m2 (QT L + 130) 2) as H12 by store_frame.
  split_and!.
  - apply (frame_trans _ m1); store_frame.
  - unfold m2. replace (QT L + 128 + 2) with (QT L + 130) by lia. rewrite load16_store16 by regions. mlia.
  - rewrite (load16_frame _ _ _ _ _ H12) by regions. unfold m1.
    replace (QT L + 128 + 4 + 2 * (aidx mod QNUM)) with (QT L + 132 + 2 * (aidx mod QNUM)) by lia.
    rewrite load16_store16 by regions. done.
Qed.

Lemma request_prepared lba count buf n m :
  0 <= lba < 2 ^ 64 -> is_u32 (512 * count) -> is_u32 buf ->
  let m' := publish_mem (u16 n) (request_mem lba count buf m) in
  prepared L n lba (512 * count) buf m' /\ load16 m' (QT L + 4098) = load16 m (QT L + 4098) /\
  (forall a, ~ private L a -> m' a = m a).
Proof.
  intros Hlba Hlen Hbuf. pose proof HL as [(? & ? & ?) _ _ (? & ? & ?) (? & ? & ?) HTH HTS HHS].
  destruct (header_fields lba m) as (Fh & Ht & Hs). unfold request_mem.
  set (mh := header_mem lba m) in *.
  destruct (descriptor_fields (QT L) 0 (QH L) 16 VIRTQ_DESC_F_NEXT 1 mh ltac:(regions)) as (F0 & A0 & _ & N0).
  set (md0 := descriptor_mem _ 0 _ _ _ _ _) in *.
  destruct (descriptor_fields (QT L) 1 buf (count *! 512) (Z.lor VIRTQ_DESC_F_NEXT VIRTQ_DESC_F_WRITE) 2
    md0 ltac:(regions)) as (F1 & A1 & L1 & N1).
  set (md1 := descriptor_mem _ 1 _ _ _ _ _) in *.
  destruct (descriptor_fields (QT L) 2 (QS L) 1 VIRTQ_DESC_F_WRITE 0 md1 ltac:(regions)) as (F2 & A2 & _ & _).
  set (md2 := descriptor_mem _ 2 _ _ _ _ _) in *.
  destruct (publish_fields (u16 n) md2) as (Fp & Hi & Hr). set (mp := publish_mem _ _) in *.
  assert (u16 n mod QNUM = n mod 8) as Hslot by (unfold QNUM; mlia). rewrite Hslot in Hr.
  pose proof (Z.mod_pos_bound n 8 ltac:(lia)) as Hn8.
  cbn [Z.mul] in *. rewrite ?Z.add_0_r in *.
  assert (forall a, ~ inside (QT L) 8192 a -> mp a = mh a) as Fall.
  { intros a Ha. unfold inside in Ha. rewrite Fp, F2, F1, F0 by regions. done. }
  clearbody mp md2 md1 md0 mh. replace (QT L + 16 * 1) with (QT L + 16) in * by lia. replace (QT L + 16 * 2) with (QT L + 32) in * by lia.
  replace (QT L + 16 + 8) with (QT L + 24) in * by lia. replace (QT L + 16 + 14) with (QT L + 30) in * by lia.
  assert (frame mh mp (QT L) 8192) as Fall'.
  { exact Fall. }
  assert (frame md1 mp (QT L + 32) 4064) as F1p.
  { apply (frame_trans _ md2); [eapply frame_sub; [exact F2 | lia | lia] | eapply frame_sub; [exact Fp | lia | lia]]. }
  assert (frame md0 mp (QT L + 16) 4080) as F0p.
  { apply (frame_trans _ md1); [eapply frame_sub; [exact F1 | lia | lia] | eapply frame_sub; [exact F1p | lia | lia]]. }
  cbv zeta. split; [|split].
  - unfold prepared. rewrite Hi, Hr.
    rewrite (load64_frame _ _ _ _ (QT L) F0p), (load16_frame _ _ _ _ (QT L + 14) F0p) by regions.
    rewrite (load64_frame _ _ _ _ (QT L + 16) F1p), (load32_frame _ _ _ _ (QT L + 24) F1p),
      (load16_frame _ _ _ _ (QT L + 30) F1p) by regions.
    rewrite (load64_frame _ _ _ _ (QT L + 32) Fp) by regions.
    rewrite (load32_frame _ _ _ _ (QH L) Fall'), (load64_frame _ _ _ _ (QH L + 8) Fall') by regions.
    rewrite A0, N0, A1, L1, N1, A2, Ht, Hs. split_and!; (reflexivity || mlia).
  - rewrite (load16_frame _ _ _ _ _ Fp), (load16_frame _ _ _ _ _ F2), (load16_frame _ _ _ _ _ F1),
      (load16_frame _ _ _ _ _ F0) by regions.
    apply (load16_ext mh m); [regions|]. intros x Hx. apply Fh; regions.
  - intros a Ha. unfold private in Ha. rewrite Fall', Fh by tauto. done.
Qed.

Section Request.
Context (d0 : vdev V) (n lba len buf : Z) (m1 : mem).
Context (Hm1 : mem_ok m1) (Hp : prepared L n lba len buf m1) (Hidx : load16 m1 (QT L + 4098) = u16 n).
Context (Hbuf : region buf len) (Hlen : 0 < len) (Hcap : lba + len / 512 <= capacity).
Context (HbT : disjoint_reg buf len (QT L) 8192) (HbS : disjoint_reg buf len (QS L) 1).

Definition done (s : drv V) : Prop :=
  same_ptrs d0 (d_dev s) /\ serving L (n + 1) None (cf s) /\
  served L disk n lba len buf m1 (d_mem s) /\ mem_ok (d_mem s).

(** The request was notified; the device looks at it within [k] ticks or is done. *)
Definition underway (k : nat) (s : drv V) : Prop :=
  (same_ptrs d0 (d_dev s) /\ d_mem s = m1 /\ exists k', (k' <= k)%nat /\ serving L n (Some k') (cf s)) \/
  done s.

Lemma serving_kick k k' c : serving L n k c -> serving L n k' (set_kick k' c).
Proof. by intros (? & ? & ? & ? & ? & ? & ? & ? & ?). Qed.

Lemma barrier_underway k (s : drv V) :
  underway k s -> yields barrier s (fun _ s' => match k with O => done s' | S k => underway k s' end).
Proof.
  intros Hu. unfold barrier, modifyS, yields. pose proof (tick_conf (v_dev (d_dev s)) (d_mem s)) as Ht.
  destruct (tick _ _) as [v' m']. destruct Hu as [(Hptr & Hmem & k' & Hk & Hs) | (Hptr & Hs & Hsrv & Hok)].
  - unfold tick_effect in Ht. pose proof Hs as (_ & _ & _ & _ & _ & _ & _ & Hkick & _). rewrite Hkick in Ht.
    destruct k' as [|k'].
    + pose proof (serve_queue_prepared L disk capacity n lba len buf HL disk_u8 Hbuf Hlen HbT HbS
        _ _ m1 Hs Hp Hcap Hm1) as Hq. rewrite Hmem in Ht. rewrite <- Ht in Hq.
      assert (done (set_dmem m' (set_v v' s))) as Hd by (split; [exact Hptr | exact Hq]).
      destruct k; [done | by right].
    + injection Ht as Hc ->. destruct k as [|k]; [lia|]. left. split; [exact Hptr|]. split; [exact Hmem|].
      exists k'. split; [lia|]. cbn. rewrite Hc. by eapply serving_kick.
  - unfold tick_effect in Ht. pose proof Hs as (_ & _ & _ & _ & _ & _ & _ & Hkick & _). rewrite Hkick in Ht.
    injection Ht as Hc ->.
    assert (done (set_dmem (d_mem s) (set_v v' s))) as Hd.
    { split; [exact Hptr|]. split; [cbn; by rewrite Hc|]. by split. }
    destruct k; [done | by right].
Qed.

Lemma done_idx s : done s -> load16 (d_mem s) (QT L + 4098) = u16 (n + 1).
Proof. by intros (_ & _ & (Hi & _) & _). Qed.

(** The driver waits long enough. *)
Lemma spin_done spins : forall k s,
  (k < spins)%nat -> underway k s ->
  yields (spin spins (QT L + 4096) (u16 (n + 1))) s (fun _ s' => done s').
Proof.
  induction spins as [|spins IH]; intros k s Hk Hu; [lia|]. cbn [spin]. apply yields_gets.
  replace (QT L + 4096 + 2) with (QT L + 4098) by lia.
  destruct Hu as [(Hptr & Hmem & Hs) | Hd].
  - rewrite Hmem, Hidx. rewrite (proj2 (Z.eqb_neq _ _)) by mlia. apply yields_bind.
    eapply yields_mono; [apply (barrier_underway k); left; by split_and!|]. intros [] s' Hs'.
    destruct k as [|k]; [|apply (IH k); [lia | done]].
    destruct spins as [|spins]; [done|]. apply (IH 0%nat); [lia | by right].
  - rewrite (done_idx s Hd), Z.eqb_refl. exact Hd.
Qed.

End Request.

Lemma yields_fill_header {B} lba (k : unit -> M B) s Q :
  yields (k tt) (set_dmem (header_mem lba (d_mem s)) s) Q -> yields (fill_header L lba ≫= k) s Q.
Proof. intros Hk. apply yields_bind. unfold fill_header. do 3 apply yields_modify. exact Hk. Qed.

Lemma yields_fill_descriptors {B} lba count buf (k : unit -> M B) s m Q :
  d_mem s = header_mem lba m ->
  yields (k tt) (set_dmem (request_mem lba count buf m) s) Q ->
  yields (fill_descriptors L (QT L) count buf ≫= k) s Q.
Proof.
  intros Hm Hk. apply yields_bind. unfold fill_descriptors. apply yields_bind.
  do 3 apply yields_modify. apply yields_bind. do 3 apply yields_modify. do 3 apply yields_modify.
  unfold request_mem in Hk. rewrite <- Hm in Hk. exact Hk.
Qed.

Lemma yields_clear_irq {B} num n kick (k : unit -> M B) s Q :
  attached s -> serving_num L num n kick (cf s) ->
  (forall v', serving_num L num n kick (conf v') -> yields (k tt) (set_v v' s) Q) ->
  yields (clear_irq ≫= k) s Q.
Proof.
  intros Ha Hs Hk. apply yields_bind. unfold clear_irq. apply yields_R. case_if.
  - unfold W, modifyS, yields. apply Hk. rewrite Ha, write_conf.
    destruct (cf s) as [st gp sel qn al pfn isr dn kk].
    destruct Hs as (H1 & H2 & H3 & H4 & H5 & H6 & H7 & H8 & H9). cbn in *. subst. by cbn.
  - apply yields_ret. specialize (Hk (v_dev (d_dev s)) Hs). by destruct s as [[] ? ?].
Qed.

Lemma barrier_idle num n s (Q : unit -> drv V -> Prop) :
  serving_num L num n None (cf s) ->
  (forall v', serving_num L num n None (conf v') -> Q tt (set_v v' s)) -> yields barrier s Q.
Proof.
  intros Hs HQ. unfold barrier, modifyS, yields. pose proof (tick_conf (v_dev (d_dev s)) (d_mem s)) as Ht.
  destruct (tick _ _) as [v' m']. unfold tick_effect in Ht.
  pose proof Hs as (_ & _ & _ & _ & _ & _ & _ & Hkick & _). rewrite Hkick in Ht. injection Ht as Hc ->.
  rewrite <- Hc in Hs. specialize (HQ v' Hs). by destruct s.
Qed.

Lemma yields_publish {B} num n (k : unit -> M B) s Q :
  serving_num L num n None (cf s) -> load16 (d_mem s) (QT L + 130) = u16 n ->
  (forall v', serving_num L num n None (conf v') ->
     yields (k tt) (set_dmem (publish_mem (u16 n) (d_mem s)) (set_v v' s)) Q) ->
  yields (publish (QT L + 128) ≫= k) s Q.
Proof.
  intros Hs Hi Hk. apply yields_bind. unfold publish. apply yields_gets.
  assert (load16 (d_mem s) (QT L + 128 + 2) = u16 n) as -> by (rewrite <- Hi; f_equal; lia).
  apply yields_modify, yields_bind.
  apply (barrier_idle num n); [exact Hs|]. intros v1 H1. apply yields_modify.
  apply (barrier_idle num n); [exact H1|]. intros v2 H2. exact (Hk v2 H2).
Qed.

Lemma yields_notify {B} d0 n lba len buf m1 (k : unit -> M B) s Q :
  attached s -> serving L n None (cf s) -> same_ptrs d0 (d_dev s) -> d_mem s = m1 ->
  mem_ok m1 -> prepared L n lba len buf m1 ->
  region buf len -> 0 < len -> lba + len / 512 <= capacity ->
  disjoint_reg buf len (QT L) 8192 -> disjoint_reg buf len (QS L) 1 ->
  (forall s', underway d0 n lba len buf m1 (Z.to_nat 99999999) s' -> yields (k tt) s' Q) ->
  yields (notify ≫= k) s Q.
Proof.
  intros Ha Hs Hptr Hmem Hok Hp Hbuf Hlen Hcap HbT HbS Hk. apply yields_bind. unfold notify.
  apply yields_W; [done|]. intros v1 H1.
  assert (serving L n None (conf v1)) as Hs1.
  { rewrite H1. destruct (cf s). destruct Hs as (? & ? & ? & ? & ? & ? & ? & ? & ?). cbn in *. by subst. }
  apply yields_bind, (barrier_idle QNUM n); [exact Hs1|]. intros v2 Hs2.
  apply yields_W; [done|]. intros v3 H3.
  assert (serving L n (Some (delay v2)) (conf v3)) as Hs3.
  { rewrite H3. view. destruct (conf v2). destruct Hs2 as (? & ? & ? & ? & ? & ? & ? & ? & ?).
    cbn in *. by subst. }
  pose proof (delay_short v2) as Hdel.
  eapply yields_mono; [apply (barrier_underway d0 n lba len buf m1 Hok Hp Hbuf Hlen Hcap HbT HbS (delay v2))|].
  - left. split; [exact Hptr|]. split; [exact Hmem|]. by exists (delay v2).
  - intros [] s' Hs'. apply Hk. destruct (delay v2) as [|k2] eqn:Hd2; [by right|].
    destruct Hs' as [(Hp' & Hm' & k' & Hle & Hs') | Hd]; [left | by right].
    split; [done|]. split; [done|]. exists k'. split; [lia | done].
Qed.

Lemma header_rings lba m a :
  QT L <= a -> a + 2 <= QT L + 8192 -> load16 (header_mem lba m) a = load16 m a.
Proof.
  intros Ha1 Ha2. destruct (header_fields lba m) as (Fh & _).
  destruct HL as [(? & ? & ?) _ _ _ _ HTH HTS _]. apply load16_ext; [regions|].
  intros x Hx. apply Fh; regions.
Qed.

Lemma request_rings lba count buf m a :
  QT L + 48 <= a -> a + 2 <= QT L + 8192 -> load16 (request_mem lba count buf m) a = load16 m a.
Proof.
  intros Ha1 Ha2. rewrite <- (header_rings lba m a) by lia. destruct HL as [(? & ? & ?) _ _ _ _ _ _ _].
  unfold request_mem. apply load16_ext; [regions|]. intros x Hx.
  do 3 (match goal with |- descriptor_mem ?t ?i ?b ?l ?f ?nx ?mm x = _ =>
    destruct (descriptor_fields t i b l f nx mm ltac:(regions)) as (F & _); rewrite F by regions; clear F end).
  done.
Qed.

Lemma not_private_disjoint buf len :
  region buf len -> 0 < len -> (forall a, inside buf len a -> ~ private L a) ->
  disjoint_reg buf len (QT L) 8192 /\ disjoint_reg buf len (QS L) 1.
Proof.
  intros (? & ? & ?) Hlen Hd. destruct HL as [(? & ? & ?) _ _ _ (? & ? & ?) _ _ _].
  unfold private, inside, disjoint_reg in *.
  pose proof (Hd (Z.max buf (QT L))). pose proof (Hd (Z.max buf (QS L))). lia.
Qed.

(** A request that completed leaves the driver ready for the next. *)
Definition transferred (n lba count buf : Z) (m : mem) (d' : vdev V) (m' : mem) : Prop :=
  ready_at (n + 1) d' m' /\ mem_ok m' /\ load8 m' (QS L) = 0 /\
  (forall i, 0 <= i < 512 * count -> m' (buf + i) = disk (512 * lba + i)) /\
  (forall a, ~ inside buf (512 * count) a -> ~ private L a -> m' a = m a).

(** A request for sectors of the disk, into memory that is not the driver's. *)
Definition sound_request (lba count buf : Z) : Prop :=
  0 <= lba /\ 0 < count /\ lba + count <= capacity /\ 512 * count < 4294967296 /\
  region buf (512 * count) /\ (forall a, inside buf (512 * count) a -> ~ private L a).

Lemma transfer_ready n lba count buf d m t :
  ready_at n d m -> mem_ok m -> sound_request lba count buf ->
  yields (transfer L lba count buf) (Drv d m t) (fun r s' =>
    r = (u16 (n + 1), u16 (n + 1)) /\ transferred n lba count buf m (d_dev s') (d_mem s')).
Proof.
  intros (Hmm & Hde & Hav & Hus & Hs & Hai & Hui) Hok (Hlba & Hcnt & Hcap & Hlen & Hbuf & Hpriv).
  destruct (not_private_disjoint buf (512 * count) Hbuf ltac:(lia) Hpriv) as [HbT HbS].
  pose proof capacity_u32 as Hcu. pose proof Hbuf as (? & ? & ?).
  destruct (request_prepared lba count buf n m ltac:(lia) ltac:(mlia) ltac:(mlia)) as (Hp & Hidx & Hfr).
  set (m1 := publish_mem (u16 n) (request_mem lba count buf m)) in *.
  assert (mem_ok m1) as Hok1.
  { unfold m1, publish_mem, request_mem, descriptor_mem, header_mem.
    repeat (apply mem_ok_store16 || apply mem_ok_store32 || apply mem_ok_store64 || apply mem_ok_store8). done. }
  unfold transfer.
  apply yields_fill_header. view. apply (yields_clear_irq QNUM n None); [exact Hmm | exact Hs|].
  intros v1 Hs1. view. do 2 vstep. view. rewrite Hus, Hde, Hav.
  assert (load16 (header_mem lba m) (QT L + 4096 + 2) = u16 n) as ->.
  { rewrite header_rings by lia. rewrite <- Hui. f_equal. lia. }
  assert (u16 (u16 n + 1) = u16 (n + 1)) as -> by mlia.
  apply (yields_fill_descriptors lba _ _ _ _ m); [done|].
  apply (yields_publish QNUM n); [exact Hs1 | view; rewrite request_rings by lia; exact Hai|].
  intros v2 Hs2. view. fold m1.
  assert (lba + 512 * count / 512 <= capacity) as Hcap'.
  { rewrite Z.mul_comm, Z.div_mul by lia. done. }
  apply (yields_notify d n lba (512 * count) buf m1);
    [exact Hmm | exact Hs2 | by split_and! | reflexivity | done | done | done | lia | done | done | done|].
  intros s3 Hu. apply yields_bind. eapply yields_mono.
  { apply (spin_done d n lba (512 * count) buf m1 Hok1 Hp) with (k := Z.to_nat 99999999);
      [by rewrite Hidx | done | lia | done | done | done | unfold maxspins; lia | done]. }
  intros [] s4 Hd. pose proof (done_idx _ _ _ _ _ _ _ Hd) as Hi4.
  destruct Hd as ((P1 & P2 & P3 & P4) & Hs4 & (_ & Hst & Hdata & Hrest) & Hok4). vstep.
  replace (QT L + 4096 + 2) with (QT L + 4098) by lia. rewrite Hi4. vstep. split; [done|].
  split; [|split; [done|split; [done|split]]].
  - unfold ready_at, ready_num. rewrite P1, P2, P3, P4. split_and!; try done.
    destruct Hp as (Hi1 & _). rewrite <- Hi1.
    destruct HL as [(? & ? & ?) _ _ _ _ _ HTS _]. apply load16_ext; [regions|].
    intros x Hx. apply Hrest; regions.
  - done.
  - intros a Ha1 Ha2. rewrite Hrest by (try done; unfold private, inside in *; lia). by apply Hfr.
Qed.

(** Acknowledging the interrupt changes nothing the driver relies on. *)
Lemma yields_clear_irq_ready {B} n (k : unit -> M B) (s : drv V) Q :
  ready_at n (d_dev s) (d_mem s) ->
  (forall s', ready_at n (d_dev s') (d_mem s) -> d_mem s' = d_mem s -> yields (k tt) s' Q) ->
  yields (clear_irq ≫= k) s Q.
Proof.
  intros (Hmm & Hde & Hav & Hus & Hs & Hai & Hui) Hk.
  apply (yields_clear_irq QNUM n None); [exact Hmm | exact Hs|]. intros v5 Hs5.
  apply Hk; [|done]. unfold ready_at, ready_num. by split_and!.
Qed.

(** A read that completed leaves the driver ready for the next. *)
Lemma read_ready n lba count buf d m t :
  ready_at n d m -> mem_ok m -> sound_request lba count buf ->
  yields (virtio_blk_read_blocks L lba count buf) (Drv d m t) (fun rc s' =>
    rc = 0 /\ transferred n lba count buf m (d_dev s') (d_mem s')).
Proof.
  intros Hr Hok Hreq. pose proof Hreq as (_ & Hcnt & _). unfold virtio_blk_read_blocks.
  rewrite (proj2 (Z.eqb_neq _ _)) by lia. apply yields_bind.
  eapply yields_mono; [by apply (transfer_ready n)|]. intros r s4 (-> & Hr4 & Hok4 & Hst & Hrest).
  rewrite Z.eqb_refl. cbn [negb]. apply (yields_clear_irq_ready (n + 1)); [done|]. intros s5 Hr5 Hm5.
  vstep. rewrite Hm5, Hst. cbn [negb Z.eqb]. do 10 vstep. view. rewrite Hm5. by split_and!.
Qed.

(** ** Sequences of requests *)

(** Reads to [buf], one after the other: the code and the data of each. *)
Fixpoint read_seq (reqs : list (Z * Z)) (buf : Z) : M (list (Z * list Z)) :=
  match reqs with
  | [] => mret []
  | (lba, count) :: reqs =>
      rc ← virtio_blk_read_blocks L lba count buf;
      data ← getmem (fun m => read_bytes m buf (Z.to_nat (512 * count)));
      rest ← read_seq reqs buf;
      mret ((rc, data) :: rest)
  end.

(** Requests on the disk, with a buffer that is not the driver's. *)
Definition request_ok (buf : Z) (r : Z * Z) : Prop := sound_request r.1 r.2 buf.

(** The bytes of the buffer after a request are those of the disk. *)
Lemma sectors_read lba count buf m :
  sound_request lba count buf ->
  (forall i, 0 <= i < 512 * count -> m (buf + i) = disk (512 * lba + i)) ->
  read_bytes m buf (Z.to_nat (512 * count)) = disk_bytes disk lba (512 * count).
Proof.
  intros (? & ? & ? & ? & (? & ? & ?) & _) Hdata.
  apply list_eq_same_length with (Z.to_nat (512 * count)).
  - pose proof (length_disk_bytes disk lba (512 * count)). lia.
  - apply length_read_bytes.
  - intros i x y Hi Hx Hy. apply list_lookup_total_correct in Hx as <-, Hy as <-.
    rewrite read_bytes_lookup by done. rewrite load8_region by mlia.
    rewrite Hdata by lia. rewrite <- (Nat2Z.id i) at 2. by rewrite disk_bytes_lookup by lia.
Qed.

Lemma read_seq_reads buf reqs : forall n d m t,
  ready_at n d m -> mem_ok m -> Forall (request_ok buf) reqs ->
  yields (read_seq reqs buf) (Drv d m t) (fun rs _ =>
    rs = (fun r => (0, disk_bytes disk r.1 (512 * r.2))) <$> reqs).
Proof.
  induction reqs as [|[lba count] reqs IH]; intros n d m t Hr Hok Hreq; cbn [read_seq]; [done|].
  apply Forall_cons in Hreq as [Hr0 Hreq]. apply yields_bind. eapply yields_mono; [by apply (read_ready n)|].
  intros rc [d' m' t'] (-> & Hr' & Hok' & _ & Hdata & _). vstep. apply yields_bind.
  eapply yields_mono; [by apply (IH (n + 1))|]. intros rs s'' ->. apply yields_ret.
  cbn [fmap list_fmap fst snd]. do 2 f_equal. by apply sectors_read.
Qed.

(** C4: the virtio driver.  On every machine with a block device that follows the
    specification and whose queue has at least 8 entries, initialisation succeeds
    and then every sequence of reads of any length (the 16-bit ring indices wrap
    around) returns 0 with the sectors asked for. *)
Theorem virtio_reads_sectors (d : vdev V) (m : mem) (t : list Z) (buf : Z) (reqs : list (Z * Z))
    (Hnum : QNUM <= dev_num_max) (Hok : mem_ok m) (Hreq : Forall (request_ok buf) reqs) :
  yields (rc ← virtio_blk_init L; rs ← read_seq reqs buf; mret (rc, rs)) (Drv d m t) (fun r _ =>
    r = (0, (fun r => (0, disk_bytes disk r.1 (512 * r.2))) <$> reqs)).
Proof.
  apply yields_bind. unfold QNUM in Hnum. eapply yields_mono; [apply init_ready; [lia | done]|].
  intros rc [d' m' t'] (-> & Hr & Hok' & _). rewrite Z.min_r in Hr by (unfold QNUM; lia).
  apply yields_bind. eapply yields_mono; [by apply (read_seq_reads buf reqs 0)|].
  by intros rs s' ->.
Qed.

(** ** A device with a smaller queue *)

(** The device looks for the available ring where a queue of its size has it. *)
Definition stalled (num : Z) (m1 : mem) (d0 : vdev V) (s : drv V) : Prop :=
  same_ptrs d0 (d_dev s) /\ d_mem s = m1 /\ exists kick, serving_num L num 0 kick (cf s).

Lemma barrier_stalled num m1 d0 s :
  load16 m1 (QT L + 16 * num + 2) = 0 -> stalled num m1 d0 s ->
  yields barrier s (fun _ s' => stalled num m1 d0 s').
Proof.
  intros Hz (Hptr & Hmem & kick & Hs). unfold barrier, modifyS, yields.
  pose proof (tick_conf (v_dev (d_dev s)) (d_mem s)) as Ht. destruct (tick _ _) as [v' m'].
  assert (m' = m1 /\ exists kick', serving_num L num 0 kick' (conf v')) as [-> Hs'].
  { pose proof (serving_table L num 0 kick (cf s) HL Hs) as HT. rewrite Hmem in Ht. revert Ht.
    unfold tick_effect, serve_queue, avail_ring. rewrite HT.
    destruct (cf s) as [st gp sel qn al pfn isr dn kk].
    destruct Hs as (H1 & H2 & H3 & H4 & H5 & H6 & H7 & H8 & H9). cbn in *. subst.
    rewrite Hz. cbn [orb]. change (0 =? u16 0) with true. rewrite orb_true_r.
    destruct kick as [[|k]|]; intros [= -> ->]; (split; [done | by eexists]). }
  split; [exact Hptr|]. split; [done | exact Hs'].
Qed.

Lemma spin_stalled num m1 d0 want spins : forall s,
  load16 m1 (QT L + 16 * num + 2) = 0 -> load16 m1 (QT L + 4096 + 2) <> want -> stalled num m1 d0 s ->
  yields (spin spins (QT L + 4096) want) s (fun _ s' => stalled num m1 d0 s').
Proof.
  induction spins as [|spins IH]; intros s Hz Hw Hs; [done|]. cbn [spin]. apply yields_gets.
  destruct Hs as (Hptr & Hmem & Hk). rewrite Hmem. rewrite (proj2 (Z.eqb_neq _ _)) by done.
  apply yields_bind. eapply yields_mono; [by apply (barrier_stalled num m1 d0)|].
  intros [] s' Hs'. by apply IH.
Qed.

Lemma publish_rings lba count buf aidx m a :
  QT L + 48 <= a -> a + 2 <= QT L + 8192 -> a + 2 <= QT L + 128 \/ QT L + 150 <= a ->
  load16 (publish_mem aidx (request_mem lba count buf m)) a = load16 m a.
Proof.
  intros Ha1 Ha2 Ha3. destruct (publish_fields aidx (request_mem lba count buf m)) as (Fp & _).
  destruct HL as [(? & ? & ?) _ _ _ _ _ _ _].
  rewrite (load16_frame _ _ _ _ _ Fp) by regions. by apply request_rings.
Qed.

Lemma zero_load16 m a :
  (forall x, inside (QT L) 8192 x -> m x = 0) -> QT L <= a -> a + 2 <= QT L + 8192 -> load16 m a = 0.
Proof.
  intros Hz Ha1 Ha2. destruct HL as [(? & ? & ?) _ _ _ _ _ _ _]. unfold load16.
  rewrite !load8_region by mlia. by rewrite !Hz by regions.
Qed.

(** A request to a device that set up a smaller queue is never answered. *)
Lemma transfer_stalled d m t lba count buf :
  3 <= dev_num_max < QNUM -> ready_num dev_num_max 0 d m ->
  (forall a, inside (QT L) 8192 a -> m a = 0) ->
  yields (transfer L lba count buf) (Drv d m t) (fun r _ => r = (0, 1)).
Proof.
  intros Hnum (Hmm & Hde & Hav & Hus & Hs & Hai & Hui) Hz. unfold QNUM in Hnum. unfold transfer.
  apply yields_fill_header. view. apply (yields_clear_irq dev_num_max 0 None); [exact Hmm | exact Hs|].
  intros v1 Hs1. view. do 2 vstep. view. rewrite Hus, Hde, Hav.
  assert (load16 (header_mem lba m) (QT L + 4096 + 2) = u16 0) as ->.
  { rewrite header_rings by lia. rewrite <- Hui. f_equal. lia. }
  apply (yields_fill_descriptors lba _ _ _ _ m); [done|].
  apply (yields_publish dev_num_max 0); [exact Hs1 | view; rewrite request_rings by lia; exact Hai|].
  intros v2 Hs2. view. set (m1 := publish_mem (u16 0) (request_mem lba count buf m)).
  assert (load16 m1 (QT L + 16 * dev_num_max + 2) = 0) as Hz1.
  { unfold m1. rewrite publish_rings by lia. apply zero_load16; [done | lia | lia]. }
  assert (load16 m1 (QT L + 4096 + 2) = 0) as Hz2.
  { unfold m1. rewrite publish_rings by lia. apply zero_load16; [done | lia | lia]. }
  apply yields_bind. unfold notify. apply yields_W; [exact Hmm|]. intros v3 H3.
  assert (serving_num L dev_num_max 0 None (conf v3)) as Hs3.
  { rewrite H3. view. destruct (conf v2). destruct Hs2 as (? & ? & ? & ? & ? & ? & ? & ? & ?).
    cbn in *. by subst. }
  apply yields_bind, (barrier_idle dev_num_max 0); [exact Hs3|]. intros v4 Hs4.
  apply yields_W; [exact Hmm|]. intros v5 H5.
  eapply yields_mono; [apply (barrier_stalled dev_num_max m1 d); [exact Hz1|]|].
  { split; [by split_and!|]. split; [done|]. exists (Some (delay v4)). view. rewrite H5. view.
    destruct (conf v4). destruct Hs4 as (? & ? & ? & ? & ? & ? & ? & ? & ?). cbn in *. by subst. }
  intros [] s6 Hs6. apply yields_bind. eapply yields_mono.
  { apply (spin_stalled dev_num_max m1 d); [exact Hz1 | rewrite Hz2; by vm_compute | exact Hs6]. }
  intros [] s7 (_ & Hm7 & _). vstep. rewrite Hm7, Hz2. by vstep.
Qed.

(** C38: a queue smaller than 8.  The driver then writes the size of the device to
    it but keeps the ring where a queue of 8 entries has it, so for every device
    with 3 to 7 entries initialisation reports success and the read that follows
    times out. *)
Theorem virtio_small_queue_times_out (d : vdev V) (m : mem) (t : list Z) (lba count buf : Z)
    (Hnum : 3 <= dev_num_max < QNUM) (Hok : mem_ok m) (Hcount : 0 < count) :
  yields (rc0 ← virtio_blk_init L; rc ← virtio_blk_read_blocks L lba count buf; mret (rc0, rc))
    (Drv d m t) (fun r _ => r = (0, -1)).
Proof.
  apply yields_bind. eapply yields_mono; [apply init_ready; [lia | done]|].
  intros rc [d' m' t'] (-> & Hr & _ & _ & Hz). cbn [d_dev d_mem] in *.
  rewrite Z.min_l in Hr by lia. apply yields_bind. unfold virtio_blk_read_blocks.
  rewrite (proj2 (Z.eqb_neq _ _)) by lia. apply yields_bind.
  eapply yields_mono; [by apply transfer_stalled|]. intros r s7 ->.
  change (negb (0 =? 1)) with true. cbv iota. by do 13 vstep.
Qed.

End Spec.

(** The driver implements the interface of the HFS+ reader. *)
Section BlockInterface.
Context {V : Type} {HV : VirtioMmio V} {HD : VirtioBlkSpec V} (L : queue_layout).
Context (HL : layout_ok L) (Hnum : QNUM <= dev_num_max).

Lemma virtio_init_ok (d : vdev V) (m : mem) :
  True -> mem_ok m ->
  let '(rc, text, d', m') := @Hfs.blk_init _ (virtio_block_device L) d m in
  rc = 0 /\ ready L d' m' /\ mem_ok m' /\ (forall a, ~ private L a -> m' a = m a).
Proof.
  intros _ Hok. assert (0 < dev_num_max) as Hpos by (unfold QNUM in Hnum; lia).
  pose proof (init_ready L HL d m [] Hpos Hok) as Hi.
  cbn [Hfs.blk_init Hfs.blk_read_blocks virtio_block_device]. unfold yields, on_drv in *. destruct (virtio_blk_init L _) as [rc [d' m' t']].
  destruct Hi as (-> & Hr & Hok' & Hf & _). rewrite Z.min_r in Hr by exact Hnum.
  split; [done|]. split; [by exists 0|]. split; [done|]. intros a Ha. apply Hf. unfold private in Ha. tauto.
Qed.

Lemma virtio_ready_frame (d : vdev V) (m m' : mem) :
  ready L d m -> (forall a, private L a -> m' a = m a) -> ready L d m'.
Proof.
  intros (n & Hmm & Hde & Hav & Hus & Hs & Hai & Hui) Hf. exists n. destruct HL as [(? & ? & ?) _ _ _ _ _ _ _].
  unfold ready_at, ready_num.
  split_and!; try done; [rewrite <- Hai | rewrite <- Hui]; (apply load16_ext; [unfold region; lia|]); intros x Hx; apply Hf; left;
    unfold inside in *; lia.
Qed.

Lemma virtio_read_ok lba count buf (d : vdev V) (m : mem) :
  ready L d m -> mem_ok m -> 0 <= lba -> 0 < count -> lba + count <= capacity ->
  512 * count < 4294967296 ->
  region buf (512 * count) -> (forall a, inside buf (512 * count) a -> ~ private L a) ->
  let '(rc, text, d', m') := @Hfs.blk_read_blocks _ (virtio_block_device L) lba count buf d m in
  rc = 0 /\ ready L d' m' /\ mem_ok m' /\
  (forall i, 0 <= i < 512 * count -> m' (buf + i) = disk (512 * lba + i)) /\
  (forall a, ~ inside buf (512 * count) a -> ~ private L a -> m' a = m a).
Proof.
  intros (n & Hr) Hok H1 H2 H3 H4 H5 H6.
  assert (sound_request L lba count buf) as Hreq by done.
  pose proof (read_ready L HL n lba count buf d m [] Hr Hok Hreq) as Hi.
  cbn [Hfs.blk_init Hfs.blk_read_blocks virtio_block_device]. unfold yields, on_drv in *. destruct (virtio_blk_read_blocks L _ _ _ _) as [rc [d' m' t']].
  destruct Hi as (-> & Hr' & Hok' & _ & Hd & Hf). split_and!; try done. by exists (n + 1).
Qed.

#[global] Instance virtio_block_device_spec :
    @Hfs.BlockDeviceSpec (vdev V) (virtio_block_device L) := {|
  Hfs.blk_ready := ready L;
  Hfs.blk_private := private L;
  Hfs.blk_sectors := capacity;
  Hfs.blk_byte := disk;
  Hfs.blk_sectors_u32 := capacity_u32;
  Hfs.blk_byte_u8 := disk_u8;
  Hfs.blk_present _ := True;
  Hfs.blk_init_ok := virtio_init_ok;
  Hfs.blk_ready_frame := virtio_ready_frame;
  Hfs.blk_read_ok := virtio_read_ok;
|}.

End BlockInterface.

(** ** A concrete machine *)

Module Example.

(** One block device, in the first window; it looks at the queue three ticks after
    a notification. *)
Section Machine.
Context (num : Z) (data : Z -> Z) (data_u8 : forall x, is_u8 (data x)).

Definition base : Z := 0x10001000.

Definition sectors : Z := 64.

Instance machine : VirtioMmio config := {|
  reg_read c b off :=
    if negb (b =? base) then 0
    else if off =? VMMIO_MAGIC then VIRTIO_MAGIC
    else if off =? VMMIO_DEVICE_ID then VIRTIO_ID_BLOCK
    else if off =? VMMIO_STATUS then q_status c
    else if off =? VMMIO_INTERRUPT_STATUS then q_isr c
    else if off =? VMMIO_QUEUE_NUM_MAX then num
    else if off =? VMMIO_CONFIG then sectors
    else 0;
  reg_write c b off x := if b =? base then write_effect off x 3 c else c;
  tick c m := tick_effect data sectors c m;
|}.

Lemma machine_tick (c : config) (m : mem) :
  let '(v', m') := tick c m in (v', m') = tick_effect data sectors c m.
Proof. cbn [tick machine]. by destruct (tick_effect _ _ _ _). Qed.

Instance machine_spec : VirtioBlkSpec config := {|
  dev_base := base;
  dev_num_max := num;
  capacity := sectors;
  disk := data;
  conf c := c;
  delay _ := 3%nat;
  capacity_u32 := ltac:(vm_compute; discriminate);
  disk_u8 := data_u8;
  dev_first _ := eq_refl;
  read_status _ := eq_refl;
  read_isr _ := eq_refl;
  read_num_max _ := eq_refl;
  read_capacity _ := conj eq_refl eq_refl;
  write_conf _ _ _ := eq_refl;
  tick_conf := machine_tick;
  delay_short _ := ltac:(vm_compute; reflexivity);
|}.

End Machine.

Definition contents (x : Z) : Z := x mod 251.

Lemma contents_u8 x : is_u8 (contents x).
Proof. unfold contents. pose proof (Z.mod_pos_bound x 251). mlia. Qed.

Definition layout : queue_layout := {| QT := 0x80300000; QH := 0x80302000; QS := 0x80302010 |}.

Lemma layout_is_ok : layout_ok layout.
Proof. split; cbn; unfold region, disjoint_reg; lia. Qed.

Definition start : vdev config := Vdev (Config 9 9 9 9 9 9 9 9 None) 0 0 0 0.

Definition buf : Z := 0x80400000.

Lemma requests_ok :
  Forall (@request_ok config (machine 8 contents) (machine_spec 8 contents contents_u8) layout buf) [(2, 1); (0, 4); (63, 1)].
Proof.
  repeat (apply Forall_cons_2; [|]); [..|apply Forall_nil_2]; unfold request_ok, sound_request, private, region, inside, buf;
    cbn; unfold sectors; (split_and!; try lia); intros a Ha; lia.
Qed.

Lemma zero_mem_ok : mem_ok (fun _ => 0).
Proof. intros a. mlia. Qed.

Lemma virtio_reads_sectors_witness :
  let _ := machine 8 contents in
  yields (rc ← virtio_blk_init layout; rs ← read_seq layout [(2, 1); (0, 4); (63, 1)] buf; mret (rc, rs))
    (Drv start (fun _ => 0) []) (fun r _ =>
    r = (0, (fun r => (0, disk_bytes contents r.1 (512 * r.2))) <$> [(2, 1); (0, 4); (63, 1)])).
Proof.
  exact (@virtio_reads_sectors config (machine 8 contents) (machine_spec 8 contents contents_u8) layout layout_is_ok start
    (fun _ => 0) [] buf [(2, 1); (0, 4); (63, 1)] (Z.le_refl 8) zero_mem_ok requests_ok).
Defined.

Lemma virtio_small_queue_times_out_witness :
  let _ := machine 4 contents in
  yields (rc0 ← virtio_blk_init layout; rc ← virtio_blk_read_blocks layout 2 1 buf; mret (rc0, rc))
    (Drv start (fun _ => 0) []) (fun r _ => r = (0, -1)).
Proof.
  assert (3 <= 4 < QNUM) as Hnum by (unfold QNUM; lia).
  exact (@virtio_small_queue_times_out config (machine 4 contents) (machine_spec 4 contents contents_u8) layout layout_is_ok start
    (fun _ => 0) [] 2 1 buf Hnum zero_mem_ok Z.lt_0_1).
Defined.

End Example.

End Virtio.
