(* ===== verification/HfsCatalog.v ===== *)
(** The catalog of an HFS+ volume (src/booter/hfsplus_boot.c): an abstract
    catalog of leaf records, its layout in the nodes on the disk, and the
    theorems that the scan, the path walk and the mount of Hfs.v agree with
    it on every device that keeps the laws of [BlockDeviceSpec]. *)

From S2P Require Import Prelude Print BootConfig Hfs.

Module HfsCatalog.

Import BootConfig Hfs.

(** ** Abstract catalog *)

(** A leaf record: its key and its data. *)
Record cat_rec := CatRec {
  cr_parent : Z;
  cr_name : list Z;
  cr_data : list Z;
}.

Definition rec_type (r : cat_rec) : Z := be16 (mem_of_list 0 (cr_data r)) 0.

Definition rec_folder (r : cat_rec) : Z := be32 (mem_of_list 0 (cr_data r)) 8.

Definition rec_fork (r : cat_rec) : ForkMeta := fork_from_file_record (mem_of_list 0 (cr_data r)) 0.

(** Names are short ASCII; folder and file records are as long as their type says. *)
Definition rec_ok (r : cat_rec) : Prop :=
  Forall (fun c => 0 < c < 128) (cr_name r) /\ (length (cr_name r) <= 127)%nat /\
  (2 <= length (cr_data r))%nat /\ Forall is_u8 (cr_data r) /\
  (rec_type r = 1 -> (12 <= length (cr_data r))%nat /\ rec_folder r <> 0) /\
  (rec_type r = 2 -> (168 <= length (cr_data r))%nat).

(** The record is at offset [o] of the node whose bytes are [b]. *)
Definition rec_at (b : mem) (nodeSize o : Z) (r : cat_rec) : Prop :=
  let n := Z.of_nat (length (cr_name r)) in
  0 <= o /\ o + 8 + 2 * n + Z.of_nat (length (cr_data r)) <= nodeSize /\
  be16 b o = 6 + 2 * n /\ be32 b (o + 2) = cr_parent r /\ be16 b (o + 6) = n /\
  (forall i c, cr_name r !! i = Some c -> be16 b (o + 8 + 2 * Z.of_nat i) = c) /\
  (forall i d, cr_data r !! i = Some d -> load8 b (o + 8 + 2 * n + Z.of_nat i) = d).

(** A leaf with the records [recs]: the offset of record [k] is [k + 1] halfwords
    before the end of the node, the one after the last gives the free space,
    which is zero. *)
Definition leaf_at (b : mem) (nodeSize : Z) (recs : list cat_rec) : Prop :=
  let num := Z.of_nat (length recs) in
  load8 b 8 = 0xff /\ be16 b 10 = num /\ 0 < num /\ 14 + 2 * (num + 1) <= nodeSize /\
  (forall k r, recs !! k = Some r ->
     rec_ok r /\ rec_at b nodeSize (be16 b (nodeSize - 2 * (Z.of_nat k + 1))) r) /\
  (let free := be16 b (nodeSize - 2 * (num + 1)) in
   0 <= free /\ (free + 8 < nodeSize -> be32 b (free + 2) = 0)).

(** A node of the catalog: a leaf or another kind of node. *)
Definition node_at (b : mem) (nodeSize : Z) (node : option (list cat_rec)) : Prop :=
  match node with
  | Some recs => leaf_at b nodeSize recs
  | None => load8 b 8 <> 0xff
  end.

(** What a record answers to a search. *)
Definition answer (parent : Z) (target : list Z) (w : wanted) (r : cat_rec) : option found :=
  if (cr_parent r =? parent) && bytes_eqb (cr_name r) target then
    match w with
    | WantFolder => if rec_type r =? 1 then Some (FoundFolder (rec_folder r)) else None
    | WantFile => if rec_type r =? 2 then Some (FoundFile (rec_fork r)) else None
    end
  else None.

Fixpoint first_answer (parent : Z) (target : list Z) (w : wanted) (rs : list cat_rec) :
    option found :=
  match rs with
  | [] => None
  | r :: rs => match answer parent target w r with
               | Some f => Some f
               | None => first_answer parent target w rs
               end
  end.

(** The search the code performs: leaves in order, in each the records from the
    last down to the second.  The first record of a leaf is not looked at. *)
Fixpoint catalog_search (parent : Z) (target : list Z) (w : wanted)
    (nodes : list (option (list cat_rec))) : option found :=
  match nodes with
  | [] => None
  | None :: nodes => catalog_search parent target w nodes
  | Some recs :: nodes =>
      match first_answer parent target w (reverse (tail recs)) with
      | Some f => Some f
      | None => catalog_search parent target w nodes
      end
  end.

(** The record type the scan leaves with an answer. *)
Definition type_of (f : option found) (rtype : Z) : Prop :=
  match f with
  | Some (FoundFolder _) => rtype = 1
  | Some (FoundFile _) => rtype = 2
  | None => True
  end.

(** *** A node in memory and the abstract node *)

Section NodeProofs.
Context (SECBUF : Z) (m b : mem) (nodeSize : Z).
Context (Hm : mem_ok m) (Hns : nodeSize <= 8192) (Hb : same_bytes m SECBUF b 0 nodeSize).

Lemma node_be16 i : 0 <= i -> i + 2 <= nodeSize -> be16 m (SECBUF + i) = be16 b i.
Proof. apply (same_be16 _ _ _ _ _ _ Hb). Qed.

Lemma node_be32 i : 0 <= i -> i + 4 <= nodeSize -> be32 m (SECBUF + i) = be32 b i.
Proof. apply (same_be32 _ _ _ _ _ _ Hb). Qed.

(** The name of a record, character by character. *)
Lemma name_at name : forall o room,
  Forall (fun c => 0 < c < 128) name -> (length name <= room)%nat ->
  0 <= o -> o + 2 * Z.of_nat (length name) <= nodeSize ->
  (forall i c, name !! i = Some c -> be16 b (o + 2 * Z.of_nat i) = c) ->
  ascii_name_from_utf16be m (SECBUF + o) (length name) room = name.
Proof.
  induction name as [|c name IH]; intros o room Hc Hroom Ho Hend Hname; [done|].
  destruct room as [|room]; simpl in Hroom; [lia|]. simpl in Hend.
  apply Forall_cons in Hc as [Hc0 Hc]. simpl.
  rewrite node_be16 by lia. replace (be16 b o) with c.
  2: { rewrite <- (Hname 0%nat c) by done. f_equal. lia. }
  rewrite (proj2 (Z.ltb_lt c 128)) by lia. f_equal.
  replace (SECBUF + o + 2) with (SECBUF + (o + 2)) by lia. apply IH; try done; try lia.
  intros i c' Hi. rewrite <- (Hname (S i) c') by done. f_equal. lia.
Qed.

Lemma c_string_ascii name : Forall (fun c => 0 < c < 128) name -> c_string name = name.
Proof.
  induction 1 as [|c name Hc Hn IH]; [done|]. simpl.
  by rewrite (proj2 (Z.eqb_neq c 0)), IH by lia.
Qed.

Lemma s_eq_bytes x y : s_eq x y = bytes_eqb x y.
Proof.
  unfold bytes_eqb. revert y. induction x as [|c x IH]; intros [|d y]; try done. simpl.
  rewrite IH. destruct (Z.eqb_spec c d) as [->|Hne]; simpl.
  - apply bool_decide_ext. split; [by intros -> | by intros [= ->]].
  - symmetry. apply bool_decide_eq_false_2. by intros [= ? ?].
Qed.

Lemma data_at o r :
  rec_at b nodeSize o r -> rec_ok r ->
  same_bytes m (SECBUF + (o + 8 + 2 * Z.of_nat (length (cr_name r))))
    (mem_of_list 0 (cr_data r)) 0 (Z.of_nat (length (cr_data r))).
Proof.
  intros (Ho & Hend & _ & _ & _ & _ & Hdata) (_ & _ & _ & Hu8 & _) i Hi.
  rewrite <- Z.add_assoc, Hb by lia.
  destruct (lookup_lt_is_Some_2 (cr_data r) (Z.to_nat i)) as [d Hd]; [lia|].
  specialize (Hdata _ _ Hd). rewrite Z2Nat.id in Hdata by lia. rewrite !Z.add_0_l, Hdata.
  unfold load8, mem_of_list. rewrite u32_small by mlia.
  rewrite (proj2 (Z.leb_le 0 i)), (proj2 (Z.ltb_lt i _)) by lia. simpl.
  rewrite Z.sub_0_r. by rewrite (list_lookup_total_correct _ _ _ Hd).
Qed.

Lemma read_extents_same m1 m2 a1 a2 : forall n i k,
  same_bytes m1 a1 m2 a2 k -> 0 <= i -> i + 8 * Z.of_nat n <= k ->
  read_extents m1 (a1 + i) n = read_extents m2 (a2 + i) n.
Proof.
  induction n as [|n IH]; intros i k Hs Hi Hk; [done|]. simpl. f_equal.
  - rewrite <- !Z.add_assoc. f_equal; eapply same_be32; try done; lia.
  - rewrite <- !Z.add_assoc. eapply IH; [done | lia | lia].
Qed.

Lemma fork_from_file_record_same m1 m2 a1 a2 k :
  same_bytes m1 a1 m2 a2 k -> 168 <= k ->
  fork_from_file_record m1 a1 = fork_from_file_record m2 a2.
Proof.
  intros Hs Hk. unfold fork_from_file_record. f_equal.
  - eapply same_be64; [done | lia | lia].
  - eapply read_extents_same; [done | lia | lia].
Qed.

(** One record of a leaf: the model and the abstract record agree. *)
Lemma scan_record_rec parent target w o r :
  rec_at b nodeSize o r -> rec_ok r ->
  scan_record SECBUF m nodeSize parent target w o =
    (if (cr_parent r =? parent) && bytes_eqb (cr_name r) target then Some (rec_type r) else None,
     answer parent target w r).
Proof.
  intros Hat Hok. pose proof (data_at o r Hat Hok) as Hdata.
  pose proof Hat as (Ho & Hend & Hkey & Hpar & Hlen & Hname & _).
  pose proof Hok as (Hascii & Hshort & H2 & _ & H12 & H168).
  unfold scan_record, answer. rewrite (proj2 (Z.leb_gt nodeSize (o + 8))) by lia.
  rewrite node_be16, Hkey by lia.
  rewrite <- (Z.add_assoc SECBUF o 2), <- (Z.add_assoc SECBUF o 6), <- (Z.add_assoc SECBUF o 8).
  rewrite (node_be32 (o + 2)), (node_be16 (o + 6)), Hpar, Hlen, Nat2Z.id by lia.
  rewrite (proj2 (Z.ltb_ge nodeSize _)) by lia.
  rewrite name_at by (done || lia || (intros i c Hi; rewrite <- (Hname i c) by done; f_equal; lia)).
  rewrite c_string_ascii, s_eq_bytes by done.
  destruct (cr_parent r =? parent), (bytes_eqb (cr_name r) target); try done. simpl.
  replace (o + 2 + (6 + 2 * Z.of_nat (length (cr_name r))))
    with (o + 8 + 2 * Z.of_nat (length (cr_name r))) by lia.
  set (a := SECBUF + _) in *.
  assert (be16 m a = rec_type r) as ->.
  { rewrite <- (Z.add_0_r a). apply (same_be16 _ _ _ _ 0 _ Hdata); lia. }
  destruct w; f_equal; case_if; try done; zbool; do 2 f_equal.
  - apply (same_be32 _ _ _ _ 8 _ Hdata); [lia|]. destruct H12; [done|]. lia.
  - apply (fork_from_file_record_same _ _ _ _ _ Hdata). lia.
Qed.

(** The free-space slot. *)
Lemma scan_record_free parent target w free :
  0 <= free -> (free + 8 < nodeSize -> be32 b (free + 2) = 0) -> parent <> 0 ->
  scan_record SECBUF m nodeSize parent target w free = (None, None).
Proof.
  intros Hf Hz Hp. unfold scan_record. case_if; zbool; [done|]. case_if; [done|].
  rewrite <- Z.add_assoc, node_be32, Hz by lia.
  by rewrite (proj2 (Z.eqb_neq 0 parent)) by done.
Qed.

(** The slots of the records [rs] at [idx], last record first. *)
Lemma scan_slots_recs parent target w : forall rs i rtype,
  0 <= i -> i + 2 * Z.of_nat (length rs) <= nodeSize ->
  (forall k r, rs !! k = Some r ->
     rec_ok r /\ rec_at b nodeSize (be16 b (i + 2 * Z.of_nat k)) r) ->
  let res := scan_slots SECBUF m nodeSize parent target w (SECBUF + i) (length rs) rtype in
  res.2 = first_answer parent target w rs /\ type_of res.2 res.1.
Proof.
  induction rs as [|r rs IH]; intros i rtype Hi Hend Hrs; [done|]. simpl in Hend. cbn zeta.
  cbn [length scan_slots first_answer]. rewrite node_be16 by lia.
  destruct (Hrs 0%nat r eq_refl) as [Hok Hat].
  rewrite Z.mul_0_r, Z.add_0_r in Hat. rewrite (scan_record_rec _ _ _ _ r) by done.
  destruct (answer parent target w r) as [f|] eqn:Hans.
  - simpl. split; [done|]. unfold answer in Hans.
    destruct (_ && _); [|done].
    destruct w; [destruct (Z.eqb_spec (rec_type r) 1) | destruct (Z.eqb_spec (rec_type r) 2)];
      by simplify_eq.
  - rewrite <- Z.add_assoc. apply IH; [lia | lia |].
    intros k r' Hk. destruct (Hrs (S k) r' Hk) as [Hok' Hat']. split; [done|].
    replace (i + 2 + 2 * Z.of_nat k) with (i + 2 * Z.of_nat (S k)) by lia. done.
Qed.

Lemma scan_node_node parent target w node rtype :
  node_at b nodeSize node -> parent <> 0 -> 14 <= nodeSize ->
  let res := scan_node SECBUF m nodeSize parent target w rtype in
  res.2 = match node with
          | Some recs => first_answer parent target w (reverse (tail recs))
          | None => None
          end /\ type_of res.2 res.1.
Proof.
  intros Hnode Hp Hn. cbn zeta. unfold scan_node. rewrite Hb, Z.add_0_l by lia.
  destruct node as [recs|]; simpl in Hnode.
  - destruct Hnode as (Hkind & Hnum & Hpos & Hfit & Hrecs & Hfree & Hzero).
    rewrite Hkind, Z.eqb_refl. simpl negb. cbv iota. rewrite node_be16, Hnum by lia.
    rewrite (proj2 (Z.eqb_neq _ 0)), (proj2 (Z.ltb_ge nodeSize _)) by lia. simpl orb. cbv iota.
    rewrite Nat2Z.id. destruct recs as [|r0 recs]; [simpl in Hpos; lia|].
    cbn [length scan_slots tail]. cbn [length] in *.
    set (n := length recs) in *.
    replace (SECBUF + nodeSize - 2 * (Z.of_nat (S n) + 1))
      with (SECBUF + (nodeSize - 2 * (Z.of_nat (S n) + 1))) by lia.
    rewrite node_be16, scan_record_free by (done || lia).
    rewrite <- Z.add_assoc.
    assert (length (reverse recs) = n) as Hrev by apply length_reverse.
    pose proof (scan_slots_recs parent target w (reverse recs)) as Hslots.
    rewrite Hrev in Hslots. apply Hslots; [lia | lia |].
    intros k r Hk. apply reverse_lookup_Some in Hk as [Hk Hlt].
    fold n in Hk, Hlt.
    destruct (Hrecs (S (n - S k)) r Hk) as [Hok Hat]. split; [done|].
    replace (nodeSize - 2 * (Z.of_nat (S n) + 1) + 2 + 2 * Z.of_nat k)
      with (nodeSize - 2 * (Z.of_nat (S (n - S k)) + 1)) by lia. done.
  - by rewrite (proj2 (Z.eqb_neq (load8 b 8) 255)).
Qed.

End NodeProofs.

(** *** The catalog of a volume *)

Section CatalogSpec.
Context {D : Type} `{HD : BlockDevice D} `{HS : !BlockDeviceSpec D}.
Context (SECBUF : Z).
Context (Hsec : region SECBUF 8192).
Context (Hpriv : forall a, inside SECBUF 8192 a -> ~ blk_private a).

Implicit Types (s : boot (D := D)).

(** Nothing but the sector buffer and the memory of the driver changed. *)
Definition quiet s s' : Prop := keeps SECBUF s s' SECBUF 8192 8192.

Lemma quiet_refl s : quiet s s.
Proof. by split. Qed.

Lemma quiet_trans s1 s2 s3 : quiet s1 s2 -> quiet s2 s3 -> quiet s1 s3.
Proof. intros H1 H2. by eapply keeps_trans. Qed.

Lemma keeps_quiet s s' n k : n <= 8192 -> k <= 8192 -> keeps SECBUF s s' SECBUF n k -> quiet s s'.
Proof.
  intros Hn Hk [Hh Hm]. split; [done|]. intros x Hx _ Hp. unfold inside in *.
  apply Hm; [lia | lia | done].
Qed.

Definition node_bytes (h : hfs_vol) (node : Z) : mem :=
  fun i => fork_byte (block_size h) (catalog h) (node * catalogNodeSize h + i).

(** The catalog holds [nodes] from its first leaf on; nodes do not straddle
    blocks. *)
Definition catalog_at (h : hfs_vol) (nodes : list (option (list cat_rec))) : Prop :=
  let '(first, last) := catalog_range h in
  let ns := catalogNodeSize h in
  bs_ok (block_size h) /\ fork_mapped (block_size h) (catalog h) /\
  14 <= ns /\ block_size h mod ns = 0 /\
  0 <= first /\ Z.of_nat (length nodes) = last - first + 1 /\
  (last + 1) * ns <= fk_size (catalog h) /\
  forall k node, nodes !! k = Some node ->
    node_at (node_bytes h (first + Z.of_nat k)) ns node.

Lemma node_in_block bs ns n :
  0 < ns -> 0 < bs -> bs mod ns = 0 -> (n * ns) mod bs + ns <= bs.
Proof.
  intros Hns Hbs Hmod. apply Z.mod_divide in Hmod as [q ->]; [|lia].
  assert (0 < q) by nia. rewrite Z.mul_mod_distr_r by lia.
  pose proof (Z.mod_pos_bound n q). nia.
Qed.

Lemma scan_nodes_search h parent target w last : forall nodes fuel node rtype s,
  ok s -> b_hfs s = h -> parent <> 0 ->
  bs_ok (block_size h) -> fork_mapped (block_size h) (catalog h) ->
  14 <= catalogNodeSize h -> block_size h mod catalogNodeSize h = 0 ->
  0 <= node -> Z.of_nat (length nodes) = last - node + 1 -> (length nodes <= fuel)%nat ->
  (last + 1) * catalogNodeSize h <= fk_size (catalog h) ->
  (forall k nd, nodes !! k = Some nd ->
     node_at (node_bytes h (node + Z.of_nat k)) (catalogNodeSize h) nd) ->
  returns (scan_nodes SECBUF fuel (catalogNodeSize h) parent target w node last rtype) s
    (fun r s' => ok s' /\ quiet s s' /\
       r.2 = catalog_search parent target w nodes /\
       r.1.1 = (if bool_decide (r.2 = None) then -1 else 0) /\ type_of r.2 r.1.2).
Proof.
  set (ns := catalogNodeSize h). set (bs := block_size h).
  induction nodes as [|nd nodes IH];
    intros fuel node rtype s Hok Hh Hp Hbs Hfk Hns Hdiv Hnode Hlen Hfuel Hend Hat; simpl in Hlen.
  { assert (last < node) as Hlt by lia. destruct fuel; cbn [scan_nodes];
      rewrite (proj2 (Z.ltb_lt last node)) by lia; apply returns_ret; by split_and!. }
  destruct fuel as [|fuel]; [simpl in Hfuel; lia|]. cbn [scan_nodes].
  rewrite (proj2 (Z.ltb_ge last node)) by lia. apply returns_get. rewrite Hh.
  pose proof Hbs as [? _]. pose proof Hfk as [Hsize _].
  pose proof (node_in_block bs ns node ltac:(lia) ltac:(lia) Hdiv) as Hin.
  pose proof (Z.mod_pos_bound (node * ns) bs ltac:(lia)).
  rewrite u32_small by (unfold is_u32; nia).
  eapply returns_bind.
  { apply (fork_read_in_block SECBUF Hsec Hpriv bs); [done | by rewrite Hh | done..|nia|nia|nia|done]. }
  intros rc s1 (-> & Hok1 & Hk1 & Hb1). apply keeps_quiet in Hk1; [|lia|lia]. cbn [negb Z.eqb].
  apply returns_get.
  assert (same_bytes (b_mem s1) SECBUF (node_bytes h node) 0 ns) as Hsame.
  { intros i Hi. destruct Hsec as (? & ? & ?). rewrite Z.add_0_l.
    unfold load8. rewrite !u32_small by mlia. by rewrite Hb1. }
  pose proof (Hat 0%nat nd eq_refl) as Hnd. rewrite Z.add_0_r in Hnd.
  pose proof (scan_node_node SECBUF (b_mem s1) (node_bytes h node) ns ltac:(lia) Hsame
    parent target w nd rtype Hnd Hp Hns) as [Hres Hty].
  destruct (scan_node _ _ _ _ _ _ _) as [t res]. cbn [fst snd] in *.
  assert (catalog_search parent target w (nd :: nodes) =
    match res with Some f => Some f | None => catalog_search parent target w nodes end) as Hcs.
  { rewrite Hres. by destruct nd. }
  rewrite Hcs. destruct res as [f|].
  { apply returns_ret. split_and!; done. }
  case_if; zbool.
  - assert (nodes = []) as -> by (apply length_zero_iff_nil; lia). apply returns_ret. by split_and!.
  - eapply returns_mono; [apply IH; try done; try lia|].
    + destruct Hk1 as [-> _]. done.
    + simpl in Hfuel. lia.
    + intros k nd' Hk. replace (node + 1 + Z.of_nat k) with (node + Z.of_nat (S k)) by lia. by apply Hat.
    + intros r s2 (Hok2 & Hk2 & Hr). split; [done|]. split; [by eapply quiet_trans | done].
Qed.

Lemma catalog_scan_child_search h nodes parent target w rtype s :
  ok s -> b_hfs s = h -> catalog_at h nodes -> parent <> 0 ->
  returns (catalog_scan_child SECBUF parent target w rtype) s
    (fun r s' => ok s' /\ quiet s s' /\
       r.2 = catalog_search parent target w nodes /\
       r.1.1 = (if bool_decide (r.2 = None) then -1 else 0) /\ type_of r.2 r.1.2).
Proof.
  intros Hok Hh Hcat Hp. unfold catalog_scan_child. apply returns_get. rewrite Hh.
  unfold catalog_at in Hcat. destruct (catalog_range h) as [first last].
  destruct Hcat as (Hbs & Hfk & Hns & Hdiv & Hf & Hlen & Hend & Hat).
  assert (catalogNodeSize h <= 8192) as Hmax.
  { pose proof Hbs as [? _]. apply Z.mod_divide in Hdiv as [q Hq]; [|lia].
    assert (0 < q) by nia. nia. }
  rewrite (proj2 (Z.eqb_neq (catalogNodeSize h) 0)) by lia.
  unfold HFS_NODE_BUF_SIZE. rewrite (proj2 (Z.ltb_ge 8192 _)) by lia.
  apply scan_nodes_search; try done. lia.
Qed.

(** Following a path in the abstract catalog. *)
Fixpoint resolve (nodes : list (option (list cat_rec))) (parent : Z) (cs : list (list Z)) :
    option ForkMeta :=
  match cs with
  | [] => None
  | [c] => match catalog_search parent c WantFile nodes with
           | Some (FoundFile fk) => Some fk
           | _ => None
           end
  | c :: cs => match catalog_search parent c WantFolder nodes with
               | Some (FoundFolder id) => resolve nodes id cs
               | _ => None
               end
  end.

Definition nodes_ok (nodes : list (option (list cat_rec))) : Prop :=
  forall recs r, Some recs ∈ nodes -> r ∈ recs -> rec_ok r.

Lemma first_answer_elem parent target w f rs :
  first_answer parent target w rs = Some f -> exists r, r ∈ rs /\ answer parent target w r = Some f.
Proof.
  induction rs as [|r rs IH]; [done|]. simpl. destruct (answer parent target w r) eqn:Ha.
  - intros [= <-]. exists r. split; [left | done].
  - intros H. destruct (IH H) as (r' & ? & ?). exists r'. split; [by right | done].
Qed.

Lemma catalog_search_elem parent target w f nodes :
  catalog_search parent target w nodes = Some f ->
  exists recs r, Some recs ∈ nodes /\ r ∈ recs /\ answer parent target w r = Some f.
Proof.
  induction nodes as [|[recs|] nodes IH]; simpl; [done | |].
  - destruct (first_answer _ _ _ _) as [g|] eqn:Hf.
    + intros [= <-]. apply first_answer_elem in Hf as (r & Hr & Ha). exists recs, r.
      split_and!; [left | | done]. rewrite elem_of_reverse in Hr. by destruct recs; [|right].
    + intros H. destruct (IH H) as (recs' & r & ? & ? & ?). exists recs', r. split_and!; [by right | done..].
  - intros H. destruct (IH H) as (recs' & r & ? & ? & ?). exists recs', r. split_and!; [by right | done..].
Qed.

Lemma search_folder_nonzero parent target nodes id :
  nodes_ok nodes -> catalog_search parent target WantFolder nodes = Some (FoundFolder id) -> id <> 0.
Proof.
  intros Hn Hs. apply catalog_search_elem in Hs as (recs & r & Hin & Hr & Ha).
  destruct (Hn recs r Hin Hr) as (_ & _ & _ & _ & H12 & _). unfold answer in Ha.
  destruct (_ && _); [|done]. destruct (Z.eqb_spec (rec_type r) 1) as [Ht|]; [|done].
  simplify_eq. by destruct (H12 Ht).
Qed.

Lemma first_answer_none parent target w rs :
  (forall r, r ∈ rs -> answer parent target w r = None) -> first_answer parent target w rs = None.
Proof.
  induction rs as [|r rs IH]; intros Hn; [done|]. simpl. rewrite Hn by left.
  apply IH. intros r' Hr'. apply Hn. by right.
Qed.

Lemma catalog_search_none parent target w nodes :
  (forall recs r, Some recs ∈ nodes -> r ∈ tail recs -> answer parent target w r = None) ->
  catalog_search parent target w nodes = None.
Proof.
  induction nodes as [|[recs|] nodes IH]; intros Hn; simpl; [done | |].
  - rewrite first_answer_none; [apply IH; intros; eapply Hn; [by right | done]|].
    intros r Hr. rewrite elem_of_reverse in Hr. eapply Hn; [by left | done].
  - apply IH. intros. eapply Hn; [by right | done].
Qed.

Lemma path_length cs path :
  Forall plain cs -> path = slash_join cs \/ path = unslash cs ->
  (length cs <= length path)%nat.
Proof.
  intros Hp Hpath.
  assert (forall l, Forall plain l -> (2 * length l <= length (slash_join l))%nat) as Hj.
  { induction 1 as [|c l [Hc _] Hl IH]; [done|]. change (slash_join (c :: l)) with (SLASH :: c ++ slash_join l).
    simpl. rewrite length_app. destruct c; [done|]. simpl. lia. }
  destruct Hpath as [-> | ->]; [specialize (Hj cs Hp); lia|].
  destruct cs as [|c cs]; [done|]. apply Forall_cons in Hp as [Hc Hp].
  unfold unslash. change (slash_join (c :: cs)) with (SLASH :: c ++ slash_join cs). simpl.
  rewrite skip_slashes_plain, length_app by done. specialize (Hj cs Hp).
  destruct Hc as [Hc _]. destruct c; [done|]. simpl. lia.
Qed.

Lemma search_kind parent target w nodes f :
  catalog_search parent target w nodes = Some f ->
  match w, f with WantFolder, FoundFolder _ | WantFile, FoundFile _ => True | _, _ => False end.
Proof.
  intros Hs. apply catalog_search_elem in Hs as (recs & r & _ & _ & Ha). unfold answer in Ha.
  destruct (_ && _); [|done]. destruct w; destruct (_ =? _); by simplify_eq.
Qed.

Lemma catalog_at_nodes_ok h nodes : catalog_at h nodes -> nodes_ok nodes.
Proof.
  unfold catalog_at. destruct (catalog_range h) as [first last].
  intros (_ & _ & _ & _ & _ & _ & _ & Hat) recs r Hin Hr.
  apply list_elem_of_lookup_1 in Hin as [k Hk]. apply list_elem_of_lookup_1 in Hr as [j Hj].
  destruct (Hat k _ Hk) as (_ & _ & _ & _ & Hrecs & _). by destruct (Hrecs j r Hj).
Qed.

(** What reading a file leaves: the code, the size and the bytes. *)
Definition file_result (h : hfs_vol) (nodes : list (option (list cat_rec))) (parent : Z)
    (cs : list (list Z)) (dst cap : Z) s (r : Z * option Z) s' : Prop :=
  ok s' /\
  match resolve nodes parent cs with
  | Some fk =>
      if cap <? fk_size fk then r = (-1, None) /\ quiet s s'
      else r = (0, Some (fk_size fk)) /\ keeps SECBUF s s' dst (fk_size fk) 8192 /\
           forall i, 0 <= i < fk_size fk ->
             b_mem s' (dst + i) = fork_byte (block_size h) fk i
  | None => r = (-1, None) /\ quiet s s'
  end.

Lemma read_leaf_file h fk dst cap s :
  ok s -> b_hfs s = h -> bs_ok (block_size h) ->
  region dst cap -> disjoint_reg dst cap SECBUF 8192 ->
  (forall a, inside dst cap a -> ~ blk_private a) ->
  fk_size fk <= cap -> fork_mapped (block_size h) fk ->
  returns (fork_read SECBUF fk 0 dst (u32 (fk_size fk))) s (fun rc s' =>
    rc = 0 /\ ok s' /\ keeps SECBUF s s' dst (fk_size fk) 8192 /\
    forall i, 0 <= i < fk_size fk -> b_mem s' (dst + i) = fork_byte (block_size h) fk i).
Proof.
  intros Hok Hh Hbs (? & ? & ?) Hdis Hnp Hcap Hfk. pose proof Hfk as [Hsize _].
  rewrite u32_small by mlia.
  assert (read_len fk 0 (fk_size fk) = fk_size fk) as Hl by (unfold read_len; lia).
  eapply returns_mono;
    [apply (fork_read_outside SECBUF Hsec Hpriv (block_size h)); rewrite ?Hl; try done|].
  - by rewrite Hh.
  - lia.
  - mlia.
  - unfold region. lia.
  - destruct Hdis; [left|right]; lia.
  - intros a Ha. apply Hnp. unfold inside in *. lia.
  - rewrite Hl. intros rc s' (-> & Hok' & Hk & Hb). split_and!; try done.
    destruct Hk as [Hh' Hm']. split; [done|]. intros x Hx Hs Hp. apply Hm'; [done | | done].
    destruct Hbs. unfold inside in *. lia.
Qed.

Lemma file_result_quiet h nodes parent parent' cs cs' dst cap s s1 s2 r :
  quiet s s1 -> resolve nodes parent cs = resolve nodes parent' cs' ->
  file_result h nodes parent' cs' dst cap s1 r s2 -> file_result h nodes parent cs dst cap s r s2.
Proof.
  intros Hq Hres [Hok Hf]. split; [done|]. rewrite Hres.
  destruct (resolve nodes parent' cs') as [fk|]; [case_if|].
  - destruct Hf as [-> Hf]. split; [done | by eapply quiet_trans].
  - destruct Hf as (-> & [Hh2 Hm2] & Hb2). split_and!; try done.
    destruct Hq as [Hh1 Hm1]. split; [congruence|]. intros x Hx Hx2 Hx3. by rewrite Hm2, Hm1.
  - destruct Hf as [-> Hf]. split; [done | by eapply quiet_trans].
Qed.

(** Destinations the reader may write to. *)
Definition dst_ok (dst cap : Z) : Prop :=
  region dst cap /\ disjoint_reg dst cap SECBUF 8192 /\
  forall a, inside dst cap a -> ~ blk_private a.

(** The last component: the file itself. *)
Lemma read_last_component h nodes dst cap c fuel path parent s :
  ok s -> b_hfs s = h -> catalog_at h nodes -> parent <> 0 -> dst_ok dst cap ->
  (forall fk, resolve nodes parent [c] = Some fk -> fk_size fk <= cap ->
     fork_mapped (block_size h) fk) ->
  split_next_path_component path 128 = Some (c, unslash []) ->
  returns (read_file_loop SECBUF (S fuel) path parent dst cap) s
    (file_result h nodes parent [c] dst cap s).
Proof.
  intros Hok Hh Hcat Hp (Hdst & Hdis & Hnp) Hfk Hsplit. cbn [read_file_loop]. rewrite Hsplit.
  change (path_has_more (unslash [])) with false. cbv iota.
  eapply returns_bind; [by apply (catalog_scan_child_search h nodes)|].
  intros [[rc t] res] s1 (Hok1 & Hq1 & Hr & Hrc & Hty). cbn [fst snd] in *. subst res.
  pose proof Hq1 as [Hh1 _]. rewrite Hh in Hh1.
  unfold file_result. cbn [resolve] in *.
  destruct (catalog_search parent c WantFile nodes) as [[id|fk]|] eqn:Hs.
  - by apply search_kind in Hs.
  - rewrite bool_decide_eq_false_2 in Hrc by done. simpl in Hty. subst rc t.
    rewrite !Z.eqb_refl. cbn [negb orb]. case_if; zbool.
    + unfold pdec. do 7 apply returns_p. by apply returns_ret.
    + eapply returns_bind; [apply (read_leaf_file h fk dst cap); try done; [|by apply Hfk]|].
      { unfold catalog_at in Hcat. destruct (catalog_range h). by destruct Hcat. }
      intros rc s2 (-> & Hok2 & [Hh2 Hm2] & Hb2). cbn [Z.eqb negb]. apply returns_ret.
      pose proof (Hfk fk eq_refl ltac:(lia)) as [Hsize _].
      rewrite u32_small by mlia. split_and!; try done.
      destruct Hq1 as [Hh1' Hm1]. split; [congruence|].
      intros x Hx Hx2 Hx3. by rewrite Hm2, Hm1.
  - do 3 apply returns_p. by apply returns_ret.
Qed.

Lemma read_file_loop_file h nodes dst cap : forall cs fuel path parent s,
  ok s -> b_hfs s = h -> catalog_at h nodes -> parent <> 0 -> dst_ok dst cap ->
  (forall fk, resolve nodes parent cs = Some fk -> fk_size fk <= cap ->
     fork_mapped (block_size h) fk) ->
  Forall plain cs -> Forall (fun c => slen c < 128) cs -> cs <> [] ->
  path = slash_join cs \/ path = unslash cs -> (length cs <= fuel)%nat ->
  returns (read_file_loop SECBUF fuel path parent dst cap) s
    (file_result h nodes parent cs dst cap s).
Proof.
  induction cs as [|c cs IH]; intros fuel path parent s Hok Hh Hcat Hp Hdst Hfk
    Hplain Hshort Hne Hpath Hfuel; [done|].
  apply Forall_cons in Hplain as [Hc Hplain]. apply Forall_cons in Hshort as [Hlc Hshort].
  assert (split_next_path_component path 128 = Some (c, unslash cs)) as Hsplit.
  { destruct (split_next_join c cs 128 Hc Hlc) as [H1 H2]. by destruct Hpath as [-> | ->]. }
  destruct fuel as [|fuel]; [simpl in Hfuel; lia|].
  destruct (decide (cs = [])) as [->|Hcs]; [by apply read_last_component|].
  cbn [read_file_loop].
  rewrite Hsplit, path_has_more_unslash, bool_decide_eq_false_2 by done. cbn [negb].
  eapply returns_bind; [by apply (catalog_scan_child_search h nodes)|].
  intros [[rc t] res] s1 (Hok1 & Hq1 & Hr & Hrc & Hty). cbn [fst snd] in *. subst res.
  pose proof Hq1 as [Hh1 _]. rewrite Hh in Hh1.
  assert (resolve nodes parent (c :: cs) =
    match catalog_search parent c WantFolder nodes with
    | Some (FoundFolder id) => resolve nodes id cs | _ => None end) as Hres by (by destruct cs).
  destruct (catalog_search parent c WantFolder nodes) as [[id|fk]|] eqn:Hs.
  - rewrite bool_decide_eq_false_2 in Hrc by done. simpl in Hty. subst rc t.
    rewrite !Z.eqb_refl. cbn [negb orb]. rewrite Hres in Hfk.
    eapply returns_mono; [|intros r s2; by apply file_result_quiet].
    apply IH; try done; [ | by right | simpl in Hfuel; lia].
    eapply search_folder_nonzero; [by eapply catalog_at_nodes_ok | done].
  - by apply search_kind in Hs.
  - do 3 apply returns_p. apply returns_ret. split; [done|]. by rewrite Hres.
Qed.

(** *** Mounting *)

Lemma same_volume_header m m' a a' :
  same_bytes m a m' a' 512 -> read_volume_header a m = read_volume_header a' m'.
Proof.
  intros Hs.
  assert (fork_from_volume_fork m (a + 272) = fork_from_volume_fork m' (a' + 272)) as Hfk.
  { unfold fork_from_volume_fork. rewrite <- !Z.add_assoc. f_equal.
    - by eapply same_be64.
    - by eapply read_extents_same. }
  unfold read_volume_header. rewrite Hfk. f_equal; by eapply same_be32.
Qed.

Lemma same_btree_header m m' a a' h :
  same_bytes m a m' a' 512 -> read_btree_header a m h = read_btree_header a' m' h.
Proof.
  intros Hs. unfold read_btree_header. rewrite <- !Z.add_assoc.
  rewrite (same_be16 m a m' a' _ 512 Hs) by done.
  f_equal; by eapply same_be32.
Qed.

Lemma print_extents_quiet ext : forall i s (A : Type) (f : unit -> PST boot A) (Q : A -> boot -> Prop),
  (forall out, returns (f tt) (Boot (b_mem s) (b_dev s) out (b_hfs s)) Q) ->
  returns (print_extents i ext ≫= f) s Q.
Proof.
  induction ext as [|[start count] ext IH]; intros i s A f Q Hf.
  { destruct s. apply Hf. }
  cbn [print_extents]. case_if; [destruct s; apply Hf|].
  unfold pdec. refine (IH (i + 1) (Boot (b_mem s) (b_dev s) _ (b_hfs s)) A f Q Hf).
Qed.

(** The volume header on the disk and the volume it describes. *)
Definition header_bytes : mem := fun i => blk_byte (1024 + i).

Definition disk_volume : hfs_vol := read_volume_header 0 header_bytes.

Lemma hfsplus_mount_volume h s :
  ok s -> 3 <= blk_sectors -> read_volume_header 0 header_bytes = h ->
  be16 header_bytes 0 = 0x482b \/ be16 header_bytes 0 = 0x4858 ->
  bs_ok (block_size h) -> 4096 <= block_size h ->
  fork_mapped (block_size h) (catalog h) -> 4096 <= fk_size (catalog h) ->
  returns (hfsplus_mount SECBUF) s (fun rc s' =>
    rc = 0 /\ ok s' /\
    b_hfs s' = read_btree_header 0 (node_bytes h 0) h /\
    forall x, ~ inside SECBUF 8192 x -> ~ blk_private x -> b_mem s' x = b_mem s x).
Proof.
  intros Hok Hcap Hh Hsig Hbs Hbs4 Hfk Hsize. destruct Hsec as (? & ? & ?).
  unfold hfsplus_mount. eapply returns_bind; [apply disk_read_ok; (done || lia)|].
  intros rc s1 (-> & Hok1 & Hh1 & Hb1 & Hf1). cbn [Z.eqb negb]. apply returns_get.
  assert (same_bytes (b_mem s1) SECBUF header_bytes 0 512) as Hvh.
  { intros i Hi. unfold load8. rewrite !u32_small by mlia. rewrite Hb1 by lia. done. }
  rewrite (same_volume_header _ header_bytes SECBUF 0) by done. rewrite Hh.
  replace (be16 (b_mem s1) SECBUF) with (be16 header_bytes 0).
  2: { rewrite <- (Z.add_0_r SECBUF). symmetry. by apply (same_be16 _ _ _ _ 0 512 Hvh). }
  replace (negb _ && negb _) with false by (destruct Hsig as [-> | ->]; done).
  apply returns_modify. eapply returns_bind.
  { apply (fork_read_in_block SECBUF Hsec Hpriv (block_size h));
      [done | done | done | done | lia | lia | lia |]. rewrite Z.mod_0_l; lia. }
  intros rc s2 (-> & Hok2 & Hk2 & Hb2). cbn [Z.eqb].
  apply returns_modify. apply returns_get. unfold pdec. do 9 apply returns_p.
  apply print_extents_quiet. intros out. apply returns_ret.
  cbn [emit b_hfs b_mem set_hfs]. split; [done|]. split; [done|].
  pose proof (proj1 Hbs) as Hbs1. unfold keeps in Hk2. cbn [emit b_hfs b_mem set_hfs] in Hk2.
  destruct Hk2 as [Hh2 Hm2]. split.
  - rewrite Hh2. apply same_btree_header. intros i Hi. unfold load8. rewrite !u32_small by mlia.
    rewrite Hb2 by lia. unfold node_bytes. f_equal.
  - intros x Hx Hx'. rewrite Hm2; [apply Hf1; [|done] | .. | done]; unfold inside in *; lia.
Qed.

(** Reading a part of a file.  For a fork whose extents are on the disk and
    a destination away from the sector buffer, [fork_read] returns 0 and the
    destination holds the bytes of the file from the offset on, as many as were
    asked for and are left; nothing else changes but the sector buffer and the
    memory of the driver. *)
Theorem fork_read_exact (bs : Z) (fk : ForkMeta) (off dst len : Z) s
    (Hok : ok s) (Hbs : block_size (b_hfs s) = bs) (Hbs' : bs_ok bs)
    (Hfk : fork_mapped bs fk) (Hoff : 0 <= off < fk_size fk) (Hlen : is_u32 len)
    (Hdst : dst_ok dst (read_len fk off len)) :
  returns (fork_read SECBUF fk off dst len) s (fun rc s' =>
    rc = 0 /\ ok s' /\ keeps SECBUF s s' dst (read_len fk off len) bs /\
    forall i, 0 <= i < read_len fk off len -> b_mem s' (dst + i) = fork_byte bs fk (off + i)).
Proof. destruct Hdst as (? & ? & ?). by apply fork_read_outside. Qed.

(** Reading two blocks into the sector buffer, as the mount and the catalog
    scan do when a node is larger than a block: the code is 0, but the buffer
    holds the second block twice and the first one nowhere. *)
Theorem fork_read_two_blocks (bs : Z) (fk : ForkMeta) (off : Z) s
    (Hok : ok s) (Hbs : block_size (b_hfs s) = bs) (Hbs' : bs_ok bs) (H2 : 2 * bs <= 8192)
    (Hfk : fork_mapped bs fk) (Hoff : 0 <= off) (Hal : off mod bs = 0)
    (Hend : off + 2 * bs <= fk_size fk) :
  returns (fork_read SECBUF fk off SECBUF (2 * bs)) s (fun rc s' =>
    rc = 0 /\ forall i, 0 <= i < bs ->
      b_mem s' (SECBUF + i) = fork_byte bs fk (off + bs + i) /\
      b_mem s' (SECBUF + bs + i) = fork_byte bs fk (off + bs + i)).
Proof. by apply fork_read_overwrites. Qed.

(** Mounting.  From a disk with an HFS+ or HFSX header whose blocks hold a
    catalog node, the mount returns 0 and the volume record is the one the
    header and the B-tree header of catalog node 0 describe. *)
Theorem hfsplus_mount_reads s
    (Hok : ok s) (Hcap : 3 <= blk_sectors)
    (Hsig : be16 header_bytes 0 = 0x482b \/ be16 header_bytes 0 = 0x4858)
    (Hbs : bs_ok (block_size disk_volume)) (Hbs4 : 4096 <= block_size disk_volume)
    (Hfk : fork_mapped (block_size disk_volume) (catalog disk_volume))
    (Hsize : 4096 <= fk_size (catalog disk_volume)) :
  returns (hfsplus_mount SECBUF) s (fun rc s' =>
    rc = 0 /\ ok s' /\
    b_hfs s' = read_btree_header 0 (node_bytes disk_volume 0) disk_volume /\
    forall x, ~ inside SECBUF 8192 x -> ~ blk_private x -> b_mem s' x = b_mem s x).
Proof. by apply hfsplus_mount_volume. Qed.

(** The catalog scan is the abstract search.  On a catalog whose nodes fit
    in blocks, [catalog_scan_child] returns 0 with the folder or the fork that
    [catalog_search] finds, with the record type that goes with it, and -1
    exactly when [catalog_search] finds nothing. *)
Theorem catalog_scan_child_finds (nodes : list (option (list cat_rec))) (parent : Z)
    (target : list Z) (w : wanted) (rtype : Z) s
    (Hok : ok s) (Hcat : catalog_at (b_hfs s) nodes) (Hp : parent <> 0) :
  returns (catalog_scan_child SECBUF parent target w rtype) s
    (fun r s' => ok s' /\ quiet s s' /\
       r.2 = catalog_search parent target w nodes /\
       r.1.1 = (if bool_decide (r.2 = None) then -1 else 0) /\ type_of r.2 r.1.2).
Proof. by eapply catalog_scan_child_search. Qed.

(** C35: the first record of a leaf is never found: when no other record of the
    catalog answers, the scan returns -1 whatever the first records of the
    leaves are. *)
Theorem catalog_scan_child_skips_first (nodes : list (option (list cat_rec))) (parent : Z)
    (target : list Z) (w : wanted) (rtype : Z) s
    (Hok : ok s) (Hcat : catalog_at (b_hfs s) nodes) (Hp : parent <> 0)
    (Hrest : forall recs r, Some recs ∈ nodes -> r ∈ tail recs ->
       answer parent target w r = None) :
  returns (catalog_scan_child SECBUF parent target w rtype) s
    (fun r _ => r.1.1 = -1 /\ r.2 = None).
Proof.
  eapply returns_mono; [by eapply (catalog_scan_child_search _ nodes)|].
  intros r s' (_ & _ & Hr & Hrc & _).
  assert (catalog_search parent target w nodes = None) as Hnone by (by apply catalog_search_none).
  rewrite Hnone in Hr. by rewrite Hrc, Hr.
Qed.

(** C3: reading a file by its path.  Following the components through the
    abstract catalog, [hfsplus_read_file] returns 0 and the size of the file when
    the path resolves to a file that fits the buffer, and then the buffer holds
    exactly the bytes of the file; it returns -1 when the path does not resolve
    or the file is too large, and then only the sector buffer changes. *)
Theorem hfsplus_read_file_reads (nodes : list (option (list cat_rec))) (cs : list (list Z))
    (path : list Z) (dst cap : Z) s
    (Hok : ok s) (Hcat : catalog_at (b_hfs s) nodes) (Hdst : dst_ok dst cap)
    (Hfk : forall fk, resolve nodes 2 cs = Some fk -> fk_size fk <= cap ->
       fork_mapped (block_size (b_hfs s)) fk)
    (Hplain : Forall plain cs) (Hshort : Forall (fun c => slen c < 128) cs) (Hne : cs <> [])
    (Hpath : path = slash_join cs \/ path = unslash cs) :
  returns (hfsplus_read_file SECBUF path dst cap) s
    (file_result (b_hfs s) nodes 2 cs dst cap s).
Proof.
  pose proof (path_length cs path Hplain Hpath) as Hlen. unfold hfsplus_read_file.
  destruct path as [|c path]; [simpl in Hlen; destruct cs; [done | simpl in Hlen; lia]|].
  apply read_file_loop_file; try done. lia.
Qed.

End CatalogSpec.

(** ** A concrete volume

    A disk of 56 sectors held in memory: blocks of 4096 bytes, the volume header
    in sector 2, a catalog of two nodes in blocks 1 and 2 (the header node and
    one leaf) and the file /a/k of 5000 bytes in blocks 4 and 5. *)

Module Example.

Definition patch (base : Z) (l : list Z) (f : Z -> Z) : Z -> Z :=
  fun x => if (base <=? x) && (x <? base + Z.of_nat (length l))
           then l !!! Z.to_nat (x - base) else f x.

Definition w16 (x : Z) : list Z := [x / 256; x mod 256].

Definition w32 (x : Z) : list Z := w16 (x / 65536) ++ w16 (x mod 65536).

(** A fork: its size, clump size and block count, then one extent and seven empty. *)
Definition w_fork (size start count : Z) : list Z :=
  w32 0 ++ w32 size ++ w32 0 ++ w32 count ++ w32 start ++ w32 count ++ replicate 56 0.

Definition w_rec (r : cat_rec) : list Z :=
  w16 (6 + 2 * Z.of_nat (length (cr_name r))) ++ w32 (cr_parent r) ++
  w16 (Z.of_nat (length (cr_name r))) ++ concat (w16 <$> cr_name r) ++ cr_data r.

Definition folder (parent : Z) (name : list Z) (id : Z) : cat_rec :=
  CatRec parent name (w16 1 ++ w16 0 ++ w32 0 ++ w32 id).

Definition file (parent : Z) (name : list Z) (size start count : Z) : cat_rec :=
  CatRec parent name (w16 2 ++ replicate 86 0 ++ w_fork size start count).

Definition recs : list cat_rec :=
  [folder 1 "Root" 2; folder 2 "a" 16; file 16 "k" 5000 4 2].

(** The offsets of the records from [o] on, and of the free space after them. *)
Fixpoint offsets (o : Z) (recs : list cat_rec) : list Z :=
  o :: match recs with
       | [] => []
       | r :: recs => offsets (o + Z.of_nat (length (w_rec r))) recs
       end.

Definition leaf (recs : list cat_rec) (base : Z) (f : Z -> Z) : Z -> Z :=
  let n := Z.of_nat (length recs) in
  patch (base + 8) ([0xff; 1] ++ w16 n)
    (patch (base + 14) (concat (w_rec <$> recs))
      (patch (base + 4096 - 2 * (n + 1)) (concat (w16 <$> reverse (offsets 14 recs))) f)).

Definition volume (recs : list cat_rec) : Z -> Z :=
  patch 1024 (w16 0x482b ++ replicate 38 0 ++ w32 4096 ++ w32 7 ++ replicate 224 0 ++
              w_fork 8192 1 2)
    (patch (4096 + 14 + 10) (w32 1 ++ w32 1 ++ w16 4096 ++ w16 0 ++ w32 2)
      (leaf recs 8192 (fun x => if (16384 <=? x) && (x <? 24576) then x mod 251 else 0))).

Definition disk : Z -> Z := volume recs.

Definition sectors : Z := 56.

(** A disk held in memory. *)
Definition ram_disk (contents : Z -> Z) : BlockDevice unit := {|
  blk_init d m := (0, [], d, m);
  blk_read_blocks lba count buf d m :=
    if lba + count <=? sectors
    then (0, [], tt, fun a => if (buf <=? a) && (a <? buf + 512 * count)
                              then u8 (contents (512 * lba + (a - buf))) else m a)
    else (-1, [], tt, m)
|}.

Definition ram_disk_spec (contents : Z -> Z) : @BlockDeviceSpec unit (ram_disk contents).
Proof.
  refine {| blk_ready _ _ := True; blk_private _ := False; blk_sectors := sectors;
            blk_present _ := True;
            blk_byte x := u8 (contents x) |}; try done.
  - intros x. apply u8_range.
  - intros lba count buf d m _ Hm H0 Hc Hcap Hlen (? & ? & ?) _.
    unfold blk_read_blocks, ram_disk. rewrite (proj2 (Z.leb_le (lba + count) sectors)) by done.
    split_and!; try done.
    + intros a. case_if; [apply u8_range | apply Hm].
    + intros i Hi. zcases. do 2 f_equal. lia.
    + intros a Ha _. unfold inside in Ha. zcases.
Defined.

#[local] Instance dev : BlockDevice unit := ram_disk disk.

#[local] Instance dev_spec : BlockDeviceSpec unit := ram_disk_spec disk.

Definition SECBUF : Z := 0x80210000.

Definition start : boot (D := unit) :=
  Boot (fun _ => 0) tt [] (read_volume_header 0 (fun i => blk_byte (1024 + i))).

Definition vol : hfs_vol :=
  {| blockSize := 4096; totalBlocks := 7; catalogNodeSize := 4096; firstLeafNode := 1;
     lastLeafNode := 1; totalCatalogNodes := 2;
     catalog := Fork 8192 ((1, 2) :: replicate 7 (0, 0)) |}.

Definition mounted : boot (D := unit) := Boot (fun _ => 0) tt [] vol.

Definition k_fork : ForkMeta := Fork 5000 ((4, 2) :: replicate 7 (0, 0)).

Lemma ok_any (s : boot (D := unit)) : mem_ok (b_mem s) -> ok s.
Proof. by split. Qed.

Lemma lookup_imap {A} (P : nat -> A -> Prop) (l : list A) :
  Forall (fun x => P x.1 x.2) (imap pair l) -> forall i x, l !! i = Some x -> P i x.
Proof.
  intros Hf i x Hi. apply (Forall_lookup_1 _ _ i (i, x)) in Hf; [done|].
  by rewrite list_lookup_imap, Hi.
Qed.

#[local] Instance extent_ok_dec e : Decision (extent_ok e).
Proof. unfold extent_ok. apply _. Defined.

Lemma mapped_check contents bs fk :
  bool_decide (0 < fk_size fk) && bool_decide (fk_size fk < 4294967296) &&
  bool_decide (Forall extent_ok (fk_ext fk)) &&
  bool_decide (fk_size fk <= bs * Z.of_nat (length (fork_blocks fk))) &&
  bool_decide (Forall (fun b => bs * (b + 1) <= 512 * sectors) (fork_blocks fk)) = true ->
  @fork_mapped unit (ram_disk contents) (ram_disk_spec contents) bs fk.
Proof. rewrite !andb_true_iff, !bool_decide_eq_true. unfold fork_mapped. simpl. tauto. Qed.

#[local] Instance rec_ok_dec r : Decision (rec_ok r).
Proof. unfold rec_ok, is_u8. apply _. Defined.

Definition rec_at_bool (b : mem) (ns o : Z) (r : cat_rec) : bool :=
  let n := Z.of_nat (length (cr_name r)) in
  bool_decide (0 <= o) && bool_decide (o + 8 + 2 * n + Z.of_nat (length (cr_data r)) <= ns) &&
  (be16 b o =? 6 + 2 * n) && (be32 b (o + 2) =? cr_parent r) && (be16 b (o + 6) =? n) &&
  forallb (fun x => be16 b (o + 8 + 2 * Z.of_nat x.1) =? x.2) (imap pair (cr_name r)) &&
  forallb (fun x => load8 b (o + 8 + 2 * n + Z.of_nat x.1) =? x.2) (imap pair (cr_data r)).

Lemma rec_at_check b ns o r : rec_at_bool b ns o r = true -> rec_at b ns o r.
Proof.
  unfold rec_at_bool. cbv zeta. rewrite !andb_true_iff, !bool_decide_eq_true, !Z.eqb_eq, !forallb_forall.
  setoid_rewrite Z.eqb_eq. setoid_rewrite <- list_elem_of_In. rewrite <- !Forall_forall.
  intros ((((((? & ?) & ?) & ?) & ?) & Hn) & Hd). unfold rec_at. split_and!; try done.
  - intros i c Hi. apply (lookup_imap (fun i c => be16 b (o + 8 + 2 * Z.of_nat i) = c) (cr_name r)); done.
  - intros i c Hi. eapply (lookup_imap (fun i c => load8 b (_ + Z.of_nat i) = c) (cr_data r)); done.
Qed.

Definition leaf_at_bool (b : mem) (ns : Z) (recs : list cat_rec) : bool :=
  let num := Z.of_nat (length recs) in
  let free := be16 b (ns - 2 * (num + 1)) in
  (load8 b 8 =? 0xff) && (be16 b 10 =? num) && (0 <? num) && (14 + 2 * (num + 1) <=? ns) &&
  (0 <=? free) && (be32 b (free + 2) =? 0) &&
  forallb (fun x => bool_decide (rec_ok x.2) &&
    rec_at_bool b ns (be16 b (ns - 2 * (Z.of_nat x.1 + 1))) x.2) (imap pair recs).

Lemma leaf_at_check b ns recs : leaf_at_bool b ns recs = true -> leaf_at b ns recs.
Proof.
  unfold leaf_at_bool. cbv zeta.
  rewrite !andb_true_iff, !Z.eqb_eq, Z.ltb_lt, !Z.leb_le, forallb_forall.
  setoid_rewrite andb_true_iff. setoid_rewrite bool_decide_eq_true. setoid_rewrite <- list_elem_of_In.
  rewrite <- Forall_forall. intros ((((((? & ?) & ?) & ?) & ?) & ?) & Hr).
  unfold leaf_at. cbv zeta. split_and!; try done. intros k r Hk.
  apply (lookup_imap (fun k r => rec_ok r /\ rec_at_bool b ns (be16 b (ns - 2 * (Z.of_nat k + 1))) r = true)
    recs Hr) in Hk as [? ?]. split; [done|]. by apply rec_at_check.
Qed.

Lemma vol_catalog : catalog_at vol [Some recs].
Proof.
  unfold catalog_at. change (catalog_range vol) with (1, 1). cbv beta iota zeta.
  split_and!; try done.
  - apply mapped_check. vm_compute. reflexivity.
  - intros [|k] node Hk; [|by destruct k]. apply (inj Some) in Hk as <-.
    apply leaf_at_check. vm_compute. reflexivity.
Qed.

Lemma secbuf_region : region SECBUF 8192.
Proof. done. Qed.

Lemma secbuf_public : forall a, inside SECBUF 8192 a -> ~ blk_private a.
Proof. intros a _ []. Qed.

Lemma ok_mounted : ok mounted.
Proof. apply ok_any. intros a. simpl. mlia. Qed.

Lemma load_buffer_ok n : 0 <= n <= 0x2000000 -> dst_ok SECBUF 0x82000000 n.
Proof.
  intros Hn. split_and!; [unfold region; lia | right; unfold SECBUF; lia | by intros a _ []].
Qed.

Lemma k_mapped : fork_mapped 4096 k_fork.
Proof. apply mapped_check. vm_compute. reflexivity. Qed.

Lemma fork_read_exact_example :
  returns (fork_read SECBUF k_fork 4000 0x82000000 600) mounted (fun rc s' =>
    rc = 0 /\ ok s' /\
    keeps SECBUF mounted s' 0x82000000 (read_len k_fork 4000 600) 4096 /\
    forall i, 0 <= i < read_len k_fork 4000 600 ->
      b_mem s' (0x82000000 + i) = fork_byte 4096 k_fork (4000 + i)).
Proof.
  apply (fork_read_exact SECBUF secbuf_region secbuf_public 4096 k_fork 4000).
  - apply ok_mounted.
  - done.
  - done.
  - apply k_mapped.
  - done.
  - done.
  - by apply load_buffer_ok.
Defined.

Lemma fork_read_two_blocks_example :
  returns (fork_read SECBUF (Fork 8192 [(4, 2)]) 0 SECBUF (2 * 4096)) mounted (fun rc s' =>
    rc = 0 /\ forall i, 0 <= i < 4096 ->
      b_mem s' (SECBUF + i) = fork_byte 4096 (Fork 8192 [(4, 2)]) (0 + 4096 + i) /\
      b_mem s' (SECBUF + 4096 + i) = fork_byte 4096 (Fork 8192 [(4, 2)]) (0 + 4096 + i)).
Proof.
  apply (fork_read_two_blocks SECBUF secbuf_region secbuf_public 4096); try done.
  apply mapped_check. vm_compute. reflexivity.
Defined.

Lemma hfsplus_mount_reads_example :
  returns (hfsplus_mount SECBUF) start (fun rc s' =>
    rc = 0 /\ ok s' /\
    b_hfs s' = read_btree_header 0 (node_bytes disk_volume 0) disk_volume /\
    forall x, ~ inside SECBUF 8192 x -> ~ blk_private x -> b_mem s' x = b_mem start x).
Proof.
  assert (block_size disk_volume = 4096) as Hbs by (vm_compute; reflexivity).
  apply (hfsplus_mount_reads SECBUF secbuf_region secbuf_public).
  - apply ok_any. intros a. simpl. mlia.
  - done.
  - left. vm_compute. reflexivity.
  - by rewrite Hbs.
  - by rewrite Hbs.
  - rewrite Hbs. apply mapped_check. vm_compute. reflexivity.
  - vm_compute. discriminate.
Defined.

Lemma catalog_scan_child_finds_example :
  returns (catalog_scan_child SECBUF 2 "a" WantFolder 0) mounted
    (fun r s' => ok s' /\ quiet SECBUF mounted s' /\
       r.2 = catalog_search 2 "a" WantFolder [Some recs] /\
       r.1.1 = (if bool_decide (r.2 = None) then -1 else 0) /\ type_of r.2 r.1.2).
Proof.
  apply (catalog_scan_child_finds SECBUF secbuf_region secbuf_public).
  - apply ok_mounted.
  - apply vol_catalog.
  - done.
Defined.

(** The root folder is the first record of the leaf. *)
Lemma catalog_scan_child_skips_first_witness :
  returns (catalog_scan_child SECBUF 1 "Root" WantFolder 0) mounted
    (fun r _ => r.1.1 = -1 /\ r.2 = None).
Proof.
  apply (catalog_scan_child_skips_first SECBUF secbuf_region secbuf_public [Some recs]).
  - apply ok_mounted.
  - apply vol_catalog.
  - done.
  - intros rs r Hin Hr. apply list_elem_of_singleton in Hin. injection Hin as ->.
    unfold recs in Hr. simpl in Hr.
    repeat (apply elem_of_cons in Hr as [-> | Hr]; [reflexivity|]). by apply elem_of_nil in Hr.
Defined.

Lemma hfsplus_read_file_reads_witness :
  returns (hfsplus_read_file SECBUF "/a/k" 0x82000000 8192) mounted
    (file_result SECBUF vol [Some recs] 2 [cstr "a"; cstr "k"] 0x82000000 8192 mounted).
Proof.
  apply (hfsplus_read_file_reads SECBUF secbuf_region secbuf_public).
  - apply ok_mounted.
  - apply vol_catalog.
  - by apply load_buffer_ok.
  - assert (resolve [Some recs] 2 [cstr "a"; cstr "k"] = Some k_fork) as -> by (vm_compute; reflexivity).
    intros fk [= <-] _. apply k_mapped.
  - by_computation.
  - by_computation.
  - done.
  - left. reflexivity.
Defined.

Lemma ram_disk_within : writes_within (fun _ _ => True) (fun _ => False).
Proof.
  split; [|done]. intros lba count buf d m _ Hc Hr _.
  unfold blk_read_blocks, dev, ram_disk. case_if; [|done].
  split; [done|]. intros a Ha _. unfold inside in Ha. zcases.
Qed.

Lemma hfsplus_read_file_ends_witness :
  exists res s', hfsplus_read_file SECBUF "/a/k" 0x82000000 8192 mounted = Some (res, s') /\
    b_hfs s' = b_hfs mounted /\
    forall a, ~ inside 0x82000000 8192 a -> ~ inside SECBUF 8192 a -> b_mem s' a = b_mem mounted a.
Proof.
  destruct (hfsplus_read_file_ends SECBUF "/a/k" 0x82000000 8192 mounted) as (res & s' & Hr & Hh & Hk);
    [by vm_compute|].
  pose proof (load_buffer_ok 8192 ltac:(lia)) as (Hd & _ & Hn).
  exists res, s'. split; [exact Hr|]. split; [exact Hh|]. intros a Ha1 Ha2.
  exact (Hk (fun _ _ => True) (fun _ => False) ram_disk_within Logic.I Hd Hn
    secbuf_region secbuf_public a Ha1 Ha2 (fun f => f)).
Defined.

End Example.

End HfsCatalog.
