(* ===== verification/BootLoader.v ===== *)
(** The boot sequence of CaribeBootX (src/booter/hfsplus_boot.c): the boot
    configuration read from the volume, the ELF loader, the arguments handed to
    the kernel, and [caribe_hfsplus_boot], which puts them together.

    The jump to the kernel is a [handoff]: the values of the call, as the kernel
    sees them.  The arguments, the memory map and the command line are statics of
    the booter: they are stored where the linker put them before the jump, and are
    in memory when the kernel is entered. *)

From S2P Require Import Prelude Statics Print BootConfig MemoryMap Fdt BootArgs Hfs HfsCatalog.

Module BootLoader.

Import Statics Print BootConfig MemoryMap Fdt BootArgs Hfs HfsCatalog.

Local Open Scope c_scope.

Definition HFS_KERNEL_LOAD_BUFFER : Z := 0x82000000.

Definition HFS_KERNEL_LOAD_CAP : Z := 32 * 1024 * 1024.

Definition HFS_INITRD_LOAD_BUFFER : Z := 0x84000000.

Definition HFS_INITRD_LOAD_CAP : Z := 16 * 1024 * 1024.

Definition RISCV32_CARIBEBOOTX_MAGIC : Z := 0x31425843.

Definition RISCV32_CARIBEBOOTX_VERSION : Z := 2.

Definition CARIBE_ELF32_MAX_PHDRS : Z := 16.

(** The addresses the linker gives to the statics of the booter. *)
Record layout := {
  SECBUF : Z;
  PLIST_BUF : Z;
  XNU_BOOT_ARGS : Z;
  XNU_MEMORY_MAP : Z;
  XNU_CMDLINE : Z;
  BOOTX_START : Z;
  BOOTX_END : Z;
}.

(** [Elf32_Phdr], the fields the loader uses. *)
Record phdr := Phdr {
  p_type : Z;
  p_offset : Z;
  p_vaddr : Z;
  p_filesz : Z;
  p_memsz : Z;
}.

(** [Elf32_Ehdr], the fields the loader uses. *)
Record ehdr := Ehdr {
  e_magic : Z;
  e_class : Z;
  e_data : Z;
  e_entry : Z;
  e_phoff : Z;
  e_phentsize : Z;
  e_phnum : Z;
}.

(** [memcopy(&header, img, sizeof(header))] *)
Definition read_ehdr (m : mem) (img : Z) : ehdr :=
  Ehdr (load32 m img) (load8 m (img + 4)) (load8 m (img + 5)) (load32 m (img + 24))
    (load32 m (img + 28)) (load16 m (img + 42)) (load16 m (img + 44)).

Definition read_phdr (m : mem) (a : Z) : phdr :=
  Phdr (load32 m a) (load32 m (a + 4)) (load32 m (a + 8)) (load32 m (a + 16)) (load32 m (a + 20)).

(** [memcopy(ph, img + e_phoff, e_phnum * sizeof(Elf32_Phdr))] *)
Fixpoint read_phdrs (m : mem) (a : Z) (n : nat) : list phdr :=
  match n with
  | O => []
  | S n => read_phdr m a :: read_phdrs m (a + 32) n
  end.

(** [riscv32_caribebootx_args_t] *)
Record xnu_args := XnuArgs {
  a_magic : Z;
  a_version : Z;
  a_hartid : Z;
  a_dtb_paddr : Z;
  a_dtb_size : Z;
  a_mem_base : Z;
  a_mem_size : Z;
  a_uart_base : Z;
  a_plic_base : Z;
  a_aclint_base : Z;
  a_kernel_base : Z;
  a_kernel_size : Z;
  a_initrd_base : Z;
  a_initrd_size : Z;
  a_command_line_paddr : Z;
  a_command_line_size : Z;
  a_memory_map_paddr : Z;
  a_memory_map_count : Z;
  a_memory_map_desc_size : Z;
}.

(** The call [entry(hartid, dtb, &xnu_boot_args)], with the command line and the
    memory map the arguments point to. *)
Record handoff := Handoff {
  h_entry : Z;
  h_hartid : Z;
  h_dtb : Z;
  h_args : xnu_args;
  h_cmdline : list Z;
  h_map : list mem_range;
}.

(** The first twenty words of [riscv32_caribebootx_args_t]; [flags] and the
    [reserved] words stay 0. *)
Definition args_words (x : xnu_args) : list Z :=
  [a_magic x; a_version x; 0; a_hartid x; a_dtb_paddr x; a_dtb_size x; a_mem_base x; a_mem_size x;
   a_uart_base x; a_plic_base x; a_aclint_base x; a_kernel_base x; a_kernel_size x; a_initrd_base x;
   a_initrd_size x; a_command_line_paddr x; a_command_line_size x; a_memory_map_paddr x;
   a_memory_map_count x; a_memory_map_desc_size x].

(** [xnu_boot_args] as bytes. *)
Definition args_bytes (x : xnu_args) : list Z := words_bytes (args_words x) ++ replicate 48 0.

Definition range_words (r : mem_range) : list Z :=
  let halves v := [v; Z.shiftr v 32] in
  [mr_type r; mr_pad r] ++ halves (physical_start r) ++ halves (virtual_start r) ++
  halves (number_of_pages r) ++ halves (attribute r).

(** [xnu_memory_map] as bytes. *)
Definition map_bytes (l : list mem_range) : list Z := words_bytes (concat (range_words <$> l)).

(** [memzero(&xnu_boot_args, ...)], the default command line, and the fields set
    before [dtb_size] is read.  [xnu_cmdline] is a record until here: its characters
    are stored with the default. *)
Definition first_fields (L : layout) (hartid dtb : Z) (cmdline : list Z) : list field :=
  [(XNU_BOOT_ARGS L,
    words_bytes [RISCV32_CARIBEBOOTX_MAGIC; RISCV32_CARIBEBOOTX_VERSION; 0; hartid; dtb] ++ replicate 108 0);
   (XNU_CMDLINE L, cmdline ++ [0])].

(** The memory map and the rest of the arguments. *)
Definition last_fields (L : layout) (args : xnu_args) (map : list mem_range) : list field :=
  [(XNU_MEMORY_MAP L, map_bytes map); (XNU_BOOT_ARGS L, args_bytes args)].

Section Loader.
Context {D : Type} `{BlockDevice D}.
Context (L : layout) (F : fdt_fuel).

Local Abbreviation M := (PST (boot (D := D))).

(** ** Boot configuration *)

(** The buffer a flag is extracted into, empty before. *)
Definition flag_buffer (r : Z * option (list Z)) : list Z := default [] r.2.

(** [load_boot_plist_paths]: the code, the kernel path, the initrd path and the
    command line. *)
Definition load_boot_plist_paths (kernel_cap initrd_cap cmd_cap : Z) (cmd : list Z) :
    M (Z * list Z * list Z * list Z) :=
  let cmd := default cmd (scopy cmd_cap "console=ttyS0 -v") in
  hfsplus_read_file (SECBUF L) "com.apple.Boot.plist" (PLIST_BUF L) 16384 ≫= fun '(rc, size) =>
  if negb (rc =? 0)
  then p "[Boot.plist] no encontrado; default /kernel.elf\r\n" ≫= fun _ => mret (-1, [], [], cmd)
  else
    let size := default 0 size in
    p "[Boot.plist] " ≫= fun _ => pdec size ≫= fun _ => p " bytes\r\n" ≫= fun _ =>
    getP b_mem ≫= fun m =>
    let '(rc, out) := extract_kernel_flags_string (read_bytes m (PLIST_BUF L) (Z.to_nat size)) cmd_cap in
    let cmd := match out with Some out => c_string out | None => cmd end in
    (if rc =? 0
     then p "[Boot.plist] flags=" ≫= fun _ => p cmd ≫= fun _ => p "\r\n"
     else mret tt) ≫= fun _ =>
    let rk := extract_named_flag cmd "kernel" kernel_cap in
    let kernel := flag_buffer rk in
    (if rk.1 =? 0
     then p "[Boot.plist] kernel=" ≫= fun _ => p kernel ≫= fun _ => p "\r\n"
     else p "[Boot.plist] sin flag kernel=; default /kernel.elf\r\n") ≫= fun _ =>
    let ri := extract_named_flag cmd "initrd" initrd_cap in
    let initrd := flag_buffer ri in
    (if ri.1 =? 0
     then p "[Boot.plist] initrd=" ≫= fun _ => p initrd ≫= fun _ => p "\r\n"
     else mret tt) ≫= fun _ =>
    mret (if bool_decide (kernel = []) then -1 else 0, kernel, initrd, cmd).

(** [append_dtb_bootargs(dtb, cmd_out, cmd_cap)]: the command line afterwards. *)
Definition append_dtb_bootargs (dtb : Z) (cmd : list Z) (cmd_cap : Z) : M (list Z) :=
  getP b_mem ≫= fun m =>
  match fdt_get_chosen_bootargs m (slack F) (fuel F) dtb 128 with
  | None => out_of_fuel
  | Some (rc, bootargs) =>
      if negb (rc =? 0) then mret cmd
      else
        let cmd := sappend_token cmd cmd_cap bootargs in
        p "[DTB] bootargs=" ≫= fun _ => p bootargs ≫= fun _ => p "\r\n" ≫= fun _ => mret cmd
  end.

(** ** ELF *)

(** The loop over the program headers: [load_low] and [load_high] at its end, or
    [None] for an error return. *)
Fixpoint load_segments (img size : Z) (phs : list phdr) (load_low load_high : Z) :
    M (option (Z * Z)) :=
  match phs with
  | [] => mret (Some (load_low, load_high))
  | ph :: phs =>
      if negb (p_type ph =? 1) then load_segments img size phs load_low load_high
      else if (p_memsz ph <? p_filesz ph) || (size <? p_offset ph) ||
              (size - p_offset ph <? p_filesz ph)
      then p "[ELF] segmento invalido\r\n" ≫= fun _ => mret None
      else
        let seg_end := p_vaddr ph +! p_memsz ph in
        if seg_end <? p_vaddr ph
        then p "[ELF] segmento envuelve direccion\r\n" ≫= fun _ => mret None
        else
          let load_low := if p_vaddr ph <? load_low then p_vaddr ph else load_low in
          let load_high := if load_high <? seg_end then seg_end else load_high in
          modifyP (fun s => set_mem
            (zero_loop
              (copy_loop (b_mem s) (p_vaddr ph) (img + p_offset ph) (Z.to_nat (p_filesz ph)))
              (p_vaddr ph + p_filesz ph) (Z.to_nat (p_memsz ph - p_filesz ph))) s) ≫= fun _ =>
          p "[ELF] LOAD vaddr=" ≫= fun _ => p (uart_puthex32 (p_vaddr ph)) ≫= fun _ =>
          p " filesz=" ≫= fun _ => pdec (p_filesz ph) ≫= fun _ =>
          p " memsz=" ≫= fun _ => pdec (p_memsz ph) ≫= fun _ =>
          p "\r\n" ≫= fun _ =>
          load_segments img size phs load_low load_high
  end.

(** The arguments of the kernel, from the load range and the memory the size of the
    device tree is read from. *)
Definition make_boot_args (m : mem) (hartid dtb initrd_base initrd_size load_low load_high : Z)
    (ba : boot_args) (cmdline : list Z) : xnu_args * list mem_range :=
  let mem_base := 0x80000000 in
  let mem_size := mem_mb ba *! 1024 *! 1024 in
  let dtb_size := if dtb =? 0 then 0 else be32 m (dtb + 4) in
  let kernel_size := load_high -! load_low in
  let '(map, count) := xnu_build_memory_map (BOOTX_START L) (BOOTX_END L) mem_base mem_size
    load_low kernel_size dtb dtb_size initrd_base initrd_size in
  (XnuArgs RISCV32_CARIBEBOOTX_MAGIC RISCV32_CARIBEBOOTX_VERSION hartid dtb dtb_size
     mem_base mem_size (uart_base ba) (plic_base ba) (aclint_base ba) load_low kernel_size
     initrd_base initrd_size (XNU_CMDLINE L) (slen cmdline + 1)
     (if count =? 0 then 0 else XNU_MEMORY_MAP L) count (if count =? 0 then 0 else 40), map).

(** The checks on the file before anything is loaded: the message of the first
    that fails. *)
Definition elf_check (size : Z) (eh : ehdr) : option (list Z) :=
  if size <? 52 then Some (cstr "[ELF] imagen demasiado chica\r\n")
  else if negb (e_magic eh =? 0x464c457f) || negb (e_class eh =? 1) || negb (e_data eh =? 1)
  then Some (cstr "[ELF] formato no soportado\r\n")
  else if negb (e_phentsize eh =? 32) then Some (cstr "[ELF] phentsize inesperado\r\n")
  else if (e_phnum eh =? 0) || (CARIBE_ELF32_MAX_PHDRS <? e_phnum eh)
  then Some (cstr "[ELF] demasiados program headers\r\n")
  else if (size <? e_phoff eh) || (size - e_phoff eh <? e_phnum eh * 32)
  then Some (cstr "[ELF] program headers fuera de rango\r\n")
  else None.

(** [elf32_load_and_jump]: the code and the jump, if it is reached.  The code 0
    is what the function returns if the kernel comes back. *)
Definition elf32_load_and_jump (img size hartid dtb initrd_base initrd_size : Z)
    (cmdline : list Z) : M (Z * option handoff) :=
  getP b_mem ≫= fun m =>
  let eh := read_ehdr m img in
  match elf_check size eh with
  | Some msg => p msg ≫= fun _ => mret (-1, None)
  | None =>
      let phs := read_phdrs m (img + e_phoff eh) (Z.to_nat (e_phnum eh)) in
      p "[ELF] metadata snapshotted before overlapping LOADs\r\n" ≫= fun _ =>
      load_segments img size phs 0xffffffff 0 ≫= fun r =>
      match r with
      | None => mret (-1, None)
      | Some (load_low, load_high) =>
          if (load_low =? 0xffffffff) || (load_high <=? load_low)
          then p "[ELF] sin segmentos LOAD\r\n" ≫= fun _ => mret (-1, None)
          else
            getP b_mem ≫= fun m =>
            match caribe_pack_boot_args m F dtb with
            | None => out_of_fuel
            | Some ba =>
                let cmdline := match cmdline with
                               | [] => default [] (scopy 256 "console=ttyS0 -v")
                               | _ => cmdline
                               end in
                let m := write_fields m (first_fields L hartid dtb cmdline) in
                let '(args, map) := make_boot_args m hartid dtb initrd_base initrd_size
                  load_low load_high ba cmdline in
                modifyP (set_mem (write_fields m (last_fields L args map))) ≫= fun _ =>
                p "[ELF] saltando entry=" ≫= fun _ => p (uart_puthex32 (e_entry eh)) ≫= fun _ =>
                p " hart=" ≫= fun _ => pdec hartid ≫= fun _ =>
                p " dtb=" ≫= fun _ => p (uart_puthex32 dtb) ≫= fun _ =>
                p " args=" ≫= fun _ => p (uart_puthex32 (XNU_BOOT_ARGS L)) ≫= fun _ =>
                p " mmap=" ≫= fun _ => pdec (a_memory_map_count args) ≫= fun _ =>
                p "\r\n" ≫= fun _ =>
                mret (0, Some (Handoff (e_entry eh) hartid dtb args cmdline map))
            end
      end
  end.

(** ** The boot sequence *)

(** [caribe_hfsplus_boot(hartid, dtb)]: the code and the jump, if it was reached. *)
Definition caribe_hfsplus_boot (hartid dtb : Z) (cmdline : list Z) : M (Z * option handoff) :=
  p "\r\n[CaribeBootX] HFS+ native boot via virtio-blk\r\n" ≫= fun _ =>
  virtio_blk_init ≫= fun rc =>
  if negb (rc =? 0) then p "[boot] virtio-blk no disponible\r\n" ≫= fun _ => mret (-1, None)
  else
  hfsplus_mount (SECBUF L) ≫= fun rc =>
  if negb (rc =? 0) then p "[boot] mount HFS+ fallo\r\n" ≫= fun _ => mret (-2, None)
  else
  load_boot_plist_paths 128 128 256 cmdline ≫= fun '(_, kernelPath, initrdPath, cmd) =>
  append_dtb_bootargs dtb cmd 256 ≫= fun cmd =>
  let path := match kernelPath with [] => cstr "/kernel.elf" | _ => kernelPath end in
  p "[boot] cargando " ≫= fun _ => p path ≫= fun _ => p " en " ≫= fun _ =>
  p (uart_puthex32 HFS_KERNEL_LOAD_BUFFER) ≫= fun _ => p "\r\n" ≫= fun _ =>
  hfsplus_read_file (SECBUF L) path HFS_KERNEL_LOAD_BUFFER HFS_KERNEL_LOAD_CAP ≫= fun '(rc, size) =>
  if negb (rc =? 0)
  then p "[boot] fallo leyendo kernel desde HFS+\r\n" ≫= fun _ => mret (-3, None)
  else
  let kernelSize := default 0 size in
  p "[boot] kernel size=" ≫= fun _ => pdec kernelSize ≫= fun _ => p "\r\n" ≫= fun _ =>
  let initrd_path := match initrdPath with [] => cstr "/initrd.img" | _ => initrdPath end in
  hfsplus_read_file (SECBUF L) initrd_path HFS_INITRD_LOAD_BUFFER HFS_INITRD_LOAD_CAP ≫= fun '(rc, size) =>
  (if rc =? 0
   then p "[boot] initrd cargado " ≫= fun _ => p initrd_path ≫= fun _ => p " @" ≫= fun _ =>
        p (uart_puthex32 HFS_INITRD_LOAD_BUFFER) ≫= fun _ => p " size=" ≫= fun _ =>
        pdec (default 0 size) ≫= fun _ => p "\r\n" ≫= fun _ => mret (default 0 size)
   else p "[boot] sin initrd opcional\r\n" ≫= fun _ => mret 0) ≫= fun initrdSize =>
  elf32_load_and_jump HFS_KERNEL_LOAD_BUFFER kernelSize hartid dtb
    (if initrdSize =? 0 then 0 else HFS_INITRD_LOAD_BUFFER) initrdSize cmd ≫= fun '(rc, h) =>
  if negb (rc =? 0)
  then p "[boot] ELF invalido o no ejecutable\r\n" ≫= fun _ => mret (-4, h)
  else p "[boot] regreso del kernel; consola fallback\r\n" ≫= fun _ => mret (-5, h).

End Loader.

(** ** What loading means *)

Definition is_load (ph : phdr) : Prop := p_type ph = 1.

#[global] Instance is_load_dec ph : Decision (is_load ph).
Proof. unfold is_load. apply _. Defined.

Definition loads (phs : list phdr) : list phdr := filter is_load phs.

(** A segment the loader accepts for a file of [size] bytes. *)
Definition seg_valid (size : Z) (ph : phdr) : Prop :=
  p_filesz ph <= p_memsz ph /\ p_offset ph + p_filesz ph <= size /\
  p_vaddr ph + p_memsz ph < 4294967296.

Definition phdr_u32 (ph : phdr) : Prop :=
  is_u32 (p_offset ph) /\ is_u32 (p_vaddr ph) /\ is_u32 (p_filesz ph) /\ is_u32 (p_memsz ph).

(** The address [x] is in a segment of the list. *)
Definition in_segments (phs : list phdr) (x : Z) : Prop :=
  exists ph, ph ∈ loads phs /\ inside (p_vaddr ph) (p_memsz ph) x.

(** The byte [i] of a loaded segment. *)
Definition segment_byte (m : mem) (img : Z) (ph : phdr) (i : Z) : Z :=
  if i <? p_filesz ph then m (img + p_offset ph + i) else 0.

(** No segment is loaded over the source of itself (from above) or of a later
    one, or over a later segment. *)
Fixpoint well_placed (img : Z) (phs : list phdr) : Prop :=
  match phs with
  | [] => True
  | ph :: phs =>
      (is_load ph ->
        (p_vaddr ph <= img + p_offset ph \/ img + p_offset ph + p_filesz ph <= p_vaddr ph) /\
        forall ph', ph' ∈ loads phs ->
          disjoint_reg (p_vaddr ph) (p_memsz ph) (p_vaddr ph') (p_memsz ph') /\
          disjoint_reg (p_vaddr ph) (p_memsz ph) (img + p_offset ph') (p_filesz ph')) /\
      well_placed img phs
  end.

Definition low_of (phs : list phdr) (z : Z) : Z := foldl (fun a ph => Z.min a (p_vaddr ph)) z (loads phs).

Definition high_of (phs : list phdr) (z : Z) : Z :=
  foldl (fun a ph => Z.max a (p_vaddr ph + p_memsz ph)) z (loads phs).

(** One segment. *)
Definition load_one (img : Z) (ph : phdr) (m : mem) : mem :=
  zero_loop (copy_loop m (p_vaddr ph) (img + p_offset ph) (Z.to_nat (p_filesz ph)))
    (p_vaddr ph + p_filesz ph) (Z.to_nat (p_memsz ph - p_filesz ph)).

Lemma load_one_frame img size ph m :
  phdr_u32 ph -> seg_valid size ph -> frame m (load_one img ph m) (p_vaddr ph) (p_memsz ph).
Proof.
  intros (Ho & Hv & Hf & Hm) (H1 & H2 & H3) x Hx. unfold load_one, inside in *.
  wunfold. rewrite zero_loop_spec by (unfold region; lia).
  rewrite copy_loop_frame; [zcases | unfold region; lia | unfold inside; lia].
Qed.

Lemma load_one_byte img size ph m i :
  phdr_u32 ph -> seg_valid size ph -> mem_ok m -> region img size ->
  p_vaddr ph <= img + p_offset ph \/ img + p_offset ph + p_filesz ph <= p_vaddr ph ->
  0 <= i < p_memsz ph ->
  load_one img ph m (p_vaddr ph + i) = segment_byte m img ph i.
Proof.
  intros (Ho & Hv & Hf & Hm) (H1 & H2 & H3) Hok (? & ? & ?) Hpl Hi. unfold load_one, segment_byte.
  wunfold. rewrite zero_loop_spec by (unfold region; lia).
  rewrite copy_loop_spec; [ | unfold region; lia.. | done].
  rewrite !Z2Nat.id by lia. zcases; f_equal; lia.
Qed.

Lemma load_one_mem_ok img ph m : mem_ok m -> mem_ok (load_one img ph m).
Proof. intros. unfold load_one. auto with words. Qed.

Section ElfSpec.
Context {D : Type}.
Implicit Types (s : boot (D := D)).

Lemma loads_cons_load ph phs : is_load ph -> loads (ph :: phs) = ph :: loads phs.
Proof. intros. unfold loads. by rewrite filter_cons_True. Qed.

Lemma loads_cons_other ph phs : ~ is_load ph -> loads (ph :: phs) = loads phs.
Proof. intros. unfold loads. by rewrite filter_cons_False. Qed.

(** What [load_segments] leaves for the headers [phs]. *)
Definition loaded (img size : Z) (phs : list phdr) (low high : Z) s (r : option (Z * Z)) s' : Prop :=
  mem_ok (b_mem s') /\
  (forall x, ~ in_segments phs x -> b_mem s' x = b_mem s x) /\
  match r with
  | None => ~ Forall (seg_valid size) (loads phs)
  | Some (lo, hi) =>
      Forall (seg_valid size) (loads phs) /\ lo = low_of phs low /\ hi = high_of phs high /\
      (well_placed img phs -> forall ph i, ph ∈ loads phs -> 0 <= i < p_memsz ph ->
         b_mem s' (p_vaddr ph + i) = segment_byte (b_mem s) img ph i)
  end.

Lemma seg_check size ph :
  phdr_u32 ph -> 0 <= size ->
  (p_memsz ph <? p_filesz ph) || (size <? p_offset ph) || (size - p_offset ph <? p_filesz ph) = false ->
  (u32 (p_vaddr ph + p_memsz ph) <? p_vaddr ph) = false ->
  seg_valid size ph /\ u32 (p_vaddr ph + p_memsz ph) = p_vaddr ph + p_memsz ph.
Proof.
  intros (Ho & Hv & Hf & Hm) Hs. rewrite !orb_false_iff, !Z.ltb_ge. intros [[? ?] ?] Hw.
  assert (p_vaddr ph + p_memsz ph < 4294967296) by mlia.
  split; [unfold seg_valid; lia | mlia].
Qed.

Lemma loaded_skip img size ph phs low high s r s' :
  ~ is_load ph -> loaded img size phs low high s r s' -> loaded img size (ph :: phs) low high s r s'.
Proof.
  intros Hl (Hm & Hf & Hr). unfold loaded, in_segments, low_of, high_of in *.
  rewrite !loads_cons_other by done. split_and!; [done | done|].
  destruct r as [[lo hi]|]; [|done]. destruct Hr as (? & ? & ? & Hb). split_and!; try done.
  intros [_ Hw]. by apply Hb.
Qed.

Lemma loaded_load img size ph phs low high s s1 r s' :
  is_load ph -> phdr_u32 ph -> seg_valid size ph -> region img size -> mem_ok (b_mem s) ->
  Forall phdr_u32 phs ->
  (forall x, b_mem s1 x = load_one img ph (b_mem s) x) ->
  loaded img size phs (Z.min low (p_vaddr ph)) (Z.max high (p_vaddr ph + p_memsz ph)) s1 r s' ->
  loaded img size (ph :: phs) low high s r s'.
Proof.
  intros Hl Hu Hv Himg Hok Hus Hs1 (Hm & Hf & Hr). unfold loaded.
  assert (forall x, ~ in_segments (ph :: phs) x ->
    ~ in_segments phs x /\ ~ inside (p_vaddr ph) (p_memsz ph) x) as Hout.
  { unfold in_segments. rewrite loads_cons_load by done. intros x Hx. split.
    - intros (ph' & ? & ?). apply Hx. exists ph'. split; [by right | done].
    - intros Hi. apply Hx. exists ph. split; [by left | done]. }
  split_and!; [done | |].
  { intros x Hx. destruct (Hout x Hx). rewrite Hf, Hs1 by done. by eapply load_one_frame. }
  destruct r as [[lo hi]|].
  - destruct Hr as (Hvs & -> & -> & Hb). unfold low_of, high_of. rewrite !loads_cons_load by done.
    split_and!; [by constructor | done | done|].
    intros [Hw Hws] ph' i Hin Hi. destruct (Hw Hl) as [Hown Hlater].
    apply elem_of_cons in Hin as [-> | Hin].
    + rewrite Hf, Hs1; [by eapply load_one_byte|]. intros (ph2 & Hin2 & Hi2).
      destruct (Hlater ph2 Hin2) as [Hd _]. unfold disjoint_reg, inside in *. lia.
    + rewrite Hb by done. unfold segment_byte. case_if; [|done]. zbool.
      rewrite Hs1. eapply load_one_frame; [done..|]. destruct (Hlater ph' Hin) as [_ Hd].
      unfold disjoint_reg, inside in *. lia.
  - rewrite loads_cons_load by done. intros Hall. apply Forall_cons in Hall as [_ Hall]. by apply Hr.
Qed.

Lemma load_segments_loaded img size : forall phs low high s,
  mem_ok (b_mem s) -> region img size -> Forall phdr_u32 phs ->
  returns (load_segments img size phs low high) s (loaded img size phs low high s).
Proof.
  induction phs as [|ph phs IH]; intros low high s Hok Himg Hu.
  { apply returns_ret. split_and!; try done. intros _ ph i Hin. by apply elem_of_nil in Hin. }
  apply Forall_cons in Hu as [Hu Hus]. cbn [load_segments]. pose proof Himg as (? & ? & ?).
  destruct (p_type ph =? 1) eqn:Ht; cbn [negb].
  2: { eapply returns_mono; [by apply IH|]. intros r s'. apply loaded_skip.
       unfold is_load. by apply Z.eqb_neq. }
  apply Z.eqb_eq in Ht.
  destruct (_ || _ || _) eqn:Hc; [|destruct (u32 _ <? _) eqn:Hw].
  - apply returns_p. apply returns_ret. split_and!; [done | done|]. rewrite loads_cons_load by done.
    intros Hall. apply Forall_cons in Hall as [(? & ? & ?) _].
    destruct Hu as (? & ? & ? & ?). rewrite !orb_true_iff, !Z.ltb_lt in Hc. mlia.
  - apply returns_p. apply returns_ret. split_and!; [done | done|]. rewrite loads_cons_load by done.
    intros Hall. apply Forall_cons in Hall as [(? & ? & ?) _].
    destruct Hu as (? & ? & ? & ?). zbool. mlia.
  - destruct (seg_check size ph Hu ltac:(lia) Hc Hw) as [Hv Hend]. rewrite Hend.
    apply returns_modify. unfold pdec. do 7 apply returns_p. eapply returns_mono.
    + apply IH; [|done..]. cbn [emit set_mem b_mem]. by apply (load_one_mem_ok img ph).
    + intros r s' Hr. replace (if p_vaddr ph <? low then p_vaddr ph else low)
        with (Z.min low (p_vaddr ph)) in Hr by zcases.
      replace (if high <? _ then _ else high) with (Z.max high (p_vaddr ph + p_memsz ph)) in Hr by zcases.
      eapply loaded_load; [..|exact Hr]; done.
Qed.

Lemma read_phdrs_u32 m : mem_ok m -> forall n a, Forall phdr_u32 (read_phdrs m a n).
Proof.
  intros Hm. induction n as [|n IH]; intros a; simpl; constructor; [|apply IH].
  unfold phdr_u32. simpl. auto with words.
Qed.

Lemma high_of_bound size phs : forall z,
  Forall (seg_valid size) (loads phs) -> z <= 4294967295 -> high_of phs z <= 4294967295.
Proof.
  unfold high_of. induction (loads phs) as [|ph l IH]; intros z Hv Hz; simpl; [done|].
  apply Forall_cons in Hv as [(_ & _ & ?) Hv]. apply IH; [done | lia].
Qed.

(** The headers of the image and the conditions under which it is started. *)
Definition image_phdrs (m : mem) (img : Z) : list phdr :=
  read_phdrs m (img + e_phoff (read_ehdr m img)) (Z.to_nat (e_phnum (read_ehdr m img))).

Definition image_ok (m : mem) (img size : Z) : Prop :=
  let phs := image_phdrs m img in
  elf_check size (read_ehdr m img) = None /\ Forall (seg_valid size) (loads phs) /\
  low_of phs 0xffffffff < high_of phs 0.

(** The booter's own image, which holds its code, its stack and its statics. *)
Definition in_booter (L : layout) (x : Z) : Prop := inside (BOOTX_START L) (BOOTX_END L - BOOTX_START L) x.

(** The three statics the loader stores to are inside the booter and apart. *)
Definition statics_ok (L : layout) : Prop :=
  0 <= BOOTX_START L /\ BOOTX_END L <= 4294967296 /\
  (BOOTX_START L <= XNU_BOOT_ARGS L /\ XNU_BOOT_ARGS L + 128 <= BOOTX_END L) /\
  (BOOTX_START L <= XNU_MEMORY_MAP L /\ XNU_MEMORY_MAP L + 640 <= BOOTX_END L) /\
  (BOOTX_START L <= XNU_CMDLINE L /\ XNU_CMDLINE L + 256 <= BOOTX_END L) /\
  disjoint_reg (XNU_BOOT_ARGS L) 128 (XNU_MEMORY_MAP L) 640 /\
  disjoint_reg (XNU_BOOT_ARGS L) 128 (XNU_CMDLINE L) 256 /\
  disjoint_reg (XNU_MEMORY_MAP L) 640 (XNU_CMDLINE L) 256.

(** A byte of the three statics. *)
Definition in_statics (L : layout) (x : Z) : Prop :=
  inside (XNU_BOOT_ARGS L) 128 x \/ inside (XNU_MEMORY_MAP L) 640 x \/ inside (XNU_CMDLINE L) 256 x.

(** No segment is loaded over the booter. *)
Definition clear_of_booter (L : layout) (phs : list phdr) : Prop :=
  forall ph, ph ∈ loads phs ->
    disjoint_reg (p_vaddr ph) (p_memsz ph) (BOOTX_START L) (BOOTX_END L - BOOTX_START L).

(** A command line that fits in [xnu_cmdline] with its NUL. *)
Definition cmdline_ok (cmdline : list Z) : Prop := Forall is_u8 cmdline /\ (length cmdline <= 255)%nat.

(** The device tree, and its size in its header, read the same whatever is loaded
    and whatever the booter stores in its statics. *)
Definition dtb_reads (L : layout) (F : fdt_fuel) (m : mem) (phs : list phdr) (dtb : Z) (ba : boot_args) : Prop :=
  forall m', (forall x, ~ in_segments phs x -> ~ in_statics L x -> m' x = m x) ->
    caribe_pack_boot_args m' F dtb = Some ba /\ (dtb <> 0 -> be32 m' (dtb + 4) = be32 m (dtb + 4)).

Context (L : layout) (F : fdt_fuel).

(** The command line handed over. *)
Definition final_cmdline (cmdline : list Z) : list Z :=
  if bool_decide (cmdline = []) then cstr "console=ttyS0 -v" else cmdline.

(** Where the kernel finds what is handed over. *)
Definition handoff_fields (h : handoff) : list field :=
  [(XNU_BOOT_ARGS L, args_bytes (h_args h)); (XNU_MEMORY_MAP L, map_bytes (h_map h));
   (XNU_CMDLINE L, h_cmdline h ++ [0])].

(** The memory the kernel is entered with, from the one the segments are loaded in. *)
Definition handoff_mem (m : mem) (h : handoff) : mem :=
  write_fields (write_fields m (first_fields L (h_hartid h) (h_dtb h) (h_cmdline h)))
    (last_fields L (h_args h) (h_map h)).

Lemma length_args_bytes x : length (args_bytes x) = 128%nat.
Proof. unfold args_bytes. by rewrite length_app, length_words_bytes. Qed.

Lemma length_map_bytes l : length l = 16%nat -> length (map_bytes l) = 640%nat.
Proof.
  intros Hl. unfold map_bytes. rewrite length_words_bytes.
  assert (length (concat (range_words <$> l)) = (10 * length l)%nat) as ->; [|lia].
  clear Hl. induction l as [|r l IH]; [done|]. rewrite fmap_cons. simpl. rewrite IH. lia.
Qed.

Lemma final_cmdline_ok cmdline : cmdline_ok cmdline -> cmdline_ok (final_cmdline cmdline).
Proof.
  intros Hc. unfold final_cmdline. case_bool_decide; [|done]. split; [|simpl; lia].
  unfold is_u8. by_computation.
Qed.

Lemma statics_booter x : statics_ok L -> in_statics L x -> in_booter L x.
Proof. unfold statics_ok, in_statics, in_booter, inside. lia. Qed.

Lemma booter_segments phs x : clear_of_booter L phs -> in_booter L x -> ~ in_segments phs x.
Proof.
  intros Hc Hx (ph & Hph & Hin). specialize (Hc ph Hph). unfold in_booter, inside, disjoint_reg in *. lia.
Qed.

Section Handed.
Context (h : handoff) (Hlay : statics_ok L) (Hcmd : cmdline_ok (h_cmdline h)) (Hmap : length (h_map h) = 16%nat).

Lemma first_fields_ok : fields_ok (first_fields L (h_hartid h) (h_dtb h) (h_cmdline h)).
Proof using Hlay Hcmd.
  clear Hmap. destruct Hlay as (? & ? & ? & ? & ? & ? & ? & ?). destruct Hcmd as [_ Hl].
  apply fields_ok_pair; unfold fields_apart, disjoint_reg, region, flen in *; cbn [fst snd];
    rewrite !length_app, ?length_words_bytes, ?length_replicate; simpl length; lia.
Qed.

Lemma last_fields_ok : fields_ok (last_fields L (h_args h) (h_map h)).
Proof using Hlay Hmap.
  destruct Hlay as (? & ? & ? & ? & ? & ? & ? & ?).
  apply fields_ok_pair; unfold fields_apart, disjoint_reg, region, flen in *; cbn [fst snd];
    rewrite ?length_args_bytes, ?length_map_bytes by done; lia.
Qed.

(** The fields stored first are in the statics. *)
Lemma first_fields_statics x :
  in_fields (first_fields L (h_hartid h) (h_dtb h) (h_cmdline h)) x -> in_statics L x.
Proof using Hcmd.
  clear Hmap Hlay. destruct Hcmd as [_ Hl]. intros (f & Hf & Hin).
  assert (length (h_cmdline h ++ [0%Z]) <= 256)%nat by (rewrite length_app; simpl; lia).
  unfold in_statics, first_fields, flen, inside in *. rewrite !elem_of_cons in Hf.
  destruct_or! Hf; subst; cbn [fst snd] in Hin; try by apply elem_of_nil in Hf.
  all: rewrite ?length_app, ?length_words_bytes, ?length_replicate in *; simpl length in *; lia.
Qed.

(** Only the three statics change. *)
Lemma handoff_frame m x : ~ in_statics L x -> handoff_mem m h x = m x.
Proof using Hlay Hcmd Hmap.
  intros Hx. unfold handoff_mem. destruct Hcmd as [_ Hl].
  assert (length (h_cmdline h ++ [0%Z]) <= 256)%nat by (rewrite length_app; simpl; lia).
  rewrite !write_fields_frame; [done | apply first_fields_ok | | apply last_fields_ok |].
  all: intros Hin; apply Hx. 1: by apply first_fields_statics. destruct Hin as (f & Hf & Hin).
  unfold in_statics, last_fields, flen, inside in *. rewrite !elem_of_cons in Hf.
  destruct_or! Hf; subst; cbn [fst snd] in Hin; try by apply elem_of_nil in Hf.
  all: rewrite ?length_args_bytes, ?length_map_bytes in Hin by done; lia.
Qed.

(** The kernel finds the arguments, the map and the command line. *)
Lemma handoff_holds m : holds (handoff_mem m h) (handoff_fields h).
Proof using Hlay Hcmd Hmap.
  pose proof Hlay as (? & ? & ? & ? & ? & ? & ? & ?). pose proof Hcmd as [Hu Hl].
  set (m1 := write_fields m (first_fields L (h_hartid h) (h_dtb h) (h_cmdline h))).
  assert (holds (write_fields m1 (last_fields L (h_args h) (h_map h))) (last_fields L (h_args h) (h_map h))) as Hlast.
  { apply write_fields_holds; [apply last_fields_ok|].
    apply Forall_cons_2; [|apply Forall_cons_2; [|apply Forall_nil_2]]; cbn [snd].
    - apply words_bytes_u8.
    - apply Forall_app. split; [apply words_bytes_u8 | by apply Forall_replicate]. }
  apply Forall_cons in Hlast as [Hm Hlast]. apply Forall_cons in Hlast as [Ha _]. cbn [fst snd] in Hm, Ha.
  apply Forall_cons_2; [exact Ha|]. apply Forall_cons_2; [exact Hm|].
  apply Forall_cons_2; [|apply Forall_nil_2]. cbn [fst snd].
  unfold handoff_mem. fold m1. assert (length (h_cmdline h ++ [0%Z]) <= 256)%nat by (rewrite length_app; simpl; lia).
  rewrite write_fields_read_other; [| apply last_fields_ok | unfold region; lia |].
  - unfold m1. pose proof (write_fields_read _ m (XNU_CMDLINE L, h_cmdline h ++ [0]) first_fields_ok) as Hr.
    cbn [fst snd] in Hr. rewrite Hr by (right; by left).
    apply fmap_u8, Forall_app. split; [|by apply Forall_singleton].
    done.
  - apply Forall_cons_2; [|apply Forall_cons_2; [|apply Forall_nil_2]]; unfold flen, disjoint_reg in *; cbn [fst snd];
      rewrite ?length_args_bytes, ?length_map_bytes by done; lia.
Qed.

End Handed.

(** The jump for an image loaded from memory [m]. *)
Definition handed (m : mem) (img hartid dtb initrd_base initrd_size : Z) (cmdline : list Z)
    (ba : boot_args) : handoff :=
  let phs := image_phdrs m img in
  let cmd := final_cmdline cmdline in
  let r := make_boot_args L m hartid dtb initrd_base initrd_size
    (low_of phs 0xffffffff) (high_of phs 0) ba cmd in
  Handoff (e_entry (read_ehdr m img)) hartid dtb r.1 cmd r.2.

(** What [elf32_load_and_jump] leaves: [m1] is the memory after loading. *)
Definition elf_result (img size hartid dtb initrd_base initrd_size : Z) (cmdline : list Z)
    (ba : boot_args) s (r : Z * option handoff) s' : Prop :=
  let m := b_mem s in
  let phs := image_phdrs m img in
  exists m1, mem_ok m1 /\ (forall x, ~ in_segments phs x -> m1 x = m x) /\
  match r with
  | (rc, None) => rc = -1 /\ ~ image_ok m img size /\ b_mem s' = m1
  | (rc, Some h) =>
      rc = 0 /\ image_ok m img size /\
      (well_placed img phs -> forall ph i, ph ∈ loads phs -> 0 <= i < p_memsz ph ->
         m1 (p_vaddr ph + i) = segment_byte m img ph i) /\
      h = handed m img hartid dtb initrd_base initrd_size cmdline ba /\ b_mem s' = handoff_mem m1 h
  end.

(** The arguments depend on memory only for the size of the device tree. *)
Lemma make_boot_args_same m m' hartid dtb ib isz low high ba cmd :
  (dtb <> 0 -> be32 m' (dtb + 4) = be32 m (dtb + 4)) ->
  make_boot_args L m' hartid dtb ib isz low high ba cmd = make_boot_args L m hartid dtb ib isz low high ba cmd.
Proof.
  intros Hd. unfold make_boot_args. destruct (Z.eqb_spec dtb 0) as [|Hne]; [done|]. by rewrite Hd.
Qed.

Lemma length_memory_map_add map n t a b : length (xnu_memory_map_add map n t a b).1 = length map.
Proof. unfold xnu_memory_map_add. case_if; [done|]. apply length_insert. Qed.

Lemma length_map_steps l : forall st, length (foldl map_step st l).1.1 = length st.1.1.
Proof.
  induction l as [|r l IH]; intros [[map n] cur]; [done|]. simpl foldl. rewrite IH. unfold map_step.
  case_if; [done|]. cbn zeta.
  destruct (if cur <? rs_start r then _ else _) as [map1 n1] eqn:H1.
  destruct (xnu_memory_map_add map1 n1 _ _ _) as [map2 n2] eqn:H2. cbn [fst].
  transitivity (length map1); [by rewrite <- (length_memory_map_add map1 n1 (rs_type r)
    (if rs_start r <? cur then cur else rs_start r) (rs_end r)), H2|].
  revert H1. case_if; [|by intros [= -> _]]. intros H1. by rewrite <- (length_memory_map_add map n XNU_EFI_CONVENTIONAL cur (rs_start r)), H1.
Qed.

Lemma length_boot_map m hartid dtb ib isz low high ba cmd :
  length (make_boot_args L m hartid dtb ib isz low high ba cmd).2 = 16%nat.
Proof.
  unfold make_boot_args. destruct (xnu_build_memory_map _ _ _ _ _ _ _ _ _ _) as [map n] eqn:Hb. cbn [snd].
  change (length (map, n).1 = 16%nat). rewrite <- Hb. unfold xnu_build_memory_map. case_if; [done|].
  repeat destruct (xnu_reserved_insert _ _ _ _ _ _ _) as [? ?].
  destruct (foldl map_step _ _) as [[map1 n1] cur] eqn:Hs.
  assert (length map1 = 16%nat) as Hl.
  { change (length (map1, n1, cur).1.1 = 16%nat). by rewrite <- Hs, length_map_steps. }
  case_if; [by rewrite length_memory_map_add | done].
Qed.

Lemma elf32_load_and_jump_result img size hartid dtb ib isz cmdline ba s :
  mem_ok (b_mem s) -> region img size -> statics_ok L -> cmdline_ok cmdline ->
  dtb_reads L F (b_mem s) (image_phdrs (b_mem s) img) dtb ba ->
  returns (elf32_load_and_jump L F img size hartid dtb ib isz cmdline) s
    (elf_result img size hartid dtb ib isz cmdline ba s).
Proof.
  intros Hok Himg Hlay Hcmd Hdtb. unfold elf32_load_and_jump. apply returns_get.
  destruct (elf_check size (read_ehdr (b_mem s) img)) as [msg|] eqn:Hchk.
  { apply returns_p, returns_ret. exists (b_mem s). split_and!; try done. intros (Hc & _). congruence. }
  fold (image_phdrs (b_mem s) img). set (phs := image_phdrs (b_mem s) img) in *. apply returns_p.
  eapply returns_bind.
  { apply load_segments_loaded; [done | done | by apply read_phdrs_u32]. }
  intros r s1 (Hm1 & Hf1 & Hr). cbn [emit b_mem] in Hf1, Hr. destruct r as [[lo hi]|].
  2: { apply returns_ret. exists (b_mem s1). split_and!; try done. intros (_ & Hv & _). by apply Hr. }
  destruct Hr as (Hv & -> & -> & Hb).
  pose proof (high_of_bound size phs 0 Hv ltac:(lia)) as Hhi.
  destruct (_ || _) eqn:Hrej.
  { apply returns_p, returns_ret. exists (b_mem s1). split_and!; try done. intros (_ & _ & Hlt). fold phs in Hlt.
    rewrite orb_true_iff, Z.eqb_eq, Z.leb_le in Hrej. lia. }
  rewrite orb_false_iff, Z.eqb_neq, Z.leb_gt in Hrej. apply returns_get.
  destruct (Hdtb (b_mem s1)) as [-> _]; [by intros x Hx _; apply Hf1|].
  assert (match cmdline with [] => default [] (scopy 256 "console=ttyS0 -v") | _ => cmdline end =
    final_cmdline cmdline) as -> by by destruct cmdline.
  pose proof (final_cmdline_ok cmdline Hcmd) as Hcmd'. set (cmd := final_cmdline cmdline) in *.
  set (m2 := write_fields (b_mem s1) (first_fields L hartid dtb cmd)).
  rewrite (make_boot_args_same (b_mem s)).
  2: { intros Hd. apply (Hdtb m2); [|done]. intros x Hx Hns. unfold m2. rewrite <- (Hf1 x Hx).
       set (h0 := handed (b_mem s) img hartid dtb ib isz cmdline ba).
       apply write_fields_frame; [by apply (first_fields_ok h0)|]. intros Hin.
       by apply Hns, (first_fields_statics h0). }
  destruct (make_boot_args _ _ _ _ _ _ _ _ _ _) as [args map] eqn:Hmk.
  unfold pdec. apply returns_modify. do 11 apply returns_p. apply returns_ret. unfold elf_result.
  cbn [emit set_mem b_mem]. fold phs. exists (b_mem s1). do 2 (split; [done|]). split; [done|].
  split; [split; [done|]; split; [done | fold phs; lia]|]. split; [done|].
  unfold handed. fold phs. fold cmd. by rewrite Hmk.
Qed.



End ElfSpec.

(** A small image: one LOAD segment of 8 bytes, 16 in memory, at 0x80400000. *)
Definition le16 (x : Z) : list Z := [x mod 256; x / 256].

Definition le32 (x : Z) : list Z := le16 (x mod 65536) ++ le16 (x / 65536).

Definition small_elf : list Z :=
  [0x7f; 0x45; 0x4c; 0x46; 1; 1; 1] ++ replicate 9 0 ++ le16 2 ++ le16 243 ++ le32 1 ++
  le32 0x80400004 ++ le32 52 ++ le32 0 ++ le32 0 ++ le16 52 ++ le16 32 ++ le16 1 ++ replicate 6 0 ++
  le32 1 ++ le32 84 ++ le32 0x80400000 ++ le32 0x80400000 ++ le32 8 ++ le32 16 ++ le32 7 ++ le32 4096 ++
  [0x13; 0; 0; 0; 0x6f; 0; 0; 0].

Definition small_layout : layout :=
  {| SECBUF := 0x80210000; PLIST_BUF := 0x80212000; XNU_BOOT_ARGS := 0x80216000;
     XNU_MEMORY_MAP := 0x80217000; XNU_CMDLINE := 0x80218000; BOOTX_START := 0x80200000;
     BOOTX_END := 0x80240000 |}.

Definition small_boot : boot (D := unit) :=
  Boot (mem_of_list HFS_KERNEL_LOAD_BUFFER small_elf) tt [] Example.vol.

Definition small_fuel : fdt_fuel := {| slack := 8; fuel := 40 |}.

Definition default_boot_args : boot_args :=
  {| ba_dtb := 0; uart_base := def_uart; plic_base := def_plic; aclint_base := def_aclint;
     mem_mb := 256; ncpus := 1 |}.

Lemma small_boot_ok : mem_ok (b_mem small_boot).
Proof.
  intros a. simpl. unfold mem_of_list. case_if; [|done].
  assert (Forall is_u8 small_elf) as Hall by (unfold is_u8; by_computation).
  apply (Forall_lookup_total_1 _ _ _ Hall). zbool. lia.
Qed.

Lemma no_dtb_reads m phs : dtb_reads small_layout small_fuel m phs 0 default_boot_args.
Proof. by intros m' _. Qed.

Lemma small_phdrs :
  image_phdrs (b_mem small_boot) HFS_KERNEL_LOAD_BUFFER = [Phdr 1 84 0x80400000 8 16].
Proof. by vm_compute. Qed.

Lemma small_img_ok : region HFS_KERNEL_LOAD_BUFFER 92.
Proof. done. Qed.

Lemma small_statics : statics_ok small_layout.
Proof. unfold statics_ok, disjoint_reg, small_layout. cbn. lia. Qed.

Lemma small_cmdline : cmdline_ok [].
Proof. split; [constructor | simpl; lia]. Qed.

Lemma small_clear : clear_of_booter small_layout (image_phdrs (b_mem small_boot) HFS_KERNEL_LOAD_BUFFER).
Proof.
  rewrite small_phdrs. intros ph [-> | Hin]%elem_of_cons; [|by apply elem_of_nil in Hin].
  right. vm_compute. discriminate.
Qed.



End BootLoader.
