(* ===== verification/Console.v ===== *)
(** The booter's console (src/booter/console.c): the line editor with its history
    ring, the commands and the BootX-like command block.

    The console is driven by the trap handler, one character or one timer tick at
    a time, so its operations run one after the other.  Its static variables are
    the record [console] (ConsoleMem.v puts those of the editor in memory); memory is what the commands read, write and load.  What
    the console does to the outside is a trace of events: characters sent to the
    UART, bytes read and written by the [mem] commands, jumps and SBI resets.
    Code the user jumps to, the values of the CSRs and the bounds of the
    device-tree walk are parameters ([Machine]). *)

From S2P Require Import Prelude Print Fdt.

Module Console.

Import Print.

Local Open Scope c_scope.

(** *** State *)

Definition HIST_N : Z := 8.

Definition UART_MMIO_DEFAULT : Z := 0x10000000.

Definition DTB_FIXED_ADDR : Z := 0x8fe00000.

(** [line], [len], [hist], [hist_count], [hist_widx], [hist_pos],
    [last_drawn_len] and [esc_state]. *)
Record editor := Editor {
  line : list Z;
  len : Z;
  hist : list (list Z);
  hist_count : Z;
  hist_widx : Z;
  hist_pos : Z;
  last_drawn_len : Z;
  esc_state : Z;
}.

(** The other variables: [s_uart_base_rt], [last_ticks_seen] and [g_tick_every]. *)
Record vars := Vars {
  s_uart_base_rt : Z;
  last_ticks_seen : Z;
  g_tick_every : Z;
}.

Inductive event :=
  | Put (c : Z)
  | Rd (a : Z)
  | Wr (a v : Z)
  | Jump (a : Z)
  | Reset (type : Z).

Record console := Con {
  ed : editor;
  vs : vars;
  cmem : mem;
  trace : list event;
}.

(** What the console does not define: [csr_read n t] is the value of the CSR called
    [n] when the trace is [t]; [entry a m] is the memory the code at [a] returns
    with, [None] when it never returns; the walk of the device tree is given
    [name_fuel] bytes for a node name and [walk_fuel] tokens. *)
Class Machine := {
  csr_read : list Z -> list event -> Z;
  entry : Z -> mem -> option mem;
  name_fuel : nat;
  walk_fuel : nat;
}.

(** *** A state monad with an exit

    [Stop]: the hart never comes back (reset, or a jump that does not return).
    [NoFuel]: a walk ran out of its bound. *)

Inductive outcome (A : Type) := Ret (a : A) | Stop | NoFuel.

Arguments Ret {A} a.
Arguments Stop {A}.
Arguments NoFuel {A}.

Definition CM (A : Type) : Type := console -> outcome A * console.

#[global] Instance CM_ret : MRet CM := fun A a s => (Ret a, s).

#[global] Instance CM_bind : MBind CM :=
  fun A B f c s =>
    match c s with
    | (Ret a, s') => f a s'
    | (Stop, s') => (Stop, s')
    | (NoFuel, s') => (NoFuel, s')
    end.

Definition get {A} (f : console -> A) : CM A := fun s => (Ret (f s), s).

Definition mod_ed (f : editor -> editor) : CM unit :=
  fun s => (Ret tt, Con (f (ed s)) (vs s) (cmem s) (trace s)).

Definition mod_vars (f : vars -> vars) : CM unit :=
  fun s => (Ret tt, Con (ed s) (f (vs s)) (cmem s) (trace s)).

Definition set_mem (m : mem) : CM unit := fun s => (Ret tt, Con (ed s) (vs s) m (trace s)).

Definition emit (l : list event) : CM unit :=
  fun s => (Ret tt, Con (ed s) (vs s) (cmem s) (trace s ++ l)).

Definition stop : CM unit := fun s => (Stop, s).

Definition set_tick_every (n : Z) (v : vars) : vars := Vars (s_uart_base_rt v) (last_ticks_seen v) n.

Definition set_ticks_seen (n : Z) (v : vars) : vars := Vars (s_uart_base_rt v) n (g_tick_every v).

Definition set_line (l : list Z) (n : Z) (e : editor) : editor :=
  Editor l n (hist e) (hist_count e) (hist_widx e) (hist_pos e) (last_drawn_len e) (esc_state e).

Definition set_hist (h : list (list Z)) (n w : Z) (e : editor) : editor :=
  Editor (line e) (len e) h n w (hist_pos e) (last_drawn_len e) (esc_state e).

Definition set_pos (p : Z) (e : editor) : editor :=
  Editor (line e) (len e) (hist e) (hist_count e) (hist_widx e) p (last_drawn_len e) (esc_state e).

Definition set_drawn (n : Z) (e : editor) : editor :=
  Editor (line e) (len e) (hist e) (hist_count e) (hist_widx e) (hist_pos e) n (esc_state e).

Definition set_esc (n : Z) (e : editor) : editor :=
  Editor (line e) (len e) (hist e) (hist_count e) (hist_widx e) (hist_pos e) (last_drawn_len e) n.

(** The UART: [uart_putc] and [uart_puts] send their bytes in order. *)
Definition puts (s : list Z) : CM unit := emit (Put <$> s).

(** [p[i]] and [*p = v] of the [mem] commands. *)
Definition rd8 (a : Z) : CM Z := emit [Rd a];; m ← get cmem; mret (load8 m a).

Definition wr8 (a v : Z) : CM unit := emit [Wr a v];; m ← get cmem; set_mem (store8 m a v).

(** *** Helpers *)

Definition console_set_uart_base (base : Z) : CM unit :=
  mod_vars (fun v => Vars base (last_ticks_seen v) (g_tick_every v)).

Definition uart_base_effective (v : vars) : Z :=
  if s_uart_base_rt v =? 0 then UART_MMIO_DEFAULT else s_uart_base_rt v.

Definition hex_nibble (n : Z) : Z :=
  let n := Z.land n 0xF in if n <? 10 then 48 + n else 65 + (n - 10).

Definition put_hex8 (b : Z) : list Z := [hex_nibble (Z.shiftr b 4); hex_nibble (Z.land b 0xF)].

(** [while( *a && *b ){ if( *a++ != *b++ ) return 0; } return *a==0 && *b==0;] *)
Fixpoint streq (a b : list Z) : bool :=
  match a, b with
  | x :: a, y :: b => if x =? y then streq a b else false
  | [], [] => true
  | _, _ => false
  end.

(** [while( *p ){ if( *p++ != *s++ ) return 0; } return 1;] *)
Fixpoint starts_with (s p : list Z) : bool :=
  match p, s with
  | [], _ => true
  | y :: p, x :: s => if y =? x then starts_with s p else false
  | _ :: _, [] => false
  end.

Definition is_forbidden_addr (a : Z) : bool :=
  if (0x80000000 <=? a) && (a <? 0x80060000) then true
  else if (0x02000000 <=? a) && (a <? 0x02010000) then true
  else false.

(** *** Line and prompt *)

Definition prompt : CM unit := puts "> ".

Definition redraw_line : CM unit :=
  puts "\r";; prompt;;
  e ← get ed;
  puts (take (Z.to_nat (len e)) (line e));;
  (if len e <? last_drawn_len e
   then puts (replicate (Z.to_nat (last_drawn_len e - len e)) 32) else mret tt);;
  mod_ed (set_drawn (len e)).

(** *** History *)

(** [while( *a || *b ){ if( *a != *b ){ same=0; break; } ... }] *)
Fixpoint same_str (a b : list Z) : bool :=
  match a, b with
  | [], [] => true
  | x :: a, y :: b => if x =? y then same_str a b else false
  | _, _ => false
  end.

(** [while(s[i] && i<cap){ row[i]=s[i]; i++; } row[i]=0;] with [room] = cap - i. *)
Fixpoint copy_str (s row : list Z) (i room : nat) : list Z :=
  match s, room with
  | c :: s, S room => copy_str s (<[i := c]> row) (S i) room
  | _, _ => <[i := 0]> row
  end.

Definition hist_store (s : list Z) (e : editor) : editor :=
  if len e =? 0 then e
  else
    let last := (hist_widx e +! HIST_N -! 1) mod HIST_N in
    if (0 <? hist_count e) && same_str s (Fdt.first_str (hist e !!! Z.to_nat last)) then e
    else
      let w := Z.to_nat (hist_widx e) in
      set_hist (<[w := copy_str s (hist e !!! w) 0 127]> (hist e))
        (if hist_count e <? HIST_N then hist_count e +! 1 else hist_count e)
        ((hist_widx e +! 1) mod HIST_N) e.

(** [for(i=0; hist[pos][i] && i<sizeof(line)-1; i++){ line[i]=hist[pos][i]; len++; }
    line[len]=0;] *)
Definition hist_recall_index (idx : Z) : CM unit :=
  mod_ed (fun e =>
    let base := if hist_count e <? HIST_N then 0 else hist_widx e mod HIST_N in
    let pos := (base +! idx) mod HIST_N in
    let row := Fdt.first_str (hist e !!! Z.to_nat pos) in
    set_line (copy_str row (line e) 0 127) (Z.of_nat (Nat.min (length row) 127)) e);;
  redraw_line.

Definition hist_prev : CM unit :=
  e ← get ed;
  if hist_count e =? 0 then mret tt
  else
    let pos := if hist_pos e <? 0 then hist_count e - 1
               else if 0 <? hist_pos e then hist_pos e - 1 else hist_pos e in
    mod_ed (set_pos pos);; hist_recall_index (u32 pos).

Definition hist_next : CM unit :=
  e ← get ed;
  if hist_count e =? 0 then mret tt
  else if hist_pos e <? 0 then mret tt
  else if hist_pos e <? hist_count e - 1 then
    mod_ed (set_pos (hist_pos e + 1));; hist_recall_index (u32 (hist_pos e + 1))
  else
    mod_ed (fun e => set_line (<[0%nat := 0]> (line e)) 0 (set_pos (-1) e));; redraw_line.

(** *** Commands *)

Definition cmd_help : CM unit :=
  puts "Comandos:\r\n";;
  puts "  help            - esta ayuda\r\n";;
  puts "  ticks on/off    - habilita/deshabilita log de ticks\r\n";;
  puts "  tick N          - log cada N ticks (p.ej., 2000)\r\n";;
  puts "  uptime          - muestra ticks y ms aproximados\r\n";;
  puts "  mem rd A L      - lee L bytes desde A (dec o 0xHEX)\r\n";;
  puts "  mem wr A B      - escribe byte B en A\r\n";;
  puts "  csr rd NAME     - lee CSR (sstatus,sie,sip,stvec,sscratch,sepc,scause,stval,satp,time)\r\n";;
  puts "  reboot|poweroff - reinicia / apaga vía OpenSBI\r\n";;
  puts "  clear           - limpia pantalla (ESC[2J; ESC[H)\r\n";;
  puts "  uartbase        - muestra base UART (set y efectiva)\r\n";;
  puts "  uartbase set A  - fija base UART a A (dec o 0xHEX)\r\n";;
  puts "  go A            - salta a dirección A (S-mode)\r\n";;
  puts "\r\nHistorial: ↑/↓ o Ctrl-P/Ctrl-N\r\n".

Definition cmd_uptime (ticks : Z) : CM unit :=
  let ms := ticks *! 10 in
  puts "ticks=";; puts (uart_putdec ticks);;
  puts "  approx=";; puts (uart_putdec (ms / 1000));; puts "s ";;
  puts (uart_putdec (ms mod 1000));; puts "ms\r\n".

(** [for(a=addr; a<end; a++) if(is_forbidden_addr(a)) ...]: some address of the
    [n] from [a] is forbidden. *)
Fixpoint guard_loop (n : nat) (a : Z) : bool :=
  match n with
  | O => false
  | S n => if is_forbidden_addr a then true else guard_loop n (a + 1)
  end.

(** The clamping at the UART registers: the length left and [clamped]. *)
Definition clamp_uart (ub addr lenb : Z) : Z * bool :=
  let end_ := addr +! lenb in
  let ub_end := ub +! 8 in
  if (addr <? ub_end) && (ub <? end_) then
    if ub <=? addr then
      let maxlen := ub_end -! addr in
      if maxlen <? lenb then (maxlen, true) else (lenb, false)
    else
      let lenb := if addr <? ub then ub -! addr else 0 in
      (lenb, negb (lenb =? 0))
  else (lenb, false).

(** [for(i=0;i<lenb;i++) { ... }] with [n] iterations to go. *)
Fixpoint dump_loop (n : nat) (addr i : Z) : CM unit :=
  match n with
  | O => mret tt
  | S n =>
      (if Z.land i 0x0F =? 0 then puts (uart_puthex32 (addr +! i));; puts ": " else mret tt);;
      v ← rd8 (addr +! i);
      puts (put_hex8 v);; puts [32];;
      (if Z.land i 0x0F =? 0x0F then puts "\r\n" else mret tt);;
      dump_loop n addr (i + 1)
  end.

Definition cmd_mem_rd (addr lenb : Z) : CM unit :=
  if lenb =? 0 then mret tt
  else
    let end_ := addr +! lenb in
    if guard_loop (Z.to_nat (end_ - addr)) addr then
      puts "forbidden: M-mode/firmware/CLINT desde S-mode\r\n"
    else
      v ← get vs;
      let '(lenb, clamped) := clamp_uart (uart_base_effective v) addr lenb in
      (if clamped : bool then puts "(recortado por zona UART)\r\n" else mret tt);;
      if lenb =? 0 then puts "nada que leer (recortado)\r\n"
      else
        puts "dump ";; puts (uart_puthex32 addr);; puts " +";; puts (uart_putdec lenb);;
        puts ":\r\n";;
        dump_loop (Z.to_nat lenb) addr 0;;
        if negb (Z.land lenb 0x0F =? 0) then puts "\r\n" else mret tt.

Definition cmd_mem_wr (addr bytev : Z) : CM unit :=
  if is_forbidden_addr addr then puts "forbidden: M-mode/firmware/CLINT\r\n"
  else
    v ← get vs;
    let ub := uart_base_effective v in
    if negb ((ub <=? addr) && (addr <? ub +! 8)) && ((ub <=? addr) && (addr <? ub +! 0x1000)) then
      puts "uart: fuera de los 8 registros válidos\r\n"
    else
      wr8 addr (Z.land bytev 0xFF);;
      puts "write ";; puts (uart_puthex32 addr);; puts " = 0x";; puts (put_hex8 (u8 bytev));;
      puts "\r\n".

Definition csr_names : list (list Z) :=
  [cstr "sstatus"; cstr "sie"; cstr "sip"; cstr "stvec"; cstr "sscratch"; cstr "sepc";
   cstr "scause"; cstr "stval"; cstr "satp"; cstr "time"].

(** [int end=(int)len; while(end>0&&(line[end-1]==' '||line[end-1]=='\t')) end--;] *)
Fixpoint rtrim_loop (l : list Z) (fin : nat) : nat :=
  match fin with
  | O => O
  | S n => if is_blank (l !!! n) then rtrim_loop l n else fin
  end.

Definition rtrim_current_line (e : editor) : editor :=
  let fin := rtrim_loop (line e) (Z.to_nat (len e)) in
  set_line (<[fin := 0]> (line e)) (Z.of_nat fin) e.

Definition term_clear : CM unit := puts "\e[2J\e[H".

Section Commands.
Context {M : Machine}.

Definition csr_rd_by_name (n : list Z) : CM (option Z) :=
  t ← get trace;
  mret (if existsb (streq n) csr_names then Some (csr_read n t) else None).

(** [((void( * )(void))a)();] *)
Definition jump (a : Z) : CM unit :=
  emit [Jump a];; m ← get cmem;
  match entry a m with Some m' => set_mem m' | None => stop end.

(** [sbi_system_reset] and [bx_sbi_reset]: the call, then [for(;;)]. *)
Definition sbi_system_reset (type : Z) : CM unit := emit [Reset type];; stop.

Definition bx_sbi_reset (type : Z) : CM unit := emit [Reset type];; stop.

Definition cmd_go (a : Z) : CM unit :=
  puts "jump S to ";; puts (uart_puthex32 a);; puts " ...\r\n";;
  mod_vars (set_tick_every 0);;
  jump a;;
  puts "retorno de entry()\r\n".

(** *** The device tree *)

(** [for(i2=0;i2<len;i2++) p[i2] = (i2<newlen) ? s[i2] : 0;] where newlen <= len. *)
Definition padded (s : list Z) (len : nat) : list Z := s ++ replicate (len - length s) 0.

Definition overwrite_value (m : mem) (p : Z) (s : list Z) (len : Z) : mem :=
  write_bytes m p (padded s (Z.to_nat len)).

(** The loop of [bx_fdt_overwrite_bootargs]; the result is the code and the
    memory. *)
Fixpoint bx_overwrite_loop (fuel : nat) (m : mem) (strs : Z) (s : list Z) (p depth : Z)
    (in_chosen : bool) : option (Z * mem) :=
  match fuel with
  | O => None
  | S fuel =>
      let tok := be32 m p in
      let p := p + 4 in
      if tok =? Fdt.FDT_BEGIN_NODE then
        q ← Fdt.skip_str m name_fuel p;
        let depth := depth + 1 in
        bx_overwrite_loop fuel m strs s (Fdt.align_ptr (q + 1)) depth
          (if 1 <? depth then Fdt.streq m p "chosen" else false)
      else if tok =? Fdt.FDT_END_NODE then
        let depth := depth - 1 in
        if depth <? 0 then Some (-3, m)
        else if depth =? 0 then Some (0, m)
        else bx_overwrite_loop fuel m strs s p depth false
      else if tok =? Fdt.FDT_PROP then
        let len := be32 m p in
        let p := p + 4 in
        let nameoff := be32 m p in
        let p := p + 4 in
        if in_chosen && Fdt.streq m (strs + nameoff) "bootargs" then
          if Z.of_nat (length s) <=? len then Some (1, overwrite_value m p s len)
          else Some (-2, m)
        else bx_overwrite_loop fuel m strs s (p + ((len +! 3) &! not32 3)) depth in_chosen
      else if tok =? Fdt.FDT_NOP then bx_overwrite_loop fuel m strs s p depth in_chosen
      else if tok =? Fdt.FDT_END then Some (0, m)
      else Some (-3, m)
  end.

Definition bx_fdt_overwrite_bootargs (m : mem) (dtb : Z) (s : list Z) : option (Z * mem) :=
  if dtb =? 0 then Some (-3, m)
  else if negb (be32 m dtb =? Fdt.FDT_MAGIC) then Some (-3, m)
  else
    bx_overwrite_loop walk_fuel m (dtb + be32 m (dtb + 0xc)) s (dtb + be32 m (dtb + 0x8)) 0 false.

(** *** The ELF loader *)

Definition BX_EM_RISCV : Z := 243.

Definition BX_PT_LOAD : Z := 1.

(** One program header: [ph] is its address, read before the copy starts except
    for [p_memsz] and [p_filesz], which the second test reads again. *)
Definition bx_load_one (m : mem) (image ph : Z) : mem :=
  let dst := load32 m (ph + 8) in
  let src := image + load32 m (ph + 4) in
  let filesz := load32 m (ph + 16) in
  let m := if filesz =? 0 then m else copy_loop m dst src (Z.to_nat filesz) in
  let filesz := load32 m (ph + 16) in
  let memsz := load32 m (ph + 20) in
  if filesz <? memsz then zero_loop m (dst + filesz) (Z.to_nat (memsz -! filesz)) else m.

(** [for(uint16_t i=0;i<eh->e_phnum;i++)]: the count is read at every turn, and
    65536 turns are enough for a 16-bit counter. *)
Fixpoint bx_load_loop (fuel : nat) (m : mem) (image ph i : Z) : mem :=
  match fuel with
  | O => m
  | S fuel =>
      if i <? load16 m (image + 44) then
        let a := ph + 32 * i in
        let m := if load32 m a =? BX_PT_LOAD then bx_load_one m image a else m in
        bx_load_loop fuel m image ph (i + 1)
      else m
  end.

Definition bx_elf32_load (m : mem) (image : Z) : Z * mem * Z :=
  if negb ((load8 m image =? 0x7f) && (load8 m (image + 1) =? 69) &&
           (load8 m (image + 2) =? 76) && (load8 m (image + 3) =? 70)) then (-1, m, 0)
  else if negb (load8 m (image + 4) =? 1) then (-2, m, 0)
  else if negb (load8 m (image + 5) =? 1) then (-3, m, 0)
  else if negb (load16 m (image + 18) =? BX_EM_RISCV) then (-4, m, 0)
  else if (load16 m (image + 44) =? 0) || negb (load16 m (image + 42) =? 32) then (-5, m, 0)
  else
    let m := bx_load_loop (Z.to_nat 65536) m image (image + load32 m (image + 28)) 0 in
    (0, m, load32 m (image + 24)).

(** *** The router of the BootX commands *)

(** [while( *s && !bx_is_space( *s )) s++;] *)
Fixpoint bx_skip_word (s : list Z) : list Z :=
  match s with
  | c :: s' => if bx_is_space c then s else bx_skip_word s'
  | [] => []
  end.

(** [while( *s && !end( *s ) && n<sizeof(buf)-1) buf[n++]=*s++;] *)
Fixpoint take_until (stop_at : Z -> bool) (s : list Z) (room : nat) : list Z :=
  match s, room with
  | c :: s, S room => if stop_at c then [] else c :: take_until stop_at s room
  | _, _ => []
  end.

Definition bx_bootelf (s : list Z) : CM Z :=
  match bx_parse_uint_auto s with
  | None => puts "uso: bootelf <addr>\r\n";; mret 1
  | Some addr =>
      puts "ELF @ ";; puts (uart_puthex32 addr);; puts " ...\r\n";;
      m ← get cmem;
      let '(rc, m, entry) := bx_elf32_load m addr in
      set_mem m;;
      if negb (rc =? 0) then
        puts "elf error ";; puts (uart_puthex32 (u32 rc));; puts "\r\n";; mret 1
      else
        puts "entry = ";; puts (uart_puthex32 entry);; puts "\r\n";;
        cmd_go entry;; mret 1
  end.

Definition bx_bootbin (s : list Z) : CM Z :=
  match bx_parse_uint_auto s with
  | None => puts "uso: bootbin <addr> [entry]\r\n";; mret 1
  | Some addr =>
      let s := bx_skip_ws (bx_skip_word s) in
      let entry := if bool_decide (s = []) then addr else default addr (bx_parse_uint_auto s) in
      puts "BIN entry=";; puts (uart_puthex32 entry);; puts "\r\n";;
      cmd_go entry;; mret 1
  end.

(** [char q=*s++] when the value is quoted, else up to a blank; 255 bytes fit. *)
Definition set_value (s : list Z) : list Z :=
  match s with
  | q :: s' => if (q =? 34) || (q =? 39) then take_until (Z.eqb q) s' 255
               else take_until bx_is_space s 255
  | [] => []
  end.

(** After "set": [None] when what follows is not the key [bootargs]. *)
Definition set_key (s : list Z) : option (list Z) :=
  let key : list Z := "bootargs" in
  let rest := drop (length key) s in
  if starts_with s key &&
     match rest with [] => true | c :: _ => bx_is_space c || (c =? 61) end
  then Some rest else None.

Definition bx_set (rest : list Z) : CM Z :=
  let s := bx_skip_ws rest in
  let s := match s with 61 :: s' => s' | _ => s end in
  let buf := set_value (bx_skip_ws s) in
  if bool_decide (buf = []) then puts "uso: set bootargs=\q...\q\r\n";; mret 1
  else
    m ← get cmem;
    match bx_fdt_overwrite_bootargs m DTB_FIXED_ADDR buf with
    | None => fun s => (NoFuel, s)
    | Some (rc, m) =>
        set_mem m;;
        (if rc =? 1 then puts "bootargs OK\r\n"
         else if rc =? 0 then puts "bootargs: /chosen/bootargs no encontrado\r\n"
         else if rc =? -2 then puts "bootargs: cadena demasiado larga para propiedad actual\r\n"
         else puts "bootargs: DTB invalido\r\n");;
        mret 1
    end.

Definition bx_reset (s : list Z) : CM Z :=
  if starts_with s "reboot" then puts "SBI reboot...\r\n";; bx_sbi_reset 1;; mret 1
  else if starts_with s "poweroff" || starts_with s "shutdown" then
    puts "SBI poweroff...\r\n";; bx_sbi_reset 0;; mret 1
  else mret 0.

Definition bootx_handle_command (s : list Z) : CM Z :=
  let s := bx_skip_ws s in
  if starts_with s "bootelf" then bx_bootelf (bx_skip_ws (drop 7 s))
  else if starts_with s "bootbin" then bx_bootbin (bx_skip_ws (drop 7 s))
  else if starts_with s "set" then
    match set_key (bx_skip_ws (drop 3 s)) with
    | Some rest => bx_set rest
    | None => bx_reset (bx_skip_ws (drop 3 s))
    end
  else bx_reset s.

(** *** The command line *)

Definition is_cmd_go_line (s : list Z) : option (list Z) :=
  match bx_skip_ws s with
  | g :: o :: rest =>
      if ((g =? 103) || (g =? 71)) && ((o =? 111) || (o =? 79)) &&
         match rest with [] => true | c :: _ => bx_is_space c end
      then Some (bx_skip_ws rest) else None
  | _ => None
  end.

Definition line_go (gp : list Z) : CM unit :=
  let tok := take_until (fun c => (c =? 32) || (c =? 9) || (c =? 13) || (c =? 10) || (c =? 35)) gp 31 in
  if bool_decide (tok = []) then puts "uso: go <addr>\r\n"
  else
    match parse_uint_auto tok with
    | Some a =>
        mod_vars (set_tick_every 0);;
        puts "jump S to ";; puts (uart_puthex32 a);; puts " ...\r\n";;
        jump a;;
        puts "retorno de entry()\r\n"
    | None => puts "uso: go <addr>\r\n"
    end.

(** [while( *p && *p!=' ' && *p!='\t') p++;] *)
Fixpoint skip_word (s : list Z) : list Z :=
  match s with
  | c :: s' => if is_blank c then s else skip_word s'
  | [] => []
  end.

(** The two numbers of [mem rd] and [mem wr]. *)
Definition line_two (p : list Z) (usage : list Z) (cmd : Z -> Z -> CM unit) : CM unit :=
  match parse_uint_auto p with
  | Some a =>
      match parse_uint_auto (skip_blank (skip_word p)) with
      | Some b => cmd a b
      | None => puts usage
      end
  | None => puts usage
  end.

Definition line_csr (p : list Z) : CM unit :=
  let p := skip_blank p in
  r ← csr_rd_by_name p;
  match r with
  | Some v => puts p;; puts " = ";; puts (uart_puthex32 v);; puts "\r\n"
  | None => puts "CSR desconocido\r\n"
  end.

(** [handle_line] after the line is trimmed and stored: [s] is the line. *)
Definition run_command (s : list Z) (last_ticks : Z) : CM unit :=
  if streq s "help" then cmd_help
  else if streq s "ticks on" then mod_vars (set_tick_every 1000);; puts "ticks=1000\r\n"
  else if streq s "ticks off" then mod_vars (set_tick_every 0);; puts "ticks=off\r\n"
  else if starts_with s "tick " then
    match parse_uint_auto (drop 5 s) with
    | Some n => mod_vars (set_tick_every n);; puts "ticks=";; puts (uart_putdec n);; puts "\r\n"
    | None => puts "uso: tick N\r\n"
    end
  else if streq s "uptime" then cmd_uptime last_ticks
  else if starts_with s "mem rd " then line_two (drop 7 s) "uso: mem rd <addr> <len>\r\n" cmd_mem_rd
  else if starts_with s "mem wr " then line_two (drop 7 s) "uso: mem wr <addr> <byte>\r\n" cmd_mem_wr
  else if starts_with s "csr rd " then line_csr (drop 7 s)
  else if streq s "reboot" then puts "SBI: cold reboot...\r\n";; sbi_system_reset 1
  else if streq s "poweroff" then puts "SBI: poweroff...\r\n";; sbi_system_reset 0
  else if streq s "clear" then term_clear
  else if starts_with s "uartbase" then
    v ← get vs;
    puts "uart_base (set): ";; puts (uart_puthex32 (s_uart_base_rt v));;
    puts "  effective: ";; puts (uart_puthex32 (uart_base_effective v));; puts "\r\n"
  else
    match is_cmd_go_line s with
    | Some gp => line_go gp
    | None =>
        r ← bootx_handle_command s;
        if negb (r =? 0) then mret tt
        else
          r ← bootx_handle_command s;
          if negb (r =? 0) then mret tt
          else puts "ECHO: ";; puts s;; puts "\r\n"
    end.

(** [handle_line]; [run] is what is done with the line, [run_command] in the code. *)
Definition handle_line_with (run : list Z -> Z -> CM unit) (last_ticks : Z) : CM unit :=
  mod_ed rtrim_current_line;;
  e ← get ed;
  if len e =? 0 then mret tt
  else
    let s := Fdt.first_str (line e) in
    mod_ed (fun e => set_pos (-1) (hist_store s e));;
    run s last_ticks.

Definition handle_line : Z -> CM unit := handle_line_with run_command.

(** *** The interface *)

Definition console_init : CM unit :=
  mod_ed (fun e => Editor (line e) 0 (hist e) 0 0 (-1) 0 0);;
  puts "\r\nRX listo. 'help' para comandos. Historial: ↑/↓ o Ctrl-P/Ctrl-N\r\n";;
  prompt.

(** The result tells whether the character was part of an escape sequence. *)
Definition handle_esc_seq (c : Z) : CM bool :=
  e ← get ed;
  if esc_state e =? 0 then
    if c =? 0x1B then mod_ed (set_esc 1);; mret true else mret false
  else if esc_state e =? 1 then
    if c =? 91 then mod_ed (set_esc 2);; mret true else mod_ed (set_esc 0);; mret true
  else
    (if c =? 65 then hist_prev else if c =? 66 then hist_next else mret tt);;
    mod_ed (set_esc 0);; mret true.

(** [console_rx_char], with [run] as above. *)
Definition rx_char_with (run : list Z -> Z -> CM unit) (c : Z) : CM unit :=
  b ← handle_esc_seq c;
  if b : bool then mret tt
  else if c =? 0x10 then hist_prev
  else if c =? 0x0E then hist_next
  else if (c =? 13) || (c =? 10) then
    puts "\r\n";;
    mod_ed (fun e => set_line (<[Z.to_nat (len e) := 0]> (line e)) (len e) e);;
    v ← get vs;
    handle_line_with run (last_ticks_seen v);;
    mod_ed (fun e => set_drawn 0 (set_line (<[0%nat := 0]> (line e)) 0 e));;
    prompt
  else if (c =? 0x08) || (c =? 0x7F) then
    e ← get ed;
    if 0 <? len e then
      mod_ed (set_line (line e) (len e - 1));;
      puts "\b \b";;
      mod_ed (set_drawn (if 0 <? last_drawn_len e then last_drawn_len e - 1 else 0))
    else mret tt
  else
    e ← get ed;
    if (32 <=? c) && (c <=? 126) && (len e <? 127) then
      mod_ed (set_line (<[Z.to_nat (len e) := c]> (line e)) (len e + 1));;
      puts [c];;
      mod_ed (fun e => if last_drawn_len e <? len e then set_drawn (len e) e else e)
    else mret tt.

Definition console_rx_char : Z -> CM unit := rx_char_with run_command.

Definition console_on_tick (ticks : Z) : CM unit :=
  mod_vars (set_ticks_seen ticks);;
  v ← get vs;
  if negb (g_tick_every v =? 0) && (ticks mod g_tick_every v =? 0) then
    puts "\r\n[tick] ";; puts (uart_putdec ticks);; puts "\r\n";; redraw_line
  else mret tt.

End Commands.

End Console.
