(* ===== verification/LineEditor.v ===== *)
(** What the line editor of the console (src/booter/console.c) promises.

    The abstract editor is the text of the current line, the last eight lines
    submitted and the place of the line recalled from them.  [editor_ok] is the
    invariant of the console's arrays and counters; the refinement says that every
    character does to the abstract editor what it is meant to, and that the line
    handed to the commands is the text without trailing blanks. *)

From S2P Require Import Prelude Print Fdt Console.

Module LineEditor.

Import Print Console.

Local Open Scope c_scope.

(** *** The abstract editor *)

Inductive esc := Plain | Escape | Bracket.

Record view := View {
  text : list Z;
  past : list (list Z);
  cursor : option nat;
  mode : esc;
}.

Definition set_text (t : list Z) (v : view) : view := View t (past v) (cursor v) (mode v).

Definition set_mode (m : esc) (v : view) : view := View (text v) (past v) (cursor v) m.

Definition recall (i : nat) (v : view) : view := View (past v !!! i) (past v) (Some i) (mode v).

Definition prev (v : view) : view :=
  if bool_decide (past v = []) then v
  else recall (match cursor v with None => length (past v) - 1 | Some i => i - 1 end) v.

Definition next (v : view) : view :=
  match cursor v with
  | None => v
  | Some i => if bool_decide (S i < length (past v))%nat then recall (S i) v
              else View [] (past v) None (mode v)
  end.

(** The text without its trailing blanks. *)
Fixpoint rtrim (l : list Z) : list Z :=
  match l with
  | [] => []
  | c :: l => match rtrim l with [] => if is_blank c then [] else [c] | l' => c :: l' end
  end.

(** A line repeated at once is stored once; eight lines are kept. *)
Definition remember (s : list Z) (l : list (list Z)) : list (list Z) :=
  if bool_decide (list.last l = Some s) then l else drop (length l + 1 - 8) (l ++ [s]).

Definition submit (v : view) : view :=
  let s := rtrim (text v) in
  if bool_decide (s = []) then set_text [] v
  else View [] (remember s (past v)) None (mode v).

Definition is_newline (c : Z) : bool := (c =? 13) || (c =? 10).

(** A character in plain mode. *)
Definition type_key (c : Z) (v : view) : view :=
  if c =? 27 then set_mode Escape v
  else if c =? 16 then prev v
  else if c =? 14 then next v
  else if is_newline c then submit v
  else if (c =? 8) || (c =? 127) then set_text (take (length (text v) - 1) (text v)) v
  else if (32 <=? c) && (c <=? 126) && bool_decide (length (text v) < 127)%nat
  then set_text (text v ++ [c]) v
  else v.

Definition key (c : Z) (v : view) : view :=
  match mode v with
  | Plain => type_key c v
  | Escape => set_mode (if c =? 91 then Bracket else Plain) v
  | Bracket => set_mode Plain (if c =? 65 then prev v else if c =? 66 then next v else v)
  end.

(** The line a character hands to the commands. *)
Definition submitted (c : Z) (v : view) : option (list Z) :=
  match mode v with
  | Plain => if is_newline c && negb (bool_decide (rtrim (text v) = [])) then Some (rtrim (text v))
             else None
  | _ => None
  end.

(** *** The invariant of the console's variables *)

Definition visible (c : Z) : Prop := 32 <= c <= 126.

(** A row of the history that holds a line. *)
Definition row_ok (row : list Z) : Prop :=
  (length (Fdt.first_str row) <= 127)%nat /\ Forall visible (Fdt.first_str row).

Record editor_ok (e : editor) : Prop := {
  ok_line : length (line e) = 128%nat;
  ok_len : 0 <= len e <= 127;
  ok_text : Forall visible (take (Z.to_nat (len e)) (line e));
  ok_hist : length (hist e) = 8%nat;
  ok_rows : Forall (fun row => length row = 128%nat) (hist e);
  ok_count : 0 <= hist_count e <= 8;
  ok_widx : 0 <= hist_widx e < 8;
  ok_fill : hist_count e < 8 -> hist_widx e = hist_count e;
  ok_past : forall i, 0 <= i < hist_count e -> row_ok (hist e !!! Z.to_nat i);
  ok_pos : -1 <= hist_pos e < hist_count e;
  ok_esc : 0 <= esc_state e <= 2;
  ok_drawn : 0 <= last_drawn_len e <= 127;
}.

(** The place of the [i]-th oldest line in the ring. *)
Definition slot (e : editor) (i : nat) : nat :=
  Z.to_nat ((hist_widx e - hist_count e + Z.of_nat i) mod 8).

Definition entry_of (e : editor) (i : nat) : list Z := Fdt.first_str (hist e !!! slot e i).

Definition mode_of (n : Z) : esc := if n =? 0 then Plain else if n =? 1 then Escape else Bracket.

Definition view_of (e : editor) : view :=
  View (take (Z.to_nat (len e)) (line e)) (entry_of e <$> seq 0 (Z.to_nat (hist_count e)))
    (if hist_pos e <? 0 then None else Some (Z.to_nat (hist_pos e))) (mode_of (esc_state e)).

(** *** Strings *)

Lemma first_str_zero s l : Forall visible s -> Fdt.first_str (s ++ 0 :: l) = s.
Proof.
  induction 1 as [|c s Hc Hs IH]; [done|]. simpl. unfold visible in Hc.
  rewrite (proj2 (Z.eqb_neq c 0)) by lia. by rewrite IH.
Qed.

Lemma copy_str_app s : forall row i room,
  (i + Nat.min (length s) room < length row)%nat ->
  copy_str s row i room = take i row ++ take room s ++ 0 :: drop (S (i + Nat.min (length s) room)) row.
Proof.
  assert (forall (l : list Z) i c, (i < length l)%nat -> <[i:=c]> l = take i l ++ c :: drop (S i) l) as Hins.
  { intros l i c Hi. by apply insert_take_drop. }
  induction s as [|c s IH]; intros row i room Hr; destruct room as [|room]; simpl in *;
    try (rewrite Hins by lia; by rewrite ?Nat.add_0_r).
  rewrite IH by (rewrite length_insert; lia).
  rewrite (take_S_r _ _ c) by (rewrite list_lookup_insert_eq by lia; done).
  rewrite take_insert_ge, drop_insert_lt by lia. rewrite <- app_assoc. cbn [app].
  by rewrite Nat.add_succ_r.
Qed.

Lemma copy_str_first s row : length row = 128%nat -> (length s <= 127)%nat -> Forall visible s ->
  exists l, copy_str s row 0 127 = s ++ 0 :: l /\ length (s ++ 0 :: l) = 128%nat.
Proof.
  intros Hrow Hlen Hs. rewrite copy_str_app by lia. rewrite take_0, (take_ge s) by lia. eexists.
  split; [done|]. rewrite length_app. cbn [length]. rewrite length_drop. lia.
Qed.

Lemma same_str_eq a : forall b, same_str a b = bool_decide (a = b).
Proof.
  induction a as [|x a IH]; intros [|y b]; try done. simpl. rewrite IH.
  destruct (x =? y) eqn:E; zbool.
  - subst. apply bool_decide_ext. naive_solver.
  - symmetry. apply bool_decide_eq_false. congruence.
Qed.

Lemma rtrim_snoc_blank l c : is_blank c = true -> rtrim (l ++ [c]) = rtrim l.
Proof. intros Hc. induction l as [|d l IH]; simpl; [by rewrite Hc | by rewrite IH]. Qed.

Lemma rtrim_snoc l c : is_blank c = false -> rtrim (l ++ [c]) = l ++ [c].
Proof.
  intros Hc. induction l as [|d l IH]; simpl; [by rewrite Hc|]. rewrite IH. by destruct l.
Qed.

Lemma rtrim_loop_spec l : forall n, (n <= length l)%nat ->
  (rtrim_loop l n <= n)%nat /\ take (rtrim_loop l n) l = rtrim (take n l).
Proof.
  induction n as [|n IH]; intros Hn; [done|]. simpl rtrim_loop.
  rewrite (take_S_r l n (l !!! n)) by (apply list_lookup_lookup_total_lt; lia).
  destruct (is_blank (l !!! n)) eqn:E.
  - rewrite rtrim_snoc_blank by done. destruct IH as [IH1 IH2]; [lia|]. split; [lia | done].
  - rewrite rtrim_snoc by done. split; [lia|].
    by rewrite (take_S_r l n (l !!! n)) by (apply list_lookup_lookup_total_lt; lia).
Qed.

(** *** The ring of the history *)

Definition lines (e : editor) : list (list Z) := entry_of e <$> seq 0 (Z.to_nat (hist_count e)).

Lemma length_lines e : length (lines e) = Z.to_nat (hist_count e).
Proof. unfold lines. by rewrite length_fmap, length_seq. Qed.

Lemma lines_lookup e i : (i < Z.to_nat (hist_count e))%nat -> lines e !! i = Some (entry_of e i).
Proof. intros Hi. unfold lines. by rewrite list_lookup_fmap, lookup_seq_lt by done. Qed.

Lemma lines_total e i : (i < Z.to_nat (hist_count e))%nat -> lines e !!! i = entry_of e i.
Proof. intros Hi. apply list_lookup_total_correct, lines_lookup, Hi. Qed.

Lemma slot_range e i : editor_ok e -> (i < Z.to_nat (hist_count e))%nat ->
  (slot e i < 8)%nat /\ 0 <= (hist_widx e - hist_count e + Z.of_nat i) mod 8 < 8 /\
  (hist_count e < 8 -> slot e i = i).
Proof. intros [] Hi. unfold slot. split_and!; [lia | lia | lia |]. intros Hc. specialize (ok_fill0 Hc). lia. Qed.

Lemma entry_ok e i : editor_ok e -> (i < Z.to_nat (hist_count e))%nat -> row_ok (hist e !!! slot e i).
Proof.
  intros Hok Hi. destruct (slot_range e i Hok Hi) as (Hs & Hm & Hf). destruct Hok.
  rewrite <- (Nat2Z.id (slot e i)). apply ok_past0.
  destruct (decide (hist_count e < 8)); [rewrite Hf by done; lia | lia].
Qed.

Lemma lines_last e : editor_ok e -> 0 < hist_count e ->
  list.last (lines e) = Some (Fdt.first_str (hist e !!! Z.to_nat ((hist_widx e +! 8 -! 1) mod 8))).
Proof.
  intros Hok Hc. rewrite list.last_lookup, length_lines. destruct Hok.
  rewrite lines_lookup by lia. unfold entry_of, slot. do 4 f_equal. mlia.
Qed.

Lemma hist_row e : editor_ok e -> length (hist e !!! Z.to_nat (hist_widx e)) = 128%nat.
Proof. intros []. apply (Forall_lookup_total_1 _ _ _ ok_rows0). lia. Qed.

(** Storing a row in the ring. *)
Lemma hist_store_row e s row : editor_ok e -> Forall visible s -> (length s <= 127)%nat ->
  Fdt.first_str row = s -> length row = 128%nat ->
  let e' := set_pos (-1) (set_hist (<[Z.to_nat (hist_widx e) := row]> (hist e))
    (if hist_count e <? HIST_N then hist_count e +! 1 else hist_count e)
    ((hist_widx e +! 1) mod HIST_N) e) in
  editor_ok e' /\ lines e' = drop (length (lines e) + 1 - 8) (lines e ++ [s]).
Proof.
  intros Hok Hs Hlen Hrow Hl e'. pose proof (length_lines e) as HL. unfold HIST_N in *.
  assert (hist_count e' = Z.min 8 (hist_count e + 1)) as Hc'.
  { destruct Hok. subst e'. simpl. case_if; zbool; mlia. }
  assert (hist_widx e' = (hist_widx e + 1) mod 8) as Hw' by (destruct Hok; subst e'; simpl; mlia).
  assert (hist e' = <[Z.to_nat (hist_widx e) := row]> (hist e)) as Hh' by done. split.
  - destruct Hok. split; rewrite ?Hc', ?Hw', ?Hh'; try (done || lia); cbn; try lia.
    + by rewrite length_insert.
    + by apply Forall_insert.
    + intros i Hi. destruct (decide (i = hist_widx e)) as [->|Hne].
      * rewrite list_lookup_total_insert_eq by lia. unfold row_ok. by rewrite Hrow.
      * rewrite list_lookup_total_insert_ne by lia. apply ok_past0. lia.
  - apply list_eq_same_length with (Z.to_nat (hist_count e')); [| apply length_lines |].
    { rewrite length_drop, length_app, HL, Hc'. destruct Hok. simpl. lia. }
    intros i x y Hi. rewrite lines_lookup by done. intros [= <-].
    rewrite lookup_drop, HL. unfold entry_of, slot. rewrite Hh', Hc', Hw'. destruct Hok.
    destruct (decide (Z.of_nat i = Z.min 8 (hist_count e + 1) - 1)) as [Heq|Hne].
    + rewrite lookup_app_r by (rewrite HL; lia). rewrite HL.
      replace (_ - _)%nat with 0%nat by lia. intros [= <-].
      replace (Z.to_nat _) with (Z.to_nat (hist_widx e)) by (f_equal; lia).
      by rewrite list_lookup_total_insert_eq by lia.
    + rewrite lookup_app_l by (rewrite HL; lia). rewrite lines_lookup by lia. intros [= <-].
      unfold entry_of, slot. rewrite list_lookup_total_insert_ne by lia. do 3 f_equal. lia.
Qed.

Lemma hist_store_spec e s : editor_ok e -> len e <> 0 -> Forall visible s -> (length s <= 127)%nat ->
  editor_ok (set_pos (-1) (hist_store s e)) /\
  lines (set_pos (-1) (hist_store s e)) = remember s (lines e).
Proof.
  intros Hok Hlen Hs Hl. unfold hist_store. rewrite (proj2 (Z.eqb_neq _ _) Hlen). cbn zeta.
  rewrite same_str_eq. unfold remember.
  assert ((0 <? hist_count e) && bool_decide (s = Fdt.first_str
    (hist e !!! Z.to_nat ((hist_widx e +! HIST_N -! 1) mod HIST_N))) =
    bool_decide (list.last (lines e) = Some s)) as ->.
  { destruct (0 <? hist_count e) eqn:E; zbool; simpl.
    - rewrite lines_last by done. apply bool_decide_ext. unfold HIST_N. naive_solver.
    - symmetry. apply bool_decide_eq_false. pose proof (length_lines e). destruct (lines e); [done|].
      simpl in *. lia. }
  case_bool_decide as Hlast.
  - split; [|done]. destruct Hok. split; try done. cbn. lia.
  - destruct (copy_str_first s _ (hist_row e Hok) Hl Hs) as (l & -> & Hrow).
    apply hist_store_row; try done. by apply first_str_zero.
Qed.

(** *** Editing operations *)

(** From [w] the operation returns; it leaves the view [v] and touches nothing but
    the editor and the UART. *)
Definition runs (c : CM unit) (w : console) (v : view) : Prop :=
  exists w', c w = (Ret tt, w') /\ editor_ok (ed w') /\ view_of (ed w') = v /\
    vs w' = vs w /\ cmem w' = cmem w.

Lemma runs_ret w v : editor_ok (ed w) -> view_of (ed w) = v -> runs (mret tt) w v.
Proof. intros. by exists w. Qed.

Lemma runs_puts w s v : editor_ok (ed w) -> view_of (ed w) = v -> runs (puts s) w v.
Proof. intros. eexists. split; [reflexivity|]. done. Qed.

Lemma runs_ext c d w v : c w = d w -> runs d w v -> runs c w v.
Proof. intros Heq (w' & Hr & Hrest). exists w'. by rewrite Heq. Qed.

Lemma runs_bind c d w v1 v :
  runs c w v1 ->
  (forall w', editor_ok (ed w') -> view_of (ed w') = v1 -> vs w' = vs w -> runs d w' v) ->
  runs (c;; d) w v.
Proof.
  intros (w1 & Hc & Hok & Hv & Hvs & Hm) Hd. destruct (Hd w1 Hok Hv Hvs) as (w2 & Hd2 & ? & ? & ? & ?).
  exists w2. unfold mbind, CM_bind. rewrite Hc, Hd2. split_and!; congruence || done.
Qed.

Lemma runs_mod_ed f w v : editor_ok (f (ed w)) -> view_of (f (ed w)) = v -> runs (mod_ed f) w v.
Proof. intros. eexists. split; [reflexivity|]. done. Qed.

Lemma runs_get {A} (f : console -> A) (k : A -> CM unit) w v : runs (k (f w)) w v -> runs (a ← get f; k a) w v.
Proof. done. Qed.

Lemma ok_set_drawn e n : editor_ok e -> 0 <= n <= 127 -> editor_ok (set_drawn n e).
Proof. intros [] Hn. by split. Qed.

Lemma ok_set_esc e n : editor_ok e -> 0 <= n <= 2 -> editor_ok (set_esc n e).
Proof. intros [] Hn. by split. Qed.

Lemma ok_set_pos e n : editor_ok e -> -1 <= n < hist_count e -> editor_ok (set_pos n e).
Proof. intros [] Hn. by split. Qed.

Lemma ok_set_line e l n : editor_ok e -> length l = 128%nat -> 0 <= n <= 127 ->
  Forall visible (take (Z.to_nat n) l) -> editor_ok (set_line l n e).
Proof. intros [] Hl Hn Ht. by split. Qed.

Create HintDb editor.

#[export] Hint Resolve ok_set_drawn ok_set_esc ok_set_pos ok_set_line : editor.

Lemma redraw_runs w : editor_ok (ed w) -> runs redraw_line w (view_of (ed w)).
Proof.
  intros Hok. unfold redraw_line, prompt. eapply runs_bind; [by apply runs_puts|].
  intros w1 Hok1 <- _. eapply runs_bind; [by apply runs_puts|]. intros w2 Hok2 <- _.
  apply runs_get. eapply runs_bind; [by apply runs_puts|]. intros w3 Hok3 Hv3 _.
  eapply runs_bind with (v1 := view_of (ed w2)).
  { case_if; [by apply runs_puts | by apply runs_ret]. }
  intros w4 Hok4 Hv4 _. apply runs_mod_ed; [|done]. apply ok_set_drawn; [done|]. apply Hok2.
Qed.

(** Recalling the [i]-th line. *)
Lemma hist_recall_runs w i : editor_ok (ed w) -> (i < Z.to_nat (hist_count (ed w)))%nat ->
  runs (hist_recall_index (Z.of_nat i)) w (set_text (lines (ed w) !!! i) (view_of (ed w))).
Proof.
  intros Hok Hi. destruct (entry_ok _ _ Hok Hi) as [Hlen Hvis]. unfold hist_recall_index.
  assert (Z.to_nat (((if hist_count (ed w) <? HIST_N then 0 else hist_widx (ed w) mod HIST_N) +! Z.of_nat i)
    mod HIST_N) = slot (ed w) i) as Hslot.
  { destruct (slot_range _ _ Hok Hi) as (Hs & Hm & Hf). destruct Hok. unfold HIST_N, slot.
    f_equal. case_if; zbool; mlia. }
  destruct (copy_str_first _ (line (ed w)) (ok_line _ Hok) Hlen Hvis) as (l & Hcopy & Hl).
  eapply runs_bind; [apply runs_mod_ed; [|reflexivity]|].
  - rewrite Hslot, Hcopy. rewrite Nat.min_l by done. apply ok_set_line; try done; [lia|].
    by rewrite Nat2Z.id, take_app_length.
  - intros w' Hok' Hv' _. rewrite lines_total by done. unfold entry_of.
    assert (view_of (ed w') = set_text (Fdt.first_str (hist (ed w) !!! slot (ed w) i)) (view_of (ed w)))
      as <-; [|by apply redraw_runs].
    rewrite Hv', Hslot, Hcopy, Nat.min_l by done. unfold view_of at 1. cbn. unfold set_text. cbn.
    by rewrite Nat2Z.id, take_app_length.
Qed.

Lemma lines_view e : past (view_of e) = lines e.
Proof. done. Qed.

Lemma past_nil e : editor_ok e -> (past (view_of e) = [] <-> hist_count e = 0).
Proof.
  intros []. rewrite lines_view. pose proof (length_lines e) as HL. split.
  - intros H. rewrite H in HL. simpl in HL. lia.
  - intros H. apply length_zero_iff_nil. lia.
Qed.

(** Moving the cursor of the history to [i] and recalling its line. *)
Lemma recall_runs w i : editor_ok (ed w) -> (i < Z.to_nat (hist_count (ed w)))%nat ->
  runs (mod_ed (set_pos (Z.of_nat i));; hist_recall_index (u32 (Z.of_nat i))) w (recall i (view_of (ed w))).
Proof.
  intros Hok Hi. pose proof (ok_count _ Hok) as Hc.
  destruct (hist_recall_runs (Con (set_pos (Z.of_nat i) (ed w)) (vs w) (cmem w) (trace w)) i) as
    (w' & Hr & Hok' & Hv' & ? & ?); [apply ok_set_pos; [done | lia] | done |].
  rewrite u32_small by mlia. exists w'. split; [exact Hr|]. split; [done|]. split; [|done].
  rewrite Hv'. unfold view_of, recall, set_text. cbn. rewrite (proj2 (Z.ltb_ge _ _)) by lia.
  rewrite Nat2Z.id. done.
Qed.

Lemma hist_prev_runs w : editor_ok (ed w) -> runs hist_prev w (prev (view_of (ed w))).
Proof.
  intros Hok. unfold hist_prev, prev. apply runs_get.
  pose proof (past_nil _ Hok) as Hnil. pose proof (ok_pos _ Hok) as Hp. pose proof (ok_count _ Hok).
  destruct (hist_count (ed w) =? 0) eqn:E; zbool.
  { rewrite bool_decide_eq_true_2 by tauto. by apply runs_ret. }
  rewrite bool_decide_eq_false_2 by tauto. rewrite lines_view, length_lines. unfold view_of at 1. cbn.
  case_if; zbool.
  - replace (hist_count (ed w) - 1) with (Z.of_nat (Z.to_nat (hist_count (ed w)) - 1)) by lia.
    apply recall_runs; [done | lia].
  - replace (if 0 <? hist_pos (ed w) then hist_pos (ed w) - 1 else hist_pos (ed w)) with
      (Z.of_nat (Z.to_nat (hist_pos (ed w)) - 1)) by (case_if; zbool; lia).
    apply recall_runs; [done | lia].
Qed.

Lemma hist_next_runs w : editor_ok (ed w) -> runs hist_next w (next (view_of (ed w))).
Proof.
  intros Hok. unfold hist_next, next. apply runs_get. pose proof (ok_pos _ Hok) as Hp.
  pose proof (ok_count _ Hok). unfold view_of at 1. cbn [cursor].
  destruct (hist_count (ed w) =? 0) eqn:E; zbool.
  { rewrite (proj2 (Z.ltb_lt _ _)) by lia. by apply runs_ret. }
  case_if; zbool; [by apply runs_ret|]. rewrite lines_view, length_lines.
  case_bool_decide as Hlt.
  - rewrite (proj2 (Z.ltb_lt _ _)) by lia.
    replace (hist_pos (ed w) + 1) with (Z.of_nat (S (Z.to_nat (hist_pos (ed w))))) by lia.
    apply recall_runs; [done | lia].
  - rewrite (proj2 (Z.ltb_ge _ _)) by lia. eapply runs_bind.
    + apply runs_mod_ed; [|reflexivity]. apply ok_set_line; [|rewrite length_insert; apply Hok | lia | done].
      apply ok_set_pos; [done | lia].
    + intros w' Hok' Hv' _. change (runs redraw_line w' (view_of (set_line (<[0%nat:=0]> (line (ed w))) 0
        (set_pos (-1) (ed w))))). rewrite <- Hv'. by apply redraw_runs.
Qed.

(** *** Trimming and storing a line *)

Lemma rtrim_length l : (length (rtrim l) <= length l)%nat.
Proof. induction l as [|c l IH]; simpl; [done|]. case_match; simpl in *; [case_if; simpl; lia | lia]. Qed.

Lemma text_length e : editor_ok e -> length (take (Z.to_nat (len e)) (line e)) = Z.to_nat (len e).
Proof. intros []. rewrite length_take. lia. Qed.

(** After [rtrim_current_line] the line buffer holds the trimmed text. *)
Lemma rtrim_line_spec e : editor_ok e ->
  let e' := rtrim_current_line e in
  let s := rtrim (text (view_of e)) in
  editor_ok e' /\ view_of e' = set_text s (view_of e) /\ len e' = Z.of_nat (length s) /\
  Fdt.first_str (line e') = s /\ Forall visible s /\ (length s <= 127)%nat.
Proof.
  intros Hok e' s. pose proof (ok_line _ Hok) as HL. pose proof (ok_len _ Hok) as Hlen.
  destruct (rtrim_loop_spec (line e) (Z.to_nat (len e))) as [Hn Ht]; [lia|].
  change (rtrim (take (Z.to_nat (len e)) (line e))) with s in Ht.
  subst e'. unfold rtrim_current_line. set (n := rtrim_loop (line e) (Z.to_nat (len e))) in *. clearbody n.
  assert (Forall visible s) as Hvis.
  { rewrite <- Ht. replace n with (n `min` Z.to_nat (len e))%nat by lia. rewrite <- take_take.
    apply Forall_take, Hok. }
  assert (length s = n) as Hs by (rewrite <- Ht, length_take; lia).
  assert (take (Z.to_nat (Z.of_nat n)) (<[n:=0]> (line e)) = s) as Htake.
  { by rewrite Nat2Z.id, take_insert_ge. }
  clearbody s. split_and!; try done; try lia.
  - apply ok_set_line; [done | by rewrite length_insert | lia | by rewrite Htake].
  - unfold view_of at 1, set_text. cbn. by rewrite Htake.
  - cbn [set_line len]. lia.
  - cbn [set_line line]. rewrite insert_take_drop by lia. rewrite Ht. by apply first_str_zero.
Qed.

(** *** Commands and the editor *)

(** A computation that leaves the editor alone, whatever its outcome. *)
Definition keeps {A} (c : CM A) : Prop := forall w, ed (c w).2 = ed w.

(** A computation that returns and leaves the editor alone. *)
Definition quiet {A} (c : CM A) : Prop := forall w, exists a w', c w = (Ret a, w') /\ ed w' = ed w.

Lemma quiet_keeps {A} (c : CM A) : quiet c -> keeps c.
Proof. intros H w. destruct (H w) as (a & w' & -> & He). done. Qed.

Lemma keeps_bind {A B} (c : CM A) (f : A -> CM B) : keeps c -> (forall a, keeps (f a)) -> keeps (c ≫= f).
Proof.
  intros Hc Hf w. unfold mbind, CM_bind. specialize (Hc w). destruct (c w) as [[a| |] w']; try done.
  by rewrite Hf.
Qed.

Lemma quiet_bind {A B} (c : CM A) (f : A -> CM B) : quiet c -> (forall a, quiet (f a)) -> quiet (c ≫= f).
Proof.
  intros Hc Hf w. destruct (Hc w) as (a & w' & Hr & He). destruct (Hf a w') as (b & w2 & Hr2 & He2).
  exists b, w2. unfold mbind, CM_bind. rewrite Hr, Hr2. split; [done | congruence].
Qed.

Lemma quiet_return {A} (a : A) : quiet (mret a).
Proof. intros w. by exists a, w. Qed.

Lemma quiet_get {A} (f : console -> A) : quiet (get f).
Proof. intros w. by exists (f w), w. Qed.

Lemma quiet_emit l : quiet (emit l).
Proof. intros w. by eexists _, _. Qed.

Lemma quiet_say s : quiet (puts s).
Proof. apply quiet_emit. Qed.

Lemma quiet_vars f : quiet (mod_vars f).
Proof. intros w. by eexists _, _. Qed.

Lemma quiet_mem m : quiet (set_mem m).
Proof. intros w. by eexists _, _. Qed.

Lemma keeps_stop : keeps stop.
Proof. by intros w. Qed.

Lemma keeps_nofuel {A} : keeps (fun s => (@NoFuel A, s)).
Proof. by intros w. Qed.

#[export] Hint Resolve quiet_bind quiet_return quiet_get quiet_emit quiet_say quiet_vars quiet_mem : editor.
#[export] Hint Resolve keeps_bind keeps_stop keeps_nofuel : editor.
#[export] Hint Extern 3 (keeps (get _)) => apply quiet_keeps, quiet_get : editor.
#[export] Hint Extern 3 (keeps (mret _)) => apply quiet_keeps, quiet_return : editor.
#[export] Hint Extern 3 (keeps (puts _)) => apply quiet_keeps, quiet_say : editor.
#[export] Hint Extern 3 (keeps (emit _)) => apply quiet_keeps, quiet_emit : editor.
#[export] Hint Extern 3 (keeps (set_mem _)) => apply quiet_keeps, quiet_mem : editor.
#[export] Hint Extern 3 (keeps (mod_vars _)) => apply quiet_keeps, quiet_vars : editor.

(** Goes through the statements of a command, splitting its tests. *)
Ltac keeps_step :=
  match goal with
  | |- forall _, _ => intros ?
  | |- keeps (if ?b then _ else _) => destruct b
  | |- quiet (if ?b then _ else _) => destruct b
  | |- keeps (match ?x with _ => _ end) => destruct x
  | |- quiet (match ?x with _ => _ end) => destruct x
  | |- keeps (_ ≫= _) => apply keeps_bind
  | |- quiet (_ ≫= _) => apply quiet_bind
  | |- _ => solve [auto 2 with editor]
  end.

Ltac keeps_cmd := repeat (keeps_step; cbn zeta).

Lemma dump_loop_quiet n : forall addr i, quiet (dump_loop n addr i).
Proof. induction n as [|n IH]; intros addr i; simpl; unfold rd8; keeps_cmd; apply IH. Qed.

#[export] Hint Resolve dump_loop_quiet : editor.

Lemma mem_rd_quiet a l : quiet (cmd_mem_rd a l).
Proof. unfold cmd_mem_rd. keeps_cmd. Qed.

Lemma mem_wr_quiet a b : quiet (cmd_mem_wr a b).
Proof. unfold cmd_mem_wr, wr8. keeps_cmd. Qed.

#[export] Hint Resolve mem_rd_quiet mem_wr_quiet : editor.

Section Refinement.
Context {M : Machine}.

Lemma jump_keeps a : keeps (jump a).
Proof. unfold jump. keeps_cmd. Qed.

#[local] Hint Resolve jump_keeps : editor.

Lemma cmd_go_keeps a : keeps (cmd_go a).
Proof. unfold cmd_go. keeps_cmd. Qed.

#[local] Hint Resolve cmd_go_keeps : editor.

Lemma bx_reset_keeps s : keeps (bx_reset s).
Proof. unfold bx_reset, bx_sbi_reset. keeps_cmd. Qed.

#[local] Hint Resolve bx_reset_keeps : editor.

Lemma bootx_keeps s : keeps (bootx_handle_command s).
Proof.
  unfold bootx_handle_command, bx_bootelf, bx_bootbin, bx_set. keeps_cmd.
Qed.

#[local] Hint Resolve bootx_keeps : editor.
#[local] Hint Extern 3 (keeps (cmd_mem_rd _ _)) => apply quiet_keeps, mem_rd_quiet : editor.
#[local] Hint Extern 3 (keeps (cmd_mem_wr _ _)) => apply quiet_keeps, mem_wr_quiet : editor.

Lemma run_command_keeps s t : keeps (run_command s t).
Proof.
  unfold run_command, cmd_help, cmd_uptime, line_two, line_csr, csr_rd_by_name, sbi_system_reset,
    term_clear, line_go. keeps_cmd.
Qed.

(** A line whose command may not return: resets, jumps, and the device-tree walk. *)
Definition leaves (s : list Z) : bool :=
  let s' := bx_skip_ws s in
  streq s "reboot" || streq s "poweroff" || bool_decide (is_Some (is_cmd_go_line s)) ||
  existsb (starts_with s') [cstr "bootelf"; cstr "bootbin"; cstr "set"; cstr "reboot"; cstr "poweroff";
    cstr "shutdown"].

Lemma run_command_quiet s t : leaves s = false -> quiet (run_command s t).
Proof.
  unfold leaves. cbn [existsb]. intros H. zbool.
  assert (quiet (bootx_handle_command s)) as Hb.
  { unfold bootx_handle_command, bx_reset. cbn zeta. repeat match goal with
    | H : starts_with _ _ = false |- _ => rewrite H; clear H end. apply quiet_return. }
  unfold run_command, cmd_help, cmd_uptime, line_two, line_csr, csr_rd_by_name, term_clear.
  repeat match goal with H : streq _ _ = false |- _ => rewrite H; clear H end.
  destruct (is_cmd_go_line s) eqn:Hgo; [|keeps_cmd].
  match goal with H : bool_decide _ = false |- _ => apply bool_decide_eq_false in H; destruct H; eauto end.
Qed.

(** The characters, whatever is done with a line that is handed over. *)

(** What [console_rx_char] does after [handle_line]. *)
Definition finish_line : CM unit :=
  mod_ed (fun e => set_drawn 0 (set_line (<[0%nat := 0]> (line e)) 0 e));; prompt.

Lemma finish_line_runs w : editor_ok (ed w) -> runs finish_line w (set_text [] (view_of (ed w))).
Proof.
  intros Hok. unfold finish_line. eapply runs_bind; [apply runs_mod_ed; [|reflexivity]|].
  - apply ok_set_drawn; [|lia]. apply ok_set_line; [done | rewrite length_insert; apply Hok | lia | done].
  - intros w' Hok' Hv' _. by apply runs_puts.
Qed.

(** The console just before the command of a line [s] runs. *)
Definition submitting (w w1 : console) (s : list Z) : Prop :=
  editor_ok (ed w1) /\
  view_of (ed w1) = View s (remember s (past (view_of (ed w)))) None (mode (view_of (ed w))) /\
  vs w1 = vs w /\ cmem w1 = cmem w.

Lemma mode_plain e : editor_ok e -> mode (view_of e) = Plain <-> esc_state e = 0.
Proof.
  intros []. unfold view_of, mode_of. cbn. repeat case_if; zbool; split; intros; try done; lia.
Qed.

Lemma esc_plain run w c : esc_state (ed w) = 0 -> c <> 27 ->
  rx_char_with run c w =
    (if c =? 0x10 then hist_prev
     else if c =? 0x0E then hist_next
     else if (c =? 13) || (c =? 10) then
       puts "\r\n";;
       mod_ed (fun e => set_line (<[Z.to_nat (len e) := 0]> (line e)) (len e) e);;
       v ← get vs; handle_line_with run (last_ticks_seen v);; finish_line
     else if (c =? 0x08) || (c =? 0x7F) then
       e ← get ed;
       if 0 <? len e then
         mod_ed (set_line (line e) (len e - 1));;
         puts "\b \b";;
         mod_ed (set_drawn (if 0 <? last_drawn_len e then last_drawn_len e - 1 else 0))
       else mret tt
     else
       e ← get ed;
       if (32 <=? c) && (c <=? 126) && (len e <? 127) then
         mod_ed (set_line (<[Z.to_nat (len e) := c]> (line e)) (len e + 1));;
         puts [c];;
         mod_ed (fun e => if last_drawn_len e <? len e then set_drawn (len e) e else e)
       else mret tt) w.
Proof.
  intros He Hc. assert (handle_esc_seq c w = (Ret false, w)) as Hesc.
  { unfold handle_esc_seq, mbind, CM_bind, get. by rewrite He, (proj2 (Z.eqb_neq c 27) Hc). }
  unfold rx_char_with. unfold mbind at 1, CM_bind at 1. rewrite Hesc. by repeat case_if.
Qed.

(** A newline: an empty line is dropped, another one is stored and its command runs. *)
Lemma rx_newline w c : editor_ok (ed w) -> esc_state (ed w) = 0 -> is_newline c = true ->
  let s := rtrim (text (view_of (ed w))) in
  if bool_decide (s = []) then forall run, runs (rx_char_with run c) w (set_text [] (view_of (ed w)))
  else exists w1, submitting w w1 s /\
    forall run, rx_char_with run c w = (run s (last_ticks_seen (vs w));; finish_line) w1.
Proof.
  intros Hok He Hc s.
  set (e0 := set_line (<[Z.to_nat (len (ed w)) := 0]> (line (ed w))) (len (ed w)) (ed w)).
  pose proof (ok_line _ Hok). pose proof (ok_len _ Hok).
  assert (take (Z.to_nat (len (ed w))) (<[Z.to_nat (len (ed w)):=0]> (line (ed w))) =
    take (Z.to_nat (len (ed w))) (line (ed w))) as Ht by (by rewrite take_insert_ge).
  assert (editor_ok e0) as Hok0.
  { apply ok_set_line; [done | by rewrite length_insert | lia|]. rewrite Ht. apply Hok. }
  assert (view_of e0 = view_of (ed w)) as Hv0.
  { unfold view_of at 1. cbn. rewrite Ht. done. }
  destruct (rtrim_line_spec e0 Hok0) as (Hok1 & Hv1 & Hlen1 & Hs1 & Hvis & Hl).
  rewrite Hv0 in Hv1, Hlen1, Hs1, Hvis, Hl. fold s in Hv1, Hlen1, Hs1, Hvis, Hl.
  clearbody s.
  set (w0 := Con (rtrim_current_line e0) (vs w) (cmem w) (trace w ++ (Put <$> cstr "\r\n"))).
  assert (forall run, rx_char_with run c w =
    ((if len (ed w0) =? 0 then mret tt
      else mod_ed (fun e => set_pos (-1) (hist_store (Fdt.first_str (line (ed w0))) e));;
           run (Fdt.first_str (line (ed w0))) (last_ticks_seen (vs w)));; finish_line) w0) as Hrx.
  { intros run. assert (c = 13 \/ c = 10) as Hnl by (unfold is_newline in Hc; lia). rewrite esc_plain by (done || lia).
    unfold is_newline in Hc. by rewrite (proj2 (Z.eqb_neq c 16)), (proj2 (Z.eqb_neq c 14)), Hc by lia. }
  change (ed w0) with (rtrim_current_line e0) in Hrx. rewrite Hlen1, Hs1 in Hrx. case_bool_decide as Hnil.
  - rewrite Hnil in Hrx, Hv1. intros run. destruct (finish_line_runs w0) as (w' & Hr & ? & Hv & ? & ?); [done|].
    exists w'. split; [rewrite Hrx; exact Hr|]. split; [done|]. split; [|done].
    rewrite Hv. cbn [ed]. change (ed w0) with (rtrim_current_line e0). by rewrite Hv1.
  - assert (Z.of_nat (length s) <> 0) as Hnz.
    { destruct s; [done | simpl; lia]. }
    rewrite (proj2 (Z.eqb_neq _ _) Hnz) in Hrx.
    destruct (hist_store_spec _ s Hok1 ltac:(by rewrite Hlen1) Hvis Hl) as [Hok2 Hlines].
    exists (Con (set_pos (-1) (hist_store s (rtrim_current_line e0))) (vs w) (cmem w) (trace w0)).
    split; [|done]. split; [done|]. split; [|done]. cbn [ed].
    assert (lines (rtrim_current_line e0) = past (view_of (ed w))) as Hp.
    { rewrite <- lines_view, Hv1. done. }
    rewrite Hp in Hlines. unfold view_of at 1. fold (lines (set_pos (-1) (hist_store s (rtrim_current_line e0)))).
    rewrite Hlines. cbn [set_pos line len hist_pos esc_state].
    assert (forall e', line (hist_store s e') = line e' /\ len (hist_store s e') = len e' /\
      esc_state (hist_store s e') = esc_state e') as Hst.
    { intros e'. unfold hist_store. by repeat case_if. }
    destruct (Hst (rtrim_current_line e0)) as (-> & -> & ->).
    assert (text (view_of (rtrim_current_line e0)) = s /\
      mode (view_of (rtrim_current_line e0)) = mode (view_of (ed w))) as [Htx Hmd] by (by rewrite Hv1).
    unfold view_of at 1 in Htx. unfold view_of at 1 in Hmd. cbn [text mode] in Htx, Hmd. by rewrite Htx, Hmd.
Qed.

Lemma esc_seq_runs w c : editor_ok (ed w) -> esc_state (ed w) <> 0 \/ c = 27 ->
  exists w', handle_esc_seq c w = (Ret true, w') /\ editor_ok (ed w') /\
    view_of (ed w') = key c (view_of (ed w)) /\ vs w' = vs w /\ cmem w' = cmem w.
Proof.
  intros Hok He. pose proof (ok_esc _ Hok) as Hesc. unfold handle_esc_seq. unfold mbind at 1, CM_bind at 1.
  unfold get. unfold key. unfold view_of at 2. cbn [mode]. unfold mode_of.
  destruct (esc_state (ed w) =? 0) eqn:E0; zbool.
  { destruct He as [He| ->]; [done|]. eexists. split; [reflexivity|].
    split; [apply ok_set_esc; [done | lia] | done]. }
  destruct (esc_state (ed w) =? 1) eqn:E1; zbool.
  { case_if; (eexists; split; [reflexivity|]); (split; [apply ok_set_esc; [done | lia] | done]). }
  assert (runs (if c =? 65 then hist_prev else if c =? 66 then hist_next else mret tt) w
    (if c =? 65 then prev (view_of (ed w)) else if c =? 66 then next (view_of (ed w)) else view_of (ed w)))
    as (w1 & Hr & Hok1 & Hv1 & ? & ?).
  { repeat case_if; [by apply hist_prev_runs | by apply hist_next_runs | by apply runs_ret]. }
  eexists. unfold mbind, CM_bind. rewrite Hr. split; [reflexivity|].
  split; [apply ok_set_esc; [done | lia]|]. split; [|done]. rewrite <- Hv1. done.
Qed.

Lemma rx_escape run w c : editor_ok (ed w) -> esc_state (ed w) <> 0 \/ c = 27 ->
  runs (rx_char_with run c) w (key c (view_of (ed w))).
Proof.
  intros Hok He. destruct (esc_seq_runs w c Hok He) as (w' & Hr & Hrest). exists w'. split; [|done].
  unfold rx_char_with. unfold mbind at 1, CM_bind at 1. by rewrite Hr.
Qed.

(** A printable character is appended while there is room. *)
Lemma rx_insert w c : editor_ok (ed w) -> visible c -> len (ed w) < 127 ->
  runs (mod_ed (set_line (<[Z.to_nat (len (ed w)) := c]> (line (ed w))) (len (ed w) + 1));;
        puts [c];;
        mod_ed (fun e => if last_drawn_len e <? len e then set_drawn (len e) e else e)) w
    (set_text (text (view_of (ed w)) ++ [c]) (view_of (ed w))).
Proof.
  intros Hok Hc Hlen. pose proof (ok_line _ Hok) as HL. pose proof (ok_len _ Hok) as Hl.
  assert (take (Z.to_nat (len (ed w) + 1)) (<[Z.to_nat (len (ed w)):=c]> (line (ed w))) =
    text (view_of (ed w)) ++ [c]) as Ht.
  { replace (Z.to_nat (len (ed w) + 1)) with (S (Z.to_nat (len (ed w)))) by lia.
    rewrite (take_S_r _ _ c) by (apply list_lookup_insert_eq; lia). by rewrite take_insert_ge by lia. }
  eapply runs_bind; [apply runs_mod_ed; [|reflexivity]|].
  - apply ok_set_line; [done | by rewrite length_insert | lia|]. rewrite Ht.
    apply Forall_app. split; [apply Hok | by apply Forall_singleton].
  - intros w1 Hok1 Hv1 _. eapply runs_bind; [apply runs_puts; [done | exact Hv1]|]. intros w2 Hok2 Hv2 _.
    rewrite <- Ht. apply runs_mod_ed.
    + case_if; [|done]. apply ok_set_drawn; [done | apply Hok2].
    + case_if; exact Hv2.
Qed.

(** Backspace drops the last character. *)
Lemma rx_erase w : editor_ok (ed w) -> 0 < len (ed w) ->
  runs (mod_ed (set_line (line (ed w)) (len (ed w) - 1));;
        puts "\b \b";;
        mod_ed (set_drawn (if 0 <? last_drawn_len (ed w) then last_drawn_len (ed w) - 1 else 0))) w
    (set_text (take (length (text (view_of (ed w))) - 1) (text (view_of (ed w)))) (view_of (ed w))).
Proof.
  intros Hok Hlen. pose proof (ok_len _ Hok) as Hl. pose proof (ok_drawn _ Hok) as Hd.
  assert (take (Z.to_nat (len (ed w) - 1)) (line (ed w)) =
    take (length (text (view_of (ed w))) - 1) (text (view_of (ed w)))) as Ht.
  { cbn [view_of text]. rewrite text_length by done. rewrite take_take. f_equal. lia. }
  eapply runs_bind; [apply runs_mod_ed; [|reflexivity]|].
  - apply ok_set_line; [done | apply Hok | lia|]. rewrite Ht. apply Forall_take, Hok.
  - intros w1 Hok1 Hv1 _. eapply runs_bind; [apply runs_puts; [done | exact Hv1]|]. intros w2 Hok2 Hv2 _.
    rewrite <- Ht. apply runs_mod_ed; [|exact Hv2].
    apply ok_set_drawn; [done|]. case_if; zbool; lia.
Qed.

(** Every character that hands over no line edits the text as it is meant to. *)
Lemma rx_runs run w c : editor_ok (ed w) -> submitted c (view_of (ed w)) = None ->
  runs (rx_char_with run c) w (key c (view_of (ed w))).
Proof.
  intros Hok Hsub.
  destruct (decide (esc_state (ed w) <> 0 \/ c = 27)) as [He|He]; [by apply rx_escape|].
  assert (esc_state (ed w) = 0 /\ c <> 27) as [He0 Hc] by lia. clear He. rename He0 into He. pose proof (proj2 (mode_plain _ Hok) He) as Hm.
  unfold key, submitted in *. rewrite Hm in *. unfold type_key.
  rewrite (proj2 (Z.eqb_neq c 27) Hc).
  destruct (is_newline c) eqn:En.
  { pose proof (rx_newline w c Hok He En) as Hr. unfold is_newline in En.
    rewrite (proj2 (Z.eqb_neq c 16)), (proj2 (Z.eqb_neq c 14)) by lia. unfold submit.
    cbn zeta in Hr. destruct (bool_decide (rtrim (text (view_of (ed w))) = [])); [apply Hr | done]. }
  unfold is_newline in *. eapply runs_ext; [by apply esc_plain|].
  rewrite En. pose proof (ok_len _ Hok) as Hl.
  assert (length (text (view_of (ed w))) = Z.to_nat (len (ed w))) as HT by (by apply text_length).
  case_if; [by apply hist_prev_runs|]. case_if; [by apply hist_next_runs|]. case_if; apply runs_get.
  - case_if; zbool; try (by apply rx_erase). all: apply runs_ret; [done|].
    all: rewrite HT; replace (Z.to_nat (len (ed w)) - 1)%nat with 0%nat by lia.
    all: unfold view_of, set_text; cbn; by replace (Z.to_nat (len (ed w))) with 0%nat by lia.
  - rewrite HT. destruct ((32 <=? c) && (c <=? 126)) eqn:Ev; cbn [andb]; [|by apply runs_ret].
    clear Hsub. case_bool_decide as Hlt.
    + rewrite (proj2 (Z.ltb_lt (len (ed w)) 127)) by lia. apply rx_insert; [done | unfold visible; zbool; lia | lia].
    + rewrite (proj2 (Z.ltb_ge (len (ed w)) 127)) by lia. by apply runs_ret.
Qed.

(** A character that hands over the line [s]. *)
Lemma rx_submits w c s : editor_ok (ed w) -> submitted c (view_of (ed w)) = Some s ->
  exists w1, submitting w w1 s /\
    (forall run, rx_char_with run c w = (run s (last_ticks_seen (vs w));; finish_line) w1) /\
    key c (view_of (ed w)) = View [] (remember s (past (view_of (ed w)))) None (mode (view_of (ed w))).
Proof.
  intros Hok Hsub. unfold submitted, key in *.
  destruct (mode (view_of (ed w))) eqn:Hm; try done.
  destruct (is_newline c) eqn:En; [|done].
  pose proof (rx_newline w c Hok (proj1 (mode_plain _ Hok) Hm) En) as Hr. cbn zeta in Hr.
  unfold type_key, submit. rewrite En. unfold is_newline in En.
  rewrite (proj2 (Z.eqb_neq c 27)), (proj2 (Z.eqb_neq c 16)), (proj2 (Z.eqb_neq c 14)) by lia.
  destruct (bool_decide (rtrim (text (view_of (ed w))) = [])); [done|].
  injection Hsub as <-. destruct Hr as (w1 & Hw1 & Hr). exists w1. rewrite Hm. done.
Qed.

(** *** Sessions *)

Inductive input := Key (c : Z) | Tick (n : Z).

Definition feed (i : input) : CM unit :=
  match i with Key c => console_rx_char c | Tick n => console_on_tick n end.

Fixpoint session (l : list input) : CM unit :=
  match l with [] => mret tt | i :: l => feed i;; session l end.

Definition effect (v : view) (i : input) : view :=
  match i with Key c => key c v | Tick _ => v end.

(** The lines a session hands to the commands. *)
Fixpoint commands (l : list input) (v : view) : list (list Z) :=
  match l with
  | [] => []
  | i :: l =>
      match i with Key c => option_list (submitted c v) | Tick _ => [] end ++ commands l (effect v i)
  end.

Lemma on_tick_returns w n : editor_ok (ed w) ->
  exists w', console_on_tick n w = (Ret tt, w') /\ editor_ok (ed w') /\ view_of (ed w') = view_of (ed w).
Proof.
  intros Hok. unfold console_on_tick.
  destruct (redraw_runs (Con (ed w) (set_ticks_seen n (vs w)) (cmem w)
    (((trace w ++ (Put <$> cstr "\r\n[tick] ")) ++ (Put <$> uart_putdec n)) ++ (Put <$> cstr "\r\n"))))
    as (w' & Hr & Hok' & Hv & _); [done|].
  set (b := negb (g_tick_every (set_ticks_seen n (vs w)) =? 0) &&
    (n mod g_tick_every (set_ticks_seen n (vs w)) =? 0)).
  destruct b eqn:Hb.
  - exists w'. split; [|done]. rewrite <- Hr. unfold mbind, CM_bind, mod_vars, get. cbn [vs].
    fold b. by rewrite Hb.
  - eexists. split; [|]. { unfold mbind, CM_bind, mod_vars, get. cbn [vs]. fold b. rewrite Hb. reflexivity. }
    done.
Qed.

(** One character whose line, if it hands one over, comes back. *)
Lemma rx_returns w c : editor_ok (ed w) ->
  Forall (fun s => leaves s = false) (option_list (submitted c (view_of (ed w)))) ->
  exists w', console_rx_char c w = (Ret tt, w') /\ editor_ok (ed w') /\
    view_of (ed w') = key c (view_of (ed w)).
Proof.
  intros Hok Hs. unfold console_rx_char.
  destruct (submitted c (view_of (ed w))) as [s|] eqn:Hsub.
  - apply Forall_inv in Hs. destruct (rx_submits w c s Hok Hsub) as (w1 & (Hok1 & Hv1 & _) & Hr & ->).
    destruct (run_command_quiet s (last_ticks_seen (vs w)) Hs w1) as ([] & w2 & Hc & He).
    destruct (finish_line_runs w2) as (w' & Hf & Hok' & Hv' & _); [by rewrite He|].
    exists w'. split; [|split; [done|]].
    + rewrite Hr. unfold mbind at 1, CM_bind at 1. by rewrite Hc.
    + by rewrite Hv', He, Hv1.
  - destruct (rx_runs run_command w c Hok Hsub) as (w' & Hr & Hok' & Hv & _). by exists w'.
Qed.

(** C7: the console is a line editor.  Whatever characters and timer ticks come in,
    as long as no line handed over is one of the commands that may not return, the
    console takes them all and its buffers hold what the abstract editor holds:
    the text, the last eight distinct lines and the cursor in them.  The buffers are
    the record [editor], apart from the memory the commands write: a [mem wr] to the
    console's own variables is not covered. *)
Theorem console_session (w : console) (l : list input) (Hok : editor_ok (ed w))
    (Hback : Forall (fun s => leaves s = false) (commands l (view_of (ed w)))) :
  exists w', session l w = (Ret tt, w') /\ editor_ok (ed w') /\
    view_of (ed w') = foldl effect (view_of (ed w)) l.
Proof.
  revert w Hok Hback. induction l as [|i l IH]; intros w Hok Hback; [by exists w|].
  cbn [commands] in Hback. apply Forall_app in Hback as [Hi Hback].
  assert (exists w1, feed i w = (Ret tt, w1) /\ editor_ok (ed w1) /\ view_of (ed w1) = effect (view_of (ed w)) i)
    as (w1 & Hf & Hok1 & Hv1) by (destruct i; [by apply rx_returns | by apply on_tick_returns]).
  rewrite <- Hv1 in Hback. destruct (IH w1 Hok1 Hback) as (w' & Hr & Hok' & Hv'). exists w'.
  split; [|split; [done|]].
  - cbn [session]. unfold mbind, CM_bind. by rewrite Hf.
  - cbn [foldl]. by rewrite <- Hv1.
Qed.

(** The static arrays of the console. *)
Definition sized (e : editor) : Prop :=
  length (line e) = 128%nat /\ length (hist e) = 8%nat /\ Forall (fun row => length row = 128%nat) (hist e).

Lemma init_ok w : sized (ed w) ->
  exists w', console_init w = (Ret tt, w') /\ editor_ok (ed w').
Proof.
  intros (Hl & Hh & Hr). eexists. split; [reflexivity|]. cbn. split; cbn; try done; try lia.
Qed.

End Refinement.

Module Example.

#[local] Instance machine : Machine :=
  {| csr_read := fun _ _ => 0; entry := fun _ _ => None; name_fuel := 0; walk_fuel := 0 |}.

Definition cold : console :=
  Con (Editor (replicate 128 0) 0 (replicate 8 (replicate 128 0)) 0 0 (-1) 0 0)
    (Vars 0 0 1000) (fun _ => 0) [].

Lemma cold_sized : sized (ed cold).
Proof. split; [done|]. split; [done|]. repeat (apply Forall_cons_2; [done|]). apply Forall_nil_2. Qed.

(** "hellp", a backspace twice, "p" and a newline; a tick; "ticks off" and a
    newline; then the up arrow twice. *)
Definition typed : list input :=
  map Key ("hellp\b\bp  \r") ++ [Tick 5] ++ map Key ("ticks off\r\e[A\e[A").

Lemma console_session_witness :
  exists w', session typed cold = (Ret tt, w') /\ editor_ok (ed w') /\
    view_of (ed w') = View "help" [cstr "help"; cstr "ticks off"] (Some 0%nat) Plain.
Proof.
  change (View "help" [cstr "help"; cstr "ticks off"] (Some 0%nat) Plain) with
    (foldl effect (view_of (ed cold)) typed).
  apply (console_session cold typed).
  - destruct (init_ok cold cold_sized) as (w' & Hi & Hok). injection Hi as <-. exact Hok.
  - by_computation.
Defined.

End Example.

End LineEditor.
