(* ===== verification/ConsoleMem.v ===== *)
(** The console's variables in memory (src/booter/console.c).

    Console.v keeps the variables of the line editor in a record.  Here they are
    where the linker puts them: before a command runs they are stored in the memory
    it reads and writes, and afterwards they are loaded from it.  [mem wr] checks
    neither the console's own variables nor the rest of the booter, so the
    invariant of the editor holds for the sessions whose commands leave these bytes
    alone; [mem_wr_breaks_ring] is a command that does not. *)

From S2P Require Import Prelude Statics Print Fdt Console LineEditor.

Module ConsoleMem.

Import Statics Print Console LineEditor.

Local Open Scope c_scope.

(** ** The variables in memory *)

(** The addresses of the static variables of the editor. *)
Record editor_layout := {
  line_at : Z;
  len_at : Z;
  hist_at : Z;
  hist_count_at : Z;
  hist_widx_at : Z;
  hist_pos_at : Z;
  last_drawn_len_at : Z;
  esc_state_at : Z;
}.

(** The variables as bytes; [hist_pos] is an [int32_t], [esc_state] a [uint8_t]. *)
Definition editor_fields (E : editor_layout) (e : editor) : list field :=
  [(line_at E, line e); (len_at E, le4 (len e)); (hist_at E, concat (hist e));
   (hist_count_at E, le4 (hist_count e)); (hist_widx_at E, le4 (hist_widx e));
   (hist_pos_at E, le4 (hist_pos e)); (last_drawn_len_at E, le4 (last_drawn_len e));
   (esc_state_at E, [esc_state e])].

Definition int32 (v : Z) : Z := if v <? 2147483648 then v else v - 4294967296.

Definition read_editor (E : editor_layout) (m : mem) : editor :=
  Editor (read_bytes m (line_at E) 128) (load32 m (len_at E))
    ((fun i => read_bytes m (hist_at E + 128 * i) 128) <$> seqZ 0 8)
    (load32 m (hist_count_at E)) (load32 m (hist_widx_at E)) (int32 (load32 m (hist_pos_at E)))
    (load32 m (last_drawn_len_at E)) (load8 m (esc_state_at E)).

(** The variables of a booter whose arrays are empty: their addresses and sizes. *)
Definition blank : editor := Editor (replicate 128 0) 0 (replicate 8 (replicate 128 0)) 0 0 0 0 0.

(** The variables do not overlap, and are bytes of the booter. *)
Definition editor_placed (E : editor_layout) (own : Z -> Prop) : Prop :=
  fields_ok (editor_fields E blank) /\ forall x, in_fields (editor_fields E blank) x -> own x.

(** ** A console that keeps its variables in memory *)

Section Resident.
Context {M : Machine} (E : editor_layout).

Definition sync_out : CM unit :=
  e ← get ed; m ← get cmem; set_mem (write_fields m (editor_fields E e)).

Definition sync_in : CM unit := m ← get cmem; mod_ed (fun _ => read_editor E m).

(** A command, with the variables in the memory it works on. *)
Definition run_resident (s : list Z) (last_ticks : Z) : CM unit :=
  sync_out;; run_command s last_ticks;; sync_in.

Definition feed_resident (i : input) : CM unit :=
  match i with Key c => rx_char_with run_resident c | Tick n => console_on_tick n end.

Fixpoint session_resident (l : list input) : CM unit :=
  match l with [] => mret tt | i :: l => feed_resident i;; session_resident l end.

(** The console when the line a character hands over is about to run. *)
Definition at_command (c : Z) (w : console) : option console :=
  match rx_char_with (fun _ _ => stop) c w with (Stop, w1) => Some w1 | _ => None end.

(** The command of the line the input hands over, if any, leaves the bytes of [own] as
    it finds them. *)
Definition spares (own : Z -> Prop) (w : console) (i : input) : Prop :=
  match i with
  | Tick _ => True
  | Key c =>
      match submitted c (view_of (ed w)), at_command c w with
      | Some s, Some w1 =>
          let w2 := (sync_out w1).2 in
          forall a, own a -> cmem (run_command s (last_ticks_seen (vs w)) w2).2 a = cmem w2 a
      | _, _ => True
      end
  end.

(** Every command of a session does. *)
Fixpoint session_spares (own : Z -> Prop) (w : console) (l : list input) : Prop :=
  match l with
  | [] => True
  | i :: l =>
      spares own w i /\
      match feed_resident i w with (Ret _, w') => session_spares own w' l | _ => True end
  end.

(** ** Storing and loading the variables *)

Lemma first_str_u8 row :
  Forall visible (Fdt.first_str row) -> (length (Fdt.first_str row) < length row)%nat ->
  Fdt.first_str (u8 <$> row) = Fdt.first_str row.
Proof.
  induction row as [|c row IH]; intros Hv Hl; [done|]. rewrite fmap_cons. cbn [Fdt.first_str] in *.
  destruct (Z.eqb_spec c 0) as [->|Hc]; [done|]. apply Forall_cons in Hv as [Hc' Hv]. unfold visible in Hc'.
  rewrite u8_small, (proj2 (Z.eqb_neq c 0)) by mlia. f_equal. apply IH; [done|]. simpl in Hl. lia.
Qed.

(** The editor as its bytes. *)
Definition as_bytes (e : editor) : editor :=
  Editor (u8 <$> line e) (len e) ((fun row : list Z => u8 <$> row) <$> hist e) (hist_count e) (hist_widx e) (hist_pos e)
    (last_drawn_len e) (esc_state e).

Lemma as_bytes_ok e : editor_ok e -> editor_ok (as_bytes e).
Proof.
  intros [H1 H2 H3 H4 H5 H6 H7 H8 H9 H10 H11 H12].
  split; cbn [as_bytes line len hist hist_count hist_widx hist_pos last_drawn_len esc_state]; try done.
  - by rewrite length_fmap.
  - rewrite <- fmap_take, fmap_u8; [done|]. eapply Forall_impl; [exact H3|]. intros c Hc. unfold visible in Hc. mlia.
  - by rewrite length_fmap.
  - apply Forall_fmap. eapply Forall_impl; [exact H5|]. intros row Hrow. cbn. by rewrite length_fmap.
  - intros i Hi. rewrite (list_lookup_total_fmap (fun row : list Z => u8 <$> row)) by lia. destruct (H9 i Hi) as [Hl Hv].
    unfold row_ok. rewrite first_str_u8; [done | done|].
    assert (length (hist e !!! Z.to_nat i) = 128%nat) as ->; [|lia].
    apply (Forall_lookup_total_1 _ _ _ H5). lia.
Qed.

(** The abstract editor does not tell the two apart. *)
Lemma as_bytes_view e : editor_ok e -> view_of (as_bytes e) = view_of e.
Proof.
  intros [H1 H2 H3 H4 H5 H6 H7 H8 H9 H10 H11 H12]. unfold view_of.
  cbn [as_bytes line len hist hist_count hist_widx hist_pos last_drawn_len esc_state]. f_equal.
  - rewrite <- fmap_take, fmap_u8; [done|]. eapply Forall_impl; [exact H3|]. intros c Hc. unfold visible in Hc. mlia.
  - apply list_fmap_ext. intros i j Hj. apply lookup_seq in Hj as [-> Hj]. cbn [Nat.add]. unfold entry_of, slot.
    cbn [as_bytes hist hist_count hist_widx].
    assert (0 <= (hist_widx e - hist_count e + Z.of_nat i) mod 8 < hist_count e) as Hs.
    { destruct (decide (hist_count e < 8)) as [Hc|Hc]; [rewrite (H8 Hc)|]; mlia. }
    rewrite (list_lookup_total_fmap (fun row : list Z => u8 <$> row)) by lia.
    destruct (H9 _ Hs) as [Hl Hv]. apply first_str_u8; [done|].
    assert (length (hist e !!! Z.to_nat ((hist_widx e - hist_count e + Z.of_nat i) mod 8)) = 128%nat) as ->; [|lia].
    apply (Forall_lookup_total_1 _ _ _ H5). lia.
Qed.

Section Placed.
Context (own : Z -> Prop) (HE : editor_placed E own).

Lemma fields_shape e : editor_ok e ->
  Forall2 (fun f g => f.1 = g.1 /\ length f.2 = length g.2) (editor_fields E e) (editor_fields E blank).
Proof.
  intros Hok. pose proof (ok_line _ Hok) as Hl. pose proof (ok_hist _ Hok) as Hh. pose proof (ok_rows _ Hok) as Hr.
  assert (length (concat (hist e)) = 1024%nat) as Hc.
  { assert (forall rows : list (list Z), Forall (fun row => length row = 128%nat) rows ->
      length (concat rows) = (128 * length rows)%nat) as Hgen.
    { induction 1 as [|row rows Hrow _ IH]; [done|]. simpl concat. rewrite length_app, IH, Hrow. simpl length. lia. }
    rewrite Hgen by done. lia. }
  unfold editor_fields. repeat apply Forall2_cons_2; cbn [fst snd]; try apply Forall2_nil_2; split; done.
Qed.

Lemma same_shape_ok fs gs :
  Forall2 (fun (f g : field) => f.1 = g.1 /\ length f.2 = length g.2) fs gs -> fields_ok gs -> fields_ok fs.
Proof.
  intros Hs [Hr Hp]. split.
  - induction Hs as [|f g fs gs [H1 H2] _ IH]; [done|]. apply Forall_cons in Hr as [Hg Hr].
    inversion_clear Hp. apply Forall_cons_2; [|by apply IH]. unfold flen in *. by rewrite H1, H2.
  - clear Hr. induction Hs as [|f g fs gs [H1 H2] Hs IH]; [done|]. inversion_clear Hp as [|? ? Hg Hp'].
    apply FOP_cons; [|by apply IH]. clear IH Hp'. induction Hs as [|f' g' fs gs [H1' H2'] _ IH]; [done|].
    apply Forall_cons in Hg as [Hg Hgs]. apply Forall_cons_2; [|by apply IH].
    unfold fields_apart, flen in *. by rewrite H1, H2, H1', H2'.
Qed.

Lemma same_shape_in fs gs x :
  Forall2 (fun (f g : field) => f.1 = g.1 /\ length f.2 = length g.2) fs gs -> in_fields fs x -> in_fields gs x.
Proof.
  induction 1 as [|f g fs gs [H1 H2] _ IH]; intros (h & Hh & Hin); [by apply elem_of_nil in Hh|].
  apply elem_of_cons in Hh as [->|Hh].
  - exists g. split; [by left|]. unfold flen in *. by rewrite <- H1, <- H2.
  - destruct IH as (h' & ? & ?); [by exists h|]. exists h'. split; [by right | done].
Qed.

(** The rows of an array of rows of 128 bytes. *)
Lemma rows_back m a rows : forall k,
  Forall (fun row => length row = 128%nat) rows ->
  read_bytes m (a + 128 * k) (length (concat rows)) = u8 <$> concat rows ->
  (fun i => read_bytes m (a + 128 * i) 128) <$> seqZ k (Z.of_nat (length rows)) =
    (fun row : list Z => u8 <$> row) <$> rows.
Proof.
  induction rows as [|row rows IH]; intros k Hr Hm; [done|]. apply Forall_cons in Hr as [Hrow Hr].
  simpl concat in Hm. rewrite length_app, read_bytes_app, fmap_app in Hm.
  apply app_inj_1 in Hm as [H1 H2]; [|by rewrite length_read_bytes, length_fmap].
  cbn [length]. rewrite seqZ_cons by lia. rewrite !fmap_cons. f_equal; [by rewrite <- H1, Hrow|].
  replace (Z.pred (Z.of_nat (S (length rows)))) with (Z.of_nat (length rows)) by lia.
  apply IH; [done|]. rewrite <- H2, Hrow. f_equal. lia.
Qed.

(** What is loaded after a command that spares the bytes of [own] is what was stored
    before it. *)
Lemma read_back e m m' : editor_ok e ->
  (forall x, own x -> m' x = write_fields m (editor_fields E e) x) -> read_editor E m' = as_bytes e.
Proof using HE.
  intros Hok Hm. destruct HE as [Hf Hown]. pose proof (fields_shape e Hok) as Hs.
  pose proof (same_shape_ok _ _ Hs Hf) as Hfe.
  assert (forall f, f ∈ editor_fields E e -> read_bytes m' f.1 (length f.2) = u8 <$> f.2) as Hread.
  { intros f Hin. rewrite <- (write_fields_read _ m f Hfe Hin). apply read_bytes_ext. intros i Hi.
    destruct Hfe as [Hr _]. rewrite Forall_forall in Hr. destruct (Hr f Hin) as (? & ? & ?). unfold flen in *.
    rewrite !load8_region by mlia. apply Hm, Hown, (same_shape_in _ _ _ Hs).
    exists f. split; [done|]. unfold inside, flen. lia. }
  assert (forall a v, (a, le4 v) ∈ editor_fields E e -> load32 m' a = u32 v) as Hword.
  { intros a v Hin. apply load32_le4. apply Hread in Hin. cbn [fst snd] in Hin.
    change (length (le4 v)) with 4%nat in Hin. rewrite Hin. apply fmap_u8. unfold le4. repeat (apply Forall_cons_2; [apply u8_range|]). apply Forall_nil_2. }
  destruct Hok as [Hl Hn _ Hh Hr Hc Hw _ _ Hp Hes Hd]. unfold read_editor, as_bytes. f_equal.
  - specialize (Hread (line_at E, line e) ltac:(by left)). cbn [fst snd] in Hread. by rewrite Hl in Hread.
  - rewrite (Hword _ (len e)); [apply u32_small; mlia | by do 1 right; left].
  - specialize (Hread (hist_at E, concat (hist e)) ltac:(by do 2 right; left)). cbn [fst snd] in Hread.
    assert (seqZ 0 8 = seqZ 0 (Z.of_nat (length (hist e)))) as -> by (by rewrite Hh).
    apply rows_back; [done|].
    rewrite <- Hread. f_equal. lia.
  - rewrite (Hword _ (hist_count e)); [apply u32_small; mlia | by do 3 right; left].
  - rewrite (Hword _ (hist_widx e)); [apply u32_small; mlia | by do 4 right; left].
  - rewrite (Hword _ (hist_pos e)); [|by do 5 right; left]. unfold int32. case_if; zbool; mlia.
  - rewrite (Hword _ (last_drawn_len e)); [apply u32_small; mlia | by do 6 right; left].
  - specialize (Hread (esc_state_at E, [esc_state e]) ltac:(by do 7 right; left)). cbn in Hread.
    injection Hread as ->. apply u8_small. mlia.
Qed.

(** The input hands over the line [s]: the command runs on the console [w2]. *)
Lemma feed_command w c s : editor_ok (ed w) -> submitted c (view_of (ed w)) = Some s ->
  exists w1, submitting w w1 s /\ at_command c w = Some w1 /\
    feed_resident (Key c) w = (run_resident s (last_ticks_seen (vs w));; finish_line) w1 /\
    key c (view_of (ed w)) = set_text [] (view_of (ed w1)).
Proof.
  intros Hok Hsub. destruct (rx_submits w c s Hok Hsub) as (w1 & Hw1 & Hrx & Hkey). exists w1.
  split; [done|]. split; [unfold at_command; by rewrite Hrx|]. split; [apply Hrx|].
  destruct Hw1 as (_ & Hv & _). by rewrite Hkey, Hv.
Qed.

(** What is left when the command of a line that spares the bytes of [own] is over. *)
Lemma resident_command w1 s t : editor_ok (ed w1) ->
  (let w2 := (sync_out w1).2 in forall a, own a -> cmem (run_command s t w2).2 a = cmem w2 a) ->
  forall o w', (run_resident s t;; finish_line) w1 = (o, w') ->
  editor_ok (ed w') /\ (forall u, o = Ret u -> view_of (ed w') = set_text [] (view_of (ed w1))).
Proof using HE.
  intros Hok1 Hsp.
  set (w2 := Con (ed w1) (vs w1) (write_fields (cmem w1) (editor_fields E (ed w1))) (trace w1)).
  change (sync_out w1).2 with w2 in Hsp. cbv zeta in Hsp.
  unfold run_resident. unfold mbind at 1, CM_bind at 1. unfold mbind at 1, CM_bind at 1.
  change (sync_out w1) with (Ret tt, w2). cbn iota beta.
  pose proof (run_command_keeps s t w2) as He. unfold mbind at 1, CM_bind at 1.
  destruct (run_command s t w2) as [[[]| |] w3] eqn:Hrun; cbn [fst snd] in *;
    [|by intros o w' [= <- <-]; rewrite He..].
  set (w4 := Con (read_editor E (cmem w3)) (vs w3) (cmem w3) (trace w3)).
  change (sync_in w3) with (Ret tt, w4). cbn iota beta.
  assert (ed w4 = as_bytes (ed w1)) as Hed.
  { apply (read_back _ (cmem w1)); [done | exact Hsp]. }
  destruct (finish_line_runs w4) as (w5 & -> & Hok' & Hv' & _); [rewrite Hed; by apply as_bytes_ok|].
  intros o w' [= <- <-]. split; [done|]. intros _ _. by rewrite Hv', Hed, as_bytes_view.
Qed.

(** One input keeps the invariant, whatever comes of the command, and does to the
    abstract editor what it is meant to when it returns. *)
Lemma feed_resident_ok w i : editor_ok (ed w) -> spares own w i ->
  forall o w', feed_resident i w = (o, w') ->
  editor_ok (ed w') /\ (forall u, o = Ret u -> view_of (ed w') = effect (view_of (ed w)) i).
Proof using HE.
  intros Hok Hsp o w2 Hw2. revert Hw2. destruct i as [c|n].
  2: { cbn [feed_resident]. destruct (on_tick_returns w n Hok) as (w' & -> & ? & Hv). by intros [= <- <-]. }
  destruct (submitted c (view_of (ed w))) as [s|] eqn:Hsub.
  2: { cbn [feed_resident]. destruct (rx_runs run_resident w c Hok Hsub) as (w' & -> & Hok' & Hv & _). by intros [= <- <-]. }
  destruct (feed_command w c s Hok Hsub) as (w1 & (Hok1 & _ & Hvs & _) & Hat & -> & Hkey).
  cbn [effect]. rewrite Hkey. cbn [spares] in Hsp. rewrite Hsub, Hat in Hsp.
  by apply resident_command.
Qed.

Lemma session_resident_ok l : forall w,
  editor_ok (ed w) -> session_spares own w l -> editor_ok (ed (session_resident l w).2).
Proof using HE.
  induction l as [|i l IH]; intros w Hok Hsp; [done|]. destruct Hsp as [Hi Hl]. cbn [session_resident].
  unfold mbind at 1, CM_bind at 1.
  destruct (feed_resident i w) as [o w1] eqn:Hr. destruct (feed_resident_ok w i Hok Hi o w1 Hr) as [Hf _].
  destruct o as [[]| |]; cbn [snd] in *; [by apply IH | done | done].
Qed.

(** A line whose command writes no byte of [own], whatever the state. *)
Definition harmless (s : list Z) : Prop :=
  forall t w a, own a -> cmem (run_command s t w).2 a = cmem w a.

(** The sessions of such lines. *)
Lemma harmless_spares l : forall w, editor_ok (ed w) ->
  Forall harmless (commands l (view_of (ed w))) -> session_spares own w l.
Proof using HE.
  induction l as [|i l IH]; intros w Hok Hl; [done|]. cbn [commands] in Hl. apply Forall_app in Hl as [Hi Hl].
  assert (spares own w i) as Hsp.
  { destruct i as [c|n]; [|done]. cbn [spares]. destruct (submitted c (view_of (ed w))) as [s|] eqn:Hsub; [|done].
    apply Forall_inv in Hi. destruct (at_command c w); [|done]. cbv zeta. intros a Ha. by apply Hi. }
  split; [exact Hsp|]. destruct (feed_resident i w) as [o w'] eqn:Hr.
  destruct (feed_resident_ok w i Hok Hsp o w' Hr) as [Hok' Hv]. destruct o as [[]| |]; [|done | done].
  apply IH; [done|]. by rewrite (Hv tt).
Qed.

(** C24: no input overruns a buffer.  From [console_init] on, after any sequence of
    characters and ticks whose commands leave the booter's own bytes alone, the
    variables of the editor being stored in memory before each command and loaded
    after it: the line has at most 127 characters, all printable, every index is
    inside its array, and the history holds at most eight terminated lines. *)
Theorem console_inv (w : console) (l : list input) (Hsized : sized (ed w))
    (Hspares : session_spares own (console_init w).2 l) :
  editor_ok (ed ((console_init;; session_resident l) w).2).
Proof using HE.
  destruct (init_ok w Hsized) as (w0 & Hi & Hok). rewrite Hi in Hspares. unfold mbind at 1, CM_bind at 1.
  rewrite Hi. by apply session_resident_ok.
Qed.

End Placed.
End Resident.

Module Example.

Import LineEditor.Example.

#[local] Existing Instance machine.

(** The booter at 0x80200000; the variables of the editor at 0x80220000. *)
Definition placed : editor_layout :=
  {| line_at := 0x80220000; len_at := 0x80220080; hist_at := 0x80220100; hist_count_at := 0x80220500;
     hist_widx_at := 0x80220504; hist_pos_at := 0x80220508; last_drawn_len_at := 0x8022050c;
     esc_state_at := 0x80220510 |}.

Definition own (x : Z) : Prop := 0x80200000 <= x < 0x80240000.

#[local] Instance own_dec x : Decision (own x).
Proof. unfold own. apply _. Defined.

Lemma placed_ok : editor_placed placed own.
Proof.
  assert (forall f, f ∈ editor_fields placed blank -> 0x80220000 <= f.1 /\ f.1 + flen f <= 0x80220511) as Hin.
  { apply Forall_forall. unfold editor_fields, flen. cbn.
    repeat (apply Forall_cons_2; [cbn; lia|]). apply Forall_nil_2. }
  split; [split|].
  - apply Forall_forall. intros f Hf. destruct (Hin f Hf). unfold region, flen in *. lia.
  - unfold editor_fields, fields_apart, disjoint_reg, flen. cbn.
    repeat (apply FOP_cons; [repeat (apply Forall_cons_2; [cbn; lia|]); apply Forall_nil_2|]). apply FOP_nil.
  - intros x (f & Hf & Hx). destruct (Hin f Hf). unfold inside, own in *. lia.
Qed.

Lemma mem_wr_harmless : harmless own "mem wr 0x80300000 7".
Proof.
  intros t w a Ha. assert (run_command "mem wr 0x80300000 7" t w = cmd_mem_wr 0x80300000 7 w) as -> by reflexivity.
  unfold cmd_mem_wr. cbn [is_forbidden_addr]. assert (is_forbidden_addr 0x80300000 = false) as -> by reflexivity.
  unfold mbind at 1, CM_bind at 1, get. case_if; [done|]. cbn. apply store8_other. unfold own in Ha. vm_compute (u32 _). lia.
Qed.

Lemma ticks_off_harmless : harmless own "ticks off".
Proof. by intros t w a _. Qed.

(** "mem wr" to a byte of free memory, "ticks off" and the up arrow twice. *)
Definition typed_wr : list input := map Key ("mem wr 0x80300000 7\r" ++ "ticks off\r\e[A\e[A").

Lemma cold_init_ok : editor_ok (ed (console_init cold).2).
Proof. destruct (init_ok cold cold_sized) as (w' & Hi & Hok). by rewrite Hi. Qed.

Lemma console_inv_witness :
  editor_ok (ed ((console_init;; session_resident placed typed_wr) cold).2).
Proof.
  apply (console_inv placed own placed_ok cold typed_wr cold_sized).
  apply harmless_spares; [exact placed_ok | exact cold_init_ok|].
  assert (commands typed_wr (view_of (ed (console_init cold).2)) = [cstr "mem wr 0x80300000 7"; cstr "ticks off"]) as ->
    by (vm_compute; reflexivity).
  apply Forall_cons_2; [apply mem_wr_harmless|]. apply Forall_cons_2; [apply ticks_off_harmless | apply Forall_nil_2].
Defined.

(** The exclusion is needed: "mem wr" to the low byte of [hist_widx] leaves the ring with
    an index past its end. *)
Lemma mem_wr_breaks_ring :
  ~ editor_ok (ed ((console_init;; session_resident placed (map Key "mem wr 0x80220504 200\r")) cold).2).
Proof.
  intros Hok. pose proof (ok_widx _ Hok) as Hw.
  assert (hist_widx (ed ((console_init;; session_resident placed (map Key "mem wr 0x80220504 200\r")) cold).2) = 200)
    as E by (lazy; reflexivity).
  rewrite E in Hw. lia.
Qed.

End Example.

End ConsoleMem.
