(* ===== verification/ConsoleCmd.v ===== *)
(** What the console's commands do to memory (src/booter/console.c): the guards of
    [mem rd] and [mem wr], and [set bootargs] against the device-tree reader of the
    booter (src/booter/fdt_min.c). *)

From S2P Require Import Prelude Print Fdt Console LineEditor.

Module ConsoleCmd.

Import Print Console.

Local Open Scope c_scope.

(** ** The [mem] commands *)

(** The addresses a trace reads. *)
Definition reads (t : list event) : list Z :=
  omap (fun e => match e with Rd a => Some a | _ => None end) t.

Lemma reads_app t1 t2 : reads (t1 ++ t2) = reads t1 ++ reads t2.
Proof. apply omap_app. Qed.

Lemma reads_put s : reads (Put <$> s) = [].
Proof. by induction s. Qed.

(** A command that returns, reads [rs] and leaves memory and variables alone. *)
Definition logs {A} (c : CM A) (rs : list Z) (w : console) : Prop :=
  exists a w', c w = (Ret a, w') /\ reads (trace w') = reads (trace w) ++ rs /\
    cmem w' = cmem w /\ vs w' = vs w.

Lemma logs_bind {A B} (c : CM A) (f : A -> CM B) r1 r2 w :
  logs c r1 w -> (forall a w', vs w' = vs w -> logs (f a) r2 w') -> logs (c ≫= f) (r1 ++ r2) w.
Proof.
  intros (a & w1 & Hc & Ht & Hm & Hv) Hf. destruct (Hf a w1 Hv) as (b & w2 & Hd & Ht2 & Hm2 & Hv2).
  exists b, w2. unfold mbind, CM_bind. rewrite Hc, Hd, Ht2, Ht, app_assoc. split_and!; congruence || done.
Qed.

Lemma logs_ret {A} (a : A) w : logs (mret a) [] w.
Proof. exists a, w. by rewrite app_nil_r. Qed.

Lemma logs_puts s w : logs (puts s) [] w.
Proof. eexists _, _. split; [reflexivity|]. cbn. by rewrite reads_app, reads_put. Qed.

Lemma logs_get {A B} (f : console -> A) (k : A -> CM B) rs w : logs (k (f w)) rs w -> logs (get f ≫= k) rs w.
Proof. done. Qed.

Lemma logs_rd8 a w : logs (rd8 a) [a] w.
Proof. eexists _, _. split; [reflexivity|]. cbn. by rewrite reads_app. Qed.

(** A step that reads nothing, before the rest. *)
Lemma logs_skip {A B} (c : CM A) (f : A -> CM B) rs w :
  logs c [] w -> (forall a w', vs w' = vs w -> logs (f a) rs w') -> logs (c ≫= f) rs w.
Proof. apply logs_bind. Qed.

Lemma logs_say {B} s (f : unit -> CM B) rs w :
  (forall w', vs w' = vs w -> logs (f tt) rs w') -> logs (puts s ≫= f) rs w.
Proof. intros Hf. apply logs_skip; [apply logs_puts|]. by intros []. Qed.

(** Nothing is read by text printed under a test. *)
Lemma logs_when (b : bool) (c : CM unit) w : logs c [] w -> logs (if b then c else mret tt) [] w.
Proof. intros. case_if; [done | apply logs_ret]. Qed.

Lemma dump_loop_logs n : forall addr i w,
  logs (dump_loop n addr i) ((fun j => addr +! j) <$> seqZ i (Z.of_nat n)) w.
Proof.
  induction n as [|n IH]; intros addr i w; [apply logs_ret|]. cbn [dump_loop].
  rewrite seqZ_cons by lia. cbn [fmap list_fmap]. change (?x :: ?l) with ([x] ++ l).
  apply logs_skip. { apply logs_when, logs_say. intros. apply logs_puts. }
  intros _ w1 _. apply logs_bind; [apply logs_rd8|]. intros v w2 _.
  do 2 (apply logs_say; intros ? _). apply logs_skip; [apply logs_when, logs_puts|]. intros _ w3 _.
  replace (Z.pred (Z.of_nat (S n))) with (Z.of_nat n) by lia. apply IH.
Qed.

(** An address range with a forbidden address in it. *)
Definition touches_forbidden (addr n : Z) : Prop :=
  exists a, addr <= a < addr + n /\ is_forbidden_addr a = true.

Lemma guard_loop_true n : forall a, guard_loop n a = true <-> touches_forbidden a (Z.of_nat n).
Proof.
  unfold touches_forbidden. induction n as [|n IH]; intros a; simpl.
  - split; [done|]. intros (b & ? & _). lia.
  - destruct (is_forbidden_addr a) eqn:E.
    + split; [|done]. intros _. exists a. split; [lia | done].
    + rewrite IH. split; intros (b & Hb & Hf); exists b; (split; [|done]); [lia|].
      assert (b <> a) by congruence. lia.
Qed.

(** The part of [n] bytes from [addr] that [mem rd] dumps: it stops before the UART
    when it starts below it, and after the eight registers when it starts on them. *)
Definition readable (ub addr n : Z) : Z :=
  if addr <? ub then Z.min n (ub - addr)
  else if addr <? ub + 8 then Z.min n (ub + 8 - addr) else n.

Lemma clamp_uart_readable ub addr n :
  0 <= ub -> ub + 8 < 4294967296 -> is_u32 addr -> 0 < n -> addr + n < 4294967296 ->
  (clamp_uart ub addr n).1 = readable ub addr n /\ 0 < readable ub addr n <= n.
Proof.
  intros. unfold clamp_uart, readable. rewrite !(u32_small (addr + n)), !(u32_small (ub + 8)) by mlia.
  split; [|zcases]. repeat case_if; zbool; cbn [fst]; mlia.
Qed.

(** C34: the guard of [mem rd].  For a range that does not run past the end of the
    address space the command reads nothing at all when any byte of it belongs to
    the firmware or to the interrupt controller of machine mode; otherwise it reads
    every byte once, in order, up to the edge of the UART registers.  It never
    writes. *)
Theorem cmd_mem_rd_guards (w : console) (addr n : Z)
    (Hub : 0 <= s_uart_base_rt (vs w) < 4294967288)
    (Haddr : 0 <= addr) (Hn : 0 <= n) (Hend : addr + n < 4294967296) :
  (touches_forbidden addr n -> logs (cmd_mem_rd addr n) [] w) /\
  (~ touches_forbidden addr n ->
    logs (cmd_mem_rd addr n) (seqZ addr (readable (uart_base_effective (vs w)) addr n)) w).
Proof.
  unfold cmd_mem_rd. destruct (n =? 0) eqn:E; zbool.
  { subst n. split; intros; [apply logs_ret|]. replace (readable _ addr 0) with 0 by
      (unfold readable; zcases). apply logs_ret. }
  rewrite u32_small by mlia. replace (addr + n - addr) with n by lia.
  pose proof (guard_loop_true (Z.to_nat n) addr) as Hg. rewrite Z2Nat.id in Hg by lia.
  split; intros Hf.
  { rewrite (proj2 Hg Hf). apply logs_puts. }
  destruct (guard_loop (Z.to_nat n) addr); [by rewrite <- Hg in Hf|]. apply logs_get.
  assert (0 <= uart_base_effective (vs w) < 4294967288) as Hub'.
  { unfold uart_base_effective, UART_MMIO_DEFAULT. zcases. }
  destruct (clamp_uart_readable (uart_base_effective (vs w)) addr n) as [Hc Hr]; [mlia..|].
  destruct (clamp_uart (uart_base_effective (vs w)) addr n) as [k clamped]. cbn [fst] in Hc. subst k.
  apply logs_skip; [apply logs_when, logs_puts|]. intros _ w1 _.
  rewrite (proj2 (Z.eqb_neq _ 0)) by lia. do 5 (apply logs_say; intros ? _).
  rewrite <- (app_nil_r (seqZ _ _)). apply logs_bind.
  - replace (seqZ addr (readable _ addr n)) with ((fun j => addr +! j) <$> seqZ 0 (Z.of_nat (Z.to_nat
      (readable (uart_base_effective (vs w)) addr n)))); [apply dump_loop_logs|].
    rewrite Z2Nat.id by lia. transitivity (Z.add addr <$> seqZ 0 (readable (uart_base_effective (vs w)) addr n)).
    + apply list_fmap_ext. intros i j [-> Hj]%lookup_seqZ. apply u32_small. mlia.
    + rewrite fmap_add_seqZ. f_equal. lia.
  - intros _ w2 _. case_if; [apply logs_puts | apply logs_ret].
Qed.

(** C40: the guard of [mem rd] can be stepped over.  When the range wraps around the
    end of the address space and starts past the UART registers, the command reads
    all of it, whatever is forbidden in it: the guard looks at no address. *)
Theorem cmd_mem_rd_wraps (w : console) (addr n : Z) (Haddr : is_u32 addr) (Hn : is_u32 n)
    (Hwrap : 4294967296 <= addr + n)
    (Hub : 0 <= s_uart_base_rt (vs w) < 4294967288) (Hpast : uart_base_effective (vs w) + 8 <= addr) :
  logs (cmd_mem_rd addr n) ((fun j => addr +! j) <$> seqZ 0 n) w.
Proof.
  unfold cmd_mem_rd. rewrite (proj2 (Z.eqb_neq n 0)) by mlia.
  assert (u32 (addr + n) = addr + n - 4294967296) as Hu by mlia. rewrite Hu.
  replace (Z.to_nat (addr + n - 4294967296 - addr)) with 0%nat by mlia. cbn [guard_loop].
  apply logs_get. unfold clamp_uart. rewrite Hu.
  assert (0 <= uart_base_effective (vs w) < 4294967288) as Hub'.
  { unfold uart_base_effective, UART_MMIO_DEFAULT. zcases. }
  rewrite (u32_small (uart_base_effective (vs w) + 8)) by mlia.
  rewrite (proj2 (Z.ltb_ge addr _)) by lia. cbn [andb].
  apply logs_skip; [apply logs_ret|]. intros _ w1 _. rewrite (proj2 (Z.eqb_neq n 0)) by mlia.
  do 5 (apply logs_say; intros ? _). rewrite <- (app_nil_r (fmap _ _)). apply logs_bind.
  - replace n with (Z.of_nat (Z.to_nat n)) at 2 by mlia. apply dump_loop_logs.
  - intros _ w2 _. case_if; [apply logs_puts | apply logs_ret].
Qed.

(** The addresses [mem wr] may write. *)
Definition writable (ub addr : Z) : Prop :=
  is_forbidden_addr addr = false /\ ~ (ub + 8 <= addr < ub + 0x1000).

(** [mem wr] stores its byte at a writable address and nowhere else. *)
Lemma cmd_mem_wr_stores (w : console) (addr b : Z) :
  let ub := uart_base_effective (vs w) in
  0 <= ub -> ub + 0x1000 < 4294967296 -> is_u32 addr ->
  exists w', cmd_mem_wr addr b w = (Ret tt, w') /\ vs w' = vs w /\
    (writable ub addr /\ cmem w' = store8 (cmem w) addr (Z.land b 0xFF) \/
     ~ writable ub addr /\ cmem w' = cmem w).
Proof.
  intros ub Hub Hpage Haddr. unfold cmd_mem_wr, writable.
  destruct (is_forbidden_addr addr) eqn:Ef; [|].
  { eexists. split; [reflexivity|]. split; [done|]. right. split; [by intros [? _] | done]. }
  unfold mbind at 1, CM_bind at 1. unfold get. fold ub.
  rewrite !(u32_small (ub + _)) by mlia. destruct (_ && _) eqn:Eb.
  - eexists. split; [reflexivity|]. split; [done|]. right. split; [|done].
    intros [_ Hn]. apply Hn. zbool; lia.
  - eexists. split; [reflexivity|]. split; [done|]. left. split; [|done]. split; [done|].
    intros Hn. zbool; lia.
Qed.

(** With a second blank after "mem rd" or "mem wr" the two numbers are the same: the
    word skipped is empty and the address is parsed again as the second number. *)
Lemma line_two_blank (p usage : list Z) (cmd : Z -> Z -> CM unit) :
  line_two (32 :: p) usage cmd =
    match parse_uint_auto p with Some a => cmd a a | None => puts usage end.
Proof.
  assert (parse_uint_auto (32 :: p) = parse_uint_auto p) as Hp by done.
  assert (forall l, skip_blank (skip_blank l) = skip_blank l) as Hidem.
  { induction l as [|c l IH]; [done|]. simpl. destruct (is_blank c) eqn:E; [done|]. simpl. by rewrite E. }
  unfold line_two. rewrite Hp. cbn [skip_word]. change (is_blank 32) with true. cbn iota.
  assert (parse_uint_auto (skip_blank (32 :: p)) = parse_uint_auto p) as ->.
  { unfold parse_uint_auto. rewrite Hidem. done. }
  by destruct (parse_uint_auto p).
Qed.

(** ** [set bootargs] *)

Import Fdt.

(** The name of a property ends inside the address space. *)
Definition name_fits (m : mem) (strs p : Z) (t : tok) : Prop :=
  match t with
  | PropTok name _ => 0 <= be32 m (p + 8) /\ strs + be32 m (p + 8) + Z.of_nat (length name) < 4294967296
  | _ => True
  end.

(** Tokens laid out one after the other below the strings block, which is how the
    device-tree compiler writes a blob. *)
Inductive packed (m : mem) (strs : Z) : Z -> list tok -> Prop :=
  | packed_nil p : packed m strs p []
  | packed_cons p p' t ts :
      tok_at m strs p t p' -> p' <= strs -> name_fits m strs p t ->
      packed m strs p' ts -> packed m strs p (t :: ts).

Lemma packed_toks m strs p ts : packed m strs p ts -> toks_at m strs p ts.
Proof. induction 1; econstructor; eauto. Qed.

Lemma tok_at_grows m strs p t p' : tok_at m strs p t p' ->
  p + 4 <= p' /\ (p mod 4 = 0 -> p' mod 4 = 0) /\
  match t with PropTok _ data => p + 12 + Z.of_nat (length data) <= p'
             | BeginNode name => p + 4 + Z.of_nat (length name) + 1 <= p' | _ => True end.
Proof. destruct t; simpl; intros; destruct_and!; subst; unfold align4; lia. Qed.

(** *** Bytes that a write leaves alone *)

Section Frame.
Context (m m' : mem) (a n : Z) (Hf : frame m m' a n).

Lemma load8_keep x : is_u32 x -> x < a \/ a + n <= x -> load8 m' x = load8 m x.
Proof. intros Hx Ho. rewrite !load8_region by done. apply Hf. unfold inside. lia. Qed.

Lemma be32_keep x : region x 4 -> x + 4 <= a \/ a + n <= x -> be32 m' x = be32 m x.
Proof. intros (? & ? & ?) Ho. unfold be32. by rewrite !load8_keep by (mlia || lia). Qed.

Lemma cstr_at_keep l : forall x, region x (Z.of_nat (length l) + 1) ->
  x + Z.of_nat (length l) + 1 <= a \/ a + n <= x -> cstr_at m x l -> cstr_at m' x l.
Proof.
  induction l as [|c l IH]; intros x Hr Ho Hc; simpl in *; destruct Hr as (? & ? & ?).
  - by rewrite load8_keep by (mlia || lia).
  - destruct Hc as (Hx & Hc & Hl). rewrite load8_keep by (mlia || lia).
    split; [done|]. split; [done|]. apply IH; [unfold region; lia | lia | done].
Qed.

Lemma read_bytes_keep k x : region x (Z.of_nat k) ->
  x + Z.of_nat k <= a \/ a + n <= x -> read_bytes m' x k = read_bytes m x k.
Proof. intros Hr Ho. by apply (read_bytes_frame m m' a n). Qed.

(** A token apart from the write, with its name in the strings block above it. *)
Lemma tok_at_keep strs p t p' :
  0 <= p -> p' <= strs -> strs < 4294967296 -> a + n <= strs -> p' <= a \/ a + n <= p ->
  tok_at m strs p t p' -> name_fits m strs p t -> tok_at m' strs p t p' /\ name_fits m' strs p t.
Proof.
  intros Hp Hp' Hs Has Ho Ht Hn. destruct (tok_at_grows _ _ _ _ _ Ht) as (Hg & _ & Hg2).
  assert (be32 m' p = be32 m p) as Hw by (apply be32_keep; [unfold region; lia | lia]).
  destruct t as [name| |name data| |]; simpl in *; rewrite ?Hw; try done.
  - destruct Ht as (-> & Hc & ->). split_and!; try done. apply cstr_at_keep; [unfold region; lia | lia | done].
  - rewrite (be32_keep (p + 4)) by (unfold region; lia || lia).
    rewrite (be32_keep (p + 8)) by (unfold region; lia || lia).
    destruct Ht as (-> & -> & Hl & Hc & Hd & ->). split_and!; try done; try lia.
    + apply cstr_at_keep; [unfold region; lia | lia | done].
    + rewrite read_bytes_keep; [done | unfold region; lia | lia].
Qed.

Lemma packed_keep strs : strs < 4294967296 -> a + n <= strs -> forall ts p,
  0 <= p -> a + n <= p -> packed m strs p ts -> packed m' strs p ts.
Proof.
  intros Hs Has. induction ts as [|t ts IH]; intros p Hp Ho Hpk; [constructor|].
  inversion Hpk as [|? p' ? ? Ht Hp' Hn Hts]; subst.
  destruct (tok_at_grows _ _ _ _ _ Ht) as (Hg & _ & _).
  destruct (tok_at_keep strs p t p') as [Ht' Hn']; try done; [lia|].
  econstructor; try done. apply IH; [lia | lia | done].
Qed.

End Frame.

(** *** The walk of [bx_fdt_overwrite_bootargs] *)

(** The place of the property the walk overwrites: the first [bootargs] met inside a
    node called "chosen" below the root. *)
Fixpoint target (ts : list tok) (depth : Z) (in_chosen : bool) : option nat :=
  match ts with
  | [] => None
  | t :: ts =>
      match t with
      | BeginNode name => S <$> target ts (depth + 1) ((1 <? depth + 1) && bytes_eqb name "chosen")
      | EndNode => if depth - 1 <=? 0 then None else S <$> target ts (depth - 1) false
      | PropTok name _ =>
          if in_chosen && bytes_eqb name "bootargs" then Some 0%nat else S <$> target ts depth in_chosen
      | NopTok => S <$> target ts depth in_chosen
      | DoneTok => None
      end
  end.

(** The new value: the string, then zeros up to the old length. *)
Definition new_value (s data : list Z) : list Z := padded s (length data).

Lemma length_padded s n : (length s <= n)%nat -> length (padded s n) = n.
Proof. intros. unfold padded. rewrite length_app, length_replicate. lia. Qed.

Lemma padded_bytes s n : Forall is_u8 s -> Forall is_u8 (padded s n).
Proof. intros. apply Forall_app. split; [done|]. apply Forall_replicate. mlia. Qed.

Lemma skip_len p len : p mod 4 = 0 -> 0 <= len < 2147483648 ->
  p + ((len +! 3) &! not32 3) = align4 (p + len).
Proof.
  intros Hp Hl. rewrite u32_small by mlia. change 3 with (Z.ones 2) at 2.
  rewrite land_not32_ones by mlia. change (2 ^ 2) with 4. unfold align4. lia.
Qed.

Section Overwrite.
Context {M : Machine} (strs : Z) (Hstrs : strs < 4294967296).

(** What the walk from [p] does when its target is the [i]-th token. *)
Definition overwrites (m : mem) (s : list Z) (p : Z) (ts : list tok) (depth : Z) (ch : bool) (i fuel : nat) : Prop :=
  exists a data, ts !! i = Some (PropTok "bootargs" data) /\ p <= a /\
    a + Z.of_nat (length data) <= strs /\
    (length s <= length data)%nat /\
    bx_overwrite_loop fuel m strs s p depth ch = Some (1, write_bytes m a (new_value s data)) /\
    packed (write_bytes m a (new_value s data)) strs p (<[i := PropTok "bootargs" (new_value s data)]> ts).

(** The value itself is overwritten in place. *)
Lemma overwrites_here m s p p' data ts depth fuel :
  Forall is_u8 s -> (length s <= length data)%nat -> 0 <= p -> p mod 4 = 0 ->
  tok_at m strs p (PropTok "bootargs" data) p' -> p' <= strs -> name_fits m strs p (PropTok "bootargs" data) ->
  packed m strs p' ts ->
  overwrites m s p (PropTok "bootargs" data :: ts) depth true 0 (S fuel).
Proof.
  intros Hs Hlen Hp Hal Ht Hp' Hn Hts. destruct (tok_at_grows _ _ _ _ _ Ht) as (_ & _ & Hg).
  pose proof Ht as (Htok & Hl & Hlt & Hc & Hd & ->). remember (new_value s data) as v eqn:Ev.
  assert (length v = length data) as Hv by (subst v; by apply length_padded).
  assert (frame m (write_bytes m (p + 12) v) (p + 12) (Z.of_nat (length data))) as Hf.
  { rewrite <- Hv. apply write_bytes_frame. rewrite Hv. unfold region. lia. }
  exists (p + 12), data. rewrite <- Ev.
  split; [done|]. split; [lia|]. split; [lia|]. split; [done|]. split.
  - cbn [bx_overwrite_loop]. rewrite Htok. cbn -[streq write_bytes overwrite_value].
    replace (p + 4 + 4) with (p + 8) by lia. replace (p + 8 + 4) with (p + 12) by lia.
    rewrite (streq_at m _ _ (cstr "bootargs")) by (done || by apply lit_cstr).
    rewrite (proj2 (bytes_eqb_eq _ _)) by done. rewrite Hl, (proj2 (Z.leb_le _ _)) by lia.
    unfold overwrite_value. rewrite Nat2Z.id, Ev. done.
  - cbn [insert list_insert]. econstructor; [| exact Hp' | |].
    + cbn [tok_at]. rewrite Hv.
      rewrite !(be32_keep m _ _ _ Hf) by (unfold region; lia || lia). cbn [name_fits] in Hn.
      split_and!; try done.
      * apply (cstr_at_keep m _ _ _ Hf); [unfold region; lia | lia | done].
      * rewrite <- Hv at 1. apply read_write_bytes; [rewrite Hv; unfold region; lia|].
        subst v. by apply padded_bytes.
    + cbn [name_fits] in *. by rewrite (be32_keep m _ _ _ Hf) by (unfold region; lia || lia).
    + rewrite <- Hv in Hf. apply (packed_keep m _ _ _ Hf); [done | rewrite Hv; lia | lia | rewrite Hv; lia | done].
Qed.

(** A token before the target. *)
Lemma overwrites_later m s p p' t ts depth ch depth' ch' i fuel :
  0 <= p -> tok_at m strs p t p' -> p' <= strs -> name_fits m strs p t ->
  bx_overwrite_loop (S fuel) m strs s p depth ch = bx_overwrite_loop fuel m strs s p' depth' ch' ->
  overwrites m s p' ts depth' ch' i fuel -> overwrites m s p (t :: ts) depth ch (S i) (S fuel).
Proof.
  intros Hp Ht Hp' Hn Heq (a & data & Hi & Ha & Hend & Hlen & Hrun & Hpk).
  destruct (tok_at_grows _ _ _ _ _ Ht) as (Hg & _ & _).
  assert (length (new_value s data) = length data) as Hv by (by apply length_padded).
  assert (frame m (write_bytes m a (new_value s data)) a (Z.of_nat (length data))) as Hf.
  { rewrite <- Hv. apply write_bytes_frame. rewrite Hv. unfold region. lia. }
  exists a, data. split; [done|]. split; [lia|]. split; [done|]. split; [done|].
  split; [by rewrite Heq|]. cbn [insert list_insert].
  destruct (tok_at_keep m _ a _ Hf strs p t p') as [Ht' Hn']; try done; [lia|]. by econstructor.
Qed.

Lemma overwrite_loop_target s : Forall is_u8 s -> forall ts m p depth ch i fuel,
  packed m strs p ts -> 0 <= p -> p mod 4 = 0 -> names_short name_fuel ts -> (length ts <= fuel)%nat ->
  0 <= depth -> target ts depth ch = Some i ->
  (forall data, ts !! i = Some (PropTok "bootargs" data) -> (length s <= length data)%nat) ->
  overwrites m s p ts depth ch i fuel.
Proof.
  intros Hs. induction ts as [|t ts IH]; intros m p depth ch i fuel Hpk Hp Hal Hnames Hfuel Hd Ht Hlen; [done|].
  inversion Hpk as [|? p' ? ? Htok Hp' Hn Hts]; subst. destruct fuel as [|fuel]; [simpl in Hfuel; lia|].
  apply Forall_cons in Hnames as [Hn1 Hnames]. simpl in Hfuel.
  destruct (tok_at_grows _ _ _ _ _ Htok) as (Hg & Hal' & Hg2).
  destruct t as [name| |name data| |]; cbn [target] in Ht.
  - destruct (target ts (depth + 1) _) as [j|] eqn:Hj; [|done]. injection Ht as <-.
    eapply overwrites_later with (depth' := depth + 1) (ch' := (1 <? depth + 1) && bytes_eqb name "chosen");
      [done | done | done | done | | apply IH; [done | lia | by apply Hal' | done | lia | lia | done | exact Hlen]].
    cbn [tok_at] in Htok. destruct Htok as (Hb & Hc & ->). cbn [bx_overwrite_loop]. rewrite Hb.
    cbn -[streq align_ptr align4]. rewrite (skip_str_at m name) by done. cbn -[streq align_ptr align4]. rewrite align_ptr_align4.
    rewrite (streq_at m _ _ name) by (done || by apply lit_cstr). by case_if.
  - destruct (depth - 1 <=? 0) eqn:E; [done|].
    destruct (target ts (depth - 1) false) as [j|] eqn:Hj; [|done]. injection Ht as <-. zbool.
    eapply overwrites_later with (depth' := depth - 1) (ch' := false);
      [done | done | done | done | | apply IH; [done | lia | by apply Hal' | done | lia | lia | done | exact Hlen]].
    cbn [tok_at] in Htok. destruct Htok as (Hb & ->). cbn [bx_overwrite_loop]. rewrite Hb. cbn -[streq align_ptr align4].
    rewrite (proj2 (Z.ltb_ge (depth - 1) 0)), (proj2 (Z.eqb_neq (depth - 1) 0)) by lia. done.
  - destruct (ch && bytes_eqb name "bootargs") eqn:Hb.
    + injection Ht as <-. apply andb_true_iff in Hb as [-> Hname%bytes_eqb_eq]. subst name.
      eapply overwrites_here; try done. by apply Hlen.
    + destruct (target ts depth ch) as [j|] eqn:Hj; [|done]. injection Ht as <-.
      eapply overwrites_later with (depth' := depth) (ch' := ch);
      [done | done | done | done | | apply IH; [done | lia | by apply Hal' | done | lia | lia | done | exact Hlen]].
      cbn [tok_at] in Htok. destruct Htok as (Ht & Hl & Hlt & Hc & _ & ->). cbn [bx_overwrite_loop]. rewrite Ht.
      cbn -[streq not32 align4]. replace (p + 4 + 4) with (p + 8) by lia.
      rewrite (streq_at m _ _ name) by (done || by apply lit_cstr). rewrite Hb, Hl.
      replace (p + 8 + 4) with (p + 12) by lia. rewrite skip_len by lia. done.
  - destruct (target ts depth ch) as [j|] eqn:Hj; [|done]. injection Ht as <-.
    eapply overwrites_later with (depth' := depth) (ch' := ch);
      [done | done | done | done | | apply IH; [done | lia | by apply Hal' | done | lia | lia | done | exact Hlen]].
    cbn [tok_at] in Htok. destruct Htok as (Hb & ->). cbn [bx_overwrite_loop]. by rewrite Hb.
  - done.
Qed.

End Overwrite.

(** *** The tree after the overwrite *)

(** A node called "chosen" in the tree. *)
Fixpoint has_chosen (t : node) : bool :=
  match t with Node name _ children => bytes_eqb name "chosen" || existsb has_chosen children end.

(** Only a child of the root is called "chosen". *)
Definition chosen_on_top (children : list node) : Prop :=
  Forall (fun t => match t with Node _ _ cs => existsb has_chosen cs = false end) children.

Definition set_prop (v : list Z) (props : list (list Z * list Z)) : list (list Z * list Z) :=
  match list_find (fun p => p.1 = cstr "bootargs") props with
  | Some (k, _) => <[k := (cstr "bootargs", v)]> props
  | None => props
  end.

(** The children of the root with the value of /chosen/bootargs replaced. *)
Fixpoint set_chosen (v : list Z) (children : list node) : list node :=
  match children with
  | [] => []
  | Node name props cs :: l =>
      match (if bytes_eqb name "chosen" then prop_value "bootargs" props else None) with
      | Some _ => Node name (set_prop v props) cs :: l
      | None => Node name props cs :: set_chosen v l
      end
  end.

Definition prop_toks (props : list (list Z * list Z)) : list tok := map (fun p => PropTok p.1 p.2) props.

Lemma prop_toks_insert name v props : forall k,
  prop_toks (<[k := (name, v)]> props) = <[k := PropTok name v]> (prop_toks props).
Proof.
  induction props as [|p props IH]; intros [|k]; [done..|]. cbn. unfold prop_toks in IH. by rewrite IH.
Qed.

Lemma set_prop_value v props data : prop_value "bootargs" props = Some data ->
  prop_value "bootargs" (set_prop v props) = Some v.
Proof.
  unfold prop_value, set_prop. destruct (list_find _ props) as [[k p]|] eqn:Hf; [|done]. intros _.
  apply list_find_Some in Hf as (Hk & Hp & Hbefore).
  assert (list_find (fun p => p.1 = cstr "bootargs") (<[k:=(cstr "bootargs", v)]> props) =
    Some (k, (cstr "bootargs", v))) as ->; [|done].
  apply list_find_Some. split_and!; [|done|].
  - apply list_lookup_insert_eq. by eapply lookup_lt_Some.
  - intros j y Hj Hlt. rewrite list_lookup_insert_ne in Hj by lia. by eapply Hbefore.
Qed.

Lemma set_chosen_value v children data : chosen_bootargs children = Some data ->
  chosen_bootargs (set_chosen v children) = Some v.
Proof.
  induction children as [|[name props cs] l IH]; [done|]. cbn [chosen_bootargs set_chosen].
  destruct (bytes_eqb name "chosen") eqn:En.
  - destruct (prop_value "bootargs" props) as [d|] eqn:Hp.
    + intros _. cbn [chosen_bootargs]. rewrite En. by rewrite (set_prop_value v props d Hp).
    + intros Hd. cbn [chosen_bootargs]. rewrite En, Hp. by apply IH.
  - intros Hd. cbn [chosen_bootargs]. rewrite En. by apply IH.
Qed.

Lemma target_props_skip props : forall rest depth ch,
  ch && bool_decide (is_Some (prop_value "bootargs" props)) = false ->
  target (prop_toks props ++ rest) depth ch = Nat.add (length props) <$> target rest depth ch.
Proof.
  unfold prop_value. induction props as [|[name data] props IH]; intros rest depth ch Hno; cbn [prop_toks map app].
  { by destruct (target rest depth ch). }
  cbn [target fst snd]. fold (prop_toks props).
  assert (ch && bytes_eqb name "bootargs" = false) as ->.
  { destruct ch; [|done]. cbn [andb] in *. apply bytes_eqb_neq. intros ->.
    rewrite bool_decide_eq_false in Hno. apply Hno. cbn [list_find].
    rewrite decide_True by done. by eexists. }
  rewrite IH; [by destruct (target rest depth ch)|].
  destruct ch; [|done]. cbn [andb] in *. rewrite bool_decide_eq_false in *. intros [d Hd]. apply Hno.
  cbn [list_find]. case_decide; [by eexists|].
  destruct (list_find (fun p => p.1 = cstr "bootargs") props) as [[k p]|]; [by eexists | done].
Qed.

Lemma target_props_hit props rest depth k p :
  list_find (fun p => p.1 = cstr "bootargs") props = Some (k, p) ->
  target (prop_toks props ++ rest) depth true = Some k.
Proof.
  revert k. induction props as [|[name data] props IH]; intros k; [done|]. cbn [list_find].
  cbn [prop_toks map app target fst]. fold (prop_toks props). cbn [andb]. unfold bytes_eqb.
  case_decide as Hd; cbn [fst] in Hd.
  - intros [= <- <-]. by rewrite bool_decide_eq_true_2 by done.
  - rewrite bool_decide_eq_false_2 by done.
    destruct (list_find _ props) as [[j q]|]; [|done]. intros [= <- <-]. by rewrite (IH j).
Qed.

(** A list of subtrees without a target is stepped over. *)
Lemma target_skip_list l depth :
  Forall (fun t => forall rest ch, target (flatten t ++ rest) depth ch =
    Nat.add (length (flatten t)) <$> target rest depth false) l ->
  forall rest, target (concat (map flatten l) ++ rest) depth false =
    Nat.add (length (concat (map flatten l))) <$> target rest depth false.
Proof.
  induction 1 as [|t l Ht Hl IH]; intros rest; cbn [map concat app length].
  { by destruct (target rest depth false). }
  rewrite <- app_assoc, Ht, IH, length_app. destruct (target rest depth false); [|done].
  cbn. f_equal. lia.
Qed.

(** After the properties of a node comes a subnode or its end: both forget
    [in_chosen]. *)
Lemma target_forget cs rest depth ch :
  target (concat (map flatten cs) ++ EndNode :: rest) depth ch =
  target (concat (map flatten cs) ++ EndNode :: rest) depth false.
Proof. by destruct cs as [|[name props children] cs]. Qed.

(** The children of a node and its end, stepped over. *)
Lemma target_skip_body cs rest depth ch : 1 <= depth ->
  Forall (fun t => forall rest ch, target (flatten t ++ rest) (depth + 1) ch =
    Nat.add (length (flatten t)) <$> target rest (depth + 1) false) cs ->
  target (concat (map flatten cs) ++ EndNode :: rest) (depth + 1) ch =
    Nat.add (S (length (concat (map flatten cs)))) <$> target rest depth false.
Proof.
  intros Hd Hcs. rewrite target_forget, target_skip_list by done. cbn [target].
  replace (depth + 1 - 1) with depth by lia. rewrite (proj2 (Z.leb_gt depth 0)) by lia.
  destruct (target rest depth false); [|done]. cbn. f_equal. lia.
Qed.

Lemma flatten_app name props cs rest :
  flatten (Node name props cs) ++ rest =
    BeginNode name :: prop_toks props ++ concat (map flatten cs) ++ EndNode :: rest.
Proof. cbn [flatten app]. unfold prop_toks. by rewrite <- !app_assoc. Qed.

Lemma length_flatten name props cs :
  length (flatten (Node name props cs)) = (2 + length props + length (concat (map flatten cs)))%nat.
Proof. cbn [flatten length]. rewrite !length_app, length_map. cbn [length]. lia. Qed.

(** A node that holds no target, whose subtrees hold none. *)
Lemma target_skip_node name props cs depth : 1 <= depth ->
  bytes_eqb name "chosen" && bool_decide (is_Some (prop_value "bootargs" props)) = false ->
  Forall (fun t => forall rest ch, target (flatten t ++ rest) (depth + 1) ch =
    Nat.add (length (flatten t)) <$> target rest (depth + 1) false) cs ->
  forall rest ch, target (flatten (Node name props cs) ++ rest) depth ch =
    Nat.add (length (flatten (Node name props cs))) <$> target rest depth false.
Proof.
  intros Hd Hno Hcs rest ch. rewrite flatten_app. cbn [target].
  rewrite (proj2 (Z.ltb_lt 1 (depth + 1))) by lia. cbn [andb].
  rewrite target_props_skip, target_skip_body, length_flatten by done.
  destruct (target rest depth false); [|done]. cbn. f_equal. lia.
Qed.

Lemma target_skip_plain t : has_chosen t = false -> forall depth, 1 <= depth -> forall rest ch,
  target (flatten t ++ rest) depth ch = Nat.add (length (flatten t)) <$> target rest depth false.
Proof.
  induction t as [name props cs IH] using node_ind'. cbn [has_chosen]. intros [Hn Hcs]%orb_false_iff depth Hd.
  apply target_skip_node; [done | by rewrite Hn|]. apply Forall_forall. intros t Ht rest ch.
  rewrite Forall_forall in IH. apply IH; [done | | lia].
  rewrite <- not_true_iff_false in Hcs |- *. intros Hc. apply Hcs. apply existsb_exists.
  exists t. split; [|done]. by apply list_elem_of_In.
Qed.

Lemma skip_subtrees cs depth : 1 <= depth -> existsb has_chosen cs = false ->
  Forall (fun t => forall rest ch, target (flatten t ++ rest) (depth + 1) ch =
    Nat.add (length (flatten t)) <$> target rest (depth + 1) false) cs.
Proof.
  intros Hd Hcs. apply Forall_forall. intros t Ht. apply target_skip_plain; [|lia].
  rewrite <- not_true_iff_false in Hcs |- *. intros Hc. apply Hcs. apply existsb_exists.
  exists t. split; [|done]. by apply list_elem_of_In.
Qed.

(** The walk over the children of the root ends on the value the reader takes. *)
Lemma target_children v data rest l : chosen_on_top l -> chosen_bootargs l = Some data ->
  exists i, target (concat (map flatten l) ++ rest) 1 false = Some i /\
    (concat (map flatten l) ++ rest) !! i = Some (PropTok "bootargs" data) /\
    <[i := PropTok "bootargs" v]> (concat (map flatten l) ++ rest) =
      concat (map flatten (set_chosen v l)) ++ rest.
Proof.
  intros Htop Hv. induction l as [|[name props cs] l IH]; [done|].
  apply Forall_cons in Htop as [Hcs Htop]. cbn [chosen_bootargs set_chosen] in *.
  cbn [map concat]. rewrite <- app_assoc.
  destruct (if bytes_eqb name "chosen" then prop_value "bootargs" props else None) as [d|] eqn:Hd.
  - injection Hv as ->. destruct (bytes_eqb name "chosen") eqn:Hn; [|done].
    unfold prop_value in Hd. destruct (list_find _ props) as [[k p]|] eqn:Hf; [|done]. injection Hd as <-.
    exists (S k). rewrite flatten_app. pose proof Hf as (Hk & Hp & _)%list_find_Some.
    pose proof (lookup_lt_Some _ _ _ Hk) as Hlt.
    assert (prop_toks props !! k = Some (PropTok "bootargs" p.2)) as Hpk.
    { unfold prop_toks. change (map ?f props) with (f <$> props). rewrite list_lookup_fmap, Hk. cbn. by rewrite Hp. }
    split; [|split].
    + cbn [target]. change (1 <? 1 + 1) with true. cbn [andb]. rewrite Hn. by rewrite (target_props_hit _ _ _ _ _ Hf).
    + change ((?a :: ?l) !! S k) with (l !! k).
      rewrite lookup_app_l; [done|]. unfold prop_toks. by rewrite length_map.
    + cbn [map concat]. rewrite <- app_assoc, flatten_app. change (<[S k:=?x]> (?a :: ?l)) with (a :: <[k:=x]> l).
      f_equal.
      rewrite insert_app_l by (unfold prop_toks; by rewrite length_map). f_equal.
      unfold set_prop. rewrite Hf.
      symmetry. by apply prop_toks_insert.
  - destruct (IH Htop Hv) as (i & Hi & Hlook & Hins). exists (length (flatten (Node name props cs)) + i)%nat.
    split; [|split].
    + rewrite target_skip_node; [by rewrite Hi | lia | | by apply skip_subtrees].
      destruct (bytes_eqb name "chosen"); [|done]. by rewrite Hd.
    + by rewrite lookup_app_r, Nat.add_sub' by lia.
    + cbn [map concat]. rewrite <- app_assoc, insert_app_r. by rewrite Hins.
Qed.

(** *** The command *)

(** A blob whose structure block is followed by its strings. *)
Definition packed_blob (m : mem) (dtb : Z) (t : node) : Prop :=
  0 < dtb /\ dtb mod 4 = 0 /\ be32 m dtb = FDT_MAGIC /\
  be32 m (dtb + 0x8) mod 4 = 0 /\ 40 <= be32 m (dtb + 0x8) /\
  0 <= be32 m (dtb + 0xc) /\ dtb + be32 m (dtb + 0xc) < 4294967296 /\
  packed m (dtb + be32 m (dtb + 0xc)) (dtb + be32 m (dtb + 0x8)) (flatten t ++ [DoneTok]).

Lemma packed_blob_at m dtb t : packed_blob m dtb t -> blob_at m dtb t.
Proof. intros (? & _ & ? & _ & _ & _ & _ & Hp). split; [lia|]. split; [done|]. by apply packed_toks. Qed.

Lemma packed_start m strs p t ts : packed m strs p (t :: ts) -> p + 4 <= strs.
Proof.
  inversion_clear 1 as [|? p' ? ? Ht Hp' _ _]. destruct (tok_at_grows _ _ _ _ _ Ht) as (? & _). lia.
Qed.

Section SetBootargs.
Context {M : Machine}.

Lemma overwrite_bootargs_tree m dtb s name props children data :
  packed_blob m dtb (Node name props children) -> chosen_on_top children ->
  chosen_bootargs children = Some data -> Forall is_u8 s -> (length s <= length data)%nat ->
  names_short name_fuel (flatten (Node name props children) ++ [DoneTok]) ->
  (length (flatten (Node name props children) ++ [DoneTok]) <= walk_fuel)%nat ->
  let t' := Node name props (set_chosen (new_value s data) children) in
  exists m', bx_fdt_overwrite_bootargs m dtb s = Some (1, m') /\ packed_blob m' dtb t' /\
    names_short name_fuel (flatten t' ++ [DoneTok]) /\ (length (flatten t' ++ [DoneTok]) <= walk_fuel)%nat.
Proof.
  intros (Hdtb & Hal & Hmagic & Hoff & Hhdr & Hso & Hstrs & Hpk) Htop Hdata Hs Hlen Hnames Hfuel t'.
  set (ts := flatten (Node name props children) ++ [DoneTok]) in *.
  destruct (target_children (new_value s data) data (EndNode :: [DoneTok]) children Htop Hdata)
    as (j & Hj & Hlook & Hins).
  assert (ts = BeginNode name :: prop_toks props ++ concat (map flatten children) ++ EndNode :: [DoneTok]) as Hts.
  { unfold ts. apply flatten_app. }
  set (i := S (length props + j)).
  assert (length (prop_toks props) = length props) as Hpl by (unfold prop_toks; apply length_map).
  assert (target ts 0 false = Some i) as Hi.
  { rewrite Hts. cbn [target]. change (1 <? 0 + 1) with false. cbn [andb].
    rewrite target_props_skip by done. change (0 + 1) with 1. by rewrite Hj. }
  assert (ts !! i = Some (PropTok "bootargs" data)) as Hti.
  { rewrite Hts. unfold i. change ((?a :: ?l) !! S ?k) with (l !! k).
    rewrite lookup_app_r by lia. rewrite Hpl, Nat.add_sub'. exact Hlook. }
  assert (<[i := PropTok "bootargs" (new_value s data)]> ts = flatten t' ++ [DoneTok]) as Hti'.
  { unfold t'. rewrite flatten_app, Hts. unfold i. change (<[S ?k:=?x]> (?a :: ?l)) with (a :: <[k:=x]> l).
    f_equal. rewrite <- Hpl, insert_app_r. f_equal. exact Hins. }
  destruct (overwrite_loop_target (dtb + be32 m (dtb + 0xc)) Hstrs s Hs ts m (dtb + be32 m (dtb + 0x8))
    0 false i walk_fuel) as (a & d & Hd & Ha & Hend & _ & Hrun & Hpk'); try done; [lia | lia | |].
  { intros d Hd. rewrite Hti in Hd. by injection Hd as <-. }
  rewrite Hti in Hd. injection Hd as <-. exists (write_bytes m a (new_value s data)).
  assert (length (new_value s data) = length data) as Hv by (by apply length_padded).
  assert (frame m (write_bytes m a (new_value s data)) a (Z.of_nat (length data))) as Hf.
  { rewrite <- Hv. apply write_bytes_frame. rewrite Hv. unfold region. lia. }
  rewrite Hti' in Hpk'. split; [|split; [|split]].
  - unfold bx_fdt_overwrite_bootargs. rewrite (proj2 (Z.eqb_neq dtb 0)), Hmagic by lia. exact Hrun.
  - rewrite Hts in Hpk. apply packed_start in Hpk.
    unfold packed_blob. rewrite !(be32_keep m _ _ _ Hf) by (unfold region; lia || lia). done.
  - rewrite <- Hti'. apply Forall_insert; [done | done].
  - rewrite <- Hti', length_insert. done.
Qed.

Lemma take_until_app q s : forall room, Forall (fun c => c <> q) s -> (length s <= room)%nat ->
  take_until (Z.eqb q) (s ++ [q]) room = s.
Proof.
  induction s as [|c s IH]; intros room Hs Hr; destruct room as [|room]; simpl in *; try lia; try done.
  - by rewrite Z.eqb_refl.
  - apply Forall_cons in Hs as [Hc Hs]. rewrite (proj2 (Z.eqb_neq q c)) by done. by rewrite IH by (done || lia).
Qed.

(** The line [set bootargs="..."] reaches [bx_set]. *)
Lemma run_set x t :
  run_command ("set bootargs=\q" ++ x) t =
    (r ← bx_set (61 :: 34 :: x);
     if negb (r =? 0) then mret tt
     else
       r ← bx_set (61 :: 34 :: x);
       if negb (r =? 0) then mret tt
       else puts "ECHO: ";; puts ("set bootargs=\q" ++ x);; puts "\r\n").
Proof.
  unfold run_command. set (l := cstr "set bootargs=\q" ++ x).
  assert (bootx_handle_command l = bx_set (61 :: 34 :: x)) as Hb by reflexivity.
  rewrite <- Hb. reflexivity.
Qed.

Lemma first_str_cstr s l : is_cstr s -> first_str l = [] -> first_str (s ++ l) = s.
Proof.
  induction 1 as [|c s Hc Hs IH]; intros Hl; [done|]. cbn [app first_str].
  rewrite (proj2 (Z.eqb_neq c 0)) by lia. by rewrite IH.
Qed.

Lemma first_str_padded s n k : is_cstr s -> (length s <= k)%nat -> first_str (take k (padded s n)) = s.
Proof.
  intros Hs Hk. unfold padded. rewrite take_app_ge by done. apply first_str_cstr; [done|].
  rewrite take_replicate. by destruct ((k - length s) `min` (n - length s))%nat.
Qed.

(** C21: the boot arguments set at the console are the ones the booter reads.  On a
    device tree with a /chosen/bootargs value at least as long as the string, and no
    other node called "chosen" below it, the command [set bootargs="..."] returns
    and leaves a well-formed blob of the same tree with the new value, from which
    [fdt_get_chosen_bootargs] reads the string back. *)
Theorem set_bootargs_read_back (w : console) (s : list Z) (ticks cap : Z) (name : list Z)
    (props : list (list Z * list Z)) (children : list node) (data : list Z)
    (Hblob : packed_blob (cmem w) DTB_FIXED_ADDR (Node name props children))
    (Htop : chosen_on_top children) (Hdata : chosen_bootargs children = Some data)
    (Hnames : names_short name_fuel (flatten (Node name props children) ++ [DoneTok]))
    (Hfuel : (length (flatten (Node name props children) ++ [DoneTok]) <= walk_fuel)%nat)
    (Hs : is_cstr s) (Hquote : Forall (fun c => c <> 34) s) (Hne : s <> [])
    (Hlen : (length s <= length data `min` 255)%nat) (Hcap : Z.of_nat (length s) < cap) :
  let t' := Node name props (set_chosen (new_value s data) children) in
  exists w', run_command ("set bootargs=\q" ++ s ++ [34]) ticks w = (Ret tt, w') /\
    ed w' = ed w /\ packed_blob (cmem w') DTB_FIXED_ADDR t' /\
    fdt_get_chosen_bootargs (cmem w') name_fuel walk_fuel DTB_FIXED_ADDR cap = Some (0, s).
Proof.
  intros t'. assert (Forall is_u8 s) as Hu8 by (eapply Forall_impl; [exact Hs|]; intros; wunfold; lia).
  destruct (overwrite_bootargs_tree (cmem w) DTB_FIXED_ADDR s name props children data) as
    (m' & Hov & Hblob' & Hnames' & Hfuel'); try done; [lia|]. fold t' in Hblob', Hnames', Hfuel'.
  assert (set_value (34 :: s ++ [34]) = s) as Hval by (apply take_until_app; [done | lia]).
  rewrite run_set.
  exists (Con (ed w) (vs w) m' (trace w ++ (Put <$> cstr "bootargs OK\r\n"))).
  split; [|split; [done | split; [done|]]].
  - unfold bx_set. change (bx_skip_ws (61 :: 34 :: s ++ [34])) with (61 :: 34 :: s ++ [34]). cbn iota.
    change (bx_skip_ws (34 :: s ++ [34])) with (34 :: s ++ [34]). rewrite Hval.
    rewrite bool_decide_eq_false_2 by done. unfold mbind, CM_bind, get. rewrite Hov. reflexivity.
  - cbn [cmem].
    rewrite (fdt_get_chosen_bootargs_tree m' name_fuel walk_fuel DTB_FIXED_ADDR cap name props
      (set_chosen (new_value s data) children)); [|lia | by apply packed_blob_at | done | done].
    rewrite (set_chosen_value _ _ data Hdata). unfold bootargs_result, new_value.
    rewrite first_str_padded by (done || lia). by rewrite bool_decide_eq_false_2.
Qed.

End SetBootargs.

(** *** A concrete console *)

Module Example.

#[local] Instance machine : Machine :=
  {| csr_read := fun _ _ => 0; entry := fun _ _ => None; name_fuel := 8; walk_fuel := 40 |}.

Definition start (m : mem) : console :=
  Con (ed LineEditor.Example.cold) (Vars 0 0 1000) m [].

Lemma cmd_mem_rd_guards_witness :
  logs (cmd_mem_rd 0x0ffffffc 16) [0x0ffffffc; 0x0ffffffd; 0x0ffffffe; 0x0fffffff] (start (fun _ => 0)) /\
  logs (cmd_mem_rd 0x8005fff0 0x20) [] (start (fun _ => 0)).
Proof.
  split.
  - apply (cmd_mem_rd_guards (start (fun _ => 0)) 0x0ffffffc 16); [cbn; lia | lia | lia | lia|].
    intros (a & Ha & Hf). unfold is_forbidden_addr in Hf. revert Hf. zcases.
  - apply (cmd_mem_rd_guards (start (fun _ => 0)) 0x8005fff0 0x20); [cbn; lia | lia | lia | lia|].
    exists 0x8005fff0. split; [lia | done].
Defined.

(** Half the address space from the start of the firmware: 2^31 bytes. *)
Lemma cmd_mem_rd_wraps_witness :
  logs (cmd_mem_rd 0x80000000 0x80000000) ((fun j => 0x80000000 +! j) <$> seqZ 0 0x80000000) (start (fun _ => 0)) /\
  is_forbidden_addr 0x80000000 = true.
Proof.
  split; [|done].
  apply (cmd_mem_rd_wraps (start (fun _ => 0)) 0x80000000 0x80000000); [mlia | mlia | lia | cbn; lia |].
  unfold uart_base_effective, UART_MMIO_DEFAULT. cbn. lia.
Defined.

Lemma example_packed : packed_blob Fdt.example_mem DTB_FIXED_ADDR Fdt.example_tree.
Proof.
  do 7 (split; [vm_compute; (reflexivity || congruence)|]).
  match goal with |- packed ?m ?s ?p ?l =>
    let s' := eval vm_compute in s in let p' := eval vm_compute in p in
    let l' := eval vm_compute in l in change (packed m s' p' l') end.
  repeat first [apply packed_nil |
    eapply packed_cons;
      [cbn [tok_at length]; split_and!; try (vm_compute; reflexivity); vm_compute; intuition congruence
      | vm_compute; congruence | cbn [name_fits]; first [exact I | split; vm_compute; congruence] |];
    match goal with |- packed _ _ ?p _ =>
      let p' := eval vm_compute in p in change p with p' end].
Qed.

Lemma set_bootargs_read_back_witness :
  exists w', run_command ("set bootargs=\q" ++ cstr "-v" ++ [34]) 0 (start Fdt.example_mem) = (Ret tt, w') /\
    fdt_get_chosen_bootargs (cmem w') 8 40 DTB_FIXED_ADDR 128 = Some (0, cstr "-v").
Proof.
  destruct (set_bootargs_read_back (start Fdt.example_mem) (cstr "-v") 0 128 [] []
    [ Node "cpu@0" [(cstr "device_type", "cpu" ++ [0])] [];
      Node "chosen" [(cstr "bootargs", "smp-start" ++ [0])] [];
      Node "uart" [(cstr "compatible", "ns16550a" ++ [0]); (cstr "reg", w32 0x10000000)] [] ]
    ("smp-start" ++ [0])) as (w' & Hr & _ & _ & Hget).
  - exact example_packed.
  - repeat (apply Forall_cons_2; [done|]). apply Forall_nil_2.
  - vm_compute. reflexivity.
  - exact example_names.
  - vm_compute. lia.
  - apply lit_cstr. reflexivity.
  - by_computation.
  - vm_compute. congruence.
  - vm_compute. lia.
  - vm_compute. reflexivity.
  - exists w'. split; [exact Hr | exact Hget].
Defined.

End Example.

End ConsoleCmd.
