(* ===== verification/ConsoleElf.v ===== *)
(** The two ELF loaders of the booter: [bx_elf32_load] of the console
    (src/booter/console.c) against [elf32_load_and_jump] of the boot path
    (src/booter/hfsplus_boot.c).

    The boot path copies the headers before it loads anything; the console reads
    them in place while it loads.  On an image whose headers no segment covers
    both leave the same memory. *)

From S2P Require Import Prelude MemoryMap Mmu Fdt BootArgs Print BootConfig Hfs HfsCatalog BootLoader Console.

Module ConsoleElf.

Import Console BootLoader.

Local Open Scope c_scope.

(** The headers loaded one after the other. *)
Definition load_if (img : Z) (m : mem) (ph : phdr) : mem :=
  if p_type ph =? 1 then load_one img ph m else m.

Definition load_all (img : Z) (phs : list phdr) (m : mem) : mem := foldl (load_if img) m phs.

(** No LOAD segment covers a byte of [a, a+n). *)
Definition apart (phs : list phdr) (a n : Z) : Prop :=
  Forall (fun ph => disjoint_reg (p_vaddr ph) (p_memsz ph) a n) (loads phs).

(** The header and the program headers of the image are outside its segments. *)
Definition headers_apart (m : mem) (img : Z) : Prop :=
  apart (image_phdrs m img) img 52 /\
  apart (image_phdrs m img) (img + e_phoff (read_ehdr m img)) (32 * e_phnum (read_ehdr m img)).

Lemma apart_cons ph phs a n : apart (ph :: phs) a n ->
  (is_load ph -> disjoint_reg (p_vaddr ph) (p_memsz ph) a n) /\ apart phs a n.
Proof.
  unfold apart. intros H. destruct (decide (is_load ph)).
  - rewrite loads_cons_load in H by done. apply Forall_cons in H as [? ?]. by split.
  - rewrite loads_cons_other in H by done. done.
Qed.

Lemma valid_cons size ph phs : Forall (seg_valid size) (loads (ph :: phs)) ->
  (is_load ph -> seg_valid size ph) /\ Forall (seg_valid size) (loads phs).
Proof.
  intros H. destruct (decide (is_load ph)).
  - rewrite loads_cons_load in H by done. apply Forall_cons in H as [? ?]. by split.
  - rewrite loads_cons_other in H by done. done.
Qed.

Lemma load_if_frame img size ph m a n : phdr_u32 ph -> (is_load ph -> seg_valid size ph) ->
  (is_load ph -> disjoint_reg (p_vaddr ph) (p_memsz ph) a n) ->
  forall x, inside a n x -> load_if img m ph x = m x.
Proof.
  intros Hu Hv Hd x Hx. unfold load_if. destruct (p_type ph =? 1) eqn:E; [|done]. zbool.
  apply (load_one_frame img size ph m Hu (Hv E)). specialize (Hd E). unfold inside, disjoint_reg in *. lia.
Qed.

Lemma load_all_keeps img size a n phs : Forall phdr_u32 phs -> Forall (seg_valid size) (loads phs) ->
  apart phs a n -> forall m x, inside a n x -> load_all img phs m x = m x.
Proof.
  induction phs as [|ph phs IH]; intros Hu Hv Ha m x Hx; [done|].
  apply Forall_cons in Hu as [Hu Hus]. apply valid_cons in Hv as [Hv0 Hv]. apply apart_cons in Ha as [Ha0 Ha].
  unfold load_all. cbn [foldl]. fold (load_all img phs (load_if img m ph)). rewrite IH by done.
  by apply (load_if_frame img size ph m a n).
Qed.

Section Loader.
Context (img size : Z) (Himg : region img size).

(** Fields that keep their bytes. *)
Lemma load32_same (m m' : mem) a : region a 4 -> (forall x, inside a 4 x -> m' x = m x) -> load32 m' a = load32 m a.
Proof.
  intros (? & ? & ?) Heq. unfold load32.
  rewrite !(load16_ext m' m) by (unfold region; lia || intros; apply Heq; unfold inside in *; lia). done.
Qed.

Lemma read_phdr_same m m' a : region a 32 -> (forall x, inside a 32 x -> m' x = m x) ->
  read_phdr m' a = read_phdr m a.
Proof.
  intros (? & ? & ?) Heq. unfold read_phdr.
  rewrite !(load32_same m m') by (unfold region; lia || intros; apply Heq; unfold inside in *; lia). done.
Qed.

Lemma read_phdrs_same m m' n : forall a, region a (32 * Z.of_nat n) ->
  (forall x, inside a (32 * Z.of_nat n) x -> m' x = m x) -> read_phdrs m' a n = read_phdrs m a n.
Proof.
  induction n as [|n IH]; intros a (? & ? & ?) Heq; [done|]. cbn [read_phdrs]. f_equal.
  - apply read_phdr_same; [unfold region; lia|]. intros. apply Heq. unfold inside in *. lia.
  - apply IH; [unfold region; lia|]. intros. apply Heq. unfold inside in *. lia.
Qed.

(** One header: the console's copy is the boot path's. *)
Lemma bx_load_one_same m a : mem_ok m -> region a 32 ->
  let ph := read_phdr m a in
  seg_valid size ph -> disjoint_reg (p_vaddr ph) (p_memsz ph) a 32 ->
  bx_load_one m img a = load_one img ph m.
Proof.
  intros Hm (? & ? & ?) ph Hv Hd.
  assert (phdr_u32 ph) as Hu by (unfold phdr_u32, ph; cbn; auto with words).
  destruct Hu as (Ho & Hva & Hfs & Hms). destruct Hv as (Hle & Hin & Hend).
  unfold bx_load_one, load_one.
  change (load32 m (a + 8)) with (p_vaddr ph). change (load32 m (a + 4)) with (p_offset ph).
  change (load32 m (a + 16)) with (p_filesz ph).
  assert ((if p_filesz ph =? 0 then m else copy_loop m (p_vaddr ph) (img + p_offset ph) (Z.to_nat (p_filesz ph))) =
    copy_loop m (p_vaddr ph) (img + p_offset ph) (Z.to_nat (p_filesz ph))) as ->.
  { case_if; zbool; [|done]. by replace (Z.to_nat (p_filesz ph)) with 0%nat by lia. }
  set (m1 := copy_loop m _ _ _). cbn zeta.
  assert (frame m m1 (p_vaddr ph) (Z.of_nat (Z.to_nat (p_filesz ph)))) as Hf.
  { apply copy_loop_frame. unfold region. mlia. }
  assert (read_phdr m1 a = ph) as Hph.
  { apply read_phdr_same; [unfold region; lia|]. intros x Hx. apply Hf. unfold inside, disjoint_reg in *. mlia. }
  change (load32 m1 (a + 16)) with (p_filesz (read_phdr m1 a)).
  change (load32 m1 (a + 20)) with (p_memsz (read_phdr m1 a)). rewrite Hph.
  rewrite (u32_small (p_memsz ph - p_filesz ph)) by mlia. case_if; zbool; [done|].
  by replace (Z.to_nat (p_memsz ph - p_filesz ph)) with 0%nat by lia.
Qed.

(** The loop over the headers from the [i]-th on. *)
Lemma bx_load_loop_all ph k : forall m i fuel,
  mem_ok m -> load16 m (img + 44) = i + Z.of_nat k -> 0 <= i -> 52 <= size ->
  region (ph + 32 * i) (32 * Z.of_nat k) ->
  let phs := read_phdrs m (ph + 32 * i) k in
  Forall (seg_valid size) (loads phs) -> apart phs img 52 -> apart phs (ph + 32 * i) (32 * Z.of_nat k) ->
  (k < fuel)%nat ->
  bx_load_loop fuel m img ph i = load_all img phs m.
Proof.
  pose proof Himg as (? & ? & ?).
  induction k as [|k IH]; intros m i fuel Hm Hnum Hi Hsz Hr phs Hv Hah Hap Hfuel;
    (destruct fuel as [|fuel]; [lia|]); cbn [bx_load_loop]; rewrite Hnum.
  { by rewrite (proj2 (Z.ltb_ge _ _)) by lia. }
  rewrite (proj2 (Z.ltb_lt _ _)) by lia. destruct Hr as (? & ? & ?).
  subst phs. cbn [read_phdrs] in *. replace (ph + 32 * i + 32) with (ph + 32 * (i + 1)) in * by lia. set (p0 := read_phdr m (ph + 32 * i)) in *.
  set (phs := read_phdrs m (ph + 32 * (i + 1)) k) in *.
  apply valid_cons in Hv as [Hv0 Hv]. apply apart_cons in Hah as [Hah0 Hah]. apply apart_cons in Hap as [Hap0 Hap].
  assert (phdr_u32 p0) as Hu by (unfold phdr_u32, p0; cbn; auto with words).
  assert ((if load32 m (ph + 32 * i) =? BX_PT_LOAD then bx_load_one m img (ph + 32 * i) else m) =
    load_if img m p0) as ->.
  { unfold load_if. change (load32 m (ph + 32 * i)) with (p_type p0). change BX_PT_LOAD with 1.
    destruct (p_type p0 =? 1) eqn:E; [|done]. zbool. apply bx_load_one_same; [done | unfold region; lia | by apply Hv0|].
    specialize (Hap0 E). fold p0. unfold disjoint_reg in *. lia. }
  set (m1 := load_if img m p0).
  assert (forall x, inside img 52 x -> m1 x = m x) as Hk1 by (by eapply load_if_frame).
  assert (forall x, inside (ph + 32 * i) (32 * Z.of_nat (S k)) x -> m1 x = m x) as Hk2 by (by eapply load_if_frame).
  assert (read_phdrs m1 (ph + 32 * (i + 1)) k = phs) as Hphs.
  { apply read_phdrs_same; [unfold region; lia|]. intros x Hx. apply Hk2. unfold inside in *. lia. }
  unfold load_all. cbn [foldl]. fold m1. fold (load_all img phs m1). rewrite <- Hphs. apply IH.
  - unfold m1, load_if. case_if; [by apply load_one_mem_ok | done].
  - rewrite (load16_ext m1 m) by (unfold region; lia || intros; apply Hk1; unfold inside in *; lia). lia.
  - lia.
  - lia.
  - unfold region. lia.
  - by rewrite Hphs.
  - by rewrite Hphs.
  - rewrite Hphs. eapply Forall_impl; [exact Hap|]. intros q Hq. unfold disjoint_reg in *. lia.
  - lia.
Qed.

End Loader.

(** *** The boot path *)

Section BootPath.
Import BootArgs Hfs.
Context {D : Type} (L : layout) (F : fdt_fuel).
Implicit Types (s : boot (D := D)).

Lemma load_segments_all img size : 0 <= size -> forall phs low high s,
  Forall phdr_u32 phs -> Forall (seg_valid size) (loads phs) ->
  returns (load_segments img size phs low high) s (fun _ s' => b_mem s' = load_all img phs (b_mem s)).
Proof.
  intros Hsize. induction phs as [|ph phs IH]; intros low high s Hu Hv; [by apply returns_ret|].
  apply Forall_cons in Hu as [Hu Hus]. apply valid_cons in Hv as [Hv0 Hv]. cbn [load_segments].
  unfold load_all. cbn [foldl]. unfold load_if at 2.
  destruct (p_type ph =? 1) eqn:E; cbn [negb]; [|by apply IH]. zbool.
  destruct (Hv0 E) as (H1 & H2 & H3). destruct Hu as (? & ? & ? & ?).
  rewrite (proj2 (Z.ltb_ge (p_memsz ph) _)), (proj2 (Z.ltb_ge size _)), (proj2 (Z.ltb_ge (size - _) _)) by mlia.
  cbn [orb]. rewrite (u32_small (p_vaddr ph + p_memsz ph)) by mlia.
  rewrite (proj2 (Z.ltb_ge _ (p_vaddr ph))) by mlia.
  apply returns_modify. unfold pdec. do 7 apply returns_p. by apply IH.
Qed.

Lemma elf32_load_and_jump_all img size hartid dtb ib isz cmdline ba s :
  mem_ok (b_mem s) -> region img size ->
  dtb_reads L F (b_mem s) (image_phdrs (b_mem s) img) dtb ba -> image_ok (b_mem s) img size ->
  returns (elf32_load_and_jump L F img size hartid dtb ib isz cmdline) s (fun r s' =>
    forall h, r.2 = Some h ->
      b_mem s' = handoff_mem L (load_all img (image_phdrs (b_mem s) img) (b_mem s)) h).
Proof.
  intros Hok Himg Hdtb (Hchk & Hv & Hlt). pose proof Himg as (? & ? & ?).
  unfold elf32_load_and_jump. apply returns_get. rewrite Hchk. fold (image_phdrs (b_mem s) img).
  set (phs := image_phdrs (b_mem s) img) in *. assert (Forall phdr_u32 phs) as Hu by (by apply read_phdrs_u32).
  apply returns_p. eapply returns_bind.
  { apply returns_and; [by apply load_segments_loaded | by apply load_segments_all]. }
  intros r s1 [(_ & Hf1 & Hr) Hall]. cbn [emit b_mem] in Hf1, Hr, Hall. destruct r as [[lo hi]|].
  2: { by destruct Hr. }
  destruct Hr as (_ & -> & -> & _). pose proof (high_of_bound size phs 0 Hv ltac:(lia)) as Hhi.
  rewrite (proj2 (Z.eqb_neq _ _)), (proj2 (Z.leb_gt _ _)) by lia. cbn [orb]. apply returns_get.
  destruct (Hdtb (b_mem s1)) as [-> _]; [by intros x Hx _; apply Hf1|].
  destruct (make_boot_args _ _ _ _ _ _ _ _ _ _) as [args map].
  unfold pdec. apply returns_modify. do 11 apply returns_p. apply returns_ret. cbn [snd].
  intros h [= <-]. cbn [emit set_mem b_mem]. by rewrite <- Hall.
Qed.

(** The magic number, byte by byte. *)
Lemma magic_bytes m a : mem_ok m -> load32 m a = 0x464c457f ->
  load8 m a = 0x7f /\ load8 m (a + 1) = 69 /\ load8 m (a + 2) = 76 /\ load8 m (a + 3) = 70.
Proof.
  intros Hm. unfold load32, load16. replace (a + 2 + 1) with (a + 3) by lia.
  pose proof (mem_ok_load8 m a Hm). pose proof (mem_ok_load8 m (a + 1) Hm).
  pose proof (mem_ok_load8 m (a + 2) Hm). pose proof (mem_ok_load8 m (a + 3) Hm). mlia.
Qed.

Lemma bx_elf32_load_all m img size : mem_ok m -> region img size -> image_ok m img size ->
  load16 m (img + 18) = BX_EM_RISCV -> headers_apart m img ->
  bx_elf32_load m img = (0, load_all img (image_phdrs m img) m, e_entry (read_ehdr m img)).
Proof.
  intros Hm Himg (Hchk & Hv & _) Hmach [Ha Hb]. unfold elf_check in Hchk. pose proof Himg as (? & ? & ?).
  repeat (let E := fresh "E" in destruct (_ : bool) eqn:E in Hchk; [done|]).
  cbn [e_magic e_class e_data e_phentsize e_phnum e_phoff read_ehdr] in *. zbool.
  set (eh := read_ehdr m img) in *.
  pose proof (load32_range m (img + 28) Hm). pose proof (load16_range m (img + 44) Hm).
  destruct (magic_bytes m img Hm) as (B0 & B1 & B2 & B3); [done|]. unfold bx_elf32_load.
  rewrite B0, B1, B2, B3. cbn [Z.eqb Pos.eqb andb negb].
  repeat match goal with Heq : load8 m _ = _ |- _ => rewrite Heq; clear Heq end.
  rewrite Hmach, E1, (proj2 (Z.eqb_neq (load16 m (img + 44)) 0)) by done. cbn [Z.eqb Pos.eqb orb negb].
  change (BX_EM_RISCV =? BX_EM_RISCV) with true. cbn [negb].
  assert (Forall phdr_u32 (image_phdrs m img)) as Hu by (by apply read_phdrs_u32).
  assert (bx_load_loop (Z.to_nat 65536) m img (img + load32 m (img + 28)) 0 =
    load_all img (image_phdrs m img) m) as ->.
  { unfold image_phdrs, eh in *. cbn [e_phoff e_phnum read_ehdr] in *.
    remember (Z.to_nat (load16 m (img + 44))) as k eqn:Hk.
    assert (load16 m (img + 44) = Z.of_nat k) as Hnum by (subst k; mlia).
    rewrite Hnum in Hb. unfold CARIBE_ELF32_MAX_PHDRS in *.
    pose proof (bx_load_loop_all img size Himg (img + load32 m (img + 28)) k m 0 (Z.to_nat 65536) Hm) as Hloop.
    rewrite Hnum in Hloop. replace (img + load32 m (img + 28) + 32 * 0) with (img + load32 m (img + 28)) in Hloop by lia.
    apply Hloop; try done; try (unfold region; mlia). }
  f_equal. unfold eh. cbn [e_entry read_ehdr]. apply load32_same; [unfold region; lia|].
  intros x Hx. apply (load_all_keeps img size) with img 52; try done. unfold inside in *. lia.
Qed.

(** The two loaders of the booter agree.  For an image the boot path accepts,
    made for RISC-V, whose headers are outside its LOAD segments, [bootelf] loads
    exactly the memory the boot path loads and enters it at the same address; the
    boot path then stores the arguments of the kernel. *)
Theorem bootelf_agrees (img size hartid dtb ib isz : Z) (cmdline : list Z) (ba : boot_args) s
    (Hok : mem_ok (b_mem s)) (Himg : region img size)
    (Hlay : statics_ok L) (Hcmd : cmdline_ok cmdline)
    (Hdtb : dtb_reads L F (b_mem s) (image_phdrs (b_mem s) img) dtb ba)
    (Hacc : image_ok (b_mem s) img size)
    (Hmach : load16 (b_mem s) (img + 18) = BX_EM_RISCV) (Hhdr : headers_apart (b_mem s) img) :
  returns (elf32_load_and_jump L F img size hartid dtb ib isz cmdline) s (fun r s' =>
    exists h m1, r = (0, Some h) /\ bx_elf32_load (b_mem s) img = (0, m1, h_entry h) /\
      b_mem s' = handoff_mem L m1 h).
Proof.
  eapply returns_mono; [apply returns_and;
    [by apply elf32_load_and_jump_result | by eapply elf32_load_and_jump_all]|].
  intros [rc [h|]] s' [(m1 & _ & _ & Hr) Hall].
  - destruct Hr as (-> & _ & _ & -> & _). eexists _, _. split; [done|]. split; [|by apply Hall].
    by rewrite (bx_elf32_load_all _ img size).
  - by destruct Hr as (_ & Hr & _).
Qed.

End BootPath.

Import Hfs.

Lemma bootelf_agrees_example :
  returns (elf32_load_and_jump small_layout small_fuel HFS_KERNEL_LOAD_BUFFER 92 0 0 0 0 [])
    small_boot (fun r s' => exists h m1, r = (0, Some h) /\
      bx_elf32_load (b_mem small_boot) HFS_KERNEL_LOAD_BUFFER = (0, m1, h_entry h) /\
      b_mem s' = handoff_mem small_layout m1 h).
Proof.
  apply (bootelf_agrees small_layout small_fuel HFS_KERNEL_LOAD_BUFFER 92 0 0 0 0 [] default_boot_args small_boot).
  - exact small_boot_ok.
  - exact small_img_ok.
  - exact small_statics.
  - exact small_cmdline.
  - apply no_dtb_reads.
  - split; [vm_compute; reflexivity|]. rewrite small_phdrs. split; [|done].
    apply Forall_cons. split; [by vm_compute | constructor].
  - vm_compute. reflexivity.
  - unfold headers_apart. rewrite small_phdrs. unfold apart.
    split; (apply Forall_cons; split; [by vm_compute; left | constructor]).
Defined.

End ConsoleElf.
