(* ===== verification/Uart.v ===== *)
(** The UART and the interrupt controller of the booter (src/booter/uart.c,
    src/booter/plic_min.c).

    The devices are hardware, so they are parameters: [Bus] has the accesses to
    registers, and [UartSpec] has what the 16550A and the PLIC promise of them.
    Between two accesses bytes may arrive: [stream] is everything that will have
    arrived, [queue] the part of it that is in the receive FIFO now.  The
    transmitter takes a bounded number of polls to become free. *)

From S2P Require Import Prelude Console.

Module Uart.

Import Console.

Local Open Scope c_scope.

(** Accesses of one byte and of one word. *)
Class Bus (B : Type) := {
  bus_rd8 : Z -> B -> Z * B;
  bus_wr8 : Z -> Z -> B -> B;
  bus_rd32 : Z -> B -> Z * B;
  bus_wr32 : Z -> Z -> B -> B;
}.

(** *** State: the console, the bus, the variables of uart.c, plic_min.c and trap.c,
    the CSRs they write and the number of timer reads so far. *)

Record hart {B : Type} := Hart {
  con : console;
  bus : B;
  UART_BASE : Z;
  g_plic : Z;
  g_hart : Z;
  g_ticks : Z;
  stvec : Z;
  sstatus : Z;
  sie : Z;
  stimecmp : Z;
  clk : nat;
}.

Arguments hart B : clear implicits.
Arguments Hart {B}.

Definition TM (B A : Type) : Type := hart B -> outcome A * hart B.

#[global] Instance TM_ret B : MRet (TM B) := fun A a s => (Ret a, s).

#[global] Instance TM_bind B : MBind (TM B) :=
  fun A C f c s =>
    match c s with
    | (Ret a, s') => f a s'
    | (Stop, s') => (Stop, s')
    | (NoFuel, s') => (NoFuel, s')
    end.

Definition LSR_DR : Z := 0x01.

Definition LSR_THRE : Z := 0x20.

Definition IER_RDA : Z := 0x01.

Definition IER_THRE : Z := 0x02.

Section Driver.
Context {B : Type} `{Bus B}.

Definition ask {A} (f : hart B -> A) : TM B A := fun h => (Ret (f h), h).

Definition set_con (w : console) (h : hart B) : hart B :=
  Hart w (bus h) (UART_BASE h) (g_plic h) (g_hart h) (g_ticks h) (stvec h) (sstatus h) (sie h) (stimecmp h) (clk h).

Definition set_bus (b : B) (h : hart B) : hart B :=
  Hart (con h) b (UART_BASE h) (g_plic h) (g_hart h) (g_ticks h) (stvec h) (sstatus h) (sie h) (stimecmp h) (clk h).

Definition set_bases (ub pb : Z) (h : hart B) : hart B :=
  Hart (con h) (bus h) ub pb (g_hart h) (g_ticks h) (stvec h) (sstatus h) (sie h) (stimecmp h) (clk h).

Definition set_counts (id ticks : Z) (h : hart B) : hart B :=
  Hart (con h) (bus h) (UART_BASE h) (g_plic h) id ticks (stvec h) (sstatus h) (sie h) (stimecmp h) (clk h).

Definition set_csrs (tv st ie : Z) (h : hart B) : hart B :=
  Hart (con h) (bus h) (UART_BASE h) (g_plic h) (g_hart h) (g_ticks h) tv st ie (stimecmp h) (clk h).

Definition set_timer (cmp : Z) (n : nat) (h : hart B) : hart B :=
  Hart (con h) (bus h) (UART_BASE h) (g_plic h) (g_hart h) (g_ticks h) (stvec h) (sstatus h) (sie h) cmp n.

Definition mod_hart (f : hart B -> hart B) : TM B unit := fun h => (Ret tt, f h).

(** [static inline uint8_t inb(uint32_t a)], [outb] *)
Definition inb (a : Z) : TM B Z := fun h => let (v, b) := bus_rd8 a (bus h) in (Ret v, set_bus b h).

Definition outb (a v : Z) : TM B unit := fun h => (Ret tt, set_bus (bus_wr8 a v (bus h)) h).

(** [*REG32(a)] and [*REG32(a) = v] *)
Definition ind (a : Z) : TM B Z := fun h => let (v, b) := bus_rd32 a (bus h) in (Ret v, set_bus b h).

Definition outd (a v : Z) : TM B unit := fun h => (Ret tt, set_bus (bus_wr32 a v (bus h)) h).

(** *** uart.c *)

Definition uart_init (base : Z) : TM B unit :=
  mod_hart (fun h => set_bases base (g_plic h) h);; outb (base +! 0x02) 0x07.

Definition rbr : TM B Z := h ← ask UART_BASE; mret (h +! 0x00).

Definition thr : TM B Z := h ← ask UART_BASE; mret (h +! 0x00).

Definition ier : TM B Z := h ← ask UART_BASE; mret (h +! 0x01).

Definition iir : TM B Z := h ← ask UART_BASE; mret (h +! 0x02).

Definition lsr : TM B Z := h ← ask UART_BASE; mret (h +! 0x05).

Definition ier_read : TM B Z := a ← ier; inb a.

Definition ier_write (v : Z) : TM B unit := a ← ier; outb a v.

(** [while(!(inb(lsr()) & LSR_THRE)){}], at most [fuel] polls. *)
Fixpoint wait_thre (fuel : nat) : TM B unit :=
  match fuel with
  | O => fun h => (NoFuel, h)
  | S fuel =>
      a ← lsr; v ← inb a;
      if Z.land v LSR_THRE =? 0 then wait_thre fuel else mret tt
  end.

Definition uart_putc (fuel : nat) (c : Z) : TM B unit :=
  wait_thre fuel;; a ← thr; outb a (u8 c).

Fixpoint uart_puts (fuel : nat) (s : list Z) : TM B unit :=
  match s with
  | [] => mret tt
  | c :: s => uart_putc fuel c;; uart_puts fuel s
  end.

Definition uart_irq_enable_thre : TM B unit := v ← ier_read; ier_write (u8 (Z.lor v IER_THRE)).

Definition uart_irq_disable_all : TM B unit := ier_write 0.

Definition uart_irq_disable_thre : TM B unit :=
  v ← ier_read; ier_write (u8 (Z.land v (u8 (Z.lnot IER_THRE)))).

Definition uart_irq_enable_rx : TM B unit := v ← ier_read; ier_write (u8 (Z.lor v IER_RDA)).

(** The byte, or -1. *)
Definition uart_getc_nonblock : TM B Z :=
  a ← lsr; v ← inb a;
  if Z.land v LSR_DR =? 0 then mret (-1) else (a ← rbr; inb a).

Definition uart_iir_read : TM B Z := a ← iir; inb a.

Definition uart_lsr_read : TM B Z := a ← lsr; inb a.

Definition uart_irq_kick_thre : TM B unit := a ← thr; outb a 0x55.

(** *** plic_min.c *)

Definition plic_prio_addr (base id : Z) : Z := base +! 4 *! id.

Definition plic_enable_addr (base ctx : Z) : Z := base +! 0x2000 +! 0x80 *! (ctx -! 1).

Definition plic_thresh_addr (base ctx : Z) : Z := base +! 0x200000 +! 0x1000 *! (ctx -! 1).

Definition plic_claimc_addr (base ctx : Z) : Z := base +! 0x200004 +! 0x1000 *! (ctx -! 1).

Definition plic_init (base : Z) : TM B unit := mod_hart (fun h => set_bases (UART_BASE h) base h).

Definition plic_set_threshold (ctx th : Z) : TM B unit := p ← ask g_plic; outd (plic_thresh_addr p ctx) th.

Definition plic_set_priority (src prio : Z) : TM B unit := p ← ask g_plic; outd (plic_prio_addr p src) prio.

(** [REG32(en)[idx] |= (1u << bit);] *)
Definition plic_enable (ctx src : Z) : TM B unit :=
  p ← ask g_plic;
  let a := plic_enable_addr p ctx +! 4 *! (src / 32) in
  v ← ind a; outd a (Z.lor v (1 <<! src mod 32)).

Definition plic_claim (ctx : Z) : TM B Z := p ← ask g_plic; ind (plic_claimc_addr p ctx).

Definition plic_complete (ctx id : Z) : TM B unit := p ← ask g_plic; outd (plic_claimc_addr p ctx) id.

End Driver.

(** *** What the hardware promises

    [ub] is the base of the UART, [claim_reg] the claim/complete register of the
    supervisor context of the hart, [tx_time] the most polls a byte takes to leave
    the transmitter. *)

Class UartSpec (B : Type) `{Bus B} := {
  ub : Z;
  claim_reg : Z;
  tx_time : nat;
  sent : B -> list Z;
  busy : B -> nat;
  queue : B -> list Z;
  stream : B -> list Z;
  service : B -> option Z;
  ub_range : 0 <= ub < 4294967288;
  queue_stream b : queue b `prefix_of` stream b;
  busy_bound b : (busy b <= tx_time)%nat;
  (** Line status: bit 0 says whether a byte is waiting, bit 5 whether the
      transmitter is free. *)
  lsr_law b : let (v, b') := bus_rd8 (ub + 5) b in
    sent b' = sent b /\ stream b' = stream b /\ service b' = service b /\
    queue b `prefix_of` queue b' /\
    (if Z.land v LSR_DR =? 0 then queue b = [] else queue b' <> []) /\
    (if Z.land v LSR_THRE =? 0 then (S (busy b') <= busy b)%nat else busy b' = 0%nat);
  (** Interrupt identification with only the receive interrupt enabled: bit 0 is
      clear when a byte is waiting (data available or timeout). *)
  iir_law b : let (v, b') := bus_rd8 (ub + 2) b in
    sent b' = sent b /\ stream b' = stream b /\ service b' = service b /\
    queue b `prefix_of` queue b' /\
    (if Z.land v 1 =? 0 then (Z.land v 15 = 4 \/ Z.land v 15 = 12) /\ queue b' <> [] else queue b = []);
  (** Receive buffer: the oldest byte waiting is taken. *)
  rbr_law b c q : queue b = c :: q -> let (v, b') := bus_rd8 ub b in
    v = c /\ 0 <= c < 256 /\ sent b' = sent b /\ stream b = c :: stream b' /\ service b' = service b /\
    q `prefix_of` queue b';
  (** Transmit holding register, when it is free. *)
  thr_law b c : busy b = 0%nat -> 0 <= c < 256 -> let b' := bus_wr8 ub c b in
    sent b' = sent b ++ [c] /\ stream b' = stream b /\ service b' = service b /\
    queue b `prefix_of` queue b';
  (** Claim: the source is in service until it is completed. *)
  claim_law b : service b = None -> let (id, b') := bus_rd32 claim_reg b in
    service b' = (if id =? 0 then None else Some id) /\
    sent b' = sent b /\ stream b' = stream b /\ queue b `prefix_of` queue b';
  complete_law b id : service b = Some id -> let b' := bus_wr32 claim_reg id b in
    service b' = None /\ sent b' = sent b /\ stream b' = stream b /\ queue b `prefix_of` queue b';
}.

(** *** Transmitting *)

Section Spec.
Context {B : Type} `{UartSpec B}.

(** The hart with another bus. *)
Definition at_uart (h : hart B) : Prop := UART_BASE h = ub.

(** [h'] is [h] with the bus moved on by accesses that received nothing. *)
Definition moved (h h' : hart B) : Prop :=
  h' = set_bus (bus h') h /\ stream (bus h') = stream (bus h) /\ service (bus h') = service (bus h) /\
  queue (bus h) `prefix_of` queue (bus h').

Lemma set_bus_bus (h : hart B) : set_bus (bus h) h = h.
Proof. by destruct h. Qed.

Lemma set_bus_twice (b b' : B) h : set_bus b (set_bus b' h) = set_bus b h.
Proof. done. Qed.

Lemma moved_refl h : moved h h.
Proof. split; [by rewrite set_bus_bus | done]. Qed.

Lemma moved_trans h1 h2 h3 : moved h1 h2 -> moved h2 h3 -> moved h1 h3.
Proof.
  intros (E1 & ? & ? & Hq1) (E2 & ? & ? & Hq2). split_and!; [| congruence | congruence | by etrans].
  by rewrite E2, E1.
Qed.

Lemma moved_at h h' : moved h h' -> at_uart h -> at_uart h'.
Proof. intros (-> & _) Ha. exact Ha. Qed.

(** The addresses of the registers. *)
Lemma reg_at (f : Z) (h : hart B) : at_uart h -> 0 <= f < 8 -> UART_BASE h +! f = ub + f.
Proof. unfold at_uart. intros -> Hf. pose proof ub_range. apply u32_small. mlia. Qed.

Lemma lsr_at h : at_uart h -> lsr h = (Ret (ub + 5), h).
Proof. intros Ha. unfold lsr, ask, mbind, TM_bind, mret, TM_ret. by rewrite (reg_at 5 h Ha). Qed.

Lemma iir_at h : at_uart h -> iir h = (Ret (ub + 2), h).
Proof. intros Ha. unfold iir, ask, mbind, TM_bind, mret, TM_ret. by rewrite (reg_at 2 h Ha). Qed.

Lemma thr_at h : at_uart h -> thr h = (Ret ub, h).
Proof. intros Ha. unfold thr, ask, mbind, TM_bind, mret, TM_ret. by rewrite (reg_at 0 h Ha), Z.add_0_r. Qed.

Lemma rbr_at h : at_uart h -> rbr h = (Ret ub, h).
Proof. exact (thr_at h). Qed.

Lemma wait_thre_free n : forall h, at_uart h -> (busy (bus h) < n)%nat ->
  exists h', wait_thre n h = (Ret tt, h') /\ moved h h' /\ busy (bus h') = 0%nat /\
    sent (bus h') = sent (bus h).
Proof.
  induction n as [|n IH]; intros h Ha Hb; [lia|]. cbn [wait_thre].
  unfold mbind, TM_bind. rewrite lsr_at by done. unfold inb. pose proof (lsr_law (bus h)) as Hl.
  destruct (bus_rd8 (ub + 5) (bus h)) as [v b']. destruct Hl as (Hs & Hst & Hsv & Hq & _ & Hthre).
  assert (moved h (set_bus b' h)) as Hm by done.
  destruct (Z.land v LSR_THRE =? 0) eqn:E.
  - destruct (IH (set_bus b' h)) as (h' & Hw & Hm' & Hb' & Hs'); [exact Ha | cbn; lia|].
    exists h'. split; [exact Hw|]. split; [by eapply moved_trans|]. split; [done|]. by rewrite Hs'.
  - eexists. split; [reflexivity|]. done.
Qed.

Lemma uart_putc_sends n h c : at_uart h -> (tx_time < n)%nat ->
  exists h', uart_putc n c h = (Ret tt, h') /\ moved h h' /\ sent (bus h') = sent (bus h) ++ [u8 c].
Proof.
  intros Ha Hn. destruct (wait_thre_free n h Ha) as (h1 & Hw & Hm & Hb & Hs).
  { pose proof (busy_bound (bus h)). lia. }
  pose proof (moved_at _ _ Hm Ha) as Ha1.
  destruct (thr_law (bus h1) (u8 c) Hb (u8_range c)) as (Ht & Hst & Hsv & Hq).
  exists (set_bus (bus_wr8 ub (u8 c) (bus h1)) h1). split_and!.
  - unfold uart_putc, mbind, TM_bind. by rewrite Hw, thr_at.
  - eapply moved_trans; [exact Hm|]. done.
  - cbn. by rewrite Ht, Hs.
Qed.

(** Every byte printed reaches the line once and in order: whatever arrives
    meanwhile, [uart_puts] ends, has transmitted exactly its bytes and has taken
    nothing from the receiver; the transmitter is written only when it is free. *)
Lemma uart_puts_all n s : forall h, at_uart h -> (tx_time < n)%nat ->
  exists h', uart_puts n s h = (Ret tt, h') /\ moved h h' /\ sent (bus h') = sent (bus h) ++ (u8 <$> s).
Proof.
  induction s as [|c s IH]; intros h Ha Hn; cbn [uart_puts].
  { exists h. split; [done|]. split; [apply moved_refl | by rewrite app_nil_r]. }
  destruct (uart_putc_sends n h c Ha Hn) as (h1 & Hp & Hm & Hsent).
  destruct (IH h1) as (h' & Hr & Hm' & Hsent'); [by eapply moved_at | done|].
  exists h'. split; [unfold mbind, TM_bind; by rewrite Hp|]. split; [by eapply moved_trans|].
  rewrite Hsent', Hsent, <- app_assoc. done.
Qed.

End Spec.

End Uart.
