(* ===== verification/Trap.v ===== *)
(** The trap handler of the booter (src/booter/trap.c): the timer tick, and the
    characters of the UART handed to the console.

    The console of Console.v records the characters it prints; here they are sent
    through the UART when the operation that prints them ends.  The timer is the
    function [timer]: its value at each read of one of its two CSRs. *)

From S2P Require Import Prelude Print Fdt Console LineEditor Uart.

Module Trap.

Import Print Console LineEditor Uart.

Local Open Scope c_scope.

Definition SSTATUS_SIE : Z := 1 <<! 1.

Definition SIE_STIE : Z := 1 <<! 5.

Definition SIE_SEIE : Z := 1 <<! 9.

Definition INTR : Z := 0x80000000.

(** The characters of a trace. *)
Definition output (t : list event) : list Z :=
  omap (fun e => match e with Put c => Some c | _ => None end) t.

Definition exc_name (code : Z) : list Z :=
  if code =? 0 then "insn_addr_misaligned"
  else if code =? 1 then "insn_access_fault"
  else if code =? 2 then "illegal_insn"
  else if code =? 3 then "breakpoint"
  else if code =? 4 then "load_addr_misaligned"
  else if code =? 5 then "load_access_fault"
  else if code =? 6 then "store_addr_misaligned"
  else if code =? 7 then "store_access_fault"
  else if code =? 8 then "ecall_u"
  else if code =? 9 then "ecall_s"
  else if code =? 11 then "ecall_m"
  else "exception".

(** [csrw stimecmph] and [csrw stimecmp] on the 64-bit comparator. *)
Definition cmp_hi (x cmp : Z) : Z := x * 4294967296 + cmp mod 4294967296.

Definition cmp_lo (x cmp : Z) : Z := cmp / 4294967296 * 4294967296 + x.

Section Handler.
Context {B : Type} `{Bus B} `{Machine} (timer : nat -> Z) (trap_entry : Z) (tx rx : nat).

(** Runs an operation of the console and sends what it printed. *)
Definition lift {A} (c : CM A) : TM B A := fun h =>
  let (r, w) := c (con h) in
  match uart_puts tx (output (drop (length (trace (con h))) (trace w))) (set_con w h) with
  | (Ret _, h') => (r, h')
  | (Stop, h') => (Stop, h')
  | (NoFuel, h') => (NoFuel, h')
  end.

Definition trap_init : TM B unit :=
  mod_hart (fun h => set_csrs trap_entry (sstatus h) (sie h) h);;
  mod_hart (fun h => set_csrs (stvec h) (Z.lor (sstatus h) SSTATUS_SIE) (sie h) h);;
  mod_hart (fun h => set_csrs (stvec h) (sstatus h) (Z.lor (sie h) (Z.lor SIE_STIE SIE_SEIE)) h).

(** One [csrr] of [timeh] or [time]. *)
Definition csrr_time (hi : bool) : TM B Z :=
  n ← ask clk;
  mod_hart (fun h => set_timer (stimecmp h) (S n) h);;
  mret (if hi then high (timer n) else u32 (timer n)).

Fixpoint rdtime64_loop (fuel : nat) : TM B Z :=
  match fuel with
  | O => fun h => (NoFuel, h)
  | S fuel =>
      hi1 ← csrr_time true; lo ← csrr_time false; hi2 ← csrr_time true;
      if negb (hi1 =? hi2) then rdtime64_loop fuel
      else mret (Z.lor (Z.shiftl hi2 32) lo)
  end.

(** Two rounds are enough unless the high word changes twice within six reads. *)
Definition rdtime64 : TM B Z := rdtime64_loop 2.

Definition wr_stimecmp (val : Z) : TM B unit :=
  let lo := u32 (Z.land val 0xFFFFFFFF) in
  let hi := u32 (Z.shiftr val 32) in
  mod_hart (fun h => set_timer (cmp_hi 0xFFFFFFFF (stimecmp h)) (clk h) h);;
  mod_hart (fun h => set_timer (cmp_lo lo (stimecmp h)) (clk h) h);;
  mod_hart (fun h => set_timer (cmp_hi hi (stimecmp h)) (clk h) h).

Definition timer_init (hartid : Z) : TM B unit :=
  mod_hart (fun h => set_counts hartid (g_ticks h) h);;
  now ← rdtime64; wr_stimecmp (u64 (now + 100000)).

(** [for(;;){ int ch = uart_getc_nonblock(); if(ch < 0) break; console_rx_char((char)ch); }] *)
Fixpoint rx_loop (fuel : nat) : TM B unit :=
  match fuel with
  | O => fun h => (NoFuel, h)
  | S fuel =>
      ch ← uart_getc_nonblock;
      if ch <? 0 then mret tt else lift (console_rx_char (u8 ch));; rx_loop fuel
  end.

(** The dispatch on the interrupt identification, until none is pending. *)
Fixpoint iir_loop (fuel : nat) : TM B unit :=
  match fuel with
  | O => fun h => (NoFuel, h)
  | S fuel =>
      iirv ← uart_iir_read;
      if negb (Z.land iirv 0x01 =? 0) then mret tt
      else
        let iid := Z.land iirv 0x0F in
        (if iid =? 0x02 then uart_irq_disable_thre
         else if (iid =? 0x04) || (iid =? 0x0C) then rx_loop rx
         else if iid =? 0x06 then uart_lsr_read;; mret tt
         else mret tt);;
        iir_loop fuel
  end.

Definition external_irq : TM B unit :=
  n ← ask g_hart;
  let ctxS := n *! 2 +! 2 in
  id ← plic_claim ctxS;
  if id =? 0 then mret tt
  else (if id =? 10 then iir_loop rx else mret tt);; plic_complete ctxS id.

Definition timer_irq : TM B unit :=
  mod_hart (fun h => set_counts (g_hart h) (g_ticks h +! 1) h);;
  n ← ask g_ticks;
  lift (console_on_tick n);;
  now ← rdtime64; wr_stimecmp (u64 (now + 100000)).

Definition trap_handle_c (scause sepc stval : Z) : TM B Z :=
  if negb (Z.land scause INTR =? 0) then
    let code := Z.land scause 0x7FFFFFFF in
    (if code =? 5 then timer_irq else if code =? 9 then external_irq else mret tt);;
    mret sepc
  else
    uart_puts tx "\r\n[trap] ";; uart_puts tx (exc_name scause);;
    uart_puts tx " code=";; uart_puts tx (uart_putdec scause);;
    uart_puts tx " sepc=";; uart_puts tx (uart_putdec sepc);;
    uart_puts tx " stval=";; uart_puts tx (uart_putdec stval);;
    mret sepc.

End Handler.

(** ** What the console prints is appended to its trace *)

Definition grows {A} (c : CM A) : Prop := forall w, exists l, trace (c w).2 = trace w ++ l.

Lemma grows_bind {A C} (c : CM A) (f : A -> CM C) : grows c -> (forall a, grows (f a)) -> grows (c ≫= f).
Proof.
  intros Hc Hf w. unfold mbind, CM_bind. destruct (Hc w) as [l Hl].
  destruct (c w) as [[a| |] w']; cbn [snd] in *; [|by exists l..].
  destruct (Hf a w') as [l' Hl']. exists (l ++ l'). by rewrite Hl', Hl, app_assoc.
Qed.

Lemma grows_ret {A} (a : A) : grows (mret a).
Proof. intros w. exists []. by rewrite app_nil_r. Qed.

Lemma grows_get {A} (f : console -> A) : grows (get f).
Proof. intros w. exists []. by rewrite app_nil_r. Qed.

Lemma grows_ed f : grows (mod_ed f).
Proof. intros w. exists []. by rewrite app_nil_r. Qed.

Lemma grows_vars f : grows (mod_vars f).
Proof. intros w. exists []. by rewrite app_nil_r. Qed.

Lemma grows_mem m : grows (set_mem m).
Proof. intros w. exists []. by rewrite app_nil_r. Qed.

Lemma grows_emit l : grows (emit l).
Proof. intros w. by exists l. Qed.

Lemma grows_puts s : grows (puts s).
Proof. apply grows_emit. Qed.

Lemma grows_stop : grows stop.
Proof. intros w. exists []. by rewrite app_nil_r. Qed.

Lemma grows_nofuel {A} : grows (fun s => (@NoFuel A, s)).
Proof. intros w. exists []. by rewrite app_nil_r. Qed.

Create HintDb grows.

#[export] Hint Resolve grows_ret grows_get grows_ed grows_vars grows_mem grows_emit grows_puts grows_stop
  grows_nofuel : grows.

Ltac grows_step :=
  match goal with
  | |- forall _, _ => intros ?
  | |- grows (if ?b then _ else _) => destruct b
  | |- grows (match ?x with _ => _ end) => destruct x
  | |- grows (_ ≫= _) => apply grows_bind
  | |- _ => solve [auto 2 with grows]
  end.

Ltac grows_cmd := repeat (grows_step; cbn zeta).

Lemma grows_redraw : grows redraw_line.
Proof. unfold redraw_line, prompt. grows_cmd. Qed.

Lemma grows_dump n : forall a i, grows (dump_loop n a i).
Proof. induction n as [|n IH]; intros a i; cbn [dump_loop]; unfold rd8; grows_cmd; apply IH. Qed.

#[export] Hint Resolve grows_redraw grows_dump : grows.

Lemma grows_recall i : grows (hist_recall_index i).
Proof. unfold hist_recall_index. grows_cmd. Qed.

#[export] Hint Resolve grows_recall : grows.

Lemma grows_prev : grows hist_prev.
Proof. unfold hist_prev. grows_cmd. Qed.

Lemma grows_next : grows hist_next.
Proof. unfold hist_next. grows_cmd. Qed.

#[export] Hint Resolve grows_prev grows_next : grows.

Lemma grows_bootx `{Machine} s : grows (bootx_handle_command s).
Proof.
  unfold bootx_handle_command, bx_bootelf, bx_bootbin, bx_set, bx_reset, bx_sbi_reset, cmd_go, jump. grows_cmd.
Qed.

#[export] Hint Resolve grows_bootx : grows.

Lemma grows_command `{Machine} s t : grows (run_command s t).
Proof.
  unfold run_command, cmd_help, cmd_uptime, line_two, line_csr, csr_rd_by_name, sbi_system_reset,
    term_clear, line_go, cmd_mem_rd, cmd_mem_wr, wr8, jump. grows_cmd.
Qed.

#[export] Hint Resolve grows_command : grows.

Lemma grows_rx `{Machine} c : grows (console_rx_char c).
Proof. unfold console_rx_char, rx_char_with, handle_esc_seq, handle_line_with, prompt. grows_cmd. Qed.

Lemma grows_tick n : grows (console_on_tick n).
Proof. unfold console_on_tick. grows_cmd. Qed.

Lemma output_app t1 t2 : output (t1 ++ t2) = output t1 ++ output t2.
Proof. apply omap_app. Qed.

(** ** Receiving *)

Section Spec.
Context {B : Type} `{UartSpec B} `{Machine} (timer : nat -> Z) (tx rx : nat) (Htx : (tx_time < tx)%nat).

(** [h'] is [h] after the characters [cs] went through the console, which printed
    the characters of [l]. *)
Record received (h h' : hart B) (cs : list Z) (l : list event) : Prop := {
  rc_hart : h' = set_con (con h') (set_bus (bus h') h);
  rc_stream : stream (bus h) = cs ++ stream (bus h');
  rc_service : service (bus h') = service (bus h);
  rc_queue : queue (bus h) `prefix_of` cs ++ queue (bus h');
  rc_session : session (Key <$> cs) (con h) = (Ret tt, con h');
  rc_trace : trace (con h') = trace (con h) ++ l;
  rc_sent : sent (bus h') = sent (bus h) ++ (u8 <$> output l);
  rc_ok : editor_ok (ed (con h')) /\ view_of (ed (con h')) = foldl effect (view_of (ed (con h))) (Key <$> cs);
}.

(** The state a loop of the handler needs: the console takes what is to come. *)
Definition listening (h : hart B) : Prop :=
  at_uart h /\ editor_ok (ed (con h)) /\
  Forall (fun s => leaves s = false) (commands (Key <$> stream (bus h)) (view_of (ed (con h)))).

Lemma session_app l1 l2 w : session (l1 ++ l2) w = (session l1;; session l2) w.
Proof.
  revert w. induction l1 as [|i l1 IH]; intros w; [done|]. cbn [app session]. unfold mbind, CM_bind in *.
  destruct (feed i w) as [[[]| |] w']; [apply IH | done | done].
Qed.

Lemma commands_app l1 l2 v : commands (l1 ++ l2) v = commands l1 v ++ commands l2 (foldl effect v l1).
Proof. revert v. induction l1 as [|i l1 IH]; intros v; [done|]. cbn [app commands foldl]. by rewrite IH, app_assoc. Qed.

(** Bytes moved without being received. *)
Lemma received_moved h h' : moved h h' -> sent (bus h') = sent (bus h) -> editor_ok (ed (con h)) ->
  received h h' [] [].
Proof.
  intros (E & Hst & Hsv & Hq) Hs Hok. rewrite E in *. split; cbn [con set_bus bus] in *; try done; by rewrite ?app_nil_r.
Qed.

Lemma received_trans h1 h2 h3 cs1 cs2 l1 l2 :
  received h1 h2 cs1 l1 -> received h2 h3 cs2 l2 -> received h1 h3 (cs1 ++ cs2) (l1 ++ l2).
Proof.
  intros [E1 St1 Sv1 Q1 Se1 T1 O1 [K1 V1]] [E2 St2 Sv2 Q2 Se2 T2 O2 [K2 V2]]. split.
  - rewrite E2, E1. done.
  - by rewrite St1, St2, app_assoc.
  - congruence.
  - rewrite <- app_assoc. etrans; [exact Q1|]. by apply prefix_app.
  - rewrite fmap_app, session_app. unfold mbind, CM_bind. by rewrite Se1.
  - by rewrite T2, T1, app_assoc.
  - by rewrite O2, O1, output_app, fmap_app, app_assoc.
  - split; [done|]. by rewrite V2, V1, fmap_app, foldl_app.
Qed.

Lemma received_listening h h' cs l : received h h' cs l -> listening h -> listening h'.
Proof.
  intros [E St _ _ _ _ _ [K V]] (Ha & Hok & Hc). split; [|split; [done|]].
  - rewrite E. exact Ha.
  - rewrite V. rewrite St, fmap_app, commands_app in Hc. by apply Forall_app in Hc as [_ Hc].
Qed.

(** An operation of the console that returns, with its output sent. *)
Lemma lift_runs {A} (c : CM A) (a : A) w h : at_uart h -> grows c -> c (con h) = (Ret a, w) ->
  exists h' l, lift tx c h = (Ret a, h') /\ h' = set_con w (set_bus (bus h') h) /\
    trace w = trace (con h) ++ l /\ sent (bus h') = sent (bus h) ++ (u8 <$> output l) /\
    stream (bus h') = stream (bus h) /\ service (bus h') = service (bus h) /\
    queue (bus h) `prefix_of` queue (bus h').
Proof.
  intros Ha Hg Hc. destruct (Hg (con h)) as [l Hl]. rewrite Hc in Hl. cbn [snd] in Hl.
  destruct (uart_puts_all tx (output l) (set_con w h)) as (h' & Hp & (E & Hst & Hsv & Hq) & Hs); [exact Ha | done|].
  exists h', l. split_and!; try done.
  unfold lift. rewrite Hc, Hl, drop_app_length. cbn [fst snd]. by rewrite Hp.
Qed.

Lemma uart_getc_spec h : at_uart h ->
  exists ch h', uart_getc_nonblock h = (Ret ch, h') /\ h' = set_bus (bus h') h /\
    sent (bus h') = sent (bus h) /\ service (bus h') = service (bus h) /\
    (ch = -1 /\ queue (bus h) = [] /\ moved h h' \/
     is_u8 ch /\ stream (bus h) = ch :: stream (bus h') /\ queue (bus h) `prefix_of` ch :: queue (bus h')).
Proof.
  intros Ha. unfold uart_getc_nonblock, mbind, TM_bind. rewrite lsr_at by done. unfold inb at 1.
  pose proof (lsr_law (bus h)) as Hl. destruct (bus_rd8 (ub + 5) (bus h)) as [v b1].
  destruct Hl as (Hs & Hst & Hsv & Hq & Hdr & _). destruct (Z.land v LSR_DR =? 0).
  - eexists _, _. split; [reflexivity|]. split_and!; try done. by left.
  - rewrite rbr_at by done. unfold inb. cbn [set_bus bus].
    destruct (queue b1) as [|c q] eqn:Eq; [done|]. pose proof (rbr_law b1 c q Eq) as Hr.
    destruct (bus_rd8 ub b1) as [v2 b2]. destruct Hr as (-> & Hc & Hs2 & Hst2 & Hsv2 & Hq2).
    eexists _, _. split; [reflexivity|]. cbn [bus set_bus]. split_and!; try done; [congruence | congruence|].
    right. split; [done|]. split; [congruence|]. etrans; [exact Hq|]. by apply prefix_cons.
Qed.

(** One character taken from the UART and given to the console. *)
Lemma rx_one h ch h1 : listening h -> h1 = set_bus (bus h1) h -> sent (bus h1) = sent (bus h) ->
  service (bus h1) = service (bus h) -> is_u8 ch -> stream (bus h) = ch :: stream (bus h1) ->
  queue (bus h) `prefix_of` ch :: queue (bus h1) ->
  exists h' l, lift tx (console_rx_char (u8 ch)) h1 = (Ret tt, h') /\ received h h' [ch] l.
Proof.
  intros (Ha & Hok & Hc) E Hs Hsv Hch Hst Hq. rewrite u8_small by done.
  rewrite Hst in Hc. cbn [fmap list_fmap commands] in Hc. apply Forall_app in Hc as [Hc _].
  destruct (rx_returns (con h) ch Hok Hc) as (w & Hr & Hok' & Hv).
  assert (con h1 = con h) as Ec by (rewrite E; done).
  destruct (lift_runs (console_rx_char ch) tt w h1) as (h' & l & Hl & E' & Ht & Hs' & Hst' & Hsv' & Hq');
    [rewrite E; exact Ha | apply grows_rx | by rewrite Ec |].
  assert (con h' = w) as Ew by (rewrite E'; done).
  exists h', l. split; [done|]. rewrite <- Ew in *. split; try done.
  - rewrite E', E. done.
  - by rewrite Hst, Hst'.
  - congruence.
  - etrans; [exact Hq|]. by apply (prefix_app [ch]).
  - cbn [fmap list_fmap session]. unfold mbind, CM_bind. cbn [feed]. by rewrite Hr.
  - by rewrite Ht, Ec.
  - by rewrite Hs', Hs.
Qed.

Lemma rx_loop_drains n : forall h, listening h -> (length (stream (bus h)) < n)%nat ->
  exists h' cs l, rx_loop tx n h = (Ret tt, h') /\ received h h' cs l /\ queue (bus h) `prefix_of` cs.
Proof.
  induction n as [|n IH]; intros h Hl Hn; [lia|]. cbn [rx_loop]. pose proof Hl as (Ha & Hok & _).
  destruct (uart_getc_spec h Ha) as (ch & h1 & Hg & E & Hs & Hsv & [(-> & Hq & Hm) | (Hch & Hst & Hq)]).
  - exists h1, [], []. unfold mbind, TM_bind. rewrite Hg. split; [done|].
    split; [by apply received_moved | by rewrite Hq].
  - destruct (rx_one h ch h1) as (h2 & l & Hr & Hrec); try done.
    destruct (IH h2) as (h' & cs & l' & Hr' & Hrec' & Hq').
    { by eapply received_listening. }
    { rewrite Hst in Hn. pose proof (rc_stream _ _ _ _ Hrec) as Hst2. rewrite Hst in Hst2.
      injection Hst2 as Hst2. rewrite <- Hst2. cbn [length] in Hn. lia. }
    exists h', (ch :: cs), (l ++ l'). split; [|split].
    + unfold mbind, TM_bind. rewrite Hg, (proj2 (Z.ltb_ge ch 0)) by mlia. by rewrite Hr.
    + by apply (received_trans h h2 h' [ch] cs).
    + etrans; [apply (rc_queue _ _ _ _ Hrec)|]. by apply (prefix_app [ch]).
Qed.

Lemma uart_iir_spec h : at_uart h ->
  exists v h', uart_iir_read h = (Ret v, h') /\ moved h h' /\ sent (bus h') = sent (bus h) /\
    (if Z.land v 1 =? 0 then (Z.land v 15 = 4 \/ Z.land v 15 = 12) /\ queue (bus h') <> []
     else queue (bus h) = []).
Proof.
  intros Ha. unfold uart_iir_read, mbind, TM_bind. rewrite iir_at by done. unfold inb.
  pose proof (iir_law (bus h)) as Hl. destruct (bus_rd8 (ub + 2) (bus h)) as [v b].
  destruct Hl as (Hs & Hst & Hsv & Hq & Hv). eexists _, _. split; [reflexivity|]. done.
Qed.

Lemma iir_loop_drains n : forall h, listening h ->
  (length (stream (bus h)) < n)%nat -> (length (stream (bus h)) < rx)%nat ->
  exists h' cs l, iir_loop tx rx n h = (Ret tt, h') /\ received h h' cs l /\ queue (bus h) `prefix_of` cs.
Proof.
  induction n as [|n IH]; intros h Hl Hn Hrx; [lia|]. cbn [iir_loop]. pose proof Hl as (Ha & Hok & _).
  destruct (uart_iir_spec h Ha) as (v & h1 & Hi & Hm & Hs & Hv).
  pose proof (received_moved h h1 Hm Hs Hok) as Hrec1. unfold mbind, TM_bind. rewrite Hi.
  destruct (Z.land v 1 =? 0); cbn [negb].
  2: { exists h1, [], []. split; [done|]. split; [done | by rewrite Hv]. }
  destruct Hv as [Hid Hne]. assert ((Z.land v 15 =? 2) = false /\ (Z.land v 15 =? 4) || (Z.land v 15 =? 12) = true)
    as [-> ->] by (destruct Hid as [-> | ->]; done).
  pose proof (received_listening _ _ _ _ Hrec1 Hl) as Hl1.
  pose proof (rc_stream _ _ _ _ Hrec1) as Hst1. cbn [app] in Hst1.
  destruct (rx_loop_drains rx h1 Hl1) as (h2 & cs & l & Hr & Hrec2 & Hq2); [by rewrite <- Hst1|].
  pose proof (rc_stream _ _ _ _ Hrec2) as Hst2.
  assert (cs <> []) as Hcs by (intros ->; by apply prefix_nil_inv in Hq2).
  assert (length (stream (bus h2)) < length (stream (bus h)))%nat as Hlt.
  { rewrite Hst1, Hst2, length_app. destruct cs; [done | cbn [length]; lia]. }
  destruct (IH h2) as (h' & cs' & l' & Hr' & Hrec' & Hq'); [by eapply received_listening | lia | lia|].
  exists h', (cs ++ cs'), (l ++ l'). rewrite Hr, Hr'. split; [done|].
  pose proof (received_trans _ _ _ _ _ _ _ Hrec1 (received_trans _ _ _ _ _ _ _ Hrec2 Hrec')) as Hrec.
  split; [exact Hrec|]. etrans; [apply (rc_queue _ _ _ _ Hrec1)|]. etrans; [exact Hq2|]. by apply prefix_app_r.
Qed.

(** The register [plic_claim] and [plic_complete] use: the claim register of the
    supervisor context, which is context 2 * hart + 1 of the controller. *)
Definition at_plic (h : hart B) : Prop :=
  plic_claimc_addr (g_plic h) (g_hart h *! 2 +! 2) = claim_reg.

(** C10: what is typed reaches the console.  On an external interrupt the handler
    claims the interrupt of the UART, hands to the console the bytes received, in
    order and none lost (all that were waiting, and those that arrived while it
    worked), sends what the console prints, completes the interrupt and returns to
    the interrupted instruction; it never spins, as long as the bytes to come are
    fewer than the turns given. *)
Theorem trap_receives (h : hart B) (sepc stval : Z) (Hplic : at_plic h) (Hidle : service (bus h) = None)
    (Hid : (bus_rd32 claim_reg (bus h)).1 = 10)
    (Hlisten : listening h) (Hrx : (length (stream (bus h)) < rx)%nat) :
  exists h' cs l, trap_handle_c timer tx rx 0x80000009 sepc stval h = (Ret sepc, h') /\
    h' = set_con (con h') (set_bus (bus h') h) /\
    stream (bus h) = cs ++ stream (bus h') /\ queue (bus h) `prefix_of` cs /\
    session (Key <$> cs) (con h) = (Ret tt, con h') /\
    trace (con h') = trace (con h) ++ l /\ sent (bus h') = sent (bus h) ++ (u8 <$> output l) /\
    service (bus h') = None.
Proof.
  pose proof (claim_law (bus h) Hidle) as Hcl. unfold trap_handle_c, external_irq.
  change (Z.land 0x80000009 INTR =? 0) with false. change (Z.land 0x80000009 0x7FFFFFFF) with 9.
  cbn [negb Z.eqb Pos.eqb]. unfold mbind, TM_bind, ask, plic_claim, ind, mbind, TM_bind, ask.
  unfold at_plic in Hplic. rewrite Hplic.
  destruct (bus_rd32 claim_reg (bus h)) as [id b1]. cbn [fst] in Hid. subst id.
  destruct Hcl as (Hsv & Hs & Hst & Hq). cbn [Z.eqb Pos.eqb] in *.
  assert (listening (set_bus b1 h)) as Hl1.
  { destruct Hlisten as (Ha & Hok & Hc). split; [exact Ha|]. split; [exact Hok|]. cbn [bus set_bus con]. by rewrite Hst. }
  destruct (iir_loop_drains rx (set_bus b1 h) Hl1) as (h2 & cs & l & Hr & Hrec & Hqc);
    [cbn [bus set_bus]; by rewrite Hst..|].
  rewrite Hr. unfold plic_complete, mbind, TM_bind, ask, outd.
  destruct Hrec as [E St Sv _ Se T O _]. cbn [bus set_bus con] in *.
  assert (plic_claimc_addr (g_plic h2) (g_hart h *! 2 +! 2) = claim_reg) as -> by (rewrite E; exact Hplic).
  destruct (complete_law (bus h2) 10) as (Hsv' & Hs' & Hst' & _); [by rewrite Sv|].
  eexists _, cs, l. split; [reflexivity|]. cbn [bus set_bus con]. split_and!; try done.
  - by rewrite E.
  - by rewrite Hst', <- Hst.
  - by etrans.
  - by rewrite Hs', O, Hs.
Qed.

(** *** The timer *)

Lemma rdtime64_value (h : hart B) : slow timer ->
  exists n, (clk h <= n)%nat /\ exists k, rdtime64 timer h = (Ret (timer n), set_timer (stimecmp h) k h) /\ (n < k)%nat.
Proof using Type.
  clear Htx. intros Hs. set (n := clk h). unfold rdtime64. cbn [rdtime64_loop].
  unfold csrr_time, mbind, TM_bind, ask, mod_hart, mret, TM_ret. cbn [set_timer clk stimecmp]. fold n.
  destruct (Z.eqb_spec (high (timer n)) (high (timer (S (S n))))) as [Heq|Hne]; cbn [negb].
  - exists (S n). split; [lia|]. exists (S (S (S n))). split; [|lia].
    pose proof (read_consistent timer n Hs Heq) as Hv. cbn [Nat.add] in Hv. by rewrite <- Heq, Hv.
  - pose proof (second_round timer n Hs Hne) as Heq. cbn [Nat.add] in Heq.
    cbn [set_timer clk stimecmp]. rewrite Heq, Z.eqb_refl. cbn [negb].
    exists (4 + n)%nat. split; [lia|]. exists (6 + n)%nat. split; [|lia].
    pose proof (read_consistent timer (3 + n) Hs Heq) as Hv. cbn [Nat.add] in Hv. rewrite Heq in Hv. by rewrite Hv.
Qed.

Lemma wr_stimecmp_value v (h : hart B) : is_u64 v -> wr_stimecmp v h = (Ret tt, set_timer v (clk h) h).
Proof using Type.
  clear Htx timer rx. intros Hv. unfold wr_stimecmp, mbind, TM_bind, mod_hart. cbn [set_timer stimecmp clk]. unfold set_timer.
  cbn. do 2 f_equal. unfold cmp_hi, cmp_lo. change 0xFFFFFFFF with (Z.ones 32).
  rewrite Z.land_ones, Z.shiftr_div_pow2 by lia. change (2 ^ 32) with 4294967296. change (Z.ones 32) with 4294967295. mlia.
Qed.

(** The comparator during the three writes: it is above every time that a 64-bit
    counter reaches in practice until the last write, so no tick fires early. *)
Lemma wr_stimecmp_late v cmp : is_u64 cmp ->
  4294967295 * 4294967296 <= cmp_hi 0xFFFFFFFF cmp /\
  4294967295 * 4294967296 <= cmp_lo (u32 (Z.land v 0xFFFFFFFF)) (cmp_hi 0xFFFFFFFF cmp).
Proof. intros Hc. unfold cmp_hi, cmp_lo. mlia. Qed.

(** A timer interrupt is one tick.  The handler counts it, tells the console,
    sends what the console prints, arms the next tick 100000 counts after a time
    read while it ran, and returns to the interrupted instruction; the receiver
    and the interrupt controller are left alone. *)
Theorem trap_ticks (h : hart B) (sepc stval : Z) (Hslow : slow timer) (Ha : at_uart h)
    (Hok : editor_ok (ed (con h))) :
  let n := g_ticks h +! 1 in
  exists h' l k, trap_handle_c timer tx rx 0x80000005 sepc stval h = (Ret sepc, h') /\
    g_ticks h' = n /\ console_on_tick n (con h) = (Ret tt, con h') /\ editor_ok (ed (con h')) /\
    view_of (ed (con h')) = view_of (ed (con h)) /\
    trace (con h') = trace (con h) ++ l /\ sent (bus h') = sent (bus h) ++ (u8 <$> output l) /\
    (clk h <= k < clk h')%nat /\ stimecmp h' = u64 (timer k + 100000) /\
    stream (bus h') = stream (bus h) /\ service (bus h') = service (bus h).
Proof.
  intros n. destruct (on_tick_returns (con h) n Hok) as (w & Hw & Hok' & Hv).
  set (h0 := set_counts (g_hart h) n h).
  destruct (lift_runs (console_on_tick n) tt w h0) as (h1 & l & Hl & E & Ht & Hs & Hst & Hsv & _);
    [exact Ha | apply grows_tick | exact Hw|].
  destruct (rdtime64_value h1 Hslow) as (k & Hk & k' & Hr & Hk').
  exists (set_timer (u64 (timer k + 100000)) k' h1), l, k.
  assert (con h1 = w) as Ew by (rewrite E; done).
  split.
  - unfold trap_handle_c. change (Z.land 0x80000005 INTR =? 0) with false.
    change (Z.land 0x80000005 0x7FFFFFFF) with 5. cbn [negb Z.eqb Pos.eqb]. unfold timer_irq, mbind, TM_bind, mod_hart, ask.
    fold n. fold h0. change (g_ticks h0) with n. rewrite Hl, Hr.
    rewrite wr_stimecmp_value by (unfold u64; mlia). done.
  - cbn [set_timer g_ticks con bus clk stimecmp]. rewrite Ew. split_and!; try done; try (rewrite E; done).
    assert (clk h1 = clk h) by (rewrite E; done). lia.
Qed.

End Spec.

(** ** A concrete machine

    A UART with three bytes in its FIFO and a transmitter that needs two polls per
    byte. *)

Module Example.

Record toy := Toy {
  t_sent : list Z;
  t_busy : nat;
  t_queue : list Z;
  t_pending : Z;
  t_service : option Z;
}.

Definition base : Z := 0x10000000.

Definition creg : Z := 0x0c201004.

Definition toy_busy (t : toy) : nat := Nat.min (t_busy t) 2.

Definition toy_rd8 (a : Z) (t : toy) : Z * toy :=
  if a =? base + 5 then
    ((if bool_decide (t_queue t = []) then 0 else 1) + (if Nat.eqb (toy_busy t) 0 then 32 else 0),
     Toy (t_sent t) (toy_busy t - 1) (t_queue t) (t_pending t) (t_service t))
  else if a =? base + 2 then (if bool_decide (t_queue t = []) then 0xc1 else 0xc4, t)
  else if a =? base then
    (u8 (default 0 (head (t_queue t))), Toy (t_sent t) (t_busy t) (tail (t_queue t)) (t_pending t) (t_service t))
  else (0, t).

#[local] Instance toy_bus : Bus toy := {|
  bus_rd8 := toy_rd8;
  bus_wr8 := fun a v t =>
    if a =? base then Toy (t_sent t ++ [v]) 2 (t_queue t) (t_pending t) (t_service t) else t;
  bus_rd32 := fun a t =>
    if a =? creg
    then (t_pending t, Toy (t_sent t) (t_busy t) (t_queue t) 0 (if t_pending t =? 0 then None else Some (t_pending t)))
    else (0, t);
  bus_wr32 := fun a v t =>
    if a =? creg then Toy (t_sent t) (t_busy t) (t_queue t) (t_pending t) None else t;
|}.

Definition toy_queue (t : toy) : list Z := u8 <$> t_queue t.

#[local] Instance toy_spec : UartSpec toy.
Proof.
  refine {| ub := base; claim_reg := creg; tx_time := 2; sent := t_sent; busy := toy_busy;
    queue := toy_queue; stream := toy_queue; service := t_service |}.
  - unfold base. lia.
  - done.
  - intros b. unfold toy_busy. lia.
  - intros b. cbn. unfold toy_rd8. rewrite Z.eqb_refl. cbn. split_and!; try done.
    + unfold toy_queue. case_bool_decide as Hq; [rewrite Hq|]; destruct (Nat.eqb (toy_busy b) 0);
        cbn; try done; cbn; by destruct (t_queue b).
    + unfold toy_busy. cbn [t_busy].
      assert (Nat.min (t_busy b) 2 = 0 \/ Nat.min (t_busy b) 2 = 1 \/ Nat.min (t_busy b) 2 = 2)%nat
        as [-> | [-> | ->]] by lia; case_bool_decide; vm_compute; lia.
  - intros b. cbn. unfold toy_rd8. rewrite (proj2 (Z.eqb_neq (base + 2) (base + 5))), Z.eqb_refl by lia.
    split_and!; try done. unfold toy_queue. case_bool_decide as Hq; cbn.
    + by rewrite Hq.
    + split; [by left|]. by destruct (t_queue b).
  - intros b c q Hq. cbn. unfold toy_rd8. change (base =? base + 5) with false. change (base =? base + 2) with false.
    rewrite Z.eqb_refl. unfold toy_queue in *. destruct (t_queue b) as [|d l]; [done|]. cbn in *.
    injection Hq as <- <-. split_and!; try done; apply u8_range.
  - intros b c _ Hc. cbn. split_and!; done.
  - intros b Hs. cbn. split_and!; done.
  - intros b id Hs. cbn. split_and!; done.
Defined.

#[local] Instance machine : Machine :=
  {| csr_read := fun _ _ => 0; entry := fun _ _ => None; name_fuel := 0; walk_fuel := 0 |}.

(** An editor that was just initialised, and "hi" with a newline in the FIFO. *)
Definition start : hart toy :=
  Hart LineEditor.Example.cold (Toy [] 1 "hi\r" 10 None) base 0x0c000000 0 0 0 0 0 0 0.

Lemma cold_ok : editor_ok (ed LineEditor.Example.cold).
Proof.
  destruct (init_ok LineEditor.Example.cold LineEditor.Example.cold_sized) as (w' & Hi & Hok).
  injection Hi as <-. exact Hok.
Qed.

Lemma toy_fast : (tx_time < 3)%nat.
Proof. cbn. lia. Qed.

Lemma trap_receives_witness :
  exists h' cs l, trap_handle_c (fun _ => 0) 3 4 0x80000009 0x80200000 0 start = (Ret 0x80200000, h') /\
    stream (bus start) = cs ++ stream (bus h') /\ queue (bus start) `prefix_of` cs /\
    sent (bus h') = u8 <$> output l /\ service (bus h') = None.
Proof.
  destruct (trap_receives (H0 := toy_spec) (fun _ => 0) 3 4 toy_fast start 0x80200000 0) as
    (h' & cs & l & Hr & _ & Hst & Hq & _ & _ & Hs & Hsv).
  - vm_compute. reflexivity.
  - reflexivity.
  - reflexivity.
  - split; [reflexivity|]. split; [exact cold_ok|]. by_computation.
  - vm_compute. lia.
  - exists h', cs, l. split; [exact Hr|]. split; [exact Hst|]. split; [exact Hq|]. split; [exact Hs | exact Hsv].
Defined.

Lemma trap_ticks_example :
  exists h' l k, trap_handle_c (fun n => Z.of_nat n `min` 1000) 3 4 0x80000005 0x80200000 0 start = (Ret 0x80200000, h') /\
    g_ticks h' = 1 /\ sent (bus h') = u8 <$> output l /\
    stimecmp h' = u64 (Z.of_nat k `min` 1000 + 100000).
Proof.
  destruct (trap_ticks (H0 := toy_spec) (fun n => Z.of_nat n `min` 1000) 3 4 toy_fast start 0x80200000 0) as
    (h' & l & k & Hr & Ht & _ & _ & _ & _ & Hs & _ & Hc & _).
  - intros n. split_and!; mlia.
  - reflexivity.
  - exact cold_ok.
  - exists h', l, k. split; [exact Hr|]. split; [exact Ht|]. split; [exact Hs | exact Hc].
Defined.

End Example.

End Trap.
