(* ===== verification/Booter.v ===== *)
(** The entry of CaribeBootX (src/booter/booter.c, [s_mode_entry]): the parts of the
    booter in turn, then the console.

    The machine is the hart of Uart.v and Trap.v, whose console memory is the memory
    of the booter, with the disk, the volume, the page table and satp.  When the
    kernel is entered and never comes back the run stops there; what the boot path
    prints is sent when it returns.  Interrupts taken while the booter starts are
    left out: the handlers of Trap.v run from the final [wfi] on. *)

From S2P Require Import Prelude Mmu Print Fdt BootArgs Hfs BootLoader Console LineEditor Uart Trap.

Module Booter.

Import Print BootArgs Console LineEditor Uart Trap.

Local Open Scope c_scope.

Record booter {B D : Type} := Booter {
  cpu : hart B;
  disk : D;
  vol : Hfs.hfs_vol;
  l1 : list Z;
  satp : Z;
  jumped : option BootLoader.handoff;
}.

Arguments booter B D : clear implicits.
Arguments Booter {B D}.

Definition BM (B D A : Type) : Type := booter B D -> outcome A * booter B D.

#[global] Instance BM_ret B D : MRet (BM B D) := fun A a s => (Ret a, s).

#[global] Instance BM_bind B D : MBind (BM B D) :=
  fun A C f c s =>
    match c s with
    | (Ret a, s') => f a s'
    | (Stop, s') => (Stop, s')
    | (NoFuel, s') => (NoFuel, s')
    end.

Section Entry.
Context {B D : Type} `{Bus B} `{Hfs.BlockDevice D} `{Machine}.

(** [L], [F]: the statics of the booter and the bounds of its device-tree walks;
    [l1_addr] is the address of the page table. *)
Context (L : BootLoader.layout) (F : fdt_fuel) (l1_addr trap_entry : Z) (timer : nat -> Z) (tx : nat).

Local Abbreviation M := (BM B D).

Definition set_cpu (h : hart B) (s : booter B D) : booter B D :=
  Booter h (disk s) (vol s) (l1 s) (satp s) (jumped s).

Definition on_cpu {A} (c : TM B A) : M A := fun s => let (r, h) := c (cpu s) in (r, set_cpu h s).

Definition puts (t : list Z) : M unit := on_cpu (uart_puts tx t).

Definition cpu_mem (h : hart B) : mem := cmem (con h).

Definition set_cpu_mem (m : mem) (h : hart B) : hart B :=
  set_con (Con (ed (con h)) (vs (con h)) m (trace (con h))) h.

(** [caribe_pack_boot_args(&ba, dtb)] *)
Definition pack (dtb : Z) : M boot_args := fun s =>
  match caribe_pack_boot_args (cpu_mem (cpu s)) F dtb with
  | Some ba => (Ret ba, s)
  | None => (NoFuel, s)
  end.

(** [mmu_sv32_install_identity(...)] and [mmu_sv32_enable()] *)
Definition install_identity (ram_start ram_mb u p a : Z) : M unit := fun s =>
  match Sv32.mmu_sv32_install_identity ram_start ram_mb u p a with
  | Some t => (Ret tt, Booter (cpu s) (disk s) (vol s) t (satp s) (jumped s))
  | None => (NoFuel, s)
  end.

Definition enable : M unit := fun s =>
  (Ret tt, Booter (cpu s) (disk s) (vol s) (l1 s) (Sv32.mmu_sv32_enable l1_addr) (jumped s)).

(** [caribe_hfsplus_boot(hartid, dtb)]; [Stop] when the kernel keeps the machine. *)
Definition hfsplus_boot (hartid dtb : Z) : M Z := fun s =>
  match BootLoader.caribe_hfsplus_boot L F hartid dtb []
          (Hfs.Boot (cpu_mem (cpu s)) (disk s) [] (vol s)) with
  | None => (NoFuel, s)
  | Some ((rc, h), b) =>
      let s := Booter (set_cpu_mem (Hfs.b_mem b) (cpu s)) (Hfs.b_dev b) (Hfs.b_hfs b) (l1 s) (satp s) h in
      match h with
      | None => (puts (Hfs.b_out b);; mret rc) s
      | Some j =>
          match entry (BootLoader.h_entry j) (Hfs.b_mem b) with
          | None => (Stop, s)
          | Some m => (puts (Hfs.b_out b);; mret rc) (set_cpu (set_cpu_mem m (cpu s)) s)
          end
      end
  end.

(** [s_mode_entry(hartid, dtb)] up to the final loop of [wfi]. *)
Definition s_mode_entry (hartid dtb : Z) : M unit :=
  puts "\r\n[CaribeBootX-RV32] S-mode up. hart=";;
  puts (uart_putdec hartid);;
  ba ← pack dtb;
  on_cpu (uart_init (uart_base ba));;
  on_cpu (lift tx (console_set_uart_base (uart_base ba)));;
  puts "\r\nboot_args (desde FDT si aplica):";;
  puts "\r\n  dtb        = ";; puts (uart_puthex32 (ba_dtb ba));;
  puts "\r\n  uart_base  = ";; puts (uart_puthex32 (uart_base ba));;
  puts "\r\n  plic_base  = ";; puts (uart_puthex32 (plic_base ba));;
  puts "\r\n  aclint_base= ";; puts (uart_puthex32 (aclint_base ba));;
  puts "\r\n  mem_mb     = ";; puts (uart_putdec (mem_mb ba));;
  puts "\r\n  ncpus      = ";; puts (uart_putdec (ncpus ba));;
  install_identity 0x80000000 (mem_mb ba) (uart_base ba) (plic_base ba) (aclint_base ba);;
  enable;;
  puts "\r\nMMU Sv32 activa (identidad).\r\n";;
  on_cpu (trap_init trap_entry);;
  on_cpu (timer_init timer hartid);;
  puts "Timer armado (~10ms). Esperando ticks...\r\n";;
  on_cpu (plic_init (plic_base ba));;
  let ctxS := hartid *! 2 +! 2 in
  on_cpu (plic_set_priority 10 1);;
  on_cpu (plic_enable ctxS 10);;
  on_cpu (plic_set_threshold ctxS 0);;
  on_cpu uart_irq_enable_rx;;
  rc ← hfsplus_boot hartid dtb;
  (if negb (rc =? 0) then puts "\r\n[CaribeBootX] HFS+ boot no completo; abriendo consola.\r\n"
   else mret tt);;
  on_cpu (lift tx console_init).

End Entry.

(** ** The registers the booter sets up *)

(** Offsets of the priority, enable and threshold registers in the PLIC. *)
Definition config_off (o : Z) : Prop :=
  o mod 4 = 0 /\ (0 < o < 0x1000 \/ 0x2000 <= o < 0x200000 \/
                  0x200000 <= o < 0x4000000 /\ (o - 0x200000) mod 0x1000 = 0).

(** [ier] is the interrupt enable register of the UART; [plic o] the register at
    offset [o] of the PLIC at [pbase].  They keep what is written, and the accesses
    that send and receive leave them alone. *)
Class ConfigSpec (B : Type) `{UartSpec B} := {
  pbase : Z;
  ier : B -> Z;
  plic : B -> Z -> Z;
  pbase_range : 0 <= pbase <= 0xfc000000;
  ier_u8 b : is_u8 (ier b);
  ier_rd b : bus_rd8 (ub + 1) b = (ier b, b);
  ier_wr b v : is_u8 v -> let b' := bus_wr8 (ub + 1) v b in
    ier b' = v /\ plic b' = plic b /\ service b' = service b;
  (** The FIFO control register: bytes waiting are dropped. *)
  fcr_wr b v : let b' := bus_wr8 (ub + 2) v b in
    ier b' = ier b /\ plic b' = plic b /\ service b' = service b;
  plic_rd b o : config_off o -> bus_rd32 (pbase + o) b = (plic b o, b);
  plic_wr b o v : config_off o -> let b' := bus_wr32 (pbase + o) v b in
    plic b' o = v /\ (forall o', o' <> o -> plic b' o' = plic b o') /\ ier b' = ier b /\ service b' = service b;
  lsr_config b : let b' := (bus_rd8 (ub + 5) b).2 in ier b' = ier b /\ plic b' = plic b;
  thr_config b c : let b' := bus_wr8 ub c b in ier b' = ier b /\ plic b' = plic b;
}.

Section Rules.
Context {B D : Type} `{ConfigSpec B} `{Hfs.BlockDevice D} `{Machine}.

(** The registers, and that no interrupt is in service or still is. *)
Definition config (b : B) : Z * (Z -> Z) * option Z := (ier b, plic b, service b).

Lemma wait_config n : forall (h h' : hart B), at_uart h -> wait_thre n h = (Ret tt, h') ->
  at_uart h' /\ ier (bus h') = ier (bus h) /\ plic (bus h') = plic (bus h).
Proof.
  induction n as [|n IH]; intros h h' Ha; cbn [wait_thre]; [done|]. unfold mbind, TM_bind. rewrite lsr_at by done.
  unfold inb. pose proof (lsr_config (bus h)) as Hl. destruct (bus_rd8 (ub + 5) (bus h)) as [v b]. cbn [snd] in Hl.
  destruct (Z.land v LSR_THRE =? 0).
  - intros (Ha' & -> & ->)%IH; [by split | exact Ha].
  - intros [= <-]. by split.
Qed.

Lemma puts_config n t : forall (h h' : hart B), at_uart h -> uart_puts n t h = (Ret tt, h') ->
  ier (bus h') = ier (bus h) /\ plic (bus h') = plic (bus h).
Proof.
  induction t as [|c t IH]; intros h h' Ha; cbn [uart_puts]; [by intros [= <-]|].
  unfold mbind, TM_bind. unfold uart_putc, mbind, TM_bind.
  destruct (wait_thre n h) as [[[]| |] h1] eqn:Hw; [|done..].
  destruct (wait_config n h h1 Ha Hw) as (Ha1 & Hi1 & Hp1).
  rewrite thr_at by done. unfold outb. intros Hr.
  apply IH in Hr as [-> ->]; [|exact Ha1]. cbn [bus set_bus].
  destruct (thr_config (bus h1) (u8 c)) as [-> ->]. done.
Qed.

(** A piece of the booter that returns. *)
Definition runs {A} (c : BM B D A) (s : booter B D) (Q : A -> booter B D -> Prop) : Prop :=
  exists a s', c s = (Ret a, s') /\ Q a s'.

Lemma runs_seq {A C} (c : BM B D A) (f : A -> BM B D C) s Q :
  runs c s (fun a s' => runs (f a) s' Q) -> runs (c ≫= f) s Q.
Proof. intros (a & s1 & Hc & b & s2 & Hf & HQ). exists b, s2. split; [|done]. unfold mbind, BM_bind. by rewrite Hc. Qed.

Lemma runs_cpu {A} (c : TM B A) a h (s : booter B D) (Q : A -> booter B D -> Prop) :
  c (cpu s) = (Ret a, h) -> Q a (set_cpu h s) -> runs (on_cpu c) s Q.
Proof. intros Hc HQ. exists a, (set_cpu h s). unfold on_cpu. by rewrite Hc. Qed.

Lemma runs_send tx t (s : booter B D) (Q : unit -> booter B D -> Prop) : at_uart (cpu s) -> (tx_time < tx)%nat ->
  (forall b, config b = config (bus (cpu s)) -> Q tt (set_cpu (set_bus b (cpu s)) s)) -> runs (puts tx t) s Q.
Proof.
  intros Ha Htx HQ. destruct (uart_puts_all tx t (cpu s) Ha Htx) as (h' & Hp & (E & _ & Hs & _) & _).
  destruct (puts_config tx t _ _ Ha Hp) as [Hi Hpl]. eapply runs_cpu; [exact Hp|].
  rewrite E. apply HQ. unfold config. congruence.
Qed.

Lemma runs_when tx (c : bool) t (s : booter B D) (Q : unit -> booter B D -> Prop) :
  at_uart (cpu s) -> (tx_time < tx)%nat ->
  (forall b, config b = config (bus (cpu s)) -> Q tt (set_cpu (set_bus b (cpu s)) s)) ->
  runs (if c then puts tx t else mret tt) s Q.
Proof.
  intros Ha Htx HQ. destruct c; [by apply runs_send|]. exists tt, s. split; [done|].
  specialize (HQ (bus (cpu s)) eq_refl). rewrite set_bus_bus in HQ. by destruct s.
Qed.

Lemma runs_say {C} tx t (f : unit -> BM B D C) (s : booter B D) Q : at_uart (cpu s) -> (tx_time < tx)%nat ->
  (forall b, config b = config (bus (cpu s)) -> runs (f tt) (set_cpu (set_bus b (cpu s)) s) Q) ->
  runs (puts tx t ≫= f) s Q.
Proof. intros Ha Htx Hf. apply runs_seq, runs_send; done. Qed.

Lemma runs_lift {A} tx (c : CM A) a w (s : booter B D) (Q : A -> booter B D -> Prop) :
  at_uart (cpu s) -> (tx_time < tx)%nat -> c (con (cpu s)) = (Ret a, w) ->
  (forall b, config b = config (bus (cpu s)) -> Q a (set_cpu (set_con w (set_bus b (cpu s))) s)) ->
  runs (on_cpu (lift tx c)) s Q.
Proof.
  intros Ha Htx Hc HQ. set (o := output (drop (length (trace (con (cpu s)))) (trace w))).
  destruct (uart_puts_all tx o (set_con w (cpu s)) Ha Htx) as (h' & Hp & (E & _ & Hs & _) & _).
  destruct (puts_config tx o (set_con w (cpu s)) h' Ha Hp) as [Hi Hpl].
  apply (runs_cpu _ a h'); [unfold lift; rewrite Hc; fold o; by rewrite Hp|].
  rewrite E. apply (HQ (bus h')). unfold config. cbn [bus set_con] in *. congruence.
Qed.

End Rules.

(** ** The console open *)

Section Opened.
Context {B D : Type} `{ConfigSpec B} `{Hfs.BlockDevice D} `{Machine}.
Context (L : BootLoader.layout) (F : fdt_fuel) (l1_addr trap_entry : Z) (timer : nat -> Z) (tx : nat).
Context (Hslow : slow timer) (Htx : (tx_time < tx)%nat).

(** The state before the first interrupt: the drivers and the handler are set up as
    the theorems of Trap.v need them, and the interrupts of the UART, of the
    supervisor context of the PLIC and of the hart are on. *)
Record console_open (hartid aclint : Z) (s : booter B D) : Prop := {
  co_uart : at_uart (cpu s);
  co_plic : at_plic (cpu s);
  co_editor : editor_ok (ed (con (cpu s)));
  co_idle : service (bus (cpu s)) = None;
  co_rx : Z.testbit (ier (bus (cpu s))) 0 = true;
  co_priority : plic (bus (cpu s)) 40 = 1;
  co_enable : Z.testbit (plic (bus (cpu s)) (0x2000 + 0x80 * (2 * hartid + 1))) 10 = true;
  co_threshold : plic (bus (cpu s)) (0x200000 + 0x1000 * (2 * hartid + 1)) = 0;
  co_vector : stvec (cpu s) = trap_entry;
  co_on : Z.testbit (sstatus (cpu s)) 1 && Z.testbit (sie (cpu s)) 5 && Z.testbit (sie (cpu s)) 9 = true;
  co_timer : exists k, stimecmp (cpu s) = u64 (timer k + 100000);
  co_satp : satp s = Sv32.mmu_sv32_enable l1_addr;
  co_table : forall acc va, is_u32 va ->
    Sv32.sv32_translate (l1 s) Sv32.User acc va = None /\
    forall sum, Sv32.sv32_translate (l1 s) (Sv32.Supervisor sum) acc va =
      Sv32.identity_spec 0x80000000 (0x80000000 + 256 * 1048576) [ub; pbase; aclint] acc va;
}.

Lemma runs_pack {C} dtb ba (f : boot_args -> BM B D C) s Q :
  caribe_pack_boot_args (cpu_mem (cpu s)) F dtb = Some ba -> runs (f ba) s Q -> runs (pack F dtb ≫= f) s Q.
Proof. intros Hb Hf. apply runs_seq. exists ba, s. split; [unfold pack; by rewrite Hb | done]. Qed.

Lemma runs_identity {C} r mb u p a t (f : unit -> BM B D C) s Q :
  Sv32.mmu_sv32_install_identity r mb u p a = Some t ->
  runs (f tt) (Booter (cpu s) (disk s) (vol s) t (satp s) (jumped s)) Q ->
  runs (install_identity r mb u p a ≫= f) s Q.
Proof. intros Ht Hf. apply runs_seq. eexists tt, _. split; [unfold install_identity; by rewrite Ht | done]. Qed.

Lemma runs_op {A C} (c : TM B A) a h (f : A -> BM B D C) s Q :
  c (cpu s) = (Ret a, h) -> runs (f a) (set_cpu h s) Q -> runs (on_cpu c ≫= f) s Q.
Proof. intros Hc Hf. apply runs_seq. by eapply runs_cpu. Qed.

(** Registers of the PLIC. *)
Lemma plic_reg o : 0 <= o < 0x4000000 -> pbase +! o = pbase + o.
Proof. intros Ho. pose proof pbase_range. apply u32_small. mlia. Qed.

(** The boot path when it does not reach the kernel. *)
Lemma runs_boot_fails {C} hartid dtb rc b (f : Z -> BM B D C) s Q :
  BootLoader.caribe_hfsplus_boot L F hartid dtb [] (Hfs.Boot (cpu_mem (cpu s)) (disk s) [] (vol s)) =
    Some ((rc, None), b) ->
  at_uart (cpu s) ->
  (forall b', config b' = config (bus (cpu s)) ->
     runs (f rc) (Booter (set_bus b' (set_cpu_mem (Hfs.b_mem b) (cpu s))) (Hfs.b_dev b) (Hfs.b_hfs b) (l1 s) (satp s) None) Q) ->
  runs (hfsplus_boot L F tx hartid dtb ≫= f) s Q.
Proof.
  intros Hb Ha Hf. apply runs_seq. unfold runs at 1, hfsplus_boot. rewrite Hb.
  apply runs_say; [exact Ha | exact Htx |]. intros b' Hc. eexists rc, _. split; [reflexivity|]. by apply Hf.
Qed.

Lemma prio_addr : plic_prio_addr pbase 10 = pbase + 40.
Proof. unfold plic_prio_addr. rewrite (u32_small (4 * 10)) by mlia. by apply plic_reg. Qed.

Section Context.
Context (hartid : Z) (Hhart : 0 <= hartid < 512).

(** The supervisor context of the hart, counted from 1. *)
Definition ctx : Z := hartid *! 2 +! 2.

Definition enable_off : Z := 0x2000 + 0x80 * (2 * hartid + 1).

Definition threshold_off : Z := 0x200000 + 0x1000 * (2 * hartid + 1).

Lemma ctx_less : ctx -! 1 = 2 * hartid + 1.
Proof. unfold ctx. mlia. Qed.

Lemma enable_addr : plic_enable_addr pbase ctx +! 4 *! (10 / 32) = pbase + enable_off.
Proof.
  unfold plic_enable_addr. rewrite ctx_less, (u32_small (0x80 * _)), (plic_reg 0x2000) by mlia.
  change (4 *! (10 / 32)) with 0. unfold enable_off. pose proof pbase_range. mlia.
Qed.

Lemma thresh_addr : plic_thresh_addr pbase ctx = pbase + threshold_off.
Proof.
  unfold plic_thresh_addr. rewrite ctx_less, (u32_small (0x1000 * _)), (plic_reg 0x200000) by mlia.
  unfold threshold_off. pose proof pbase_range. mlia.
Qed.

Lemma claim_addr : plic_claimc_addr pbase ctx = pbase + 0x200004 + 0x1000 * (2 * hartid + 1).
Proof.
  unfold plic_claimc_addr. rewrite ctx_less, (u32_small (0x1000 * _)), (plic_reg 0x200004) by mlia.
  pose proof pbase_range. mlia.
Qed.

Lemma config_offs : config_off 40 /\ config_off enable_off /\ config_off threshold_off.
Proof. unfold config_off, enable_off, threshold_off. split_and!; lia. Qed.

(** The writes that let the UART interrupt through. *)
Definition irqs_set (b b' : B) : Prop :=
  Z.testbit (ier b') 0 = true /\ plic b' 40 = 1 /\ Z.testbit (plic b' enable_off) 10 = true /\
  plic b' threshold_off = 0 /\ service b' = service b.

Lemma irqs_run (h : hart B) : g_plic h = pbase -> at_uart h ->
  exists b1 b2 b3 b4, plic_set_priority 10 1 h = (Ret tt, set_bus b1 h) /\
    plic_enable ctx 10 (set_bus b1 h) = (Ret tt, set_bus b2 h) /\
    plic_set_threshold ctx 0 (set_bus b2 h) = (Ret tt, set_bus b3 h) /\
    uart_irq_enable_rx (set_bus b3 h) = (Ret tt, set_bus b4 h) /\ irqs_set (bus h) b4.
Proof.
  intros Hp Ha. destruct config_offs as (C1 & C2 & C3).
  destruct (plic_wr (bus h) 40 1 C1) as (P1 & _ & I1 & S1). set (b1 := bus_wr32 (pbase + 40) 1 (bus h)) in *.
  set (en := Z.lor (plic b1 enable_off) (1 <<! 10 mod 32)).
  destruct (plic_wr b1 enable_off en C2) as (P2 & O2 & I2 & S2). set (b2 := bus_wr32 _ en b1) in *.
  destruct (plic_wr b2 threshold_off 0 C3) as (P3 & O3 & I3 & S3). set (b3 := bus_wr32 _ 0 b2) in *.
  set (v := u8 (Z.lor (ier b3) IER_RDA)).
  destruct (ier_wr b3 v (u8_range _)) as (I4 & P4 & S4). set (b4 := bus_wr8 (ub + 1) v b3) in *.
  exists b1, b2, b3, b4. split_and!.
  - unfold plic_set_priority, mbind, TM_bind, ask, outd. by rewrite Hp, prio_addr.
  - unfold plic_enable, mbind, TM_bind, ask, outd, ind. cbn [set_bus g_plic]. rewrite Hp, enable_addr. cbn [bus].
    by rewrite (plic_rd b1 _ C2).
  - unfold plic_set_threshold, mbind, TM_bind, ask, outd. cbn [set_bus g_plic]. by rewrite Hp, thresh_addr.
  - unfold uart_irq_enable_rx, ier_read, ier_write, Uart.ier, mbind, TM_bind, ask, inb, outb, mret, TM_ret.
    cbn [set_bus UART_BASE bus]. unfold at_uart in Ha. rewrite Ha. pose proof ub_range.
    rewrite (u32_small (ub + 1)) by mlia. rewrite ier_rd. fold v.
    change (UART_BASE _) with (UART_BASE h). rewrite Ha, (u32_small (ub + 1)) by mlia. done.
  - assert (enable_off <> 40 /\ threshold_off <> 40 /\ enable_off <> threshold_off) as (N1 & N2 & N3)
      by (unfold enable_off, threshold_off; lia).
    unfold irqs_set. rewrite I4, P4, S4, S3, S2, S1, P3, (O3 40), (O2 40), (O3 enable_off), P1, P2 by done.
    split_and!; try done.
    + unfold v, u8. change 256 with (2 ^ 8). rewrite Z.mod_pow2_bits_low, Z.lor_spec by lia. apply orb_true_r.
    + unfold en. rewrite Z.lor_spec. apply orb_true_r.
Qed.

End Context.

Lemma timer_init_runs hartid (h : hart B) :
  exists n k, timer_init timer hartid h = (Ret tt, set_timer (u64 (timer n + 100000)) k (set_counts hartid (g_ticks h) h)).
Proof.
  destruct (rdtime64_value timer (set_counts hartid (g_ticks h) h) Hslow) as (n & _ & k & Hr & _). exists n, k.
  unfold timer_init, mbind, TM_bind, mod_hart. rewrite Hr, wr_stimecmp_value by (unfold u64; mlia). done.
Qed.

Ltac bview := cbv beta iota delta [set_cpu set_cpu_mem cpu disk vol l1 satp jumped set_bus set_con set_bases set_counts set_csrs set_timer con bus
  UART_BASE g_plic g_hart g_ticks stvec sstatus sie stimecmp clk].

(** Runs the prints at the head of the code; [Hc] keeps track of the registers. *)
Ltac say Ha :=
  repeat match goal with |- runs (puts _ _ ≫= _) _ _ =>
    apply runs_say; [exact Ha | exact Htx |]; bview;
    let b := fresh "b" in let E := fresh "E" in intros b E;
    lazymatch type of E with _ = config ?b0 =>
      lazymatch goal with Hc : config b0 = _ |- _ => rewrite Hc in E; clear Hc end end
  end.

(** C9: the booter ends at its console.  When the disk cannot be booted from, on a
    device tree that names the UART and the PLIC of the machine (or the defaults that
    are theirs), [s_mode_entry] returns to its idle loop with the identity map in
    force, the timer armed and the UART interrupt enabled all the way to the hart, and
    the console ready for whatever is typed. *)
Theorem booter_opens_console (s : booter B D) (hartid dtb rc : Z) (t : Fdt.node) (b : Hfs.boot (D := D))
    (Hblob : Fdt.blob_at (cpu_mem (cpu s)) dtb t) (Hdepth : Fdt.height t <= 32) (Hfuel : fuel_ok F t)
    (Hcpus : is_u32 (Fdt.count_cpu_nodes t))
    (Hub : uart_base (tree_boot_args dtb t) = ub) (Hpb : plic_base (tree_boot_args dtb t) = pbase)
    (Hio : Forall Sv32.mmio_ok [ub; pbase; aclint_base (tree_boot_args dtb t)])
    (Hhart : 0 <= hartid < 512) (Hclaim : claim_reg = pbase + 0x200004 + 0x1000 * (2 * hartid + 1))
    (Ha : at_uart (cpu s)) (Hidle : service (bus (cpu s)) = None) (Hsized : sized (ed (con (cpu s))))
    (Hfail : BootLoader.caribe_hfsplus_boot L F hartid dtb []
      (Hfs.Boot (cpu_mem (cpu s)) (disk s) [] (vol s)) = Some ((rc, None), b)) :
  runs (s_mode_entry L F l1_addr trap_entry timer tx hartid dtb) s (fun _ s' =>
    console_open hartid (aclint_base (tree_boot_args dtb t)) s' /\ cpu_mem (cpu s') = Hfs.b_mem b).
Proof.
  destruct s as [[w b0 ub0 p0 g0 t0 tv0 st0 ie0 cmp0 k0] d0 v0 l0 sp0 j0]. unfold cpu_mem in *. bview. cbn [cpu con bus] in *.
  unfold at_uart in Ha. cbn [UART_BASE cpu] in Ha. subst ub0.
  assert (config b0 = (ier b0, plic b0, None)) as Hc0 by (unfold config; by rewrite Hidle).
  set (ba := tree_boot_args dtb t) in *. unfold s_mode_entry. say (eq_refl ub).
  eapply runs_pack; [exact (pack_tree _ F dtb t Hblob Hdepth Hfuel Hcpus)|]. fold ba. rewrite Hub, Hpb.
  eapply runs_op; [reflexivity|]. bview. pose proof ub_range as Hr. rewrite (u32_small (ub + 2)) by mlia.
  destruct (fcr_wr b2 7) as (F1 & F2 & F3).
  assert (config (bus_wr8 (ub + 2) 7 b2) = (ier b0, plic b0, None)) as Hc3
    by (unfold config in *; congruence). clear F1 F2 F3.
  apply runs_seq. eapply runs_lift; [done | exact Htx | reflexivity |]. bview. intros b3 Hc4. rewrite Hc3 in Hc4.
  clear Hc3. say (eq_refl ub). change (mem_mb ba) with 256.
  destruct (Sv32.identity_table_translates 0x80000000 256 ub pbase (aclint_base ba)) as (tbl & Htbl & Htr);
    [mlia.. | done |].
  eapply runs_identity; [exact Htbl|]. bview. apply runs_seq. eexists tt, _. split; [reflexivity|]. bview.
  say (eq_refl ub). eapply runs_op; [reflexivity|]. bview.
  match goal with |- runs (on_cpu (timer_init _ _) ≫= _) (Booter ?h _ _ _ _ _) _ =>
    destruct (timer_init_runs hartid h) as (n & k & Ht) end.
  eapply runs_op; [exact Ht|]. bview. clear Ht. say (eq_refl ub).
  eapply runs_op; [reflexivity|]. bview. change (hartid *! 2 +! 2) with (ctx hartid).
  match goal with |- runs _ (Booter ?h _ _ _ _ _) _ =>
    destruct (irqs_run hartid Hhart h eq_refl eq_refl) as (c1 & c2 & c3 & c4 & R1 & R2 & R3 & R4 & Hset) end.
  eapply runs_op; [exact R1|]. eapply runs_op; [exact R2|]. eapply runs_op; [exact R3|]. eapply runs_op; [exact R4|].
  clear R1 R2 R3 R4. bview. eapply runs_boot_fails; [exact Hfail | done |]. bview. intros c5 Hc5.
  apply runs_seq.
  apply runs_when; [done | exact Htx |]. bview. intros c6 Hc6. rewrite Hc5 in Hc6.
  match goal with |- runs _ (Booter (Hart ?v _ _ _ _ _ _ _ _ _ _) _ _ _ _ _) _ =>
    destruct (init_ok v Hsized) as (w' & Hi & Hok) end.
  eapply runs_lift; [done | exact Htx | exact Hi |]. bview. intros c7 Hc7. rewrite Hc6 in Hc7.
  assert (cmem w' = Hfs.b_mem b) as Hm by (injection Hi as <-; done).
  split; [|exact Hm]. destruct Hset as (T1 & T2 & T3 & T4 & T5). injection Hc7 as U1 U2 U3.
  match goal with Hl : config _ = (_, _, None) |- _ => injection Hl as _ _ Hsv end.
  split; cbn [cpu con bus stvec sstatus sie stimecmp satp l1]; rewrite ?U1, ?U2, ?U3;
    first [exact Hok | exact T1 | exact T2 | exact T3 | exact T4 | exact Htr | by exists n | idtac].
  - reflexivity.
  - unfold at_plic. cbn [cpu g_plic g_hart]. rewrite Hclaim. by apply claim_addr.
  - rewrite T5. exact Hsv.
  - reflexivity.
  - unfold SSTATUS_SIE, SIE_STIE, SIE_SEIE. rewrite !Z.lor_spec. cbn. by rewrite !orb_true_r.
  - reflexivity.
Qed.

End Opened.

(** ** A machine without a disk *)

Module Example.

Import Trap.Example.

#[local] Existing Instance machine.

(** The UART of Trap.v with an interrupt enable register, and a PLIC. *)
Record board := Board {
  line : toy;
  b_ier : Z;
  b_plic : Z -> Z;
}.

Definition pb : Z := 0x0c000000.

#[local] Instance board_bus : Bus board := {|
  bus_rd8 a d :=
    if a =? base + 1 then (u8 (b_ier d), d)
    else let (v, t) := @bus_rd8 _ toy_bus a (line d) in (v, Board t (b_ier d) (b_plic d));
  bus_wr8 a v d :=
    if a =? base + 1 then Board (line d) v (b_plic d)
    else Board (@bus_wr8 _ toy_bus a v (line d)) (b_ier d) (b_plic d);
  bus_rd32 a d :=
    if a =? creg then let (v, t) := @bus_rd32 _ toy_bus a (line d) in (v, Board t (b_ier d) (b_plic d))
    else (b_plic d (a - pb), d);
  bus_wr32 a v d :=
    if a =? creg then Board (@bus_wr32 _ toy_bus a v (line d)) (b_ier d) (b_plic d)
    else Board (line d) (b_ier d) (fun o => if o =? a - pb then v else b_plic d o);
|}.

#[local] Instance board_spec : UartSpec board.
Proof.
  refine {| ub := base; claim_reg := creg; tx_time := 2; sent d := t_sent (line d); busy d := toy_busy (line d);
    queue d := toy_queue (line d); stream d := toy_queue (line d); service d := t_service (line d) |}.
  - unfold base. lia.
  - done.
  - intros d. unfold toy_busy. lia.
  - intros d. pose proof (@lsr_law _ _ toy_spec (line d)) as Hl. cbn [bus_rd8 board_bus].
    change (base + 5 =? base + 1) with false. cbv iota.
    change (@ub toy toy_bus toy_spec) with base in Hl.
    destruct (@bus_rd8 _ toy_bus (base + 5) (line d)) as [v t]. exact Hl.
  - intros d. pose proof (@iir_law _ _ toy_spec (line d)) as Hl. cbn [bus_rd8 board_bus].
    change (base + 2 =? base + 1) with false. cbv iota.
    change (@ub toy toy_bus toy_spec) with base in Hl.
    destruct (@bus_rd8 _ toy_bus (base + 2) (line d)) as [v t]. exact Hl.
  - intros d c q Hq. pose proof (@rbr_law _ _ toy_spec (line d) c q Hq) as Hl. cbn [bus_rd8 board_bus].
    change (base =? base + 1) with false. cbv iota.
    change (@ub toy toy_bus toy_spec) with base in Hl.
    destruct (@bus_rd8 _ toy_bus base (line d)) as [v t]. exact Hl.
  - intros d c Hb Hc. exact (@thr_law _ _ toy_spec (line d) c Hb Hc).
  - intros d Hs. pose proof (@claim_law _ _ toy_spec (line d) Hs) as Hl. cbn [bus_rd32 board_bus].
    rewrite Z.eqb_refl. change (@claim_reg toy toy_bus toy_spec) with creg in Hl.
    destruct (@bus_rd32 _ toy_bus creg (line d)) as [v t]. exact Hl.
  - intros d id Hs. exact (@complete_law _ _ toy_spec (line d) id Hs).
Defined.

Lemma not_claim o : config_off o -> pb + o <> creg.
Proof. unfold config_off, pb, creg. lia. Qed.

#[local] Instance board_config : ConfigSpec board.
Proof.
  refine {| pbase := pb; ier d := u8 (b_ier d); plic d := b_plic d |}.
  - unfold pb. lia.
  - intros d. apply u8_range.
  - intros d. done.
  - intros d v Hv. split_and!; try done. by apply u8_small.
  - intros d v. done.
  - intros d o Ho. cbn [bus_rd32 board_bus]. rewrite (proj2 (Z.eqb_neq (pb + o) creg)) by by apply not_claim.
    by replace (pb + o - pb) with o by lia.
  - intros d o v Ho. cbn [bus_wr32 board_bus]. rewrite (proj2 (Z.eqb_neq (pb + o) creg)) by by apply not_claim.
    cbn [b_plic b_ier line]. split_and!; try done.
    + by replace (pb + o - pb) with o by lia; rewrite Z.eqb_refl.
    + intros o' Hne. by rewrite (proj2 (Z.eqb_neq o' _)) by lia.
  - intros d. done.
  - intros d c. done.
Defined.

#[local] Instance no_disk : Hfs.BlockDevice unit :=
  {| Hfs.blk_init d m := (-1, [], d, m); Hfs.blk_read_blocks _ _ _ d m := (-1, [], d, m) |}.

(** Reset, with the device tree of Fdt.v in memory. *)
Definition reset : booter board unit :=
  Booter (Hart (Con (ed LineEditor.Example.cold) (vs LineEditor.Example.cold) Fdt.example_mem [])
    (Board (Toy [] 1 [] 0 None) 0 (fun _ => 0)) base 0 0 0 0 0 0 0 0) tt
    (Hfs.read_volume_header 0 (fun _ => 0)) [] 0 None.

Definition clock (n : nat) : Z := Z.of_nat n `min` 1000.

Lemma clock_slow : slow clock.
Proof. intros n. unfold clock. split_and!; mlia. Qed.

Lemma no_disk_fails m v : exists out,
  BootLoader.caribe_hfsplus_boot BootLoader.small_layout example_fuel 0 0x8fe00000 [] (Hfs.Boot m tt [] v) =
  Some ((-1, None), Hfs.Boot m tt out v).
Proof. eexists. vm_compute. reflexivity. Qed.

Lemma booter_opens_console_witness :
  runs (s_mode_entry BootLoader.small_layout example_fuel 0x80300000 0x80200100 clock 3 0 0x8fe00000) reset
    (fun _ s' => console_open 0x80300000 0x80200100 clock 0 0x02000000 s').
Proof.
  destruct (no_disk_fails Fdt.example_mem (Hfs.read_volume_header 0 (fun _ => 0))) as [out Hout].
  destruct (booter_opens_console (H0 := board_spec) (H1 := board_config) (H2 := no_disk)
    BootLoader.small_layout example_fuel 0x80300000 0x80200100 clock 3 clock_slow ltac:(cbn; lia)
    reset 0 0x8fe00000 (-1) Fdt.example_tree
    (Hfs.Boot Fdt.example_mem tt out (Hfs.read_volume_header 0 (fun _ => 0))))
    as ([] & s' & Hr & Ho & _).
  - exact Fdt.example_blob_at.
  - vm_compute. congruence.
  - split; [exact Fdt.example_names | vm_compute; lia].
  - vm_compute. intuition congruence.
  - vm_compute. reflexivity.
  - vm_compute. reflexivity.
  - repeat constructor; vm_compute; intuition congruence.
  - lia.
  - vm_compute. reflexivity.
  - reflexivity.
  - reflexivity.
  - exact LineEditor.Example.cold_sized.
  - exact Hout.
  - exists tt, s'. split; [exact Hr | exact Ho].
Defined.

End Example.

End Booter.
