(* ===== verification/Kernel.v ===== *)
(** The stage-0 kernel (src/kernel_xnu_entry.c): its state, the primitives its
    trap handlers are written with, and the [linux_*] helpers.

    The state is the trap frame, the globals of the system-call layer, memory,
    the characters written to the UART and the number of timer reads so far.
    The globals and the frame are records here, apart from the memory the handlers
    write through user pointers; SyscallMem.v and KernelRun.v say where they are in
    memory and for which pointers the stores miss them.  The timer is a parameter: [timer n] is the 64-bit value of the
    hardware counter at the [n]-th read of one of its two CSRs. *)

From S2P Require Import Prelude Print.

Module Kernel.

Import Print.

Local Open Scope c_scope.

(** ** Constants *)

Definition SCAUSE_INTERRUPT : Z := 0x80000000.

Definition SCAUSE_CODE_MASK : Z := 0xfff.

Definition IRQ_S_TIMER : Z := 5.

Definition SCAUSE_ECALL_U : Z := 8.

Definition XNU_STAGE0_USER_BASE : Z := 0x81000000.

Definition XNU_STAGE0_USER_STACK_TOP : Z := 0x81002000.

Definition XNU_STAGE0_USER_REGION_SIZE : Z := 0x00400000.

Definition XNU_STAGE0_LINUX_PID : Z := 42.

Definition XNU_STAGE0_LINUX_PPID : Z := 1.

Definition XNU_STAGE0_LINUX_BRK : Z := 0x81003000.

Definition XNU_STAGE0_PROC_FD : Z := 3.

Definition XNU_STAGE0_PROC_DIR_FD : Z := 4.

Definition XNU_STAGE0_MMAP_BASE : Z := 0x81004000.

Definition XNU_STAGE0_MMAP_LIMIT : Z := 0x81400000.

Definition XNU_STAGE0_TIMEBASE_FALLBACK : Z := 10000000.

Definition LINUX_AT_FDCWD : Z := 0xffffff9c.

Definition LINUX_ENOENT : Z := 2.

Definition LINUX_EBADF : Z := 9.

Definition LINUX_EAGAIN : Z := 11.

Definition LINUX_ENOMEM : Z := 12.

Definition LINUX_EFAULT : Z := 14.

Definition LINUX_EINVAL : Z := 22.

Definition LINUX_ERANGE : Z := 34.

Definition LINUX_MODE_DIR : Z := Z.lor 0x4000 0x1ed.

Definition LINUX_MODE_REG : Z := Z.lor 0x8000 0x1a4.

Definition LINUX_MODE_LNK : Z := Z.lor 0xa000 0x1ed.

Definition LINUX_DT_DIR : Z := 4.

Definition LINUX_DT_REG : Z := 8.

Definition UINT32_MAX : Z := 0xffffffff.

(** ** State *)

(** [xnu_stage0_user_frame_t]: the registers the handlers never name are [regs]
    (ra, gp, tp, t0-t2, s0, s1, a5, a6, user_sp). *)
Record frame := Frame {
  a0 : Z;
  a1 : Z;
  a2 : Z;
  a3 : Z;
  a4 : Z;
  a7 : Z;
  sepc : Z;
  scause : Z;
  stval : Z;
  regs : list Z;
}.

(** The globals of the trap handlers and of the system-call layer. *)
Record globals := Globals {
  timer_ticks : Z;
  trap_unhandled : Z;
  last_scause : Z;
  last_sepc : Z;
  last_stval : Z;
  timer_delta : Z;
  umode_syscalls : Z;
  umode_writes : Z;
  umode_exits : Z;
  umode_last_syscall : Z;
  proc_open : Z;
  proc_offset : Z;
  proc_file : Z;
  proc_dir_open : Z;
  proc_dir_offset : Z;
  mmap_next : Z;
  umask : Z;
  timebase_hz : Z;
  kernel_size : Z;
}.

Record kstate := KState {
  k_frame : frame;
  k_glob : globals;
  k_mem : mem;
  k_out : list Z;
  k_clk : nat;
  k_deadline : option Z;
  k_halted : bool;
}.

(** [K A]: a piece of kernel code. *)
Abbreviation K := (PST kstate).

Definition set_frame (f : frame) (k : kstate) : kstate :=
  KState f (k_glob k) (k_mem k) (k_out k) (k_clk k) (k_deadline k) (k_halted k).

Definition set_glob (g : globals) (k : kstate) : kstate :=
  KState (k_frame k) g (k_mem k) (k_out k) (k_clk k) (k_deadline k) (k_halted k).

Definition set_kmem (m : mem) (k : kstate) : kstate :=
  KState (k_frame k) (k_glob k) m (k_out k) (k_clk k) (k_deadline k) (k_halted k).

Definition add_out (t : list Z) (k : kstate) : kstate :=
  KState (k_frame k) (k_glob k) (k_mem k) (k_out k ++ t) (k_clk k) (k_deadline k) (k_halted k).

Definition set_clk (n : nat) (k : kstate) : kstate :=
  KState (k_frame k) (k_glob k) (k_mem k) (k_out k) n (k_deadline k) (k_halted k).

Definition set_deadline (d : Z) (k : kstate) : kstate :=
  KState (k_frame k) (k_glob k) (k_mem k) (k_out k) (k_clk k) (Some d) (k_halted k).

(** [for (;;) wfi] *)
Definition halt : K unit := modifyP (fun k =>
  KState (k_frame k) (k_glob k) (k_mem k) (k_out k) (k_clk k) (k_deadline k) true).

Definition getf : K frame := getP k_frame.

Definition getg : K globals := getP k_glob.

Definition modg (f : globals -> globals) : K unit := modifyP (fun k => set_glob (f (k_glob k)) k).

Definition modm (f : mem -> mem) : K unit := modifyP (fun k => set_kmem (f (k_mem k)) k).

(** ** Printing: a newline is sent as CR LF. *)

Fixpoint crlf (s : list Z) : list Z :=
  match s with
  | [] => []
  | c :: s => if c =? 10 then 13 :: 10 :: crlf s else c :: crlf s
  end.

Definition puts (s : list Z) : K unit := modifyP (add_out (crlf s)).

Definition kputhex32 (v : Z) : K unit := puts (puthex32 v).

Definition kputdec (v : Z) : K unit := puts (putdec v).

(** ** Globals, one setter per field the handlers assign *)

Definition set_proc (opened off file : Z) (g : globals) : globals :=
  Globals (timer_ticks g) (trap_unhandled g) (last_scause g) (last_sepc g) (last_stval g)
    (timer_delta g) (umode_syscalls g) (umode_writes g) (umode_exits g) (umode_last_syscall g)
    opened off file (proc_dir_open g) (proc_dir_offset g) (mmap_next g) (umask g)
    (timebase_hz g) (kernel_size g).

Definition set_dir (opened off : Z) (g : globals) : globals :=
  Globals (timer_ticks g) (trap_unhandled g) (last_scause g) (last_sepc g) (last_stval g)
    (timer_delta g) (umode_syscalls g) (umode_writes g) (umode_exits g) (umode_last_syscall g)
    (proc_open g) (proc_offset g) (proc_file g) opened off (mmap_next g) (umask g)
    (timebase_hz g) (kernel_size g).

Definition set_mmap_next (v : Z) (g : globals) : globals :=
  Globals (timer_ticks g) (trap_unhandled g) (last_scause g) (last_sepc g) (last_stval g)
    (timer_delta g) (umode_syscalls g) (umode_writes g) (umode_exits g) (umode_last_syscall g)
    (proc_open g) (proc_offset g) (proc_file g) (proc_dir_open g) (proc_dir_offset g) v (umask g)
    (timebase_hz g) (kernel_size g).

Definition set_umask (v : Z) (g : globals) : globals :=
  Globals (timer_ticks g) (trap_unhandled g) (last_scause g) (last_sepc g) (last_stval g)
    (timer_delta g) (umode_syscalls g) (umode_writes g) (umode_exits g) (umode_last_syscall g)
    (proc_open g) (proc_offset g) (proc_file g) (proc_dir_open g) (proc_dir_offset g) (mmap_next g) v
    (timebase_hz g) (kernel_size g).

Definition set_counts (writes exits : Z) (g : globals) : globals :=
  Globals (timer_ticks g) (trap_unhandled g) (last_scause g) (last_sepc g) (last_stval g)
    (timer_delta g) (umode_syscalls g) writes exits (umode_last_syscall g)
    (proc_open g) (proc_offset g) (proc_file g) (proc_dir_open g) (proc_dir_offset g) (mmap_next g)
    (umask g) (timebase_hz g) (kernel_size g).

Definition set_last (cause pc tval : Z) (g : globals) : globals :=
  Globals (timer_ticks g) (trap_unhandled g) cause pc tval
    (timer_delta g) (umode_syscalls g) (umode_writes g) (umode_exits g) (umode_last_syscall g)
    (proc_open g) (proc_offset g) (proc_file g) (proc_dir_open g) (proc_dir_offset g) (mmap_next g)
    (umask g) (timebase_hz g) (kernel_size g).

Definition set_ticks (ticks unhandled : Z) (g : globals) : globals :=
  Globals ticks unhandled (last_scause g) (last_sepc g) (last_stval g)
    (timer_delta g) (umode_syscalls g) (umode_writes g) (umode_exits g) (umode_last_syscall g)
    (proc_open g) (proc_offset g) (proc_file g) (proc_dir_open g) (proc_dir_offset g) (mmap_next g)
    (umask g) (timebase_hz g) (kernel_size g).

Definition count_syscall (nr : Z) (g : globals) : globals :=
  Globals (timer_ticks g) (trap_unhandled g) (last_scause g) (last_sepc g) (last_stval g)
    (timer_delta g) (umode_syscalls g +! 1) (umode_writes g) (umode_exits g) nr
    (proc_open g) (proc_offset g) (proc_file g) (proc_dir_open g) (proc_dir_offset g) (mmap_next g)
    (umask g) (timebase_hz g) (kernel_size g).

(** ** Timer *)

Section Timer.
Context (timer : nat -> Z).

(** One [csrr] of [timeh] or [time]. *)
Definition csrr_time (hi : bool) : K Z :=
  getP k_clk ≫= fun n =>
  modifyP (set_clk (S n)) ≫= fun _ =>
  mret (if hi then u32 (Z.shiftr (timer n) 32) else u32 (timer n)).

(** [do { ... } while (hi1 != hi2)] *)
Fixpoint csr_read_time_loop (fuel : nat) : K Z :=
  match fuel with
  | O => out_of_fuel
  | S fuel =>
      csrr_time true ≫= fun hi1 =>
      csrr_time false ≫= fun lo =>
      csrr_time true ≫= fun hi2 =>
      if negb (hi1 =? hi2) then csr_read_time_loop fuel
      else mret (Z.lor (Z.shiftl hi1 32) lo)
  end.

(** Two rounds are enough unless the high word changes twice within six reads. *)
Definition csr_read_time : K Z := csr_read_time_loop 2.

(** [linux_time_now(sec, nsec)] *)
Definition linux_time_now : K (Z * Z) :=
  getg ≫= fun g =>
  let hz := if timebase_hz g =? 0 then XNU_STAGE0_TIMEBASE_FALLBACK else timebase_hz g in
  csr_read_time ≫= fun t =>
  let ticks := u32 t in
  let ns_per_tick := 1000000000 / hz in
  let ns_per_tick := if ns_per_tick =? 0 then 1 else ns_per_tick in
  mret (ticks / hz, (ticks mod hz) *! ns_per_tick).

(** [xnu_stage0_trap_dispatch(scause, sepc, stval)] *)
Definition xnu_stage0_trap_dispatch (cause pc tval : Z) : K unit :=
  modg (set_last cause pc tval) ≫= fun _ =>
  if negb (cause &! SCAUSE_INTERRUPT =? 0) && (cause &! SCAUSE_CODE_MASK =? IRQ_S_TIMER) then
    modg (fun g => set_ticks (timer_ticks g +! 1) (trap_unhandled g) g) ≫= fun _ =>
    getg ≫= fun g =>
    if timer_ticks g <? 3
    then csr_read_time ≫= fun t => modifyP (set_deadline (u64 (t + timer_delta g)))
    else mret tt
  else modg (fun g => set_ticks (timer_ticks g) (trap_unhandled g +! 1) g).

End Timer.

(** ** Helpers on user memory *)

(** [putc((c >= 32 && c < 127) || c == '\n' ? c : '.')] *)
Definition printable (nl : bool) (c : Z) : Z :=
  if (32 <=? c) && (c <? 127) || nl && (c =? 10) then c else 46.

(** [linux_print_user_buf(addr, len)] *)
Definition linux_print_user_buf (addr len : Z) : K unit :=
  getP k_mem ≫= fun m =>
  puts (map (printable true) (read_bytes m addr (Z.to_nat (if 512 <? len then 512 else len)))).

(** The bytes up to a NUL, [n] at most. *)
Fixpoint user_cstr (m : mem) (addr : Z) (n : nat) : list Z :=
  match n with
  | O => []
  | S n => if load8 m addr =? 0 then [] else load8 m addr :: user_cstr m (addr + 1) n
  end.

(** [linux_print_user_cstr(addr, max_len)] *)
Definition linux_print_user_cstr (addr max_len : Z) : K unit :=
  getP k_mem ≫= fun m => puts (map (printable false) (user_cstr m addr (Z.to_nat max_len))).

Definition linux_strlen (s : list Z) : Z := Z.of_nat (length s).

(** The loop of [linux_user_streq] with [room] positions left below the limit. *)
Fixpoint user_streq_loop (m : mem) (addr : Z) (text : list Z) (room : nat) : bool :=
  match room with
  | O => false
  | S room =>
      match text with
      | [] => load8 m addr =? 0
      | c :: text => (load8 m addr =? c) && user_streq_loop m (addr + 1) text room
      end
  end.

(** [linux_user_streq(addr, text)]: positions 0 to 128. *)
Definition linux_user_streq (m : mem) (addr : Z) (text : list Z) : bool :=
  user_streq_loop m addr text 129.

(** [linux_copy_to_user(addr, src, len)]: [src] is the [len] bytes copied. *)
Definition linux_copy_to_user (m : mem) (addr : Z) (src : list Z) : mem := write_bytes m addr src.

Definition linux_errno (err : Z) : Z := 0 -! err.

Definition linux_store8 (m : mem) (addr v : Z) : mem := store8 m addr v.

Definition linux_store16 (m : mem) (addr v : Z) : mem :=
  linux_store8 (linux_store8 m addr (u8 v)) (addr + 1) (u8 (Z.shiftr v 8)).

Definition linux_store32 (m : mem) (addr v : Z) : mem := store32 m addr v.

Definition linux_store64 (m : mem) (addr lo hi : Z) : mem :=
  linux_store32 (linux_store32 m addr lo) (addr + 4) hi.

Definition linux_load32 (m : mem) (addr : Z) : Z := load32 m addr.

Definition linux_zero_user (m : mem) (addr len : Z) : mem := zero_loop m addr (Z.to_nat len).

(** [linux_copy_cstr_to_user(addr, text, max_len, include_nul)]: the memory and
    the returned length. *)
Definition linux_copy_cstr_to_user (m : mem) (addr : Z) (text : list Z) (max_len : Z)
    (include_nul : bool) : mem * Z :=
  let len := linux_strlen text in
  let need := len + (if include_nul then 1 else 0) in
  if (addr =? 0) || (max_len <? need) then (m, UINT32_MAX)
  else
    let m := linux_copy_to_user m addr text in
    (if include_nul then linux_store8 m (addr + len) 0 else m, need).

(** ** /proc *)

Definition g_stage0_proc_version : list Z :=
  "Linux version 0.0.1-caribe (XNU-CaribeOS stage0) rv32imac_zicsr_zifencei\n".

Definition g_stage0_proc_cpuinfo : list Z :=
  "processor\t: 0\nhart\t\t: 0\nisa\t\t: rv32imac_zicsr_zifencei\nmmu\t\t: sv32\nuarch\t\t: qemu-virt\nfirmware\t: OpenSBI\nbootloader\t: CaribeBootX\nkernel\t\t: XNU-CaribeOS stage0\n".

Definition g_stage0_proc_meminfo : list Z :=
  "MemTotal:        262144 kB\nMemFree:         131072 kB\nMemAvailable:    131072 kB\n".

Definition g_stage0_proc_uptime : list Z := "0.00 0.00\n".

Definition g_stage0_proc_stat : list Z :=
  "cpu  0 0 0 0 0 0 0 0 0 0\ncpu0 0 0 0 0 0 0 0 0 0 0\nintr 0\nctxt 0\nbtime 0\nprocesses 1\nprocs_running 1\nprocs_blocked 0\nsoftirq 0 0 0 0 0 0 0 0 0 0 0\n".

Definition g_stage0_proc_caribeos : list Z :=
  "bootloader\t: CaribeBootX\ncbx_version\t: 1\nopensbi_impl\t: OpenSBI\nsbi_runtime\t: reset=yes debug_console=yes ipi=yes rfence=yes\nfdt_model\t: riscv-virtio,qemu\nfdt_compatible\t: riscv-virtio\nactive_mem\t: 0x80000000+0x10000000\ntotal_mem_kb\t: 262144\nram_banks\t: 1\nmem_pages\t: total=65536 usable=32768 reserved=0\n".

(** [linux_known_path(addr)] *)
Definition linux_known_path (m : mem) (addr : Z) : bool :=
  linux_user_streq m addr "/" || linux_user_streq m addr "/kernel.elf" ||
  linux_user_streq m addr "/proc" || linux_user_streq m addr "/proc/cpuinfo" ||
  linux_user_streq m addr "/proc/meminfo" || linux_user_streq m addr "/proc/uptime" ||
  linux_user_streq m addr "/proc/stat" || linux_user_streq m addr "/proc/caribeos" ||
  linux_user_streq m addr "/proc/version" || linux_user_streq m addr "/proc/self" ||
  linux_user_streq m addr "/proc/self/exe".

(** [linux_path_metadata(addr, mode, size, ino)] *)
Definition linux_path_metadata (m : mem) (ksize addr : Z) : option (Z * Z * Z) :=
  if linux_user_streq m addr "/" || linux_user_streq m addr "/proc" ||
     linux_user_streq m addr "/proc/self" then Some (LINUX_MODE_DIR, 0, 5)
  else if linux_user_streq m addr "/proc/self/exe" then Some (LINUX_MODE_LNK, 11, 7)
  else if linux_user_streq m addr "/proc/version" then
    Some (LINUX_MODE_REG, linux_strlen g_stage0_proc_version, 8)
  else if linux_user_streq m addr "/proc/cpuinfo" then
    Some (LINUX_MODE_REG, linux_strlen g_stage0_proc_cpuinfo, 9)
  else if linux_user_streq m addr "/proc/meminfo" then
    Some (LINUX_MODE_REG, linux_strlen g_stage0_proc_meminfo, 10)
  else if linux_user_streq m addr "/proc/uptime" then
    Some (LINUX_MODE_REG, linux_strlen g_stage0_proc_uptime, 12)
  else if linux_user_streq m addr "/proc/stat" then
    Some (LINUX_MODE_REG, linux_strlen g_stage0_proc_stat, 13)
  else if linux_user_streq m addr "/proc/caribeos" then
    Some (LINUX_MODE_REG, linux_strlen g_stage0_proc_caribeos, 11)
  else if linux_user_streq m addr "/kernel.elf" then Some (LINUX_MODE_REG, ksize, 17)
  else None.

(** ** Copying structures out *)

Definition linux_copyout_statx (m : mem) (addr mode size ino : Z) : mem :=
  let m := linux_zero_user m addr 256 in
  let m := linux_store32 m addr 0x7ff in
  let m := linux_store32 m (addr + 4) 4096 in
  let m := linux_store32 m (addr + 16) 1 in
  let m := store16 m (addr + 28) (u16 mode) in
  let m := linux_store32 m (addr + 32) ino in
  let m := linux_store32 m (addr + 40) size in
  let m := linux_store32 m (addr + 56) 0x7ff in
  let m := linux_store32 m (addr + 140) 1 in
  linux_store32 m (addr + 144) 1.

Definition linux_copyout_stat64 (m : mem) (addr mode size ino : Z) : mem :=
  let m := linux_zero_user m addr 104 in
  let m := linux_store64 m addr 1 0 in
  let m := linux_store64 m (addr + 8) ino 0 in
  let m := linux_store32 m (addr + 16) mode in
  let m := linux_store32 m (addr + 20) 1 in
  let m := linux_store64 m (addr + 48) size 0 in
  let m := linux_store32 m (addr + 56) 4096 in
  linux_store64 m (addr + 64) (if size =? 0 then 0 else 1) 0.

Definition linux_copyout_statfs64 (m : mem) (addr : Z) : mem :=
  let blocks := 256 * 1024 * 1024 / 4096 in
  let m := linux_zero_user m addr 88 in
  let m := linux_store32 m addr 0x482b in
  let m := linux_store32 m (addr + 4) 4096 in
  let m := linux_store64 m (addr + 8) blocks 0 in
  let m := linux_store64 m (addr + 16) (blocks / 2) 0 in
  let m := linux_store64 m (addr + 24) (blocks / 2) 0 in
  let m := linux_store64 m (addr + 32) 1024 0 in
  let m := linux_store64 m (addr + 40) 512 0 in
  let m := linux_store32 m (addr + 56) 127 in
  linux_store32 m (addr + 60) 4096.

Definition linux_copyout_sysinfo (timer : nat -> Z) (addr : Z) : K unit :=
  linux_time_now timer ≫= fun '(sec, _) =>
  modm (fun m =>
    let m := linux_zero_user m addr 64 in
    let m := linux_store32 m addr sec in
    let m := linux_store32 m (addr + 16) (256 * 1024 * 1024) in
    let m := linux_store32 m (addr + 20) (128 * 1024 * 1024) in
    let m := linux_store16 m (addr + 40) 1 in
    linux_store32 m (addr + 52) 1).

Definition linux_copyout_rlimit64 (m : mem) (addr cur max : Z) : mem :=
  linux_store64 (linux_store64 m addr cur 0) (addr + 8) max 0.

Definition linux_align8 (v : Z) : Z := (v +! 7) &! not32 7.

Definition linux_page_align (v : Z) : Z := (v +! 4096 -! 1) &! not32 4095.

(** [linux_user_range(addr, len)] *)
Definition linux_user_range (addr len : Z) : bool :=
  if (addr <? XNU_STAGE0_USER_BASE) || (XNU_STAGE0_USER_REGION_SIZE <? len) then false
  else addr <=? XNU_STAGE0_USER_BASE +! XNU_STAGE0_USER_REGION_SIZE -! len.

(** [linux_proc_dir_entry(index, name, ino, type)] *)
Definition linux_proc_dir_entry (index : Z) : option (list Z * Z * Z) :=
  if index =? 0 then Some (cstr ".", 5, LINUX_DT_DIR)
  else if index =? 1 then Some (cstr "..", 2, LINUX_DT_DIR)
  else if index =? 2 then Some (cstr "self", 6, LINUX_DT_DIR)
  else if index =? 3 then Some (cstr "cpuinfo", 9, LINUX_DT_REG)
  else if index =? 4 then Some (cstr "meminfo", 10, LINUX_DT_REG)
  else if index =? 5 then Some (cstr "caribeos", 11, LINUX_DT_REG)
  else if index =? 6 then Some (cstr "version", 8, LINUX_DT_REG)
  else if index =? 7 then Some (cstr "uptime", 12, LINUX_DT_REG)
  else if index =? 8 then Some (cstr "stat", 13, LINUX_DT_REG)
  else None.

(** [linux_proc_file_content(file, size)]: [size] is the length of the string. *)
Definition linux_proc_file_content (file : Z) : list Z :=
  if file =? 1 then g_stage0_proc_version
  else if file =? 2 then g_stage0_proc_cpuinfo
  else if file =? 3 then g_stage0_proc_meminfo
  else if file =? 5 then g_stage0_proc_uptime
  else if file =? 6 then g_stage0_proc_stat
  else if file =? 4 then g_stage0_proc_caribeos
  else [].

(** [linux_copyout_dirent64(addr, ino, off, type, name)]: the memory and the
    record length. *)
Definition linux_copyout_dirent64 (m : mem) (addr ino off type : Z) (name : list Z) : mem * Z :=
  let name_len := linux_strlen name in
  let reclen := linux_align8 (19 + name_len + 1) in
  let m := linux_zero_user m addr reclen in
  let m := linux_store64 m addr ino 0 in
  let m := linux_store64 m (addr + 8) off 0 in
  let m := linux_store16 m (addr + 16) (u16 reclen) in
  let m := linux_store8 m (addr + 18) (u8 type) in
  let m := linux_copy_to_user m (addr + 19) name in
  (linux_store8 m (addr + 19 + name_len) 0, reclen).

(** [linux_copy_uts_field(uts, field, text)] *)
Definition linux_copy_uts_field (m : mem) (uts field : Z) (text : list Z) : mem :=
  let t := take 64 text in
  write_bytes m (uts + field * 65) (t ++ replicate (65 - length t) 0).

Definition linux_fill_uname (m : mem) (uts : Z) : mem :=
  let m := linux_copy_uts_field m uts 0 "Linux" in
  let m := linux_copy_uts_field m uts 1 "caribeos-rv32" in
  let m := linux_copy_uts_field m uts 2 "0.0.1-caribe" in
  let m := linux_copy_uts_field m uts 3 "XNU-CaribeOS stage0" in
  let m := linux_copy_uts_field m uts 4 "riscv32" in
  linux_copy_uts_field m uts 5 "localdomain".

End Kernel.
