(* ===== verification/Stage0.v ===== *)
(** The start of the stage-0 kernel (src/kernel_xnu_entry.c): [stage0_init] with the
    device-tree probe, the report on the memory map and the command line.

    The boot arguments and the memory map are structures in memory, read at the
    offsets of src/include/uapi/xnu_bootargs.h.  The theorems compose with the
    booter: on the map CaribeBootX builds the kernel counts every page once and
    no overlap, and on a device tree the booter finds N processors in it counts
    N + 1. *)

From S2P Require Import Prelude Statics Print MemoryMap Fdt BootArgs BootLoader Kernel.

Module Stage0.

Import Statics Print MemoryMap.

Local Open Scope c_scope.

Definition UART_DEFAULT_BASE : Z := 0x10000000.

Definition RISCV32_CARIBEBOOTX_MIN_VERSION : Z := 1.

Definition XNU_STAGE0_MEMORY_MAP_MAX : Z := 16.

(** ** State *)

(** [xnu_stage0_info_t] *)
Record info := Info {
  i_hartid : Z;
  i_dtb : Z;
  i_dtb_size : Z;
  i_timebase_hz : Z;
  i_cpu_count : Z;
  i_mem_base : Z;
  i_mem_size : Z;
  i_uart_base : Z;
  i_plic_base : Z;
  i_aclint_base : Z;
  i_kernel_base : Z;
  i_kernel_size : Z;
  i_virtio_count : Z;
  i_blk_base : Z;
  i_blk_sectors_lo : Z;
  i_memory_map_count : Z;
  i_memory_map_desc_size : Z;
  i_memory_map_paddr : Z;
  i_memory_conventional_pages : Z;
  i_memory_reserved_pages : Z;
  i_memory_first_free : Z;
  i_memory_max_end : Z;
  i_memory_overlaps : Z;
  i_args : Z;
}.

(** What [memzero(&g_info, sizeof(g_info))] leaves. *)
Definition zero_info : info := Info 0 0 0 0 0 0 0 0 0 0 0 0 0 0 0 0 0 0 0 0 0 0 0 0.

(** Assignments to the fields, in the groups the code assigns them. *)

Definition set_dtb_size (x : Z) '(Info h d _ tb cc mb ms ub pb ab kb ks vc bb bs mc md mp cp rp ff me ov ar) : info :=
  Info h d x tb cc mb ms ub pb ab kb ks vc bb bs mc md mp cp rp ff me ov ar.

Definition set_timebase (x : Z) '(Info h d ds _ cc mb ms ub pb ab kb ks vc bb bs mc md mp cp rp ff me ov ar) : info :=
  Info h d ds x cc mb ms ub pb ab kb ks vc bb bs mc md mp cp rp ff me ov ar.

Definition set_cpu_count (x : Z) '(Info h d ds tb _ mb ms ub pb ab kb ks vc bb bs mc md mp cp rp ff me ov ar) : info :=
  Info h d ds tb x mb ms ub pb ab kb ks vc bb bs mc md mp cp rp ff me ov ar.

Definition set_virtio_count (x : Z) '(Info h d ds tb cc mb ms ub pb ab kb ks _ bb bs mc md mp cp rp ff me ov ar) : info :=
  Info h d ds tb cc mb ms ub pb ab kb ks x bb bs mc md mp cp rp ff me ov ar.

Definition set_blk_base (x : Z) '(Info h d ds tb cc mb ms ub pb ab kb ks vc _ bs mc md mp cp rp ff me ov ar) : info :=
  Info h d ds tb cc mb ms ub pb ab kb ks vc x bs mc md mp cp rp ff me ov ar.

Definition set_blk_sectors (x : Z) '(Info h d ds tb cc mb ms ub pb ab kb ks vc bb _ mc md mp cp rp ff me ov ar) : info :=
  Info h d ds tb cc mb ms ub pb ab kb ks vc bb x mc md mp cp rp ff me ov ar.

Definition set_first_free (x : Z) '(Info h d ds tb cc mb ms ub pb ab kb ks vc bb bs mc md mp cp rp _ me ov ar) : info :=
  Info h d ds tb cc mb ms ub pb ab kb ks vc bb bs mc md mp cp rp x me ov ar.

Definition set_max_end (x : Z) '(Info h d ds tb cc mb ms ub pb ab kb ks vc bb bs mc md mp cp rp ff _ ov ar) : info :=
  Info h d ds tb cc mb ms ub pb ab kb ks vc bb bs mc md mp cp rp ff x ov ar.

Definition set_summary (c r o : Z) '(Info h d ds tb cc mb ms ub pb ab kb ks vc bb bs mc md mp _ _ ff me _ ar) : info :=
  Info h d ds tb cc mb ms ub pb ab kb ks vc bb bs mc md mp c r ff me o ar.

(** ** The boot arguments in memory *)

(** [args->field], by the offset of the field. *)
Definition arg (m : mem) (args off : Z) : Z := load32 m (args + off).

Definition args_magic m args := arg m args 0.

Definition args_version m args := arg m args 4.

(** ** String comparison *)

(** [streq(a, b)] with [b] a literal. *)
Fixpoint streq (m : mem) (a : Z) (b : list Z) : bool :=
  match b with
  | [] => load8 m a =? 0
  | c :: b =>
      if load8 m a =? 0 then false
      else if negb (load8 m a =? c) then false
      else streq m (a + 1) b
  end.

(** [streq_len(entry, len, needle)] with [needle] a literal. *)
Fixpoint streq_len (m : mem) (entry : Z) (len : nat) (needle : list Z) : bool :=
  match len, needle with
  | O, _ => bool_decide (needle = [])
  | S _, [] => false
  | S len, c :: needle =>
      if negb (load8 m entry =? c) then false else streq_len m (entry + 1) len needle
  end.

Definition align4 (v : Z) : Z := (v +! 3) &! not32 3.

(** ** The device-tree probe *)

(** [while (off < end && dtb[off] != 0) off++;] with [n = end - off]. *)
Fixpoint skip_name (m : mem) (dtb off : Z) (n : nat) : Z :=
  match n with
  | O => off
  | S n => if load8 m (dtb + off) =? 0 then off else skip_name m dtb (off + 1) n
  end.

(** What the probe does with a property. *)
Definition probe_prop (m : mem) (name data len : Z) (i : info) : info :=
  if streq m name "timebase-frequency" && (4 <=? len) then set_timebase (be32 m data) i
  else if streq m name "device_type" && (3 <=? len) && streq_len m data 3 "cpu"
  then set_cpu_count (i_cpu_count i +! 1) i
  else i.

(** [while (off + 4 <= end) { ... }]: [None] when the fuel is used up. *)
Fixpoint probe_loop (fuel : nat) (m : mem) (dtb strings size_strings end_ off : Z) (i : info) :
    option info :=
  if negb (off +! 4 <=? end_) then Some i
  else match fuel with
  | O => None
  | S fuel =>
      let token := be32 m (dtb + off) in
      let off := off +! 4 in
      if token =? Fdt.FDT_BEGIN_NODE then
        let off := skip_name m dtb off (Z.to_nat (end_ - off)) in
        probe_loop fuel m dtb strings size_strings end_ (align4 (off +! 1)) i
      else if (token =? Fdt.FDT_END_NODE) || (token =? Fdt.FDT_NOP)
      then probe_loop fuel m dtb strings size_strings end_ off i
      else if token =? Fdt.FDT_PROP then
        if end_ <? off +! 8 then Some i
        else
          let len := be32 m (dtb + off) in
          let nameoff := be32 m (dtb + off + 4) in
          let off := off +! 8 in
          if (end_ <? off +! len) || (size_strings <=? nameoff) then Some i
          else
            let i := probe_prop m (strings + nameoff) (dtb + off) len i in
            probe_loop fuel m dtb strings size_strings end_ (align4 (off +! len)) i
      else Some i
  end.

(** [fdt_probe(dtb_addr)] *)
Definition fdt_probe (fuel : nat) (m : mem) (dtb : Z) (i : info) : option info :=
  if (dtb =? 0) || negb (be32 m dtb =? Fdt.FDT_MAGIC) then Some i
  else
    let total := be32 m (dtb + 4) in
    let off_struct := be32 m (dtb + 8) in
    let off_strings := be32 m (dtb + 12) in
    let size_strings := be32 m (dtb + 32) in
    let size_struct := be32 m (dtb + 36) in
    let end_ := if negb (size_struct =? 0) then off_struct +! size_struct else total in
    probe_loop fuel m dtb (dtb + off_strings) size_strings end_ off_struct (set_dtb_size total i).

(** ** stage0_init *)

(** [g_info] before the device tree is probed. *)
Definition init_info (m : mem) (hartid dtb args : Z) : info :=
  let a := arg m args in
  if negb (args =? 0) && (args_magic m args =? BootLoader.RISCV32_CARIBEBOOTX_MAGIC) &&
     (RISCV32_CARIBEBOOTX_MIN_VERSION <=? args_version m args)
  then
    {| i_hartid := a 12;
       i_dtb := if negb (a 16 =? 0) then a 16 else dtb;
       i_dtb_size := a 20;
       i_timebase_hz := 10000000;
       i_cpu_count := 1;
       i_mem_base := a 24;
       i_mem_size := a 28;
       i_uart_base := if negb (a 32 =? 0) then a 32 else UART_DEFAULT_BASE;
       i_plic_base := a 36;
       i_aclint_base := a 40;
       i_kernel_base := a 44;
       i_kernel_size := a 48;
       i_virtio_count := 0; i_blk_base := 0; i_blk_sectors_lo := 0;
       i_memory_map_count := a 72;
       i_memory_map_desc_size := a 76;
       i_memory_map_paddr := a 68;
       i_memory_conventional_pages := 0; i_memory_reserved_pages := 0;
       i_memory_first_free := 0; i_memory_max_end := 0; i_memory_overlaps := 0;
       i_args := args |}
  else
    {| i_hartid := hartid;
       i_dtb := dtb;
       i_dtb_size := 0;
       i_timebase_hz := 10000000;
       i_cpu_count := 1;
       i_mem_base := 0x80000000;
       i_mem_size := 256 * 1024 * 1024;
       i_uart_base := UART_DEFAULT_BASE;
       i_plic_base := 0x0c000000;
       i_aclint_base := 0x02000000;
       i_kernel_base := 0; i_kernel_size := 0;
       i_virtio_count := 0; i_blk_base := 0; i_blk_sectors_lo := 0;
       i_memory_map_count := 0; i_memory_map_desc_size := 0; i_memory_map_paddr := 0;
       i_memory_conventional_pages := 0; i_memory_reserved_pages := 0;
       i_memory_first_free := 0; i_memory_max_end := 0; i_memory_overlaps := 0;
       i_args := args |}.

(** [stage0_init(hartid, dtb, args)] *)
Definition stage0_init (fuel : nat) (m : mem) (hartid dtb args : Z) : option info :=
  let i := init_info m hartid dtb args in
  i ← fdt_probe fuel m (i_dtb i) i;
  Some (if i_cpu_count i =? 0 then set_cpu_count 1 i else i).


(** ** The reports *)

(** The state of the start sequence; [D] is what the disk code keeps. *)
Record state (D : Type) := State {
  s_info : info;
  s_mem : mem;
  s_disk : D;
  s_out : list Z;
}.

Arguments State {D}.
Arguments s_info {D}.
Arguments s_mem {D}.
Arguments s_disk {D}.
Arguments s_out {D}.

Section Reports.
Context {D : Type}.

Local Abbreviation M := (ST (state D)).

Definition puts (t : list Z) : M unit :=
  modifyS (fun s => State (s_info s) (s_mem s) (s_disk s) (s_out s ++ Kernel.crlf t)).

Definition geti {A} (f : info -> A) : M A := getsS (fun s => f (s_info s)).

Definition modi (f : info -> info) : M unit :=
  modifyS (fun s => State (f (s_info s)) (s_mem s) (s_disk s) (s_out s)).

Definition xnu_memory_type_name (type : Z) : list Z :=
  if type =? XNU_EFI_LOADER_CODE then "LoaderCode"
  else if type =? XNU_EFI_LOADER_DATA then "LoaderData"
  else if type =? XNU_EFI_CONVENTIONAL then "Conventional"
  else "Other".

(** The locals of the loop: [conventional_pages], [reserved_pages],
    [previous_end] and [overlaps]. *)
Record tally := Tally {
  t_conventional : Z;
  t_reserved : Z;
  t_previous_end : Z;
  t_overlaps : Z;
}.

(** What entry [i], of the given type, start, pages and end, does to the locals. *)
Definition tally_range (i type start pages end_ : Z) (t : tally) : tally :=
  let overlaps := if negb (i =? 0) && (start <? t_previous_end t)
                  then t_overlaps t +! 1 else t_overlaps t in
  if type =? XNU_EFI_CONVENTIONAL
  then Tally (u64 (t_conventional t + pages)) (t_reserved t) end_ overlaps
  else Tally (t_conventional t) (u64 (t_reserved t + pages)) end_ overlaps.

(** And to [g_info]. *)
Definition seed_range (type start end_ : Z) (i : info) : info :=
  let i := if (type =? XNU_EFI_CONVENTIONAL) && (i_memory_first_free i =? 0)
           then set_first_free (u32 start) i else i in
  if i_memory_max_end i <? end_ then set_max_end (u32 end_) i else i.

(** The loop over the entries from [i] on, [n] of them. *)
Fixpoint map_loop (n : nat) (base desc_size i : Z) (t : tally) : M tally :=
  match n with
  | O => mret t
  | S n =>
      m ← getsS s_mem;
      let range := base + i *! desc_size in
      let type := load32 m range in
      let start := load64 m (range + 8) in
      let pages := load64 m (range + 24) in
      let end_ := u64 (start + u64 (Z.shiftl pages 12)) in
      let t := tally_range i type start pages end_ t in
      modi (seed_range type start end_);;
      puts "  [mem ";; puts (putdec i);; puts "] type=";; puts (putdec type);; puts "(";;
      puts (xnu_memory_type_name type);; puts ") start=0x";; puts (puthex64 start);;
      puts " end=0x";; puts (puthex64 end_);; puts " pages=";; puts (putdec (u32 pages));;
      puts "\n";;
      map_loop n base desc_size (i + 1) t
  end.

(** [stage0_print_memory_map()] *)
Definition stage0_print_memory_map : M unit :=
  puts "[XNU-CaribeOS] CBX memory map\n";;
  m ← getsS s_mem;
  i ← geti id;
  let args := i_args i in
  if (args =? 0) || negb (args_magic m args =? BootLoader.RISCV32_CARIBEBOOTX_MAGIC) ||
     (args_version m args <? 2) || (i_memory_map_paddr i =? 0) || (i_memory_map_count i =? 0) ||
     (i_memory_map_desc_size i <? 40)
  then puts "[riscv32] mmap unavailable; fallback RAM span will be used\n"
  else
    puts "[riscv32] mmap paddr=0x";; puts (puthex32 (i_memory_map_paddr i));;
    puts " count=";; puts (putdec (i_memory_map_count i));;
    puts " desc=";; puts (putdec (i_memory_map_desc_size i));; puts "\n";;
    let count := if XNU_STAGE0_MEMORY_MAP_MAX <? i_memory_map_count i
                 then XNU_STAGE0_MEMORY_MAP_MAX else i_memory_map_count i in
    t ← map_loop (Z.to_nat count) (i_memory_map_paddr i) (i_memory_map_desc_size i) 0
          (Tally 0 0 0 0);
    (if count <? i_memory_map_count i then
       puts "[riscv32] mmap truncated entries=";; puts (putdec (i_memory_map_count i - count));;
       puts "\n"
     else mret tt);;
    puts "[riscv32] mmap summary conventional_pages=";; puts (putdec (u32 (t_conventional t)));;
    puts " reserved_pages=";; puts (putdec (u32 (t_reserved t)));;
    puts " overlaps=";; puts (putdec (t_overlaps t));; puts "\n";;
    modi (set_summary (u32 (t_conventional t)) (u32 (t_reserved t)) (t_overlaps t));;
    i ← geti id;
    puts "[riscv32] vm seed first_free=0x";; puts (puthex32 (i_memory_first_free i));;
    puts " max_end=0x";; puts (puthex32 (i_memory_max_end i));;
    puts " free_bytes=0x";; puts (puthex32 (i_memory_conventional_pages i <<! 12));; puts "\n".

(** The characters of the command line, [n] at most; [char] is unsigned here, so
    a byte from 127 on is a dot either way. *)
Fixpoint cmdline_text (m : mem) (cmd : Z) (n : nat) : list Z :=
  match n with
  | O => []
  | S n =>
      let c := load8 m cmd in
      if c =? 0 then []
      else (if (32 <=? c) && (c <? 127) then c else 46) :: cmdline_text m (cmd + 1) n
  end.

(** [print_cmdline()] *)
Definition print_cmdline : M unit :=
  m ← getsS s_mem;
  args ← geti i_args;
  if (args =? 0) || (arg m args 60 =? 0) || (arg m args 64 =? 0) then mret tt
  else
    puts "  boot-args=\q";;
    puts (cmdline_text m (arg m args 60) (Z.to_nat (arg m args 64)));;
    puts "\q\n".

End Reports.

(** *** What the reports leave alone *)

(** The fields the rest of the start reads. *)
Definition fixed (i : info) : list Z :=
  [i_mem_base i; i_mem_size i; i_plic_base i; i_aclint_base i; i_timebase_hz i; i_blk_base i; i_virtio_count i].

Lemma fixed_seed type start end_ i : fixed (seed_range type start end_ i) = fixed i.
Proof. destruct i. unfold seed_range. cbn. repeat case_if; done. Qed.

Section Kept.
Context {D : Type}.

(** A report returns with memory and those fields as they were. *)
Definition keeps {A} (c : ST (state D) A) : Prop :=
  forall s, s_mem (c s).2 = s_mem s /\ s_disk (c s).2 = s_disk s /\ fixed (s_info (c s).2) = fixed (s_info s).

Lemma keeps_seq {A B} (c : ST (state D) A) (f : A -> ST (state D) B) :
  keeps c -> (forall a, keeps (f a)) -> keeps (c ≫= f).
Proof.
  intros Hc Hf s. unfold mbind, ST_bind. specialize (Hc s). destruct (c s) as [a s1]. cbn [snd] in Hc. cbn [snd].
  destruct Hc as (H1 & H2 & H3). destruct (Hf a s1) as (? & ? & ?). split_and!; congruence.
Qed.

Lemma keeps_ret {A} (a : A) : keeps (mret a : ST (state D) A).
Proof. intros s. by split_and!. Qed.

Lemma keeps_puts t : keeps (puts t : ST (state D) unit).
Proof. intros s. by split_and!. Qed.

Lemma keeps_gets {A} (f : state D -> A) : keeps (getsS f).
Proof. intros s. by split_and!. Qed.

Lemma keeps_modi f : (forall i, fixed (f i) = fixed i) -> keeps (modi f : ST (state D) unit).
Proof. intros Hf s. split_and!; [done | done | apply Hf]. Qed.

Ltac keeps_walk :=
  repeat match goal with
  | |- keeps (_ ≫= _) => apply keeps_seq; [|intros ?]
  | |- keeps (if ?b then _ else _) => destruct b
  | |- keeps (puts _) => apply keeps_puts
  | |- keeps (mret _) => apply keeps_ret
  | |- keeps (getsS _) => apply keeps_gets
  | |- keeps (geti _) => apply keeps_gets
  | |- keeps (modi (set_summary _ _ _)) => apply keeps_modi; by intros []
  end.

Lemma keeps_map_loop n base desc : forall i t, keeps (map_loop n base desc i t : ST (state D) tally).
Proof.
  induction n as [|n IH]; intros i t; cbn [map_loop]; [apply keeps_ret|].
  apply keeps_seq; [apply keeps_gets|]. intros m. cbn zeta.
  apply keeps_seq; [apply keeps_modi, fixed_seed|]. intros _. keeps_walk. apply IH.
Qed.

Lemma keeps_print_memory_map : keeps (stage0_print_memory_map : ST (state D) unit).
Proof. unfold stage0_print_memory_map. cbn zeta. keeps_walk; apply keeps_map_loop. Qed.

Lemma keeps_print_cmdline : keeps (print_cmdline : ST (state D) unit).
Proof. unfold print_cmdline. keeps_walk. Qed.

End Kept.

(** ** The memory map of the booter, as the kernel sees it *)

(** The structure at [a] has the values of [x]. *)
Definition args_at (m : mem) (a : Z) (x : BootLoader.xnu_args) : Prop :=
  (fun off => arg m a off) <$> [0; 4; 12; 16; 20; 24; 28; 32; 36; 40; 44; 48; 60; 64; 68; 72; 76] =
  (fun f => f x) <$>
    [BootLoader.a_magic; BootLoader.a_version; BootLoader.a_hartid; BootLoader.a_dtb_paddr;
     BootLoader.a_dtb_size; BootLoader.a_mem_base; BootLoader.a_mem_size; BootLoader.a_uart_base;
     BootLoader.a_plic_base; BootLoader.a_aclint_base; BootLoader.a_kernel_base;
     BootLoader.a_kernel_size; BootLoader.a_command_line_paddr; BootLoader.a_command_line_size;
     BootLoader.a_memory_map_paddr; BootLoader.a_memory_map_count;
     BootLoader.a_memory_map_desc_size].

(** The array at [base] holds the entries from index [i] on. *)
Fixpoint map_at (m : mem) (base i : Z) (l : list mem_range) : Prop :=
  match l with
  | [] => True
  | r :: l =>
      let a := base + i *! 40 in
      load32 m a = mr_type r /\ load64 m (a + 8) = physical_start r /\
      load64 m (a + 24) = number_of_pages r /\ map_at m base (i + 1) l
  end.

Lemma map_at_take m base n : forall i l, map_at m base i l -> map_at m base i (take n l).
Proof.
  induction n as [|n IH]; intros i l Hl; [done|]. destruct l as [|r l]; [done|]. simpl in *.
  destruct Hl as (? & ? & ? & Hl). by split_and!; [..|apply IH].
Qed.

(** The entries one after the other. *)
Fixpoint tally_all (i : Z) (l : list mem_range) (t : tally) : tally :=
  match l with
  | [] => t
  | r :: l => tally_all (i + 1) l
      (tally_range i (mr_type r) (physical_start r) (number_of_pages r) (range_end r) t)
  end.

Definition seed_all (l : list mem_range) (i : info) : info :=
  foldl (fun i r => seed_range (mr_type r) (physical_start r) (range_end r) i) i l.

(** The ends of the entries are not cut by the 64-bit arithmetic. *)
Definition small_range (r : mem_range) : Prop :=
  0 <= physical_start r /\ 0 < number_of_pages r /\ range_end r <= 4294967296.

Lemma range_end_exact r : small_range r ->
  u64 (physical_start r + u64 (Z.shiftl (number_of_pages r) 12)) = range_end r.
Proof.
  intros (? & ? & He). unfold range_end in *. rewrite Z.shiftl_mul_pow2 by lia. wunfold. lia.
Qed.

Lemma chain_small lo l hi : forall (Hlo : 0 <= lo) (Hhi : hi <= 4294967296),
  chain lo l hi -> Forall small_range l /\ lo <= hi.
Proof.
  revert lo. induction l as [|r l IH]; intros lo Hlo Hhi Hc; simpl in Hc; [by subst|].
  destruct Hc as (Hs & _ & Hp & Hc). unfold range_end in Hc.
  destruct (IH (physical_start r + 4096 * number_of_pages r)) as [Hf Hle]; [lia | done | done|].
  split; [|lia]. constructor; [|done]. unfold small_range, range_end. lia.
Qed.

(** The pages of the conventional entries, in order. *)
Definition free_pages (l : list mem_range) : list Z :=
  concat ((fun r => if mr_type r =? XNU_EFI_CONVENTIONAL
                    then seqZ (physical_start r / 4096) (number_of_pages r) else []) <$> l).

Lemma yields_puts {D B} t (k : unit -> ST (state D) B) s Q :
  (forall o, yields (k tt) (State (s_info s) (s_mem s) (s_disk s) o) Q) ->
  yields (puts t ≫= k) s Q.
Proof. intros Hk. apply yields_modify. apply Hk. Qed.

Ltac sview := cbn [s_info s_mem s_disk].

Ltac pstep := apply yields_puts; intros ?; sview.

Lemma map_loop_tally {D} base l : forall i t (s : state D),
  map_at (s_mem s) base i l -> Forall small_range l ->
  yields (map_loop (length l) base 40 i t) s (fun t' s' =>
    t' = tally_all i l t /\ s_info s' = seed_all l (s_info s) /\
    s_mem s' = s_mem s /\ s_disk s' = s_disk s).
Proof.
  induction l as [|r l IH]; intros i t s Hat Hsm; [by apply yields_ret|].
  destruct Hat as (Hty & Hst & Hpg & Hat). apply Forall_cons in Hsm as [Hr Hsm].
  cbn [length map_loop]. apply yields_gets. rewrite Hty, Hst, Hpg, range_end_exact by done.
  apply yields_modify. sview. do 13 pstep.
  eapply yields_mono; [apply IH; [exact Hat | exact Hsm]|].
  intros t' s' (-> & Hi & Hm & Hd). rewrite Hi, Hm, Hd. split_and!; reflexivity.
Qed.

(** *** Chains of entries *)

Lemma free_pages_cons r l :
  free_pages (r :: l) =
    (if mr_type r =? XNU_EFI_CONVENTIONAL
     then seqZ (physical_start r / 4096) (number_of_pages r) else []) ++ free_pages l.
Proof. done. Qed.

(** A chain splits its interval of pages at the end of the first entry. *)
Lemma chain_pages r lo hi : lo mod 4096 = 0 -> 0 < number_of_pages r -> physical_start r = lo ->
  range_end r <= hi ->
  range_end r mod 4096 = 0 /\ range_end r / 4096 = lo / 4096 + number_of_pages r /\
  (hi - lo) / 4096 = number_of_pages r + (hi - range_end r) / 4096.
Proof. unfold range_end. intros. lia. Qed.

Lemma type_at_before l : forall lo hi x, chain lo l hi -> x < lo -> type_at l x = None.
Proof.
  induction l as [|r l IH]; intros lo hi x Hc Hx; [done|]. destruct Hc as (Hs & _ & Hp & Hc). simpl.
  rewrite (proj2 (Z.leb_gt _ _)) by lia. simpl. apply (IH (range_end r) hi); [done|].
  unfold range_end. lia.
Qed.

Lemma filter_all {A} (P : A -> Prop) `{!forall x, Decision (P x)} (l : list A) :
  Forall P l -> filter P l = l.
Proof. induction 1; [done|]. by rewrite filter_cons_True, IHForall by done. Qed.

Lemma filter_none {A} (P : A -> Prop) `{!forall x, Decision (P x)} (l : list A) :
  Forall (fun x => ~ P x) l -> filter P l = [].
Proof. induction 1; [done|]. by rewrite filter_cons_False by done. Qed.

Lemma filter_ext_in {A} (P Q : A -> Prop) `{!forall x, Decision (P x)} `{!forall x, Decision (Q x)}
    (l : list A) : Forall (fun x => P x <-> Q x) l -> filter P l = filter Q l.
Proof.
  induction 1 as [|x l Hx Hl IH]; [done|]. rewrite !filter_cons.
  destruct (decide (P x)), (decide (Q x)); try tauto; by rewrite IH.
Qed.

(** The conventional pages are those of conventional type. *)
Lemma free_pages_filter l : forall lo hi, lo mod 4096 = 0 -> 0 <= lo -> hi <= 4294967296 ->
  chain lo l hi ->
  free_pages l = filter (fun p => type_at l (4096 * p) = Some XNU_EFI_CONVENTIONAL)
                   (seqZ (lo / 4096) ((hi - lo) / 4096)).
Proof.
  induction l as [|r l IH]; intros lo hi Hal Hlo Hhi Hc.
  { simpl in Hc. subst. by replace ((hi - hi) / 4096) with 0 by lia. }
  destruct Hc as (Hs & _ & Hp & Hc). pose proof (chain_small (range_end r) l hi) as Hsm.
  destruct Hsm as [_ Hle]; [unfold range_end; lia | done | done|].
  destruct (chain_pages r lo hi Hal Hp Hs Hle) as (Hal' & Hdiv & ->).
  rewrite free_pages_cons, seqZ_app, filter_app, <- Hdiv by lia.
  rewrite (IH (range_end r) hi) by (done || unfold range_end; lia). f_equal.
  - rewrite Hs. destruct (_ =? _) eqn:E; zbool; symmetry;
      [apply filter_all | apply filter_none]; apply Forall_forall; intros p Hin%elem_of_seqZ;
      simpl; rewrite (proj2 (Z.leb_le _ _)), (proj2 (Z.ltb_lt _ _)) by (unfold range_end; lia);
      simpl; congruence.
  - apply filter_ext_in, Forall_forall. intros p Hin%elem_of_seqZ. simpl.
    rewrite (proj2 (Z.ltb_ge _ (range_end r))), andb_false_r by (unfold range_end in *; lia). done.
Qed.

Lemma length_free_pages l : forall lo hi, lo mod 4096 = 0 -> 0 <= lo -> hi <= 4294967296 ->
  chain lo l hi -> Z.of_nat (length (free_pages l)) <= (hi - lo) / 4096.
Proof.
  intros lo hi Hal Hlo Hhi Hc. destruct (chain_small lo l hi Hlo Hhi Hc) as [_ Hle].
  rewrite (free_pages_filter l lo hi) by done.
  pose proof (length_filter (fun p => type_at l (4096 * p) = Some XNU_EFI_CONVENTIONAL)
    (seqZ (lo / 4096) ((hi - lo) / 4096))) as Hf.
  rewrite length_seqZ in Hf. lia.
Qed.

(** The tally of a chain: no overlap, every page counted once. *)
Lemma tally_chain l : forall lo hi i t, lo mod 4096 = 0 -> 0 <= lo -> hi <= 4294967296 ->
  chain lo l hi -> (i = 0 \/ t_previous_end t <= lo) -> 0 <= i ->
  0 <= t_conventional t -> 0 <= t_reserved t ->
  t_conventional t + t_reserved t + (hi - lo) / 4096 <= 4294967296 ->
  let n := Z.of_nat (length (free_pages l)) in
  let t' := tally_all i l t in
  t_conventional t' = t_conventional t + n /\
  t_reserved t' = t_reserved t + ((hi - lo) / 4096 - n) /\ t_overlaps t' = t_overlaps t.
Proof.
  induction l as [|r l IH]; intros lo hi i t Hal Hlo Hhi Hc Hprev Hi Hcv Hrs Hsum n t'.
  { simpl in Hc. subst. unfold n, t'. cbn. lia. }
  destruct Hc as (Hs & _ & Hp & Hc). pose proof (chain_small (range_end r) l hi) as Hsm.
  destruct Hsm as [_ Hle]; [unfold range_end; lia | done | done|].
  destruct (chain_pages r lo hi Hal Hp Hs Hle) as (Hal' & Hdiv & Hn). rewrite Hn in *.
  assert (0 <= range_end r) by (unfold range_end; lia).
  pose proof (length_free_pages l (range_end r) hi Hal' ltac:(done) Hhi Hc) as Hlen.
  unfold n, t'. rewrite free_pages_cons. cbn [tally_all].
  set (t1 := tally_range _ _ _ _ _ _).
  assert (t_previous_end t1 = range_end r /\ t_overlaps t1 = t_overlaps t /\
    if mr_type r =? XNU_EFI_CONVENTIONAL
    then t_conventional t1 = t_conventional t + number_of_pages r /\ t_reserved t1 = t_reserved t
    else t_conventional t1 = t_conventional t /\ t_reserved t1 = t_reserved t + number_of_pages r)
    as (H1 & H2 & H3).
  { unfold t1, tally_range. rewrite Hs.
    assert ((negb (i =? 0) && (lo <? t_previous_end t)) = false) as ->.
    { destruct Hprev; [subst; done|]. rewrite (proj2 (Z.ltb_ge _ _)) by lia. by rewrite andb_false_r. }
    destruct (_ =? _); cbn; split_and!; try done; wunfold; lia. }
  specialize (IH (range_end r) hi (i + 1) t1). cbv zeta in IH.
  destruct (_ =? _); destruct H3 as [H3 H4]; destruct IH as (-> & -> & ->); try done; try lia;
    rewrite ?length_app, ?length_seqZ; simpl length; lia.
Qed.

(** The seeds: the first free page and the end of memory. *)
Definition first_free (old : Z) (pages : list Z) : Z :=
  if old =? 0 then 4096 * default 0 (head pages) else old.

Lemma first_free_cons old p l l' : 0 < p -> first_free (first_free old [p]) l = first_free old (p :: l').
Proof.
  intros Hp. unfold first_free. simpl. destruct (old =? 0) eqn:E; [|by rewrite E].
  by rewrite (proj2 (Z.eqb_neq _ _)) by lia.
Qed.

Lemma first_free_nil old l : first_free (first_free old []) l = first_free old l.
Proof. unfold first_free. simpl. destruct (old =? 0) eqn:E; [done|]. by rewrite E. Qed.

Lemma seed_chain l : forall lo hi i, lo mod 4096 = 0 -> 0 < lo -> hi < 4294967296 ->
  chain lo l hi -> 0 <= i_memory_max_end i <= lo ->
  seed_all l i =
    set_max_end (if bool_decide (l = []) then i_memory_max_end i else hi)
      (set_first_free (first_free (i_memory_first_free i) (free_pages l)) i).
Proof.
  induction l as [|r l IH]; intros lo hi i Hal Hlo Hhi Hc Hmax.
  { unfold first_free. destruct i; cbn. destruct (_ =? 0) eqn:E; zbool; by subst. }
  destruct Hc as (Hs & _ & Hp & Hc). pose proof (chain_small (range_end r) l hi) as Hsm.
  destruct Hsm as [_ Hle]; [unfold range_end; lia | lia | done|].
  destruct (chain_pages r lo hi Hal Hp Hs Hle) as (Hal' & Hdiv & Hn).
  assert (lo < range_end r) by (unfold range_end; lia).
  change (seed_all (r :: l) i) with
    (seed_all l (seed_range (mr_type r) (physical_start r) (range_end r) i)).
  set (i1 := seed_range _ _ _ _).
  assert (i1 = set_max_end (range_end r) (set_first_free (first_free (i_memory_first_free i)
    (if mr_type r =? XNU_EFI_CONVENTIONAL then [lo / 4096] else [])) i)) as Hi1.
  { unfold i1, seed_range, first_free. rewrite Hs. destruct i; cbn in *.
    destruct (_ =? XNU_EFI_CONVENTIONAL), (_ =? 0) eqn:E; zbool; cbn; subst;
      rewrite (proj2 (Z.ltb_lt _ _)) by lia; cbn; rewrite !u32_small by mlia; f_equal; lia. }
  rewrite (IH (range_end r) hi i1) by (try done; try lia; rewrite Hi1; destruct i; cbn in *; lia).
  rewrite (bool_decide_false (r :: l = [])) by done.
  assert ((if bool_decide (l = []) then i_memory_max_end i1 else hi) = hi) as ->.
  { case_bool_decide; [|done]. subst l. simpl in Hc. rewrite Hi1. by destruct i. }
  rewrite free_pages_cons, Hs, Hi1. destruct i; cbn. f_equal.
  destruct (_ =? XNU_EFI_CONVENTIONAL).
  - rewrite (seqZ_cons (lo / 4096)) by done. apply first_free_cons. lia.
  - apply first_free_nil.
Qed.

(** ** What the probe keeps *)

(** [g_info] with other values of the three fields the probe sets. *)
Definition probed (ds tb cc : Z) (i : info) : info := set_cpu_count cc (set_timebase tb (set_dtb_size ds i)).

Lemma probe_prop_keeps m name data len i : exists tb cc, probe_prop m name data len i = probed (i_dtb_size i) tb cc i.
Proof.
  unfold probe_prop. destruct (_ && _).
  { exists (be32 m data), (i_cpu_count i). by destruct i. }
  destruct (_ && _); [exists (i_timebase_hz i), (i_cpu_count i +! 1) | exists (i_timebase_hz i), (i_cpu_count i)];
    by destruct i.
Qed.

Lemma probed_probed ds tb cc ds' tb' cc' i : probed ds tb cc (probed ds' tb' cc' i) = probed ds tb cc i.
Proof. by destruct i. Qed.

Lemma probe_loop_keeps fuel m dtb strings ss end_ : forall off i i',
  probe_loop fuel m dtb strings ss end_ off i = Some i' ->
  exists ds tb cc, i' = probed ds tb cc i.
Proof.
  assert (forall i, exists ds tb cc, i = probed ds tb cc i) as Hrefl.
  { intros i. exists (i_dtb_size i), (i_timebase_hz i), (i_cpu_count i). by destruct i. }
  induction fuel as [|fuel IH]; intros off i i' Hl; simpl in Hl;
    (destruct (negb _); [injection Hl as <-; apply Hrefl|]); [done|].
  repeat match type of Hl with
  | Some _ = Some _ => injection Hl as <-; apply Hrefl
  | (if ?b then _ else _) = _ => destruct b
  end; try by apply IH in Hl.
  apply IH in Hl as (ds & tb & cc & ->).
  match goal with |- context [probe_prop m ?n ?d ?l i] =>
    destruct (probe_prop_keeps m n d l i) as (tb' & cc' & ->) end.
  rewrite probed_probed. eauto.
Qed.

Lemma stage0_init_keeps fuel m hartid dtb args i :
  stage0_init fuel m hartid dtb args = Some i ->
  exists ds tb cc, i = probed ds tb cc (init_info m hartid dtb args).
Proof.
  unfold stage0_init, fdt_probe. set (i0 := init_info m hartid dtb args). clearbody i0. intros Hi.
  apply bind_Some in Hi as (i1 & Hp & Hi). injection Hi as <-.
  assert (exists ds tb cc, i1 = probed ds tb cc i0) as (ds & tb & cc & ->).
  { destruct (_ || _).
    - injection Hp as <-. exists (i_dtb_size i0), (i_timebase_hz i0), (i_cpu_count i0). by destruct i0.
    - apply probe_loop_keeps in Hp as (ds & tb & cc & ->). exists ds, tb, cc. by destruct i0. }
  destruct (i_cpu_count _ =? 0); [exists ds, tb, 1 | exists ds, tb, cc]; by destruct i0.
Qed.

(** ** The booter and the kernel agree on the memory map *)

#[global] Instance request_covers_dec q x : Decision (request_covers q x).
Proof. destruct q as [[b n] t]. unfold request_covers. apply _. Defined.

(** The pages of RAM from [lo] to [hi] no request covers. *)
Definition uncovered (qs : list (Z * Z * Z)) (lo hi : Z) : list Z :=
  filter (fun p => Forall (fun q => ~ request_covers q (4096 * p)) qs)
    (seqZ (lo / 4096) ((hi - lo) / 4096)).

Section Handover.
Context {D : Type} (L : BootLoader.layout) (m0 : mem).
Context (hartid dtb ib isz low high : Z) (ba : BootArgs.boot_args) (cmd : list Z).
Context (Hm0 : mem_ok m0).
Context (Hreq : Forall is_u32 [BootLoader.BOOTX_START L; BootLoader.BOOTX_END L; low; dtb; ib; isz]).
Context (Hargs : BootLoader.XNU_BOOT_ARGS L <> 0) (Hmap : BootLoader.XNU_MEMORY_MAP L <> 0).

(** What the booter hands over, and the RAM it describes. *)
Let args := (BootLoader.make_boot_args L m0 hartid dtb ib isz low high ba cmd).1.
Let map := (BootLoader.make_boot_args L m0 hartid dtb ib isz low high ba cmd).2.
Let ram_end := page_down (0x80000000 +! BootLoader.a_mem_size args).
Let qs := requests (BootLoader.BOOTX_START L) (BootLoader.BOOTX_END L)
            (BootLoader.a_kernel_base args) (BootLoader.a_kernel_size args)
            (BootLoader.a_dtb_paddr args) (BootLoader.a_dtb_size args) ib isz.

Context (Hram : 0x80000000 < ram_end).

Lemma handover_args :
  BootLoader.a_magic args = BootLoader.RISCV32_CARIBEBOOTX_MAGIC /\
  BootLoader.a_version args = 2 /\
  (map, BootLoader.a_memory_map_count args) =
    xnu_build_memory_map (BootLoader.BOOTX_START L) (BootLoader.BOOTX_END L) 0x80000000
      (BootLoader.a_mem_size args) (BootLoader.a_kernel_base args) (BootLoader.a_kernel_size args)
      (BootLoader.a_dtb_paddr args) (BootLoader.a_dtb_size args) ib isz /\
  BootLoader.a_memory_map_paddr args =
    (if BootLoader.a_memory_map_count args =? 0 then 0 else BootLoader.XNU_MEMORY_MAP L) /\
  BootLoader.a_memory_map_desc_size args =
    (if BootLoader.a_memory_map_count args =? 0 then 0 else 40) /\
  Forall is_u32 [BootLoader.BOOTX_START L; BootLoader.BOOTX_END L; BootLoader.a_kernel_base args;
    BootLoader.a_kernel_size args; BootLoader.a_dtb_paddr args; BootLoader.a_dtb_size args; ib; isz].
Proof using Hm0 Hreq.
  rewrite !Forall_cons in Hreq. destruct Hreq as (? & ? & ? & ? & ? & ? & _).
  unfold args, map, BootLoader.make_boot_args.
  assert (is_u32 (if dtb =? 0 then 0 else be32 m0 (dtb + 4))).
  { destruct (_ =? 0); [mlia|]. by apply be32_range. }
  destruct (xnu_build_memory_map _ _ _ _ _ _ _ _ _ _) as [mp n] eqn:Hb. cbn. rewrite Hb.
  split_and!; try done. rewrite !Forall_cons. split_and!; try done. apply u32_range.
Qed.

(** The entries the kernel reads, and the pages they make free. *)
Lemma handover_entries :
  let n := BootLoader.a_memory_map_count args in
  let l := take (Z.to_nat n) map in
  0 < n <= 11 /\ length l = Z.to_nat n /\ chain 0x80000000 l ram_end /\
  free_pages l = uncovered qs 0x80000000 ram_end.
Proof using Hm0 Hreq Hram.
  destruct handover_args as (_ & _ & Hb & _ & _ & Hu).
  destruct (builder_spec (BootLoader.BOOTX_START L) (BootLoader.BOOTX_END L) 0x80000000
    (BootLoader.a_mem_size args) (BootLoader.a_kernel_base args) (BootLoader.a_kernel_size args)
    (BootLoader.a_dtb_paddr args) (BootLoader.a_dtb_size args) ib isz ltac:(mlia) Hu Hram)
    as (rs & (Hl & Hn & _ & Hc & Ht) & Hle & Hh).
  rewrite <- Hb in Hl, Hn, Hc, Ht, Hle. cbn [fst snd] in *.
  change (page_up 0x80000000) with 0x80000000 in *. fold ram_end in Hc, Ht.
  assert (ram_end < 4294967296) as Hend.
  { pose proof (page_down_aligned (0x80000000 +! BootLoader.a_mem_size args) (u32_range _)).
    pose proof (u32_range (0x80000000 + BootLoader.a_mem_size args)). unfold ram_end. mlia. }
  split_and!.
  - destruct (decide (BootLoader.a_memory_map_count args = 0)) as [E|]; [|lia].
    rewrite E in Hc. simpl in Hc. lia.
  - done.
  - rewrite length_take. lia.
  - done.
  - rewrite (free_pages_filter _ 0x80000000 ram_end) by (done || lia). unfold uncovered.
    apply filter_ext_in, Forall_forall. intros p Hp%elem_of_seqZ.
    destruct (Ht (4096 * p) ltac:(lia)) as (t & -> & Hcl).
    destruct (held_classify _ _ _ Hcl) as [Hheld | [-> Hno]].
    + apply Hh in Hheld as (q & Hq & Hcov & ->); [|lia]. split.
      * intros [= Hty]. exfalso. unfold requests in Hq. rewrite !elem_of_cons in Hq.
        destruct_or! Hq; subst; simpl in Hty; try done. by apply elem_of_nil in Hq.
      * intros Hall. rewrite Forall_forall in Hall. exfalso. by apply (Hall q).
    + split; [|done]. intros _. apply Forall_forall. intros q Hq Hcov.
      apply (Hno (request_type q)), Hh; [lia | eauto].
Qed.
End Handover.

(** What the booter leaves in its statics is what the kernel reads there. *)
Lemma handoff_args_at m L h :
  holds m (BootLoader.handoff_fields L h) -> Forall is_u32 (BootLoader.args_words (BootLoader.h_args h)) ->
  args_at m (BootLoader.XNU_BOOT_ARGS L) (BootLoader.h_args h).
Proof.
  intros Hh Hu. apply Forall_inv in Hh. cbn [fst snd] in Hh. unfold BootLoader.args_bytes in Hh.
  apply read_bytes_prefix in Hh. rewrite length_words_bytes in Hh.
  assert (forall i w, BootLoader.args_words (BootLoader.h_args h) !! i = Some w ->
    load32 m (BootLoader.XNU_BOOT_ARGS L + 4 * Z.of_nat i) = w) as Hw.
  { intros i w Hi. rewrite (load32_words m _ _ i w Hh Hi). apply u32_small. by eapply Forall_lookup_1. }
  unfold args_at, arg. cbn [fmap list_fmap]. repeat f_equal.
  - by apply (Hw 0%nat).
  - by apply (Hw 1%nat).
  - by apply (Hw 3%nat).
  - by apply (Hw 4%nat).
  - by apply (Hw 5%nat).
  - by apply (Hw 6%nat).
  - by apply (Hw 7%nat).
  - by apply (Hw 8%nat).
  - by apply (Hw 9%nat).
  - by apply (Hw 10%nat).
  - by apply (Hw 11%nat).
  - by apply (Hw 12%nat).
  - by apply (Hw 15%nat).
  - by apply (Hw 16%nat).
  - by apply (Hw 17%nat).
  - by apply (Hw 18%nat).
  - by apply (Hw 19%nat).
Qed.

Lemma load64_halves m a v : is_u64 v ->
  load32 m a = u32 v -> load32 m (a + 4) = u32 (Z.shiftr v 32) -> load64 m a = v.
Proof.
  intros Hv H0 H4. unfold load64. rewrite H0, H4, Z.shiftr_div_pow2 by lia.
  change (2 ^ 32) with 4294967296. mlia.
Qed.

Definition range_fits (r : mem_range) : Prop :=
  is_u32 (mr_type r) /\ is_u64 (physical_start r) /\ is_u64 (number_of_pages r).

Lemma map_words_at m base : forall l i,
  read_bytes m (base + 40 * i) (4 * length (concat (BootLoader.range_words <$> l))) =
    words_bytes (concat (BootLoader.range_words <$> l)) ->
  Forall range_fits l -> 0 <= i -> i + Z.of_nat (length l) <= 1000 -> map_at m base i l.
Proof.
  induction l as [|r l IH]; intros i Hr Hf Hi Hl; [done|]. apply Forall_cons in Hf as [(Ht & Hp & Hn) Hf].
  cbn [length] in Hl. rewrite fmap_cons in Hr. cbn [concat] in Hr.
  set (ws := BootLoader.range_words r ++ concat (BootLoader.range_words <$> l)) in *.
  assert (forall j w, ws !! j = Some w -> load32 m (base + 40 * i + 4 * Z.of_nat j) = u32 w) as Hw
    by (intros j w; by apply load32_words).
  cbn [map_at]. rewrite (u32_small (i * 40)), (Z.mul_comm i 40) by mlia. split_and!.
  - rewrite <- (u32_small (mr_type r)) by done. rewrite <- (Hw 0%nat) by done. f_equal. lia.
  - apply load64_halves; [done | by apply (Hw 2%nat)|].
    rewrite <- (Hw 3%nat) by done. f_equal. lia.
  - apply load64_halves; [done | by apply (Hw 6%nat)|].
    rewrite <- (Hw 7%nat) by done. f_equal. lia.
  - apply IH; [|done | lia | lia]. unfold ws in Hr.
    assert (forall (u v : list Z), words_bytes (u ++ v) = words_bytes u ++ words_bytes v) as Happ.
    { intros u v. unfold words_bytes. by rewrite fmap_app, concat_app. }
    rewrite Happ, length_app, Nat.mul_add_distr_l, read_bytes_app in Hr.
    apply app_inj_1 in Hr as [_ Hr]; [|by rewrite length_read_bytes, length_words_bytes].
    rewrite <- Hr. f_equal. cbn [BootLoader.range_words length app]. lia.
Qed.

Lemma handoff_map_at m L h :
  holds m (BootLoader.handoff_fields L h) -> Forall range_fits (BootLoader.h_map h) ->
  (length (BootLoader.h_map h) <= 16)%nat ->
  map_at m (BootLoader.XNU_MEMORY_MAP L) 0 (BootLoader.h_map h).
Proof.
  intros Hh Hf Hl. apply Forall_inv_tail, Forall_inv in Hh. cbn [fst snd] in Hh.
  apply map_words_at; [|done | lia | lia]. unfold BootLoader.map_bytes in Hh.
  rewrite length_words_bytes in Hh. rewrite <- Hh. f_equal. lia.
Qed.

(** The report on a map in memory, entry by entry. *)
Lemma print_memory_map_tally {D} (s : state D) (l : list mem_range) :
  let i := s_info s in
  let t := tally_all 0 l (Tally 0 0 0 0) in
  i_args i <> 0 -> args_magic (s_mem s) (i_args i) = BootLoader.RISCV32_CARIBEBOOTX_MAGIC ->
  args_version (s_mem s) (i_args i) = 2 -> i_memory_map_paddr i <> 0 ->
  i_memory_map_desc_size i = 40 -> i_memory_map_count i = Z.of_nat (length l) ->
  0 < Z.of_nat (length l) <= 16 -> map_at (s_mem s) (i_memory_map_paddr i) 0 l ->
  Forall small_range l ->
  yields stage0_print_memory_map s (fun _ s' =>
    s_mem s' = s_mem s /\
    s_info s' = set_summary (u32 (t_conventional t)) (u32 (t_reserved t)) (t_overlaps t)
      (seed_all l i)).
Proof.
  intros i t Ha Hm Hv Hp Hd Hc Hl Hat Hsm. unfold stage0_print_memory_map. pstep.
  apply yields_gets. sview. unfold geti. apply yields_gets. sview. unfold id. fold i.
  rewrite Hm, Hv, Hd, Hc, Z.eqb_refl, (proj2 (Z.eqb_neq _ 0) Ha), (proj2 (Z.eqb_neq _ 0) Hp).
  rewrite (proj2 (Z.eqb_neq (Z.of_nat _) 0)), (proj2 (Z.ltb_ge 16 _)) by lia.
  rewrite (Z.ltb_irrefl (Z.of_nat _)), Nat2Z.id.
  cbn [negb orb Z.ltb Z.compare Pos.compare Pos.compare_cont]. do 7 pstep.
  apply yields_bind. eapply yields_mono; [by apply map_loop_tally|]. sview.
  intros t' s' (-> & Hi' & Hm' & _). fold t. fold i in Hi'. rewrite <- Hi', <- Hm'. clear.
  apply yields_bind, yields_ret. do 7 pstep. apply yields_modify. sview. apply yields_gets. sview.
  do 6 pstep. unfold puts, modifyS, yields. by sview.
Qed.

(** What [stage0_init] takes from the arguments, of the fields the report uses. *)
Lemma init_memory_fields m hartid dtb a x ds tb cc :
  a <> 0 -> args_at m a x -> BootLoader.a_magic x = BootLoader.RISCV32_CARIBEBOOTX_MAGIC ->
  BootLoader.a_version x = 2 ->
  let i := probed ds tb cc (init_info m hartid dtb a) in
  args_magic m a = BootLoader.RISCV32_CARIBEBOOTX_MAGIC /\ args_version m a = 2 /\ i_args i = a /\
  i_memory_map_paddr i = BootLoader.a_memory_map_paddr x /\
  i_memory_map_count i = BootLoader.a_memory_map_count x /\
  i_memory_map_desc_size i = BootLoader.a_memory_map_desc_size x /\
  i_memory_first_free i = 0 /\ i_memory_max_end i = 0.
Proof.
  intros Ha Hat Hmag Hver i. unfold args_at in Hat. cbn in Hat. injection Hat as H0 H4 _ _ _ _ _ _ _ _ _ _ _ _ Hp Hc Hd.
  assert (args_magic m a = BootLoader.RISCV32_CARIBEBOOTX_MAGIC) as Hm by (unfold args_magic; congruence).
  assert (args_version m a = 2) as Hv by (unfold args_version; congruence).
  unfold i, init_info. rewrite Hm, Hv, (proj2 (Z.eqb_neq _ _) Ha). cbn. by split_and!.
Qed.

(** C8: the booter and the kernel agree on memory.  When the kernel is entered with
    the arguments and the map the booter made, its report finds no overlap,
    counts as free exactly the pages of RAM that no request of the booter covers
    (OpenSBI, CaribeBootX, the kernel, the device tree, the initrd) and as reserved
    all the others, starts free memory at the lowest free page and ends memory at
    the end of RAM; nothing else of [g_info] changes. *)
Theorem booter_map_accepted {D} (L : BootLoader.layout) (m0 : mem)
    (hartid dtb ib isz low high : Z) (ba : BootArgs.boot_args) (cmd : list Z)
    (fuel : nat) (i : info) (s : state D)
    (Hm0 : mem_ok m0)
    (Hreq : Forall is_u32 [BootLoader.BOOTX_START L; BootLoader.BOOTX_END L; low; dtb; ib; isz])
    (Hargs : BootLoader.XNU_BOOT_ARGS L <> 0) (Hmap : BootLoader.XNU_MEMORY_MAP L <> 0) :
  let '(args, map) := BootLoader.make_boot_args L m0 hartid dtb ib isz low high ba cmd in
  let ram_end := page_down (0x80000000 +! BootLoader.a_mem_size args) in
  let free := uncovered (requests (BootLoader.BOOTX_START L) (BootLoader.BOOTX_END L)
      (BootLoader.a_kernel_base args) (BootLoader.a_kernel_size args)
      (BootLoader.a_dtb_paddr args) (BootLoader.a_dtb_size args) ib isz) 0x80000000 ram_end in
  let n := Z.of_nat (length free) in
  0x80000000 < ram_end ->
  args_at (s_mem s) (BootLoader.XNU_BOOT_ARGS L) args ->
  map_at (s_mem s) (BootLoader.XNU_MEMORY_MAP L) 0 map ->
  stage0_init fuel (s_mem s) hartid dtb (BootLoader.XNU_BOOT_ARGS L) = Some i ->
  s_info s = i ->
  yields stage0_print_memory_map s (fun _ s' =>
    s_mem s' = s_mem s /\
    s_info s' = set_summary n ((ram_end - 0x80000000) / 4096 - n) 0
      (set_max_end ram_end (set_first_free (4096 * default 0 (head free)) i))).
Proof.
  destruct (BootLoader.make_boot_args _ _ _ _ _ _ _ _ _ _) as [args map] eqn:Hmk.
  intros ram_end free n Hram Hat Hmat Hinit Hs.
  pose proof (handover_args L m0 hartid dtb ib isz low high ba cmd Hm0 Hreq) as Hh.
  pose proof (handover_entries L m0 hartid dtb ib isz low high ba cmd Hm0 Hreq) as He.
  rewrite Hmk in Hh, He. cbn [fst snd] in Hh, He. fold ram_end in He. fold free in He.
  specialize (He Hram). destruct Hh as (Hmag & Hver & _ & Hpa & Hds & _).
  destruct He as (Hn & Hlen & Hc & Hfree).
  apply stage0_init_keeps in Hinit as (ds & tb & cc & Hi).
  destruct (init_memory_fields _ hartid dtb _ _ ds tb cc Hargs Hat Hmag Hver)
    as (Em & Ev & Ea & Ep & Ec & Ed & Eff & Eme).
  rewrite <- Hi in Ea, Ep, Ec, Ed, Eff, Eme. clear Hi.
  rewrite (proj2 (Z.eqb_neq _ _)) in Hpa, Hds by lia.
  apply (map_at_take _ _ (Z.to_nat (BootLoader.a_memory_map_count args))) in Hmat.
  set (l := take (Z.to_nat (BootLoader.a_memory_map_count args)) map) in *. clearbody l.
  assert (ram_end < 4294967296) as Hend.
  { pose proof (page_down_aligned (0x80000000 +! BootLoader.a_mem_size args) (u32_range _)).
    pose proof (u32_range (0x80000000 + BootLoader.a_mem_size args)). unfold ram_end. mlia. }
  clearbody ram_end. destruct (chain_small 0x80000000 l ram_end) as [Hsm _]; [lia | lia | done|].
  destruct (tally_chain l 0x80000000 ram_end 0 (Tally 0 0 0 0)) as (Tc & Tr & To);
    try done; cbn [t_conventional t_reserved]; try lia; try by left.
  pose proof (length_free_pages l 0x80000000 ram_end) as Hf. rewrite Hfree in *.
  fold n in Tc, Tr, Hf. assert (n <= (ram_end - 0x80000000) / 4096) as Hn' by (apply Hf; done || lia).
  assert (0 <= n) by (unfold n; lia). clearbody n.
  eapply yields_mono; [apply (print_memory_map_tally s l); rewrite ?Hs, ?Ea, ?Ep, ?Ed, ?Hpa; done || lia|].
  intros _ s' [-> ->]. split; [done|]. rewrite Tc, Tr, To. cbn [t_conventional t_reserved t_overlaps].
  rewrite !u32_small by mlia. f_equal. rewrite Hs, (seed_chain l 0x80000000 ram_end) by (done || lia).
  rewrite bool_decide_false by (intros ->; simpl in Hlen; lia). by rewrite Eff, Hfree.
Qed.

(** ** The device-tree probe on an encoded tree *)

(** As [Fdt.toks_at], with every token inside the structure block, which ends at
    [hi], and every name inside the strings block of [size] bytes. *)
Inductive toks_within (m : mem) (strs hi size : Z) : Z -> list Fdt.tok -> Prop :=
  | within_nil p : toks_within m strs hi size p []
  | within_cons p p' t ts :
      Fdt.tok_at m strs p t p' -> p' <= hi ->
      match t with Fdt.PropTok _ _ => be32 m (p + 8) < size | _ => True end ->
      toks_within m strs hi size p' ts -> toks_within m strs hi size p (t :: ts).

(** Where the structure block ends, from the header of the blob. *)
Definition struct_end (m : mem) (dtb : Z) : Z :=
  if be32 m (dtb + 36) =? 0 then be32 m (dtb + 4)
  else be32 m (dtb + 8) + be32 m (dtb + 36).

(** A blob that encodes [t] within the sizes its header gives, at a 4-aligned
    address and inside the address space. *)
Definition sized_blob_at (m : mem) (dtb : Z) (t : Fdt.node) : Prop :=
  0 < dtb /\ dtb mod 4 = 0 /\ be32 m dtb = Fdt.FDT_MAGIC /\
  dtb + struct_end m dtb < 4294967288 /\
  toks_within m (dtb + be32 m (dtb + 12)) (dtb + struct_end m dtb) (be32 m (dtb + 32))
    (dtb + be32 m (dtb + 8)) (Fdt.flatten t ++ [Fdt.DoneTok]).

Lemma within_at m strs hi size p ts : toks_within m strs hi size p ts -> Fdt.toks_at m strs p ts.
Proof. induction 1; by econstructor. Qed.

(** The properties of a tree in document order. *)
Fixpoint tree_props (t : Fdt.node) : list (list Z * list Z) :=
  match t with
  | Fdt.Node _ props children => props ++ concat (map tree_props children)
  end.

(** What the probe makes of a property. *)
Definition cpu_prefix (data : list Z) : bool := bool_decide (take 3 data = cstr "cpu").

Definition cell (data : list Z) : Z :=
  match data with
  | a :: b :: c :: d :: _ =>
      Z.lor (Z.lor (Z.lor (Z.shiftl a 24) (Z.shiftl b 16)) (Z.shiftl c 8)) d
  | _ => 0
  end.

Definition see_prop (i : info) (p : list Z * list Z) : info :=
  if bytes_eqb p.1 "timebase-frequency" && (4 <=? length p.2)%nat then set_timebase (cell p.2) i
  else if bytes_eqb p.1 "device_type" && cpu_prefix p.2
  then set_cpu_count (i_cpu_count i +! 1) i
  else i.

Definition see_tok (i : info) (t : Fdt.tok) : info :=
  match t with Fdt.PropTok name data => see_prop i (name, data) | _ => i end.

Lemma see_flatten t : forall i, foldl see_tok i (Fdt.flatten t) = foldl see_prop i (tree_props t).
Proof.
  induction t as [name props children IH] using Fdt.node_ind'. intros i. simpl.
  rewrite !foldl_app.
  assert (forall i, foldl see_tok i (map (fun p => Fdt.PropTok p.1 p.2) props) = foldl see_prop i props) as ->.
  { clear. induction props as [|[n d] props IH]; intros i; [done|]. apply IH. }
  simpl. generalize (foldl see_prop i props). clear i. induction IH as [|t l Ht Hl IHl]; intros i; [done|].
  simpl. rewrite !foldl_app, Ht. apply IHl.
Qed.

Lemma streq_fdt m lit : is_cstr lit -> forall a, streq m a lit = Fdt.streq m a lit.
Proof.
  induction 1 as [|c lit Hc Hl IH]; intros a; [done|].
  change (Fdt.streq m a (c :: lit)) with ((load8 m a =? c) && Fdt.streq m (a + 1) lit). simpl.
  rewrite IH. destruct (load8 m a =? 0) eqn:E; zbool.
  - rewrite (proj2 (Z.eqb_neq _ _)) by lia. done.
  - by destruct (load8 m a =? c).
Qed.

Lemma streq_len_at m n : forall a needle, length needle = n ->
  streq_len m a n needle = bool_decide (read_bytes m a n = needle).
Proof.
  induction n as [|n IH]; intros a needle Hn; (destruct needle as [|c needle]; [|simpl in Hn]); try done.
  injection Hn as Hn. simpl. rewrite IH by done. destruct (load8 m a =? c) eqn:E; zbool; simpl.
  - subst c. apply bool_decide_ext. split; [by intros -> | by intros [= ->]].
  - symmetry. apply bool_decide_false. congruence.
Qed.

Lemma take_read_bytes m a n k : (k <= n)%nat -> take k (read_bytes m a n) = read_bytes m a k.
Proof.
  intros Hk. replace n with (k + (n - k))%nat by lia. rewrite read_bytes_app.
  rewrite take_app_le by (rewrite length_read_bytes; lia).
  apply firstn_all2. rewrite length_read_bytes. lia.
Qed.

Lemma probe_prop_at m name data pname pdata i :
  cstr_at m pname name -> read_bytes m pdata (length data) = data ->
  probe_prop m pname pdata (Z.of_nat (length data)) i = see_prop i (name, data).
Proof.
  intros Hn Hd. unfold probe_prop, see_prop. cbn [fst snd].
  rewrite !streq_fdt by by apply Fdt.lit_cstr.
  rewrite !(Fdt.streq_at m _ pname name) by (done || by apply Fdt.lit_cstr).
  assert ((4 <=? Z.of_nat (length data)) = (4 <=? length data)%nat) as ->.
  { apply eq_true_iff_eq. rewrite Z.leb_le, Nat.leb_le. lia. }
  destruct (bytes_eqb name "timebase-frequency" && (4 <=? length data)%nat) eqn:E.
  { apply andb_true_iff in E as [_ E%Nat.leb_le]. f_equal.
    do 4 (destruct data as [|? data]; [simpl in E; lia|]). simpl length in Hd. cbn [read_bytes] in Hd.
    injection Hd as <- <- <- <- _. unfold cell, be32.
    replace (pdata + 1 + 1 + 1) with (pdata + 3) by lia. by replace (pdata + 1 + 1) with (pdata + 2) by lia. }
  rewrite <- andb_assoc.
  assert ((3 <=? Z.of_nat (length data)) && streq_len m pdata 3 "cpu" = cpu_prefix data) as ->; [|done].
  clear E. unfold cpu_prefix. destruct (3 <=? Z.of_nat (length data)) eqn:E3; zbool; cbn [andb].
  - rewrite streq_len_at by done. rewrite <- (take_read_bytes m pdata (length data)) by lia. by rewrite Hd.
  - symmetry. apply bool_decide_false. intros Ht. apply (f_equal length) in Ht.
    rewrite length_take in Ht. change (length (cstr "cpu")) with 3%nat in Ht. lia.
Qed.

Lemma skip_name_at m dtb name : forall off n, cstr_at m (dtb + off) name ->
  (length name < n)%nat -> skip_name m dtb off n = off + Z.of_nat (length name).
Proof.
  induction name as [|c name IH]; intros off n Hat Hn; (destruct n as [|n]; [lia|]); simpl in *.
  - rewrite Hat. simpl. lia.
  - destruct Hat as (-> & Hc & Hat). rewrite (proj2 (Z.eqb_neq _ _)) by lia.
    rewrite IH; [lia | by replace (dtb + (off + 1)) with (dtb + off + 1) by lia | lia].
Qed.

Lemma align4_eq v : 0 <= v < 4294967292 -> align4 v = Fdt.align4 v.
Proof.
  intros Hv. unfold align4, Fdt.align4. rewrite u32_small by mlia. change (not32 3) with (not32 (Z.ones 2)).
  rewrite land_not32_ones by (done || mlia). change (2 ^ 2) with 4. lia.
Qed.

(** Offsets and addresses are aligned alike. *)
Lemma align4_offset dtb v p : dtb mod 4 = 0 -> 0 <= v < 4294967292 -> p = dtb + v ->
  dtb + align4 v = Fdt.align4 p.
Proof. intros Hd Hv ->. rewrite align4_eq by done. unfold Fdt.align4. lia. Qed.

(** A token ends after its first word, and a property after its header and data. *)
Lemma tok_at_end m strs p t p' : Fdt.tok_at m strs p t p' ->
  p + 4 <= p' /\
  match t with
  | Fdt.BeginNode name => p + 4 + Z.of_nat (length name) + 1 <= p'
  | Fdt.PropTok _ data => p + 12 + Z.of_nat (length data) <= p'
  | _ => True
  end.
Proof.
  destruct t; simpl; intros Ht; destruct_and? Ht; subst; unfold Fdt.align4; split; try done; lia.
Qed.

(** The probe reads the tokens one by one and stops at the end token. *)
Lemma probe_loop_toks m dtb strs hi size end_ ts : forall fuel p off i,
  toks_within m strs hi size p (ts ++ [Fdt.DoneTok]) ->
  Fdt.DoneTok ∉ ts -> 0 <= dtb -> dtb mod 4 = 0 -> hi = dtb + end_ -> hi < 4294967288 ->
  p = dtb + off -> 0 <= off -> (length ts < fuel)%nat ->
  probe_loop fuel m dtb strs size end_ off i = Some (foldl see_tok i ts).
Proof.
  induction ts as [|t ts IH]; intros fuel p off i Hts Hno Hdtb Hal -> Hhi Hp Hoff Hfuel;
    (destruct fuel as [|fuel]; [lia|]); inversion Hts as [|? p' ? ? Ht Hp' Hnm Hrest]; subst;
    cbn [probe_loop]; destruct (tok_at_end _ _ _ _ _ Ht) as [H4 Hend];
    rewrite (u32_small (off + 4)), (proj2 (Z.leb_le _ _)) by mlia.
  { by destruct Ht as (-> & ->). }
  apply not_elem_of_cons in Hno as [Hd Hno]. simpl in Hfuel. cbn [negb foldl].
  destruct t as [name| |name data| |]; simpl in Ht; [| | | |done].
  - destruct Ht as (-> & Hc & Hp). rewrite Z.add_assoc in Hc || rewrite <- Z.add_assoc in Hc.
    rewrite (skip_name_at m dtb name) by (done || lia). cbn [Z.eqb Pos.eqb Fdt.FDT_BEGIN_NODE].
    rewrite (u32_small (_ + _ + 1)) by mlia.
    apply (IH fuel p'); try done; [|rewrite align4_eq by lia; unfold Fdt.align4; lia|lia].
    rewrite Hp. symmetry. apply align4_offset; [done | lia | lia].
  - destruct Ht as (-> & ->). apply (IH fuel (dtb + off + 4)); try done; lia.
  - destruct Ht as (-> & Hlen & Hlt & Hc & Hdat & Hp). cbn [Z.eqb Pos.eqb orb Fdt.FDT_BEGIN_NODE Fdt.FDT_END_NODE Fdt.FDT_NOP Fdt.FDT_PROP].
    replace (dtb + (off + 4) + 4) with (dtb + off + 8) by lia.
    replace (dtb + (off + 4)) with (dtb + off + 4) by lia. rewrite Hlen.
    rewrite (u32_small (off + 4 + 8)) by mlia. rewrite (u32_small (_ + Z.of_nat _)) by mlia.
    rewrite (proj2 (Z.ltb_ge _ _)), (proj2 (Z.ltb_ge _ _)), (proj2 (Z.leb_gt _ _)) by lia. cbn [orb].
    replace (dtb + (off + 4 + 8)) with (dtb + off + 12) by lia.
    rewrite (probe_prop_at m name data) by done.
    apply (IH fuel p'); try done; [|rewrite align4_eq by lia; unfold Fdt.align4; lia|lia].
    rewrite Hp. symmetry. apply align4_offset; [done | lia | lia].
  - destruct Ht as (-> & ->). apply (IH fuel (dtb + off + 4)); try done; lia.
Qed.

(** *** Processors and timebase of a tree *)

Definition is_cpu_prop (p : list Z * list Z) : bool :=
  bytes_eqb p.1 "device_type" && cpu_prefix p.2.

Definition cpu_props (ps : list (list Z * list Z)) : Z :=
  Z.of_nat (length (filter (fun p => is_cpu_prop p = true) ps)).

(** The last timebase-frequency with a cell. *)
Definition timebase (tb : Z) (ps : list (list Z * list Z)) : Z :=
  foldl (fun tb p => if bytes_eqb p.1 "timebase-frequency" && (4 <=? length p.2)%nat
                     then cell p.2 else tb) tb ps.

Lemma see_prop_eq i p : is_u32 (i_cpu_count i) ->
  see_prop i p = set_cpu_count (i_cpu_count i +! cpu_props [p]) (set_timebase (timebase (i_timebase_hz i) [p]) i).
Proof.
  intros Hi. unfold see_prop, timebase, cpu_props. cbn [foldl]. rewrite filter_cons.
  fold (is_cpu_prop p). destruct (_ && (4 <=? _)%nat) eqn:E.
  - apply andb_true_iff in E as [E%bytes_eqb_eq _].
    assert (is_cpu_prop p = false) as -> by (unfold is_cpu_prop; by rewrite E).
    rewrite decide_False by done. simpl length. rewrite Z.add_0_r, u32_small by done. by destruct i.
  - destruct (is_cpu_prop p).
    + rewrite decide_True by done. by destruct i.
    + rewrite decide_False by done. simpl length. rewrite Z.add_0_r, u32_small by done. by destruct i.
Qed.

Lemma cpu_props_app a b : cpu_props (a ++ b) = cpu_props a + cpu_props b.
Proof. unfold cpu_props. rewrite filter_app, length_app. lia. Qed.

Lemma see_props ps : forall i, is_u32 (i_cpu_count i) ->
  foldl see_prop i ps =
    set_cpu_count (i_cpu_count i +! cpu_props ps) (set_timebase (timebase (i_timebase_hz i) ps) i).
Proof.
  induction ps as [|p ps IH]; intros i Hi.
  { change (cpu_props []) with 0. rewrite Z.add_0_r, u32_small by done. by destruct i. }
  simpl foldl. rewrite see_prop_eq by done. rewrite IH by (destruct i; apply u32_range).
  change (p :: ps) with ([p] ++ ps). rewrite cpu_props_app. unfold timebase. rewrite foldl_app.
  destruct i. cbn [set_cpu_count set_timebase i_cpu_count i_timebase_hz]. f_equal.
  rewrite u32_add_l. f_equal. lia.
Qed.

(** Every node has at most one device_type, and it starts with "cpu" only when it
    is "cpu". *)
Fixpoint plain_types (t : Fdt.node) : Prop :=
  match t with
  | Fdt.Node _ props children =>
      (length (filter (fun p => p.1 = cstr "device_type") props) <= 1)%nat /\
      Forall (fun p => p.1 = cstr "device_type" -> cpu_prefix p.2 = Fdt.cpu_value p.2) props /\
      foldr and True (map plain_types children)
  end.

Lemma cpu_props_node props :
  (length (filter (fun p => p.1 = cstr "device_type") props) <= 1)%nat ->
  Forall (fun p => p.1 = cstr "device_type" -> cpu_prefix p.2 = Fdt.cpu_value p.2) props ->
  cpu_props props = if Fdt.is_cpu props then 1 else 0.
Proof.
  assert (forall ps, (forall p, p ∈ ps -> p.1 <> cstr "device_type") ->
    cpu_props ps = 0 /\ Fdt.is_cpu ps = false) as Hnone.
  { induction ps as [|p ps IH]; intros Hps; [done|]. 
    destruct IH as [H1 H2]; [intros q Hq; apply Hps; by right|].
    assert (bytes_eqb p.1 "device_type" = false) as E by (apply bytes_eqb_neq, Hps; by left).
    change (p :: ps) with ([p] ++ ps). rewrite cpu_props_app, H1. unfold Fdt.is_cpu, cpu_props in *.
    rewrite filter_cons. unfold is_cpu_prop. simpl existsb. rewrite E. by split. }
  induction props as [|p props IH]; intros Hlen Hall; [done|]. apply Forall_cons in Hall as [Hp Hall].
  change (p :: props) with ([p] ++ props). rewrite cpu_props_app. rewrite filter_cons in Hlen.
  destruct (decide (p.1 = cstr "device_type")) as [E|E].
  - simpl in Hlen. destruct (Hnone props) as [-> Hno].
    { intros q Hq Eq. assert (q ∈ filter (fun p => p.1 = cstr "device_type") props) as Hin by by apply list_elem_of_filter.
      destruct (filter _ props); [by apply elem_of_nil in Hin | simpl in Hlen; lia]. }
    unfold cpu_props, Fdt.is_cpu in *. rewrite filter_cons. unfold is_cpu_prop. simpl existsb.
    rewrite Hno, E, <- Hp by done. rewrite (proj2 (bytes_eqb_eq _ _)) by done. simpl.
    by destruct (cpu_prefix p.2).
  - rewrite IH by done. unfold cpu_props, Fdt.is_cpu in *. rewrite filter_cons. unfold is_cpu_prop.
    simpl existsb. rewrite (proj2 (bytes_eqb_neq p.1 _)) by done. done.
Qed.

Lemma cpu_props_tree t : plain_types t -> cpu_props (tree_props t) = Fdt.count_cpu_nodes t.
Proof.
  induction t as [name props children IH] using Fdt.node_ind'. simpl. intros (Hlen & Hall & Hch).
  rewrite cpu_props_app, cpu_props_node by done. f_equal.
  induction IH as [|t l Ht Hl IHl]; [done|]. simpl in *. destruct Hch as [Hct Hcl].
  by rewrite cpu_props_app, Ht, IHl.
Qed.

Lemma flatten_no_done t : Fdt.DoneTok ∉ Fdt.flatten t.
Proof.
  induction t as [name props children IH] using Fdt.node_ind'. simpl.
  rewrite not_elem_of_cons, !not_elem_of_app. split_and!; [done | | |].
  - by intros (p & ? & _)%list_elem_of_fmap.
  - induction IH as [|t l Ht Hl IHl]; [by apply not_elem_of_nil|]. simpl. by apply not_elem_of_app.
  - by intros [?|?%elem_of_nil]%elem_of_cons.
Qed.

(** The probe of an encoded tree. *)
Lemma fdt_probe_tree (m : mem) (fuel : nat) (dtb : Z) (t : Fdt.node) (i : info) :
  mem_ok m -> sized_blob_at m dtb t -> (length (Fdt.flatten t) < fuel)%nat -> is_u32 (i_cpu_count i) ->
  fdt_probe fuel m dtb i =
    Some (probed (be32 m (dtb + 4)) (timebase (i_timebase_hz i) (tree_props t))
            (i_cpu_count i +! cpu_props (tree_props t)) i).
Proof.
  intros Hm (Hd & Hal & Hmag & Hend & Hts) Hfuel Hi. unfold fdt_probe.
  rewrite Hmag, (proj2 (Z.eqb_neq _ 0)), Z.eqb_refl by lia. cbn [orb negb].
  pose proof (be32_range m (dtb + 8) Hm). pose proof (be32_range m (dtb + 36) Hm).
  assert ((if negb (be32 m (dtb + 36) =? 0) then be32 m (dtb + 8) +! be32 m (dtb + 36)
           else be32 m (dtb + 4)) = struct_end m dtb) as ->.
  { unfold struct_end in *. destruct (_ =? 0); cbn [negb]; [done|]. rewrite u32_small by mlia. done. }
  rewrite (probe_loop_toks m dtb _ (dtb + struct_end m dtb) _ _ (Fdt.flatten t) fuel
    (dtb + be32 m (dtb + 8))); try done; try mlia; [|apply flatten_no_done].
  rewrite see_flatten, see_props by by destruct i. by destruct i.
Qed.

(** C32: the processors of the device tree.  On every blob whose tree has [n] nodes
    of type "cpu" the booter's [fdt_count_cpus] returns [n], and the kernel, which
    starts counting at 1 before the probe, records [n + 1]; its timebase is the one
    the tree gives (10 MHz if none) and the other fields are those of the boot
    arguments. *)
Theorem stage0_init_cpus (m : mem) (slack fuel : nat) (hartid dtb args : Z) (t : Fdt.node)
    (Hm : mem_ok m)
    (Hblob : sized_blob_at m (i_dtb (init_info m hartid dtb args)) t)
    (Htypes : plain_types t) (Hcpus : Fdt.count_cpu_nodes t < 4294967295)
    (Hdepth : Fdt.height t <= 32)
    (Hnames : Fdt.names_short slack (Fdt.flatten t ++ [Fdt.DoneTok]))
    (Hfuel : (length (Fdt.flatten t ++ [Fdt.DoneTok]) <= fuel)%nat) :
  let i := init_info m hartid dtb args in
  let n := Fdt.count_cpu_nodes t in
  Fdt.fdt_count_cpus m slack fuel (i_dtb i) = Some n /\
  stage0_init fuel m hartid dtb args =
    Some (probed (be32 m (i_dtb i + 4)) (timebase 10000000 (tree_props t)) (n + 1) i).
Proof.
  intros i n. assert (0 <= n) as Hn.
  { unfold n. rewrite <- cpu_props_tree by done. unfold cpu_props. lia. }
  split.
  - rewrite (Fdt.fdt_count_cpus_tree m slack fuel _ t); try done.
    + rewrite u32_small; [done | unfold n in *; mlia].
    + destruct Hblob as (? & ? & ? & ? & Hts). split_and!; [unfold i; lia | done |].
      by eapply within_at.
  - unfold stage0_init. fold i. rewrite length_app in Hfuel. simpl in Hfuel.
    assert (i_cpu_count i = 1 /\ i_timebase_hz i = 10000000) as [Hc Ht].
    { unfold i, init_info. by destruct (_ && _). }
    rewrite (fdt_probe_tree m fuel _ t) by first [done | lia | rewrite Hc; mlia]. cbn [mbind option_bind].
    rewrite Hc, Ht, cpu_props_tree by done. fold n. rewrite u32_small by mlia.
    rewrite (Z.add_comm 1). generalize (timebase 10000000 (tree_props t)). intros tb.
    destruct i. cbn. by rewrite (proj2 (Z.eqb_neq _ 0)) by lia.
Qed.

(** *** A device tree that stops the kernel *)

(** A property whose length is -12 as a signed word: the test of its end against
    the end of the block wraps around, and the cursor returns to the property. *)
Lemma probe_loop_stuck fuel m dtb strs size end_ off : forall i,
  0 <= off -> off mod 4 = 0 -> off + 12 <= end_ -> end_ < 4294967288 ->
  be32 m (dtb + off) = Fdt.FDT_PROP -> be32 m (dtb + (off + 4)) = 0xfffffff4 ->
  be32 m (dtb + (off + 4) + 4) < size ->
  probe_loop fuel m dtb strs size end_ off i = None.
Proof.
  induction fuel as [|fuel IH]; intros i H0 Hal Hend Hlt Htok Hlen Hname; cbn [probe_loop];
    rewrite (u32_small (off + 4)), (proj2 (Z.leb_le _ _)) by mlia; [done|].
  rewrite Htok, Hlen. cbn [negb Z.eqb Pos.eqb orb Fdt.FDT_BEGIN_NODE Fdt.FDT_END_NODE Fdt.FDT_NOP Fdt.FDT_PROP].
  rewrite (u32_small (off + 4 + 8)) by mlia.
  rewrite (proj2 (Z.ltb_ge _ _)) by lia.
  assert (u32 (off + 4 + 8 + 0xfffffff4) = off) as -> by mlia.
  rewrite (proj2 (Z.ltb_ge _ _)), (proj2 (Z.leb_gt _ _)) by lia. cbn [orb].
  rewrite align4_eq by lia. unfold Fdt.align4. replace ((off + 3) / 4 * 4) with off by lia.
  by apply IH.
Qed.

(** C39: a device tree can hang the kernel.  When the root node starts with a
    property whose length field is 0xfffffff4, the bounds check of [fdt_probe]
    wraps around and the loop reads the same property for ever: no number of
    iterations is enough, and [stage0_init] never returns. *)
Theorem stage0_init_hangs (m : mem) (hartid dtb args : Z) (Hm : mem_ok m)
    (Hdtb : 0 < i_dtb (init_info m hartid dtb args))
    (Hmagic : be32 m (i_dtb (init_info m hartid dtb args)) = Fdt.FDT_MAGIC) :
  let d := i_dtb (init_info m hartid dtb args) in
  let off := be32 m (d + 8) in
  off mod 4 = 0 -> off + 20 <= struct_end m d < 4294967288 ->
  be32 m (d + off) = Fdt.FDT_BEGIN_NODE -> load8 m (d + (off + 4)) = 0 ->
  be32 m (d + (off + 8)) = Fdt.FDT_PROP -> be32 m (d + (off + 12)) = 0xfffffff4 ->
  be32 m (d + (off + 16)) < be32 m (d + 32) ->
  forall fuel, stage0_init fuel m hartid dtb args = None.
Proof.
  intros d off Hal Hend Hbegin Hname Hprop Hlen Hnameoff fuel. unfold stage0_init, fdt_probe. fold d.
  pose proof (be32_range m (d + 8) Hm) as Hoff. pose proof (be32_range m (d + 36) Hm). fold off in Hoff |- *.
  fold d in Hmagic, Hdtb. rewrite Hmagic, (proj2 (Z.eqb_neq _ 0)), Z.eqb_refl by lia. cbn [orb negb].
  assert ((if negb (be32 m (d + 36) =? 0) then off +! be32 m (d + 36) else be32 m (d + 4))
          = struct_end m d) as ->.
  { unfold struct_end in *. fold off in Hend |- *. destruct (_ =? 0); cbn [negb]; [done|].
    rewrite u32_small by mlia. done. }
  clearbody off d. set (i := set_dtb_size _ _). clearbody i.
  destruct fuel as [|fuel]; cbn [probe_loop];
    rewrite (u32_small (off + 4)), (proj2 (Z.leb_le _ _)) by mlia; [done|].
  rewrite Hbegin. cbn [negb Z.eqb Pos.eqb Fdt.FDT_BEGIN_NODE].
  destruct (Z.to_nat (struct_end m d - (off + 4))) as [|n] eqn:En; [lia|]. cbn [skip_name].
  rewrite Hname, Z.eqb_refl, u32_small by mlia. rewrite align4_eq by mlia.
  unfold Fdt.align4. replace ((off + 4 + 1 + 3) / 4 * 4) with (off + 8) by lia.
  rewrite (probe_loop_stuck fuel m d _ _ (struct_end m d) (off + 8)); try done; try mlia.
  - by replace (off + 8 + 4) with (off + 12) by lia.
  - by replace (d + (off + 8 + 4) + 4) with (d + (off + 16)) by lia.
Qed.

(** ** Concrete boots *)

Module Example.

(** A blob with the sizes in its header: two processors under /cpus. *)
Definition strings : list Z := "device_type" ++ [0] ++ "timebase-frequency" ++ [0].

Definition cpu_node (name : list Z) : list Z :=
  Fdt.enc_begin name ++ Fdt.enc_prop 0 ("cpu" ++ [0]) ++ Fdt.w32 2.

Definition tree_struct : list Z :=
  Fdt.enc_begin [] ++
    Fdt.enc_begin "cpus" ++ Fdt.enc_prop 12 (Fdt.w32 1000000) ++
      cpu_node "cpu@0" ++ cpu_node "cpu@1" ++
    Fdt.w32 2 ++
    Fdt.enc_begin "memory" ++ Fdt.enc_prop 0 ("memory" ++ [0]) ++ Fdt.w32 2 ++
  Fdt.w32 2 ++ Fdt.w32 9.

Definition header (struct : list Z) : list Z :=
  let n := Z.of_nat (length struct) in
  concat (Fdt.w32 <$> [Fdt.FDT_MAGIC; 0x28 + n + 31; 0x28; 0x28 + n; 0; 17; 16; 0; 31; n]).

Definition blob (struct : list Z) : list Z := header struct ++ struct ++ strings.

Definition tree : Fdt.node :=
  Fdt.Node [] []
    [ Fdt.Node "cpus" [(cstr "timebase-frequency", Fdt.w32 1000000)]
        [ Fdt.Node "cpu@0" [(cstr "device_type", "cpu" ++ [0])] [];
          Fdt.Node "cpu@1" [(cstr "device_type", "cpu" ++ [0])] [] ];
      Fdt.Node "memory" [(cstr "device_type", "memory" ++ [0])] [] ].

Definition tree_mem : mem := mem_of_list 0x8fe00000 (blob tree_struct).

Lemma mem_of_list_ok base l : Forall is_u8 l -> mem_ok (mem_of_list base l).
Proof.
  intros Hl a. unfold mem_of_list. case_if; [|done]. apply (Forall_lookup_total_1 _ _ _ Hl).
  zbool. lia.
Qed.

Lemma tree_mem_ok : mem_ok tree_mem.
Proof. apply mem_of_list_ok. unfold is_u8. by_computation. Qed.

Lemma tree_blob : sized_blob_at tree_mem 0x8fe00000 tree.
Proof.
  split; [lia|]. split; [done|]. split; [vm_compute; done|]. split; [vm_compute; done|].
  match goal with |- toks_within ?m ?s ?h ?z ?p ?l =>
    let s' := eval vm_compute in s in let h' := eval vm_compute in h in
    let z' := eval vm_compute in z in let p' := eval vm_compute in p in
    let l' := eval vm_compute in l in change (toks_within m s' h' z' p' l') end.
  repeat first [apply within_nil |
    eapply within_cons; [cbn [Fdt.tok_at length]; split_and!; try (vm_compute; reflexivity);
      vm_compute; intuition congruence | vm_compute; congruence | vm_compute; done|];
    match goal with |- toks_within _ _ _ _ ?p _ =>
      let p' := eval vm_compute in p in change p with p' end].
Qed.

Lemma tree_plain : plain_types tree.
Proof.
  repeat split; try (vm_compute; lia); repeat (apply Forall_cons_2; [by vm_compute|]); constructor.
Qed.

(** Two processors: the booter counts 2 and the kernel 3. *)
Lemma stage0_init_cpus_witness :
  Fdt.fdt_count_cpus tree_mem 8 40 0x8fe00000 = Some 2 /\
  stage0_init 40 tree_mem 0 0x8fe00000 0 =
    Some (probed 0xdb 1000000 3 (init_info tree_mem 0 0x8fe00000 0)).
Proof.
  apply (stage0_init_cpus tree_mem 8 40 0 0x8fe00000 0 tree).
  - exact tree_mem_ok.
  - exact tree_blob.
  - exact tree_plain.
  - done.
  - done.
  - unfold Fdt.names_short. simpl. repeat (apply Forall_cons_2; [try done; vm_compute; lia|]).
    apply Forall_nil_2.
  - vm_compute. lia.
Defined.

(** The first property of the root has the length 0xfffffff4. *)
Definition bad_struct : list Z :=
  Fdt.enc_begin [] ++ Fdt.w32 3 ++ Fdt.w32 0xfffffff4 ++ Fdt.w32 0 ++ Fdt.w32 2 ++ Fdt.w32 9.

Definition bad_mem : mem := mem_of_list 0x8fe00000 (blob bad_struct).

Lemma stage0_init_hangs_witness :
  be32 bad_mem 0x8fe00000 = Fdt.FDT_MAGIC /\ (forall fuel, stage0_init fuel bad_mem 0 0x8fe00000 0 = None).
Proof.
  split; [vm_compute; reflexivity|].
  apply (stage0_init_hangs bad_mem 0 0x8fe00000 0).
  - apply mem_of_list_ok. unfold is_u8. by_computation.
  - vm_compute. reflexivity.
  - vm_compute. reflexivity.
  - vm_compute. reflexivity.
  - split; [vm_compute; discriminate | vm_compute; reflexivity].
  - vm_compute. reflexivity.
  - vm_compute. reflexivity.
  - vm_compute. reflexivity.
  - vm_compute. reflexivity.
  - vm_compute. reflexivity.
Defined.

(** A boot with 16 MiB of RAM, CaribeBootX at 0x80200000 and a kernel of 64 KiB at
    0x80400000: the arguments and the map of the booter, laid out in memory. *)
Definition le64 (x : Z) : list Z := BootLoader.le32 (x mod 4294967296) ++ BootLoader.le32 (x / 4294967296).

Definition args_bytes (x : BootLoader.xnu_args) : list Z :=
  concat (BootLoader.le32 <$>
    [BootLoader.a_magic x; BootLoader.a_version x; 0; BootLoader.a_hartid x; BootLoader.a_dtb_paddr x;
     BootLoader.a_dtb_size x; BootLoader.a_mem_base x; BootLoader.a_mem_size x;
     BootLoader.a_uart_base x; BootLoader.a_plic_base x; BootLoader.a_aclint_base x;
     BootLoader.a_kernel_base x; BootLoader.a_kernel_size x; BootLoader.a_initrd_base x;
     BootLoader.a_initrd_size x; BootLoader.a_command_line_paddr x; BootLoader.a_command_line_size x;
     BootLoader.a_memory_map_paddr x; BootLoader.a_memory_map_count x;
     BootLoader.a_memory_map_desc_size x]).

Definition map_bytes (l : list mem_range) : list Z :=
  concat ((fun r => BootLoader.le32 (mr_type r) ++ BootLoader.le32 (mr_pad r) ++
    le64 (physical_start r) ++ le64 (virtual_start r) ++ le64 (number_of_pages r) ++
    le64 (attribute r)) <$> l).

Definition boot_args16 : BootArgs.boot_args :=
  {| BootArgs.ba_dtb := 0; BootArgs.uart_base := 0x10000000; BootArgs.plic_base := 0x0c000000;
     BootArgs.aclint_base := 0x02000000; BootArgs.mem_mb := 16; BootArgs.ncpus := 1 |}.

Definition handed : BootLoader.xnu_args * list mem_range :=
  BootLoader.make_boot_args BootLoader.small_layout (fun _ => 0) 0 0 0 0 0x80400000 0x80410000
    boot_args16 "-v".

Definition handed_mem : mem :=
  write_bytes (write_bytes (fun _ => 0) 0x80216000 (args_bytes handed.1)) 0x80217000 (map_bytes handed.2).

Definition entry_info : info := default zero_info (stage0_init 1 handed_mem 0 0 0x80216000).

(** 3504 free pages from 0x80240000 on and 592 reserved ones. *)
Lemma booter_map_accepted_witness :
  yields stage0_print_memory_map (State entry_info handed_mem tt []) (fun _ s' =>
    s_mem s' = handed_mem /\
    s_info s' = set_summary 3504 592 0 (set_max_end 0x81000000 (set_first_free 0x80240000 entry_info))).
Proof.
  pose proof (booter_map_accepted BootLoader.small_layout (fun _ => 0) 0 0 0 0 0x80400000 0x80410000
    boot_args16 "-v" 1 entry_info (State entry_info handed_mem tt [])) as Hthm.
  fold handed in Hthm. rewrite (surjective_pairing handed) in Hthm. cbv zeta in Hthm.
  assert (page_down (0x80000000 +! BootLoader.a_mem_size handed.1) = 0x81000000) as E
    by (vm_compute; reflexivity).
  rewrite E in Hthm. clear E.
  match type of Hthm with context [uncovered ?qs ?a ?b] => set (free := uncovered qs a b) in Hthm end.
  assert (Z.of_nat (length free) = 3504) as E by (vm_compute; reflexivity). rewrite E in Hthm. clear E.
  assert (4096 * default 0 (head free) = 0x80240000) as E by (vm_compute; reflexivity).
  rewrite E in Hthm. clear E free. apply Hthm; clear Hthm.
  - by intros a.
  - cbn [BootLoader.BOOTX_START BootLoader.BOOTX_END BootLoader.small_layout].
    u32_consts.
  - discriminate.
  - discriminate.
  - reflexivity.
  - vm_compute. reflexivity.
  - vm_compute. repeat split.
  - vm_compute. reflexivity.
  - reflexivity.
Defined.

End Example.

End Stage0.
