(* ===== verification/KernelVirtio.v ===== *)
(** The virtio block driver of the stage-0 kernel (src/kernel_xnu_entry.c,
    [virtio_mmio_scan], [virtio_blk_init], [virtio_blk_read]), on the device
    interface of VirtioDev.v.  The request itself is built as in the booter's
    driver, so the steps of Virtio.v are shared; discovery, initialisation and the
    handling of errors are the kernel's own.

    [g_info.blk_base] is [v_mmio] of the driver state and [g_desc], [g_avail] and
    [g_used] are [v_desc], [v_avail] and [v_used]. *)

From S2P Require Import Prelude Print BootConfig Hfs VirtioDev Virtio Kernel.

Module KernelVirtio.

Import Print VirtioDev Virtio.

Local Open Scope c_scope.

Section Driver.
Context {V : Type} `{VirtioMmio V}.

(** [L]: the addresses of [g_virtq], [g_blk_req] and [g_blk_status]. *)
Context (L : queue_layout).

Local Abbreviation M := (ST (drv V)).

Definition puts (t : list Z) : M unit := v_puts (Kernel.crlf t).

(** [mmio_read(base, offset)] with any base. *)
Definition mmio_read (base offset : Z) : M Z := getsS (fun s => reg_read (v_dev (d_dev s)) base offset).

Definition mmio_write (base offset value : Z) : M unit :=
  modifyS (fun s => set_v (reg_write (v_dev (d_dev s)) base offset value) s).

Definition mmio_read64 (base offset : Z) : M Z :=
  lo ← mmio_read base offset;
  hi ← mmio_read base (offset +! 4);
  mret (Z.lor (u64 (Z.shiftl hi 32)) lo).

(** [g_info.blk_base = base] *)
Definition set_base (base : Z) : M unit := modifyS (fun s =>
  let d := d_dev s in Drv (Vdev (v_dev d) base (v_desc d) (v_avail d) (v_used d)) (d_mem s) (d_out s)).

Definition get_base : M Z := getsS (fun s => v_mmio (d_dev s)).

(** The windows of [virtio_mmio_scan]; [count] is [g_info.virtio_count]. *)
Fixpoint scan_windows (bases : list Z) (count : Z) : M Z :=
  match bases with
  | [] => mret count
  | base :: bases =>
      magic ← mmio_read base VMMIO_MAGIC;
      if negb (magic =? VIRTIO_MAGIC) then scan_windows bases count
      else
        version ← mmio_read base VMMIO_VERSION;
        device ← mmio_read base VMMIO_DEVICE_ID;
        vendor ← mmio_read base VMMIO_VENDOR_ID;
        puts "[riscv32] virtio-mmio base=0x";; puts (puthex32 base);;
        puts " dev=";; puts (putdec device);; puts " version=";; puts (putdec version);;
        puts " vendor=0x";; puts (puthex32 vendor);; puts "\n";;
        blk_base ← get_base;
        (if (device =? VIRTIO_ID_BLOCK) && (blk_base =? 0) then set_base base else mret tt);;
        scan_windows bases (count +! 1)
  end.

(** [virtio_mmio_scan()]: the new [g_info.virtio_count]. *)
Definition virtio_mmio_scan (virtio_count : Z) : M Z :=
  puts "[XNU-CaribeOS] virtio-mmio scan\n";; scan_windows windows virtio_count.

(** [virtio_blk_init()]: the code, and [g_info.blk_sectors_lo] where it is set. *)
Definition virtio_blk_init : M (Z * option Z) :=
  base ← get_base;
  if base =? 0 then puts "[riscv32] virtio-blk not found\n";; mret (-1, None)
  else
    mmio_write base VMMIO_STATUS 0;;
    let status := VIRTIO_STATUS_ACKNOWLEDGE in
    mmio_write base VMMIO_STATUS status;;
    let status := status |! VIRTIO_STATUS_DRIVER in
    mmio_write base VMMIO_STATUS status;;
    mmio_write base VMMIO_DRIVER_FEATURES_SEL 0;;
    mmio_write base VMMIO_DRIVER_FEATURES 0;;
    mmio_write base VMMIO_DRIVER_FEATURES_SEL 1;;
    mmio_write base VMMIO_DRIVER_FEATURES 0;;
    mmio_write base VMMIO_DRIVER_FEATURES_SEL 0;;
    let status := status |! VIRTIO_STATUS_FEATURES_OK in
    mmio_write base VMMIO_STATUS status;;
    st ← mmio_read base VMMIO_STATUS;
    if st &! VIRTIO_STATUS_FEATURES_OK =? 0 then mret (-1, None)
    else
      capacity ← mmio_read64 base VMMIO_CONFIG;
      let sectors := u32 capacity in
      mmio_write base VMMIO_QUEUE_SEL 0;;
      qmax ← mmio_read base VMMIO_QUEUE_NUM_MAX;
      if qmax <? 3 then mret (-1, Some sectors)
      else
        let qmax := if QNUM <? qmax then QNUM else qmax in
        mmio_write base VMMIO_QUEUE_NUM qmax;;
        let desc_sz := 16 * QNUM in
        let avail_off := desc_sz in
        let avail_sz := 2 * 2 + 2 * QNUM + 2 in
        let used_off := align_up32 (avail_off + avail_sz) 4096 in
        modmem (fun m => zero_loop m (QT L) (Z.to_nat 8192));;
        set_rings (QT L) (QT L + avail_off) (QT L + used_off);;
        mmio_write base VMMIO_GUEST_PAGE_SIZE 4096;;
        mmio_write base VMMIO_QUEUE_ALIGN 4096;;
        mmio_write base VMMIO_QUEUE_PFN (Z.shiftr (QT L) 12);;
        let status := status |! VIRTIO_STATUS_DRIVER_OK in
        mmio_write base VMMIO_STATUS status;;
        puts "[riscv32] virtio-blk sectors=";; puts (putdec sectors);;
        puts " queue=";; puts (putdec qmax);; puts " ring=0x";; puts (puthex32 (QT L));;
        puts "\n";;
        mret (0, Some sectors).

(** [virtio_blk_read(lba, count, buf)] *)
Definition virtio_blk_read (lba count buf : Z) : M Z :=
  if count =? 0 then mret 0
  else
    d ← getsS d_dev;
    if (v_mmio d =? 0) || (v_desc d =? 0) || (v_avail d =? 0) || (v_used d =? 0) then mret (-1)
    else
      r ← transfer L lba count buf;
      let '(idx, want) := r in
      if negb (idx =? want) then mret (-1)
      else
        clear_irq;;
        st ← getmem (fun m => load8 m (QS L));
        mret (if st =? 0 then 0 else -1).

End Driver.

(** ** Correctness *)

(** The low word of a value put together from two words. *)
Lemma low_word hi lo : u32 (Z.lor (u64 (Z.shiftl (u32 hi) 32)) (u32 lo)) = u32 lo.
Proof.
  pose proof (u32_range hi). pose proof (u32_range lo).
  assert (u64 (Z.shiftl (u32 hi) 32) = Z.shiftl (u32 hi) 32) as ->.
  { rewrite Z.shiftl_mul_pow2 by lia. change (2 ^ 32) with 4294967296. unfold u64. rewrite Z.mod_small; mlia. }
  rewrite lor_shiftl_add by (try change (2 ^ 32) with 4294967296; mlia).
  rewrite Z.shiftl_mul_pow2 by lia. change (2 ^ 32) with 4294967296. mlia.
Qed.

Section Spec.
Context {V : Type} {HV : VirtioMmio V} {HD : VirtioBlkSpec V} (L : queue_layout) (HL : layout_ok L).
Context (Hqt : QT L <> 0).

Local Abbreviation M := (ST (drv V)).

Lemma yields_kputs {B} t (k : unit -> M B) s Q :
  (forall o, yields (k tt) (Drv (d_dev s) (d_mem s) o) Q) -> yields (puts t ≫= k) s Q.
Proof. intros Hk. apply yields_modify, Hk. Qed.

Lemma yields_read {B} base off (k : Z -> M B) s Q :
  yields (k (reg_read (v_dev (d_dev s)) base off)) s Q -> yields (mmio_read base off ≫= k) s Q.
Proof. done. Qed.

Ltac kview := cbn [set_v set_dmem d_dev d_mem v_dev v_mmio v_desc v_avail v_used].

Ltac pstep := apply yields_kputs; intros ?; kview.

(** The driver with another base. *)
Definition at_base (b : Z) (d : vdev V) : vdev V := Vdev (v_dev d) b (v_desc d) (v_avail d) (v_used d).

(** The base after the scan: the one it had, or that of the first block device. *)
Definition chosen (d : vdev V) (bases : list Z) : Z :=
  if v_mmio d =? 0 then default 0 (List.find (is_block (v_dev d)) bases) else v_mmio d.

Lemma scan_windows_finds bases : Forall (fun b => b <> 0) bases -> forall count (s : drv V),
  yields (scan_windows bases count) s (fun _ s' =>
    d_mem s' = d_mem s /\ d_dev s' = at_base (chosen (d_dev s) bases) (d_dev s)).
Proof.
  induction 1 as [|base bases Hb Hbs IH]; intros count s; cbn [scan_windows].
  { apply yields_ret. split; [done|]. unfold chosen, at_base. destruct (d_dev s) as [v b de av us]; cbn.
    destruct (b =? 0) eqn:E; zbool; by subst. }
  apply yields_read. unfold chosen. cbn [List.find]. unfold is_block at 1.
  destruct (_ =? VIRTIO_MAGIC); cbn [negb andb]; [|apply IH].
  do 3 apply yields_read. do 9 pstep. apply yields_gets. kview.
  destruct ((_ =? VIRTIO_ID_BLOCK)) eqn:Ei, (v_mmio (d_dev s) =? 0) eqn:E0; cbn [andb];
    [apply yields_modify | apply yields_bind, yields_ret..];
    (eapply yields_mono; [apply IH|]; intros _ s' [Hm Hd]; split; [done|]; rewrite Hd;
     unfold chosen; kview; rewrite ?E0; try done).
  rewrite (proj2 (Z.eqb_neq base 0)) by done. done.
Qed.

Lemma scan_finds count (s : drv V) :
  v_mmio (d_dev s) = 0 ->
  yields (virtio_mmio_scan count) s (fun _ s' =>
    d_mem s' = d_mem s /\ d_dev s' = at_base dev_base (d_dev s)).
Proof.
  intros H0. unfold virtio_mmio_scan. pstep. eapply yields_mono; [apply scan_windows_finds|].
  { unfold windows. apply Forall_fmap, Forall_forall. intros i Hi%elem_of_seqZ. simpl. lia. }
  intros _ s' [Hm Hd]. split; [done|]. rewrite Hd. kview. unfold chosen. by rewrite H0, dev_first.
Qed.

Lemma yields_write {B} off x (k : unit -> M B) (s : drv V) Q :
  (forall v', conf v' = write_effect off x (delay (v_dev (d_dev s))) (conf (v_dev (d_dev s))) ->
     yields (k tt) (set_v v' s) Q) ->
  yields (mmio_write dev_base off x ≫= k) s Q.
Proof. intros Hk. apply yields_modify. apply Hk, write_conf. Qed.

(** A register write on a configuration that is known. *)
Ltac kwr Hold v Hv :=
  apply yields_write; kview; rewrite Hold; intros v Hv;
  lazymatch type of Hv with _ = ?c => let c' := eval cbv -[QT Z.shiftr delay] in c in change c with c' in Hv end;
  clear Hold.

(** The memory of an empty queue. *)
Lemma zero_queue m :
  let m' := zero_loop m (QT L) (Z.to_nat 8192) in
  frame m m' (QT L) 8192 /\ (forall a, inside (QT L) 8192 a -> m' a = 0).
Proof.
  destruct HL as [(? & ? & ?) _ _ _ _ _ _ _].
  split; intros x Hx; rewrite zero_loop_spec by (rewrite Z2Nat.id by lia; unfold region; lia);
    rewrite Z2Nat.id by lia; unfold inside in Hx; zcases.
Qed.

Lemma kinit_ready d m t :
  3 <= dev_num_max -> v_mmio d = dev_base -> mem_ok m ->
  yields (virtio_blk_init L) (Drv d m t) (fun r s' =>
    r = (0, Some (u32 capacity)) /\
    ready_num L (Z.min dev_num_max QNUM) 0 (d_dev s') (d_mem s') /\ mem_ok (d_mem s') /\
    frame m (d_mem s') (QT L) 8192 /\ (forall a, inside (QT L) 8192 a -> d_mem s' a = 0)).
Proof.
  intros Hnum Hbase Hm. unfold virtio_blk_init, get_base. apply yields_gets. kview. rewrite Hbase.
  pose proof (dev_base_pos (v_dev d)). rewrite (proj2 (Z.eqb_neq _ 0)) by lia.
  apply yields_write. intros v1 H1. cbn [d_dev v_dev] in H1. kview.
  assert (conf v1 = reset_config) as H1' by (rewrite H1; by destruct (conf (v_dev d))). clear H1.
  kwr H1' v2 H2. kwr H2 v3 H3. kwr H3 v4 H4. kwr H4 v5 H5. kwr H5 v6 H6. kwr H6 v7 H7. kwr H7 v8 H8.
  kwr H8 v9 H9. apply yields_read. kview. rewrite read_status, H9. cbn [q_status].
  change (_ &! VIRTIO_STATUS_FEATURES_OK =? 0) with false. cbv iota.
  apply yields_bind. unfold mmio_read64. do 2 apply yields_read. apply yields_ret. kview.
  destruct (read_capacity v9) as [-> Hhi]. change (VMMIO_CONFIG +! 4) with (VMMIO_CONFIG + 4). rewrite Hhi.
  assert (u32 (Z.lor (u64 (Z.shiftl (u32 (Z.shiftr capacity 32)) 32)) (u32 capacity)) = u32 capacity) as ->.
  { apply low_word. }
  kwr H9 v10 H10. apply yields_read. kview. rewrite read_num_max.
  rewrite (proj2 (Z.ltb_ge _ _)) by lia.
  assert ((if QNUM <? dev_num_max then QNUM else dev_num_max) = Z.min dev_num_max QNUM) as ->.
  { destruct (Z.ltb_spec QNUM dev_num_max); lia. }
  kwr H10 v11 H11. apply yields_modify. kview. apply yields_modify. kview.
  kwr H11 v12 H12. kwr H12 v13 H13. kwr H13 v14 H14. kwr H14 v15 H15. do 7 pstep. apply yields_ret. kview.
  change (align_up32 (16 * QNUM + (2 * 2 + 2 * QNUM + 2)) 4096) with 4096. change (16 * QNUM) with 128.
  destruct (zero_queue m) as [Hf Hz]. cbv zeta in Hf, Hz.
  assert (mem_ok (zero_loop m (QT L) (Z.to_nat 8192))) as Hok by by apply mem_ok_zero_loop.
  revert Hf Hz Hok. generalize (zero_loop m (QT L) (Z.to_nat 8192)). intros m' Hf Hz Hok.
  split; [done|]. split; [|done]. unfold ready_num. kview. rewrite H15.
  split_and!; try done; try (apply (zero_load16 L HL); [done | lia | lia]).
  unfold serving_num. cbn. rewrite Z.shiftr_div_pow2 by lia. by change (2 ^ 12) with 4096.
Qed.

(** A read of the kernel. *)
Lemma kread_ready n lba count buf d m t :
  ready_at L n d m -> mem_ok m -> sound_request L lba count buf ->
  yields (virtio_blk_read L lba count buf) (Drv d m t) (fun rc s' =>
    rc = 0 /\ transferred L n lba count buf m (d_dev s') (d_mem s')).
Proof.
  intros Hr Hok Hreq. pose proof Hreq as (_ & Hcnt & _). unfold virtio_blk_read.
  rewrite (proj2 (Z.eqb_neq count 0)) by lia. apply yields_gets. kview.
  pose proof Hr as (-> & -> & -> & -> & _). pose proof (dev_base_pos (v_dev d)).
  destruct HL as [(? & ? & ?) _ _ _ _ _ _ _].
  rewrite (proj2 (Z.eqb_neq dev_base 0)), (proj2 (Z.eqb_neq (QT L) 0)), (proj2 (Z.eqb_neq (QT L + 128) 0)),
    (proj2 (Z.eqb_neq (QT L + 4096) 0)) by lia. cbn [orb]. apply yields_bind.
  eapply yields_mono; [by apply (transfer_ready L HL n)|]. intros r s4 (-> & Hr4 & Hok4 & Hst & Hdata & Hrest).
  rewrite Z.eqb_refl. cbn [negb]. apply (yields_clear_irq_ready L (n + 1)); [done|]. intros s5 Hr5 Hm5.
  apply yields_gets. rewrite Hm5, Hst. apply yields_ret. unfold transferred. rewrite Hm5. by split_and!.
Qed.

(** Reads to [buf], one after the other: the code and the data of each. *)
Fixpoint kread_seq (reqs : list (Z * Z)) (buf : Z) : M (list (Z * list Z)) :=
  match reqs with
  | [] => mret []
  | (lba, count) :: reqs =>
      rc ← virtio_blk_read L lba count buf;
      data ← getmem (fun m => read_bytes m buf (Z.to_nat (512 * count)));
      rest ← kread_seq reqs buf;
      mret ((rc, data) :: rest)
  end.

Lemma kread_seq_reads buf reqs : forall n d m t,
  ready_at L n d m -> mem_ok m -> Forall (request_ok L buf) reqs ->
  yields (kread_seq reqs buf) (Drv d m t) (fun rs _ =>
    rs = (fun r => (0, disk_bytes disk r.1 (512 * r.2))) <$> reqs).
Proof.
  induction reqs as [|[lba count] reqs IH]; intros n d m t Hr Hok Hreq; cbn [kread_seq]; [done|].
  apply Forall_cons in Hreq as [Hr0 Hreq]. apply yields_bind.
  eapply yields_mono; [by apply (kread_ready n)|].
  intros rc [d' m' t'] (-> & Hr' & Hok' & _ & Hdata & _). apply yields_gets, yields_bind.
  eapply yields_mono; [by apply (IH (n + 1))|]. intros rs s'' ->. apply yields_ret.
  cbn [fmap list_fmap fst snd]. do 2 f_equal. by apply (sectors_read L).
Qed.

(** C25: the kernel's driver.  On every machine with a block device that follows the
    specification and whose queue has at least 8 entries, the scan finds the
    device, initialisation succeeds and reports its size, and then every sequence
    of reads of any length returns 0 with the sectors asked for. *)
Theorem kernel_virtio_reads (d : vdev V) (m : mem) (t : list Z) (count buf : Z) (reqs : list (Z * Z))
    (Hbase : v_mmio d = 0) (Hnum : QNUM <= dev_num_max) (Hok : mem_ok m)
    (Hreq : Forall (request_ok L buf) reqs) :
  yields (virtio_mmio_scan count;; r ← virtio_blk_init L; rs ← kread_seq reqs buf; mret (r, rs))
    (Drv d m t) (fun r _ =>
    r = (0, Some (u32 capacity), (fun r => (0, disk_bytes disk r.1 (512 * r.2))) <$> reqs)).
Proof.
  apply yields_bind. eapply yields_mono; [by apply scan_finds|].
  intros _ [d1 m1 t1] [Hm1 Hd1]. cbn [d_dev d_mem] in *. subst. unfold QNUM in Hnum.
  apply yields_bind. eapply yields_mono; [apply kinit_ready; [lia | done | done]|].
  intros r [d' m' t'] (-> & Hr & Hok' & _). rewrite Z.min_r in Hr by (unfold QNUM; lia).
  apply yields_bind. eapply yields_mono; [by apply (kread_seq_reads buf reqs 0)|].
  by intros rs s' ->.
Qed.

(** A device with a smaller queue: initialisation succeeds and no read does. *)
Lemma kread_stalled d m t lba count buf :
  3 <= dev_num_max < QNUM -> ready_num L dev_num_max 0 d m ->
  (forall a, inside (QT L) 8192 a -> m a = 0) -> 0 < count ->
  yields (virtio_blk_read L lba count buf) (Drv d m t) (fun rc _ => rc = -1).
Proof.
  intros Hnum Hr Hz Hc. unfold virtio_blk_read. rewrite (proj2 (Z.eqb_neq count 0)) by lia.
  apply yields_gets. destruct (_ || _); [done|]. apply yields_bind.
  eapply yields_mono; [by apply transfer_stalled|]. by intros r s7 ->.
Qed.

End Spec.

(** ** The driver as a block device *)

(** Initialisation is the scan followed by [virtio_blk_init]. *)
Definition kernel_block_device {V} `{VirtioMmio V} (L : queue_layout) : Hfs.BlockDevice (vdev V) := {|
  Hfs.blk_init := on_drv (virtio_mmio_scan 0;; r ← virtio_blk_init L; mret r.1);
  Hfs.blk_read_blocks lba count buf := on_drv (virtio_blk_read L lba count buf);
|}.

Section BlockInterface.
Context {V : Type} {HV : VirtioMmio V} {HD : VirtioBlkSpec V} (L : queue_layout).
Context (HL : layout_ok L) (Hqt : QT L <> 0) (Hnum : QNUM <= dev_num_max).

Lemma kernel_init_ok (d : vdev V) (m : mem) :
  v_mmio d = 0 -> mem_ok m ->
  let '(rc, text, d', m') := @Hfs.blk_init _ (kernel_block_device L) d m in
  rc = 0 /\ ready L d' m' /\ mem_ok m' /\ (forall a, ~ private L a -> m' a = m a).
Proof.
  intros H0 Hok. cbn [Hfs.blk_init kernel_block_device].
  assert (yields (virtio_mmio_scan 0;; r ← virtio_blk_init L; mret r.1) (Drv d m []) (fun rc s' =>
    rc = 0 /\ ready L (d_dev s') (d_mem s') /\ mem_ok (d_mem s') /\ frame m (d_mem s') (QT L) 8192)) as Hi.
  { apply yields_bind. eapply yields_mono; [by apply scan_finds|].
    intros _ [d1 m1 t1] [Hm1 Hd1]. cbn [d_dev d_mem] in *. subst. unfold QNUM in Hnum.
    apply yields_bind. eapply yields_mono; [apply (kinit_ready L HL Hqt); [lia | done | done]|].
    intros r s' (-> & Hr & Hok' & Hf & _). rewrite Z.min_r in Hr by (unfold QNUM; lia).
    apply yields_ret. split_and!; try done. by exists 0. }
  unfold yields, on_drv in *. destruct ((virtio_mmio_scan 0 ≫= _) (Drv d m [])) as [rc [d' m' t']].
  destruct Hi as (-> & Hr & Hok' & Hf). split_and!; try done.
  intros a Ha. apply Hf. unfold private in Ha. tauto.
Qed.

Lemma kernel_read_ok lba count buf (d : vdev V) (m : mem) :
  ready L d m -> mem_ok m -> 0 <= lba -> 0 < count -> lba + count <= capacity ->
  512 * count < 4294967296 ->
  region buf (512 * count) -> (forall a, inside buf (512 * count) a -> ~ private L a) ->
  let '(rc, text, d', m') := @Hfs.blk_read_blocks _ (kernel_block_device L) lba count buf d m in
  rc = 0 /\ ready L d' m' /\ mem_ok m' /\
  (forall i, 0 <= i < 512 * count -> m' (buf + i) = disk (512 * lba + i)) /\
  (forall a, ~ inside buf (512 * count) a -> ~ private L a -> m' a = m a).
Proof.
  intros (n & Hr) Hok H1 H2 H3 H4 H5 H6.
  assert (sound_request L lba count buf) as Hreq by done.
  pose proof (kread_ready L HL Hqt n lba count buf d m [] Hr Hok Hreq) as Hi.
  cbn [Hfs.blk_read_blocks kernel_block_device]. unfold yields, on_drv in *.
  destruct (virtio_blk_read L _ _ _ _) as [rc [d' m' t']].
  destruct Hi as (-> & Hr' & Hok' & _ & Hd & Hf). split_and!; try done. by exists (n + 1).
Qed.

Definition kernel_block_device_spec : @Hfs.BlockDeviceSpec (vdev V) (kernel_block_device L) := {|
  Hfs.blk_ready := ready L;
  Hfs.blk_private := private L;
  Hfs.blk_sectors := capacity;
  Hfs.blk_byte := disk;
  Hfs.blk_sectors_u32 := capacity_u32;
  Hfs.blk_byte_u8 := disk_u8;
  Hfs.blk_present d := v_mmio d = 0;
  Hfs.blk_init_ok := kernel_init_ok;
  Hfs.blk_ready_frame := virtio_ready_frame L HL;
  Hfs.blk_read_ok := kernel_read_ok;
|}.

End BlockInterface.

Module Example.

Import Virtio.Example.

Lemma layout_nonzero : QT layout <> 0.
Proof. done. Qed.

Lemma kernel_virtio_reads_witness :
  let _ := machine 16 contents in
  yields (virtio_mmio_scan 0;; r ← virtio_blk_init layout; rs ← kread_seq layout [(2, 1); (0, 4)] buf; mret (r, rs))
    (Drv start (fun _ => 0) []) (fun r _ =>
    r = (0, Some 64, (fun r => (0, disk_bytes contents r.1 (512 * r.2))) <$> [(2, 1); (0, 4)])).
Proof.
  assert (Forall (@request_ok config (machine 16 contents) (machine_spec 16 contents contents_u8) layout buf) [(2, 1); (0, 4)]) as Hreq.
  { repeat (apply Forall_cons_2; [|]); [..|apply Forall_nil_2]; unfold request_ok, sound_request, private, region, inside, buf;
      cbn; unfold sectors; (split_and!; try lia); intros a Ha; lia. }
  assert (QNUM <= 16) as Hnum by (unfold QNUM; lia).
  exact (@kernel_virtio_reads config (machine 16 contents) (machine_spec 16 contents contents_u8) layout layout_is_ok layout_nonzero start
    (fun _ => 0) [] 0 buf [(2, 1); (0, 4)] eq_refl Hnum zero_mem_ok Hreq).
Defined.

End Example.

End KernelVirtio.
