(* ===== verification/KernelHfs.v ===== *)
(** The HFS+ probe of the stage-0 kernel (src/kernel_xnu_entry.c, [hfs_read_extents]
    .. [hfs_probe_root]), over the block-device interface of Hfs.v, which the
    kernel's driver implements (KernelVirtio.v).

    The globals [g_hfs_*] and [g_catalog_extents] are the volume record of Hfs.v;
    [g_sector], [g_block] and [g_node] are regions of memory.  The theorems are
    stated on the abstract catalogs of HfsCatalog.v, so the kernel and the booter
    are shown to find the same file. *)

From S2P Require Import Prelude Print BootConfig Hfs HfsCatalog Kernel.

Module KernelHfs.

Import Print BootConfig Hfs HfsCatalog.

Local Open Scope c_scope.

Definition HFSPLUS_MAX_BLOCK_SIZE : Z := 4096.

Definition HFSPLUS_ROOT_FOLDER_ID : Z := 2.

Definition HFSPLUS_RECORD_FILE : Z := 2.

(** The addresses of [g_sector], [g_block] and [g_node]. *)
Record buffers := {
  SECTOR : Z;
  BLOCK : Z;
  NODE : Z;
}.

(** [hfs_file_t] *)
Record hfs_file := File {
  hf_found : Z;
  hf_file_id : Z;
  hf_logical_size : Z;
  hf_extents : list (Z * Z);
}.

(** [hfs_read_extents(src, extents)] *)
Definition hfs_read_extents (m : mem) (src : Z) : list (Z * Z) := read_extents m src 8.

(** [hfs_ascii_name(src, chars, dst, cap)]: the characters stored before the NUL. *)
Fixpoint hfs_ascii_name (m : mem) (src : Z) (chars : nat) (cap out : Z) : list Z :=
  match chars with
  | O => []
  | S chars =>
      let ch := be16 m src in
      let c := if ch <? 128 then ch else 63 in
      if cap <=? out + 1 then [] else c :: hfs_ascii_name m (src + 2) chars cap (out + 1)
  end.

(** The block of a catalog node: 0 when no extent has it. *)
Definition catalog_block (ext : list (Z * Z)) (logical : Z) : Z := default 0 (find_extent ext logical).

Section Probe.
Context {D : Type} `{BlockDevice D} (B : buffers).

Local Abbreviation M := (PST (boot (D := D))).

Definition puts (t : list Z) : M unit := p (Kernel.crlf t).

(** [hfs_read_block(block, buf)] *)
Definition hfs_read_block (block buf : Z) : M Z :=
  getP b_hfs ≫= fun h =>
  let bs := blockSize h in
  if (bs =? 0) || (HFSPLUS_MAX_BLOCK_SIZE <? bs) || negb (bs mod 512 =? 0) then mret (-1)
  else
    let sectors_per_block := bs / 512 in
    virtio_blk_read_blocks (block *! sectors_per_block) sectors_per_block buf.

(** [hfs_read_catalog_node(node)] *)
Definition hfs_read_catalog_node (node : Z) : M Z :=
  getP b_hfs ≫= fun h =>
  let ns := catalogNodeSize h in
  let bs := blockSize h in
  if (ns =? 0) || (bs =? 0) || (HFSPLUS_MAX_BLOCK_SIZE <? ns) || negb (ns =? bs) then mret (-1)
  else
    let nodes_per_block := bs / ns in
    if nodes_per_block =? 0 then mret (-1)
    else
      let logical_block := node / nodes_per_block in
      let physical_block := catalog_block (fk_ext (catalog h)) logical_block in
      if physical_block =? 0 then mret (-1) else hfs_read_block physical_block (NODE B).

(** One record of a leaf in [g_node]. *)
Definition find_record (m : mem) (node_size : Z) (name : list Z) (rec_off : Z) : option hfs_file :=
  if node_size <=? rec_off + 8 then None
  else
    let rec := NODE B + rec_off in
    let key_len := be16 m rec in
    let parent := be32 m (rec + 2) in
    let name_len := be16 m (rec + 6) in
    let data_off := rec_off + 2 + key_len in
    if (node_size <? data_off + 88 + 80) || (node_size <? rec_off + 8 + name_len * 2) then None
    else
      let entry_name := c_string (hfs_ascii_name m (rec + 8) (Z.to_nat name_len) 128 0) in
      if negb (parent =? HFSPLUS_ROOT_FOLDER_ID) || negb (s_eq entry_name name) then None
      else
        let data := NODE B + data_off in
        if be16 m data =? HFSPLUS_RECORD_FILE then
          let fork := data + 88 in
          Some (File 1 (be32 m (data + 8)) (be64 m fork) (hfs_read_extents m (fork + 16)))
        else None.

(** [for (r = 0; r < records; r++)] over the offsets from [idx]. *)
Fixpoint find_slots (m : mem) (node_size : Z) (name : list Z) (idx : Z) (n : nat) : option hfs_file :=
  match n with
  | O => None
  | S n =>
      match find_record m node_size name (be16 m idx) with
      | Some f => Some f
      | None => find_slots m node_size name (idx + 2) n
      end
  end.

(** The node in [g_node]. *)
Definition find_in_node (m : mem) (node_size : Z) (name : list Z) : option hfs_file :=
  if negb (load8 m (NODE B + 8) =? 0xff) then None
  else
    let records := be16 m (NODE B + 10) in
    if (records =? 0) || (node_size <? 2 * (records + 1)) then None
    else find_slots m node_size name (NODE B + (node_size - 2 * (records + 1))) (Z.to_nat records).

(** [for (node = first; node <= last; node++)]: a node that is not a leaf ends the
    loop at [last]. *)
Fixpoint find_nodes (fuel : nat) (name : list Z) (node last : Z) : M (Z * option hfs_file) :=
  if last <? node then mret (-1, None)
  else match fuel with
  | O => out_of_fuel
  | S fuel =>
      getP b_hfs ≫= fun h =>
      hfs_read_catalog_node node ≫= fun rc =>
      if negb (rc =? 0) then mret (-1, None)
      else
        getP b_mem ≫= fun m =>
        match find_in_node m (catalogNodeSize h) name with
        | Some f => mret (0, Some f)
        | None =>
            if negb (load8 m (NODE B + 8) =? 0xff) && (node =? last) then mret (-1, None)
            else find_nodes fuel name (node +! 1) last
        end
  end.

(** The leaves to search. *)
Definition leaf_range (h : hfs_vol) : Z * Z :=
  let first := firstLeafNode h in
  let last := lastLeafNode h in
  if (first =? 0) || (last =? 0) || (last <? first)
  then (1, if negb (totalCatalogNodes h =? 0) then totalCatalogNodes h - 1 else 1)
  else (first, last).

(** [hfs_find_root_file(name, file)]: the code, and the file unless it is zeroed. *)
Definition hfs_find_root_file (name : list Z) : M (Z * option hfs_file) :=
  getP b_hfs ≫= fun h =>
  let '(first, last) := leaf_range h in
  find_nodes (Z.to_nat (last - first + 1)) name first last.

(** The globals after the volume header and after the B-tree header. *)
Definition read_header (m : mem) (h : hfs_vol) : hfs_vol :=
  let cat := SECTOR B + 272 in
  {| blockSize := be32 m (SECTOR B + 40); totalBlocks := be32 m (SECTOR B + 44);
     catalogNodeSize := catalogNodeSize h; firstLeafNode := firstLeafNode h;
     lastLeafNode := lastLeafNode h; totalCatalogNodes := totalCatalogNodes h;
     catalog := Fork (be64 m cat) (hfs_read_extents m (cat + 16)) |}.

Definition read_btree (m : mem) (h : hfs_vol) : hfs_vol :=
  let bt := BLOCK B + 14 in
  {| blockSize := blockSize h; totalBlocks := totalBlocks h;
     catalogNodeSize := be16 m (bt + 18); firstLeafNode := be32 m (bt + 10);
     lastLeafNode := be32 m (bt + 14); totalCatalogNodes := be32 m (bt + 22);
     catalog := catalog h |}.

(** [extents[0]] *)
Definition ext0 (ext : list (Z * Z)) : Z * Z := default (0, 0) (head ext).

(** The last line: what was found of /kernel.elf. *)
Definition file_report (f : hfs_file) (head_word : Z) : list Z :=
  "[riscv32] /kernel.elf size=" ++ putdec (u32 (hf_logical_size f)) ++
  " fileid=" ++ putdec (hf_file_id f) ++ " ext0=" ++ putdec (ext0 (hf_extents f)).1 ++
  "+" ++ putdec (ext0 (hf_extents f)).2 ++ " head=0x" ++ puthex32 head_word ++ "\n".

(** [hfs_probe_root()] *)
Definition hfs_probe_root : M unit :=
  puts "[XNU-CaribeOS] HFS+ root probe\n" ≫= fun _ =>
  virtio_blk_read_blocks 2 1 (SECTOR B) ≫= fun rc =>
  if negb (rc =? 0) then puts "[riscv32] HFS+ volume header read failed\n"
  else
    getP b_mem ≫= fun m =>
    let sig := be16 m (SECTOR B) in
    if negb (sig =? 0x482b) && negb (sig =? 0x4858) then
      puts "[riscv32] HFS+ sig invalid=0x" ≫= fun _ => puts (puthex32 sig) ≫= fun _ => puts "\n"
    else
      let version := be16 m (SECTOR B + 2) in
      modifyP (fun s => set_hfs (read_header m (b_hfs s)) s) ≫= fun _ =>
      getP b_hfs ≫= fun h =>
      hfs_read_block (ext0 (fk_ext (catalog h))).1 (BLOCK B) ≫= fun rc =>
      if negb (rc =? 0) then puts "[riscv32] HFS+ catalog header read failed\n"
      else
        modifyP (fun s => set_hfs (read_btree (b_mem s) (b_hfs s)) s) ≫= fun _ =>
        getP b_hfs ≫= fun h =>
        puts "[riscv32] HFS+ sig=0x" ≫= fun _ => puts (puthex32 sig) ≫= fun _ =>
        puts " version=0x" ≫= fun _ => puts (puthex32 version) ≫= fun _ =>
        puts " block=" ≫= fun _ => puts (putdec (blockSize h)) ≫= fun _ =>
        puts " blocks=" ≫= fun _ => puts (putdec (totalBlocks h)) ≫= fun _ =>
        puts " catNode=" ≫= fun _ => puts (putdec (catalogNodeSize h)) ≫= fun _ =>
        puts "\n" ≫= fun _ =>
        puts "[riscv32] HFS+ catalog ext0=" ≫= fun _ =>
        puts (putdec (ext0 (fk_ext (catalog h))).1) ≫= fun _ => puts "+" ≫= fun _ =>
        puts (putdec (ext0 (fk_ext (catalog h))).2) ≫= fun _ =>
        puts " logical=0x" ≫= fun _ => puts (puthex32 (u32 (fk_size (catalog h)))) ≫= fun _ =>
        puts "\n" ≫= fun _ =>
        hfs_find_root_file "kernel.elf" ≫= fun '(rc, f) =>
        match f with
        | Some f =>
            if negb (rc =? 0) || (hf_found f =? 0) then
              puts "[riscv32] /kernel.elf not found from XNU side\n"
            else
              let first_lba := (ext0 (hf_extents f)).1 *! (blockSize h / 512) in
              virtio_blk_read_blocks first_lba 1 (SECTOR B) ≫= fun rc =>
              getP b_mem ≫= fun m =>
              let head_word := if rc =? 0 then be32 m (SECTOR B) else 0 in
              puts (file_report f head_word)
        | None => puts "[riscv32] /kernel.elf not found from XNU side\n"
        end.

End Probe.

(** ** The abstract search *)

Definition is_file (name : list Z) (r : cat_rec) : bool :=
  (cr_parent r =? HFSPLUS_ROOT_FOLDER_ID) && bytes_eqb (cr_name r) name &&
  (rec_type r =? HFSPLUS_RECORD_FILE).

(** The record the kernel takes: the leaves in order, in each the records from the
    last down to the second. *)
Fixpoint file_search (name : list Z) (nodes : list (option (list cat_rec))) : option cat_rec :=
  match nodes with
  | [] => None
  | None :: nodes => file_search name nodes
  | Some recs :: nodes =>
      match List.find (is_file name) (reverse (tail recs)) with
      | Some r => Some r
      | None => file_search name nodes
      end
  end.

(** What the kernel keeps of a file record. *)
Definition rec_file (r : cat_rec) : hfs_file :=
  File 1 (be32 (mem_of_list 0 (cr_data r)) 8) (fk_size (rec_fork r)) (fk_ext (rec_fork r)).

(** The booter's search for a file in the root folder has the same result. *)
Lemma file_search_catalog name nodes :
  catalog_search HFSPLUS_ROOT_FOLDER_ID name WantFile nodes =
    (fun r => FoundFile (rec_fork r)) <$> file_search name nodes.
Proof.
  assert (forall rs, first_answer HFSPLUS_ROOT_FOLDER_ID name WantFile rs =
    (fun r => FoundFile (rec_fork r)) <$> List.find (is_file name) rs) as Hf.
  { induction rs as [|r rs IH]; [done|]. simpl. unfold answer, is_file at 1, HFSPLUS_RECORD_FILE.
    destruct (_ && bytes_eqb _ _); simpl; [|done]. by destruct (rec_type r =? 2). }
  induction nodes as [|[recs|] nodes IH]; [done | |done]. simpl. rewrite Hf.
  by destruct (List.find _ _).
Qed.

(** *** A node in memory and the abstract node *)

Section NodeProofs.
Context (B : buffers) (m b : mem) (ns : Z).
Context (Hns : ns <= 4096) (Hb : same_bytes m (NODE B) b 0 ns).

Lemma hfs_ascii_name_eq chars : forall src out,
  0 <= out -> hfs_ascii_name m src chars 128 out = ascii_name_from_utf16be m src chars (Z.to_nat (127 - out)).
Proof.
  induction chars as [|chars IH]; intros src out Hout; simpl; [done|]. case_if; zbool.
  - by replace (Z.to_nat (127 - out)) with 0%nat by lia.
  - replace (Z.to_nat (127 - out)) with (S (Z.to_nat (127 - (out + 1)))) by lia. by rewrite IH by lia.
Qed.

Lemma find_record_rec name o r :
  rec_at b ns o r -> rec_ok r ->
  find_record B m ns name o = if is_file name r then Some (rec_file r) else None.
Proof.
  intros Hat Hok. pose proof (data_at (NODE B) m b ns ltac:(lia) Hb o r Hat Hok) as Hdata.
  pose proof Hat as (Ho & Hend & Hkey & Hpar & Hlen & Hname & _).
  pose proof Hok as (Hascii & Hshort & H2 & _ & _ & H168).
  unfold find_record, is_file. rewrite (proj2 (Z.leb_gt ns (o + 8))) by lia.
  rewrite (node_be16 (NODE B) m b ns Hb), Hkey by lia.
  rewrite <- (Z.add_assoc (NODE B) o 2), <- (Z.add_assoc (NODE B) o 6), <- (Z.add_assoc (NODE B) o 8).
  rewrite (node_be32 (NODE B) m b ns Hb (o + 2)), (node_be16 (NODE B) m b ns Hb (o + 6)), Hpar, Hlen, Nat2Z.id by lia.
  rewrite hfs_ascii_name_eq by lia. change (Z.to_nat (127 - 0)) with 127%nat.
  rewrite (name_at (NODE B) m b ns Hb)
    by (done || lia || (intros i c Hi; rewrite <- (Hname i c) by done; f_equal; lia)).
  rewrite c_string_ascii, s_eq_bytes by done.
  replace (o + 2 + (6 + 2 * Z.of_nat (length (cr_name r))))
    with (o + 8 + 2 * Z.of_nat (length (cr_name r))) by lia.
  set (a := NODE B + _) in *.
  assert (be16 m a = rec_type r) as Ht.
  { rewrite <- (Z.add_0_r a). apply (same_be16 _ _ _ _ 0 _ Hdata); lia. }
  rewrite (proj2 (Z.ltb_ge ns (o + 8 + Z.of_nat (length (cr_name r)) * 2))) by lia. rewrite orb_false_r.
  destruct (Z.eqb_spec (rec_type r) HFSPLUS_RECORD_FILE) as [Hf|Hf].
  - specialize (H168 Hf). rewrite (proj2 (Z.ltb_ge ns _)) by lia. rewrite andb_true_r.
    destruct (_ =? HFSPLUS_ROOT_FOLDER_ID), (bytes_eqb _ _); try done. simpl.
    rewrite Ht, Hf, Z.eqb_refl. unfold rec_file, rec_fork. f_equal.
    pose proof (fork_from_file_record_same _ _ _ _ _ Hdata ltac:(lia)) as Hfk. rewrite <- Hfk. unfold fork_from_file_record. simpl.
    rewrite (same_be32 _ _ _ _ 8 _ Hdata) by lia. unfold hfs_read_extents. by rewrite <- Z.add_assoc.
  - rewrite andb_false_r. destruct (ns <? _); [done|]. destruct (_ || _); [done|]. by rewrite Ht, (proj2 (Z.eqb_neq _ _)).
Qed.

Lemma find_record_free name free :
  0 <= free -> (free + 8 < ns -> be32 b (free + 2) = 0) -> find_record B m ns name free = None.
Proof.
  intros Hf Hz. unfold find_record. case_if; zbool; [done|]. case_if; [done|].
  rewrite <- Z.add_assoc, (node_be32 (NODE B) m b ns Hb), Hz by lia. done.
Qed.

Lemma find_slots_recs name : forall rs i,
  0 <= i -> i + 2 * Z.of_nat (length rs) <= ns ->
  (forall k r, rs !! k = Some r -> rec_ok r /\ rec_at b ns (be16 b (i + 2 * Z.of_nat k)) r) ->
  find_slots B m ns name (NODE B + i) (length rs) = rec_file <$> List.find (is_file name) rs.
Proof.
  induction rs as [|r rs IH]; intros i Hi Hend Hrs; [done|]. simpl in Hend.
  cbn [length find_slots List.find]. rewrite (node_be16 (NODE B) m b ns Hb) by lia.
  destruct (Hrs 0%nat r eq_refl) as [Hok Hat]. rewrite Z.mul_0_r, Z.add_0_r in Hat.
  rewrite (find_record_rec name _ r) by done. destruct (is_file name r); [done|].
  rewrite <- Z.add_assoc. apply IH; [lia | lia |].
  intros k r' Hk. destruct (Hrs (S k) r' Hk) as [Hok' Hat']. split; [done|].
  replace (i + 2 + 2 * Z.of_nat k) with (i + 2 * Z.of_nat (S k)) by lia. done.
Qed.

Lemma find_in_node_node name node :
  node_at b ns node -> 14 <= ns ->
  find_in_node B m ns name =
    match node with
    | Some recs => rec_file <$> List.find (is_file name) (reverse (tail recs))
    | None => None
    end.
Proof.
  intros Hnode Hn. unfold find_in_node. rewrite Hb, Z.add_0_l by lia.
  destruct node as [recs|]; simpl in Hnode; [|by rewrite (proj2 (Z.eqb_neq (load8 b 8) 255))].
  destruct Hnode as (Hkind & Hnum & Hpos & Hfit & Hrecs & Hfree & Hzero).
  rewrite Hkind, Z.eqb_refl. simpl negb. cbv iota. rewrite (node_be16 (NODE B) m b ns Hb), Hnum by lia.
  rewrite (proj2 (Z.eqb_neq _ 0)), (proj2 (Z.ltb_ge ns _)) by lia. simpl orb. cbv iota.
  rewrite Nat2Z.id. destruct recs as [|r0 recs]; [simpl in Hpos; lia|].
  cbn [length find_slots tail]. cbn [length] in *. set (n := length recs) in *.
  rewrite (node_be16 (NODE B) m b ns Hb), find_record_free by (done || lia).
  rewrite <- Z.add_assoc. pose proof (find_slots_recs name (reverse recs)) as Hslots.
  rewrite length_reverse in Hslots. apply Hslots; [lia | lia |].
  intros k r Hk. apply reverse_lookup_Some in Hk as [Hk Hlt]. fold n in Hk, Hlt.
  destruct (Hrecs (S (n - S k)) r Hk) as [Hok Hat]. split; [done|].
  replace (ns - 2 * (Z.of_nat (S n) + 1) + 2 + 2 * Z.of_nat k)
    with (ns - 2 * (Z.of_nat (S (n - S k)) + 1)) by lia. done.
Qed.

End NodeProofs.

(** *** On a device *)

Section ProbeSpec.
Context {D : Type} `{HD : BlockDevice D} `{HS : !BlockDeviceSpec D} (B : buffers).

(** A buffer of [n] bytes outside the memory of the driver. *)
Definition buffer_ok (a n : Z) : Prop := region a n /\ forall x, inside a n x -> ~ blk_private x.

Context (Hsector : buffer_ok (SECTOR B) 512) (Hblock : buffer_ok (BLOCK B) 4096)
        (Hnode : buffer_ok (NODE B) 4096).

Implicit Types (s : boot (D := D)).

(** What reading [n] bytes of the disk from [off] to [buf] leaves. *)
Definition loaded (buf off n : Z) s s' : Prop :=
  ok s' /\ b_hfs s' = b_hfs s /\
  (forall i, 0 <= i < n -> b_mem s' (buf + i) = blk_byte (off + i)) /\
  (forall a, ~ inside buf n a -> ~ blk_private a -> b_mem s' a = b_mem s a).

Lemma read_sectors lba count buf s :
  ok s -> 0 <= lba -> 0 < count -> lba + count <= blk_sectors -> 512 * count < 4294967296 ->
  buffer_ok buf (512 * count) ->
  returns (virtio_blk_read_blocks lba count buf) s (fun rc s' =>
    rc = 0 /\ loaded buf (512 * lba) (512 * count) s s').
Proof.
  intros [Hm Hr] Hlba Hc Hcap Hlen [Hreg Hpriv]. unfold returns, virtio_blk_read_blocks.
  pose proof (blk_read_ok lba count buf (b_dev s) (b_mem s) Hr Hm Hlba Hc Hcap Hlen Hreg Hpriv) as Hok.
  destruct (blk_read_blocks lba count buf (b_dev s) (b_mem s)) as [[[rc text] d] m'].
  destruct Hok as (-> & Hr' & Hm' & Hd & Hf). by split_and!.
Qed.

Lemma buffer_sub a n k : buffer_ok a n -> 0 <= k <= n -> buffer_ok a k.
Proof.
  intros [(? & ? & ?) Hp] Hk. split; [unfold region; lia|]. intros x Hx. apply Hp. unfold inside in *. lia.
Qed.

(** Block sizes the kernel handles. *)
Definition kbs_ok (bs : Z) : Prop := 512 <= bs <= 4096 /\ bs mod 512 = 0.

Lemma read_block_loads block buf s :
  ok s -> kbs_ok (blockSize (b_hfs s)) -> buffer_ok buf 4096 -> 0 <= block ->
  blockSize (b_hfs s) * (block + 1) <= 512 * blk_sectors ->
  returns (hfs_read_block block buf) s (fun rc s' =>
    rc = 0 /\ loaded buf (blockSize (b_hfs s) * block) (blockSize (b_hfs s)) s s').
Proof.
  intros Hok [Hbs Hal] Hbuf Hb Hcap. unfold hfs_read_block. apply returns_get.
  set (bs := blockSize (b_hfs s)) in *. clearbody bs.
  rewrite (proj2 (Z.eqb_neq bs 0)), (proj2 (Z.ltb_ge _ bs)) by (unfold HFSPLUS_MAX_BLOCK_SIZE; lia).
  rewrite Hal. cbn [orb negb Z.eqb].
  set (q := bs / 512) in *. assert (bs = 512 * q) as Hq by (unfold q; lia). clearbody q. subst bs.
  pose proof blk_sectors_u32. rewrite u32_small by (unfold is_u32; nia).
  eapply returns_mono; [apply read_sectors; try done; try nia|].
  - eapply buffer_sub; [done | lia].
  - intros rc s' [-> Hl]. split; [done|]. by replace (512 * q * block) with (512 * (block * q)) by lia.
Qed.

(** The catalog lies on the disk and not in block 0, which holds the volume header;
    its nodes are blocks. *)
Definition kcatalog_ok (h : hfs_vol) : Prop :=
  kbs_ok (blockSize h) /\ catalogNodeSize h = blockSize h /\
  0 < firstLeafNode h <= lastLeafNode h /\ lastLeafNode h < totalCatalogNodes h < 4294967295 /\
  0 ∉ fork_blocks (catalog h).

Lemma read_node_loads node s :
  ok s -> kcatalog_ok (b_hfs s) -> fork_mapped (blockSize (b_hfs s)) (catalog (b_hfs s)) ->
  0 <= node < 4294967296 -> (node + 1) * blockSize (b_hfs s) <= fk_size (catalog (b_hfs s)) ->
  returns (hfs_read_catalog_node B node) s (fun rc s' =>
    rc = 0 /\ ok s' /\ b_hfs s' = b_hfs s /\
    same_bytes (b_mem s') (NODE B) (node_bytes (b_hfs s) node) 0 (blockSize (b_hfs s)) /\
    (forall a, ~ inside (NODE B) 4096 a -> ~ blk_private a -> b_mem s' a = b_mem s a)).
Proof.
  intros Hok (Hkbs & Hns & _ & _ & H0) Hmap Hn Hend. unfold hfs_read_catalog_node. apply returns_get.
  rewrite Hns. pose proof Hkbs as [Hbs Hal]. set (bs := blockSize (b_hfs s)) in *.
  rewrite !(proj2 (Z.eqb_neq bs 0)), (proj2 (Z.ltb_ge _ bs)) by (unfold HFSPLUS_MAX_BLOCK_SIZE; lia).
  rewrite Z.eqb_refl, Z.div_same by lia. cbn [orb negb Z.eqb]. rewrite Z.div_1_r.
  destruct Hmap as (Hsz & Hext & Hfit & Hdisk). unfold catalog_block.
  rewrite find_extent_blocks by done. fold (fork_blocks (catalog (b_hfs s))).
  set (blocks := fork_blocks (catalog (b_hfs s))) in *.
  destruct (lookup_lt_is_Some_2 blocks (Z.to_nat node)) as [blk Hblk]; [nia|].
  rewrite Hblk. cbn [default from_option id]. pose proof (list_elem_of_lookup_2 _ _ _ Hblk) as Hin.
  assert (blk <> 0) as Hnz by (intros ->; done).
  rewrite Forall_forall in Hdisk. pose proof (Hdisk _ Hin) as Hd.
  assert (0 <= blk) as Hpos by (eapply fork_blocks_nonneg; done).
  rewrite (proj2 (Z.eqb_neq blk 0)) by done.
  eapply returns_mono; [by apply read_block_loads|]. fold bs.
  intros rc s' (-> & Hok' & Hh & Hdata & Hf). split_and!; try done.
  - intros i Hi. destruct Hnode as [(? & ? & ?) _]. rewrite Z.add_0_l. unfold load8 at 1. rewrite u32_small by mlia.
    rewrite Hdata by lia. unfold load8, node_bytes, fork_byte. rewrite u32_small by mlia.
    assert (block_size (b_hfs s) = bs) as -> by (unfold block_size; fold bs; rewrite (proj2 (Z.eqb_neq bs 0)) by lia; done).
    rewrite Hns. fold bs blocks. rewrite Z.div_add_l, (Z.div_small i), Z.add_0_r by lia.
    rewrite (list_lookup_total_correct _ _ _ Hblk). do 2 f_equal.
    by rewrite Z.add_comm, Z.mod_add, Z.mod_small by lia.
  - intros a Ha Hp. apply Hf; [|done]. unfold inside in *. lia.
Qed.

(** The code and the file for a record, or for none. *)
Definition file_answer (r : option cat_rec) : Z * option hfs_file :=
  match r with Some r => (0, Some (rec_file r)) | None => (-1, None) end.

(** Nothing changed but [g_node] and the memory of the driver. *)
Definition only_node s s' : Prop :=
  ok s' /\ b_hfs s' = b_hfs s /\
  forall a, ~ inside (NODE B) 4096 a -> ~ blk_private a -> b_mem s' a = b_mem s a.

Lemma only_node_refl s : ok s -> only_node s s.
Proof. done. Qed.

Lemma find_nodes_search h name last : forall nodes fuel node s,
  ok s -> b_hfs s = h -> kcatalog_ok h -> fork_mapped (blockSize h) (catalog h) ->
  0 <= node -> Z.of_nat (length nodes) = last - node + 1 -> (length nodes <= fuel)%nat ->
  last < 4294967295 -> (last + 1) * blockSize h <= fk_size (catalog h) ->
  (forall k nd, nodes !! k = Some nd ->
     node_at (node_bytes h (node + Z.of_nat k)) (blockSize h) nd) ->
  returns (find_nodes B fuel name node last) s (fun r s' =>
    only_node s s' /\ r = file_answer (file_search name nodes)).
Proof.
  induction nodes as [|nd nodes IH];
    intros fuel node s Hok Hh Hcat Hfk Hn Hlen Hfuel Hlast Hend Hat; simpl in Hlen.
  { assert (last < node) as Hlt by lia. destruct fuel; cbn [find_nodes];
      rewrite (proj2 (Z.ltb_lt last node)) by lia; apply returns_ret; (split; [by apply only_node_refl | done]). }
  destruct fuel as [|fuel]; [simpl in Hfuel; lia|]. cbn [find_nodes].
  rewrite (proj2 (Z.ltb_ge last node)) by lia. apply returns_get.
  pose proof Hcat as ([Hbs _] & Hns & _). subst h. set (bs := blockSize (b_hfs s)) in *.
  eapply returns_bind.
  { apply read_node_loads; try done; fold bs; nia. }
  intros rc s1 (-> & Hok1 & Hh1 & Hb1 & Hf1). fold bs in Hb1. cbn [negb Z.eqb]. apply returns_get.
  rewrite Hns. fold bs. pose proof (Hat 0%nat nd eq_refl) as Hnd. rewrite Z.add_0_r in Hnd.
  rewrite (find_in_node_node B (b_mem s1) _ bs ltac:(lia) Hb1 name nd Hnd) by lia.
  assert (file_search name (nd :: nodes) =
    match (match nd with Some recs => List.find (is_file name) (reverse (tail recs)) | None => None end) with
    | Some r => Some r | None => file_search name nodes end) as ->.
  { destruct nd as [recs|]; simpl; [by destruct (List.find _ _) | done]. }
  assert (only_node s s1) as Hon by done.
  assert ((match nd with Some recs => rec_file <$> List.find (is_file name) (reverse (tail recs)) | None => None end)
    = rec_file <$> (match nd with Some recs => List.find (is_file name) (reverse (tail recs)) | None => None end))
    as -> by by destruct nd.
  destruct (match nd with Some _ => _ | None => _ end) as [r|]; cbn [fmap option_fmap option_map].
  { by apply returns_ret. }
  destruct (negb _ && (node =? last)) eqn:Ebrk.
  - apply andb_true_iff in Ebrk as [_ E%Z.eqb_eq]. assert (nodes = []) as -> by (apply length_zero_iff_nil; lia).
    by apply returns_ret.
  - rewrite u32_small by mlia. eapply returns_mono.
    { apply (IH fuel (node + 1) s1); rewrite ?Hh1; try done; try lia; [simpl in Hfuel; lia|].
      intros k nd' Hk. replace (node + 1 + Z.of_nat k) with (node + Z.of_nat (S k)) by lia. by apply Hat. }
    intros r s2 [(Hok2 & Hh2 & Hf2) Hr]. split; [|done]. split; [done|]. split; [congruence|].
    intros a Ha Hp. by rewrite Hf2, Hf1.
Qed.

Lemma find_root_file_search name nodes s :
  ok s -> kcatalog_ok (b_hfs s) -> catalog_at (b_hfs s) nodes ->
  returns (hfs_find_root_file B name) s (fun r s' =>
    only_node s s' /\ r = file_answer (file_search name nodes)).
Proof.
  intros Hok Hk Hcat. pose proof Hk as ([Hbs _] & Hns & Hl1 & Hl2 & _).
  assert (block_size (b_hfs s) = blockSize (b_hfs s)) as Ebs.
  { unfold block_size. by rewrite (proj2 (Z.eqb_neq _ 0)) by lia. }
  unfold catalog_at in Hcat. rewrite Ebs, Hns in Hcat.
  assert (catalog_range (b_hfs s) = (firstLeafNode (b_hfs s), lastLeafNode (b_hfs s))) as Ecr.
  { unfold catalog_range. rewrite (proj2 (Z.eqb_neq (totalCatalogNodes _) 0)) by lia.
    rewrite (proj2 (Z.eqb_neq (firstLeafNode _) 0)), (proj2 (Z.eqb_neq (lastLeafNode _) 0)) by lia.
    rewrite !(proj2 (Z.leb_gt _ _)), (proj2 (Z.ltb_ge _ _)) by lia. done. }
  rewrite Ecr in Hcat. destruct Hcat as (_ & Hfk & _ & _ & Hf & Hlen & Hend & Hat).
  unfold hfs_find_root_file, leaf_range. apply returns_get.
  rewrite (proj2 (Z.eqb_neq (firstLeafNode _) 0)), (proj2 (Z.eqb_neq (lastLeafNode _) 0)),
    (proj2 (Z.ltb_ge _ _)) by lia. cbn [orb].
  apply (find_nodes_search (b_hfs s)); try done; lia.
Qed.

(** *** The probe *)

Definition zero_buffers : buffers := {| SECTOR := 0; BLOCK := 0; NODE := 0 |}.

Definition blank : hfs_vol :=
  {| blockSize := 0; totalBlocks := 0; catalogNodeSize := 0; firstLeafNode := 0; lastLeafNode := 0;
     totalCatalogNodes := 0; catalog := Fork 0 [] |}.

(** The volume the disk describes: its header in sector 2, then the header node of
    the catalog in the first block of its first extent. *)
Definition header_volume : hfs_vol := read_header zero_buffers header_bytes blank.

Definition btree_bytes : mem :=
  fun i => blk_byte (blockSize header_volume * (ext0 (fk_ext (catalog header_volume))).1 + i).

Definition kvolume : hfs_vol := read_btree zero_buffers btree_bytes header_volume.

Lemma read_header_same m h :
  same_bytes m (SECTOR B) header_bytes 0 512 ->
  read_header B m h =
    {| blockSize := blockSize header_volume; totalBlocks := totalBlocks header_volume;
       catalogNodeSize := catalogNodeSize h; firstLeafNode := firstLeafNode h;
       lastLeafNode := lastLeafNode h; totalCatalogNodes := totalCatalogNodes h;
       catalog := catalog header_volume |}.
Proof.
  intros Hs. unfold header_volume, read_header, hfs_read_extents.
  cbn [SECTOR zero_buffers blockSize totalBlocks catalog].
  rewrite (same_be32 _ _ _ _ 40 _ Hs), (same_be32 _ _ _ _ 44 _ Hs), (same_be64 _ _ _ _ 272 _ Hs) by lia.
  replace (SECTOR B + 272 + 16) with (SECTOR B + 288) by lia.
  by rewrite (read_extents_same m header_bytes (SECTOR B) 0 8 288 512) by (done || lia).
Qed.

Lemma read_btree_same m h bs :
  same_bytes m (BLOCK B) btree_bytes 0 bs -> 512 <= bs ->
  blockSize h = blockSize header_volume -> totalBlocks h = totalBlocks header_volume ->
  catalog h = catalog header_volume -> read_btree B m h = kvolume.
Proof.
  intros Hs Hbs H1 H2 H3. unfold kvolume, read_btree. rewrite H1, H2, H3, <- !Z.add_assoc. cbn [BLOCK zero_buffers].
  by rewrite (same_be16 _ _ _ _ (14 + 18) _ Hs), (same_be32 _ _ _ _ (14 + 10) _ Hs),
    (same_be32 _ _ _ _ (14 + 14) _ Hs), (same_be32 _ _ _ _ (14 + 22) _ Hs) by lia.
Qed.

(** The bytes of a buffer after a read. *)
Lemma loaded_same buf off n s s' :
  buffer_ok buf n -> loaded buf off n s s' -> same_bytes (b_mem s') buf (fun i => blk_byte (off + i)) 0 n.
Proof.
  intros [(? & ? & ?) _] (_ & _ & Hd & _) i Hi. unfold load8. rewrite !u32_small by mlia. by rewrite Hd by lia.
Qed.

(** The first word of a file. *)
Definition first_word (bs : Z) (fk : ForkMeta) : Z := be32 (fork_byte bs fk) 0.

(** A file whose first block is that of its first extent. *)
Definition starts_ok (bs : Z) (fk : ForkMeta) : Prop := fork_mapped bs fk /\ 0 < (ext0 (fk_ext fk)).2.

Lemma first_block bs fk : starts_ok bs fk -> 0 < bs ->
  0 <= (ext0 (fk_ext fk)).1 /\ bs * ((ext0 (fk_ext fk)).1 + 1) <= 512 * blk_sectors /\
  fork_blocks fk !!! 0%nat = (ext0 (fk_ext fk)).1.
Proof.
  intros [(Hsz & Hext & Hfit & Hdisk) Hc] Hbs. unfold fork_blocks in *.
  destruct (fk_ext fk) as [|[st cnt] ext]; [done|]. simpl in *.
  apply Forall_cons in Hext as [(? & ? & ?) _]. simpl in *. rewrite seqZ_cons in * by lia. simpl in *.
  apply Forall_cons in Hdisk as [Hd _]. done.
Qed.

(** The last line of the probe. *)
Definition probe_report (nodes : list (option (list cat_rec))) : list Z :=
  match file_search "kernel.elf" nodes with
  | Some r => file_report (rec_file r) (first_word (blockSize kvolume) (rec_fork r))
  | None => "[riscv32] /kernel.elf not found from XNU side\n"
  end.

(** Nothing changed in memory but the three buffers and what the driver owns. *)
Definition in_buffers (a : Z) : Prop :=
  inside (SECTOR B) 512 a \/ inside (BLOCK B) 4096 a \/ inside (NODE B) 4096 a \/ blk_private a.

Definition probe_keeps s s' : Prop := ok s' /\ forall a, ~ in_buffers a -> b_mem s' a = b_mem s a.

Lemma loaded_keeps buf off n s s' :
  (forall a, inside buf n a -> in_buffers a) -> loaded buf off n s s' -> probe_keeps s s'.
Proof.
  intros Hb (Hok & _ & _ & Hf). split; [done|]. intros a Ha. apply Hf; [by intros ?%Hb|].
  intros Hp. apply Ha. by do 3 right.
Qed.

Lemma probe_keeps_trans s1 s2 s3 : probe_keeps s1 s2 -> probe_keeps s2 s3 -> probe_keeps s1 s3.
Proof. intros [_ H1] [Hok H2]. split; [done|]. intros a Ha. by rewrite H2, H1. Qed.

(** The end of the probe: the file, if there is one, and its first sector. *)
Lemma probe_reads_file s nodes :
  ok s -> b_hfs s = kvolume -> kcatalog_ok kvolume -> catalog_at kvolume nodes ->
  (forall r, file_search "kernel.elf" nodes = Some r -> starts_ok (blockSize kvolume) (rec_fork r)) ->
  returns (hfs_find_root_file B "kernel.elf" ≫= fun '(rc, f) =>
    match f with
    | Some f =>
        if negb (rc =? 0) || (hf_found f =? 0) then
          puts "[riscv32] /kernel.elf not found from XNU side\n"
        else
          virtio_blk_read_blocks ((ext0 (hf_extents f)).1 *! (blockSize kvolume / 512)) 1 (SECTOR B) ≫= fun rc =>
          getP b_mem ≫= fun m =>
          puts (file_report f (if rc =? 0 then be32 m (SECTOR B) else 0))
    | None => puts "[riscv32] /kernel.elf not found from XNU side\n"
    end) s (fun _ s' => probe_keeps s s' /\
    b_hfs s' = kvolume /\ exists pre, b_out s' = pre ++ Kernel.crlf (probe_report nodes)).
Proof.
  intros Hok Hh Hk Hcat Hfile. eapply returns_bind.
  { apply (find_root_file_search _ nodes); rewrite ?Hh; done. }
  intros r s1 [(Hok1 & Hh1 & Hf1) ->].
  assert (probe_keeps s s1) as Hk1.
  { split; [done|]. intros a Ha. apply Hf1; intros ?; apply Ha; unfold in_buffers; tauto. }
  clear Hf1. rewrite Hh in Hh1. unfold probe_report. clear Hcat.
  revert Hk Hfile Hh1. generalize kvolume. intros h Hk Hfile Hh1. set (bs := blockSize h) in *.
  destruct (file_search "kernel.elf" nodes) as [r|] eqn:Hr; cbn [file_answer].
  2: { split; [exact Hk1|]. split; [exact Hh1|]. exists (b_out s1). reflexivity. }
  cbn [negb Z.eqb orb rec_file hf_found hf_extents].
  pose proof Hk as ([Hbs Hal] & _). fold bs in Hbs, Hal.
  destruct (first_block bs (rec_fork r) (Hfile r eq_refl) ltac:(lia)) as (H0 & Hd & Hfb).
  set (st := (ext0 (fk_ext (rec_fork r))).1) in *.
  set (q := bs / 512) in *. assert (bs = 512 * q) as Hq by (unfold q; lia).
  pose proof blk_sectors_u32. rewrite u32_small by (unfold is_u32; nia).
  eapply returns_bind; [apply read_sectors; [done | nia | lia | nia | lia | exact Hsector]|].
  intros rc s2 [-> Hl]. pose proof Hl as (Hok2 & Hh2 & _). apply returns_get. cbn [Z.eqb].
  assert (probe_keeps s1 s2) as Hk2 by (eapply loaded_keeps; [|exact Hl]; intros ?; by left).
  apply (loaded_same _ _ _ _ _ Hsector) in Hl.
  assert (be32 (b_mem s2) (SECTOR B) = first_word bs (rec_fork r)) as ->.
  { rewrite <- (Z.add_0_r (SECTOR B)), (same_be32 _ _ _ _ 0 _ Hl) by lia.
    unfold first_word, be32, load8, fork_byte.
    rewrite !u32_small by mlia. rewrite !(Z.div_small _ bs), !Z.mod_small by lia. change (Z.to_nat 0) with 0%nat. rewrite Hfb, Hq.
    by replace (512 * (st * q)) with (512 * q * st) by lia. }
  split; [exact (probe_keeps_trans _ _ _ Hk1 Hk2)|].
  split; [cbn [emit b_hfs]; congruence|]. exists (b_out s2). reflexivity.
Qed.

(** The whole probe. *)
Lemma hfs_probe_root_result (nodes : list (option (list cat_rec))) s :
  ok s -> 3 <= blk_sectors -> be16 header_bytes 0 = 0x482b \/ be16 header_bytes 0 = 0x4858 ->
  kcatalog_ok kvolume ->
  0 <= (ext0 (fk_ext (catalog kvolume))).1 /\
    blockSize kvolume * ((ext0 (fk_ext (catalog kvolume))).1 + 1) <= 512 * blk_sectors ->
  catalog_at kvolume nodes ->
  (forall r, file_search "kernel.elf" nodes = Some r -> starts_ok (blockSize kvolume) (rec_fork r)) ->
  returns (hfs_probe_root B) s (fun _ s' => probe_keeps s s' /\
    b_hfs s' = kvolume /\ exists pre, b_out s' = pre ++ Kernel.crlf (probe_report nodes)).
Proof.
  intros Hok Hcap Hsig Hk Hext Hcat Hfile.
  unfold hfs_probe_root. apply returns_p. eapply returns_bind.
  { apply read_sectors; [done | lia | lia | lia | lia | exact Hsector]. }
  intros rc s1 [-> Hl1]. pose proof Hl1 as (Hok1 & _).
  assert (probe_keeps s s1) as Hk1 by (eapply loaded_keeps; [|exact Hl1]; intros ?; by left).
  apply (loaded_same _ _ _ _ _ Hsector) in Hl1.
  cbn [negb Z.eqb]. apply returns_get. change (512 * 2) with 1024 in Hl1. fold header_bytes in Hl1.
  assert (be16 (b_mem s1) (SECTOR B) = be16 header_bytes 0) as ->.
  { rewrite <- (Z.add_0_r (SECTOR B)). apply (same_be16 _ _ _ _ 0 _ Hl1); lia. }
  assert (negb (be16 header_bytes 0 =? 0x482b) && negb (be16 header_bytes 0 =? 0x4858) = false) as Hs.
  { destruct Hsig as [-> | ->]; done. }
  rewrite Hs. apply returns_modify, returns_get. cbn [set_hfs b_hfs].
  rewrite (read_header_same _ _ Hl1). cbn [blockSize catalog fk_ext].
  set (h1 := {| blockSize := _ |}). pose proof Hk as ([Hbs Hal] & _).
  change (blockSize kvolume) with (blockSize header_volume) in *.
  change (catalog kvolume) with (catalog header_volume) in *.
  eapply returns_bind.
  { apply read_block_loads; [done | done | exact Hblock | apply Hext | apply Hext]. }
  intros rc s2 [-> Hl2]. pose proof Hl2 as (Hok2 & Hh2 & _).
  assert (probe_keeps s1 s2) as Hk2.
  { change (probe_keeps (set_hfs h1 s1) s2). eapply loaded_keeps; [|exact Hl2].
    intros a Ha. right. left. unfold inside in *. change (blockSize _) with (blockSize header_volume) in Ha. lia. }
  eapply (loaded_same _ _ _ _ _) in Hl2; [|eapply buffer_sub; [exact Hblock | change (0 <= blockSize header_volume <= 4096); lia]].
  cbn [negb Z.eqb]. apply returns_modify, returns_get.
  assert (read_btree B (b_mem s2) (b_hfs s2) = kvolume) as Hkv.
  { apply (read_btree_same _ _ (blockSize header_volume)); [done | lia | rewrite Hh2; done..]. }
  cbn [set_hfs b_hfs]. rewrite Hkv. do 18 apply returns_p.
  eapply returns_mono; [apply (probe_reads_file _ nodes); done|]. intros _ s3 [Hk3 Hr3]. split; [|exact Hr3].
  exact (probe_keeps_trans _ _ _ Hk1 (probe_keeps_trans _ _ _ Hk2 Hk3)).
Qed.

(** The kernel's probe.  On a disk with an HFS+ or HFSX volume whose catalog
    nodes are blocks, the probe ends with the volume the two headers describe and
    its last line reports the file the abstract search finds: its size, identifier
    and first extent and the first word of its contents, or that there is none. *)
Theorem hfs_probe_root_reports (nodes : list (option (list cat_rec))) s
    (Hok : ok s) (Hcap : 3 <= blk_sectors)
    (Hsig : be16 header_bytes 0 = 0x482b \/ be16 header_bytes 0 = 0x4858)
    (Hk : kcatalog_ok kvolume)
    (Hext : 0 <= (ext0 (fk_ext (catalog kvolume))).1 /\
      blockSize kvolume * ((ext0 (fk_ext (catalog kvolume))).1 + 1) <= 512 * blk_sectors)
    (Hcat : catalog_at kvolume nodes)
    (Hfile : forall r, file_search "kernel.elf" nodes = Some r ->
       starts_ok (blockSize kvolume) (rec_fork r)) :
  returns (hfs_probe_root B) s (fun _ s' =>
    b_hfs s' = kvolume /\ exists pre, b_out s' = pre ++ Kernel.crlf (probe_report nodes)).
Proof.
  eapply returns_mono; [by apply (hfs_probe_root_result nodes)|]. by intros _ s' [_ H].
Qed.

(** The kernel and the booter find the same file.  On every catalog whose nodes
    are blocks, [hfs_find_root_file] and the booter's [catalog_scan_child] for the
    root folder return the same code, and the size and the extents of the same
    file. *)
Theorem hfs_find_root_file_agrees (SECBUF : Z) (name : list Z) (nodes : list (option (list cat_rec))) s
    (Hok : ok s) (Hk : kcatalog_ok (b_hfs s)) (Hcat : catalog_at (b_hfs s) nodes)
    (Hsec : buffer_ok SECBUF 8192) :
  returns (hfs_find_root_file B name) s (fun r _ =>
    returns (catalog_scan_child SECBUF HFSPLUS_ROOT_FOLDER_ID name WantFile 0) s (fun b _ =>
      b.1.1 = r.1 /\ b.2 = (fun f => FoundFile (Fork (hf_logical_size f) (hf_extents f))) <$> r.2)).
Proof.
  eapply returns_mono; [by apply (find_root_file_search _ nodes)|]. intros r _ [_ ->].
  destruct Hsec as [Hreg Hpriv].
  eapply returns_mono; [by apply (catalog_scan_child_search SECBUF Hreg Hpriv (b_hfs s) nodes)|].
  intros b _ (_ & _ & Hb & Hc & _). rewrite Hc, Hb, file_search_catalog.
  destruct (file_search name nodes) as [r|]; [|done]. split; [done|].
  cbn [fmap option_fmap option_map fst snd file_answer rec_file hf_logical_size hf_extents].
  by destruct (rec_fork r).
Qed.

End ProbeSpec.

(** ** A concrete volume

    The volume of HfsCatalog.v with /kernel.elf of 5000 bytes in blocks 4 and 5. *)

Module Example.

Import HfsCatalog.Example.

Definition recs : list cat_rec := [folder 1 "Root" 2; file 2 "kernel.elf" 5000 4 2].

Definition bufs : buffers := {| SECTOR := 0x80220000; BLOCK := 0x80221000; NODE := 0x80222000 |}.

#[local] Instance dev : BlockDevice unit := ram_disk (volume recs).

#[local] Instance dev_spec : BlockDeviceSpec unit := ram_disk_spec (volume recs).

Definition entered : boot (D := unit) := Boot (fun _ => 0) tt [] blank.

Definition probed : boot (D := unit) := Boot (fun _ => 0) tt [] vol.

Lemma bufs_ok a n : region a n -> buffer_ok a n.
Proof. intros Hr. split; [done | by intros x _ []]. Qed.

Lemma sector_ok : buffer_ok (SECTOR bufs) 512.
Proof. by apply bufs_ok. Qed.

Lemma block_ok : buffer_ok (BLOCK bufs) 4096.
Proof. by apply bufs_ok. Qed.

Lemma node_ok : buffer_ok (NODE bufs) 4096.
Proof. by apply bufs_ok. Qed.

Lemma zero_ok (h : hfs_vol) : ok (Boot (fun _ => 0) tt [] h : boot (D := unit)).
Proof. split; [intros a; simpl; mlia | done]. Qed.

Lemma kvolume_vol : kvolume = vol.
Proof. vm_compute. reflexivity. Qed.

Lemma vol_kcatalog : kcatalog_ok vol.
Proof.
  split_and!; try done. change (fork_blocks (catalog vol)) with [1; 2]. intros Hin.
  apply elem_of_cons in Hin as [?|[?|?%elem_of_nil]%elem_of_cons]; done.
Qed.

Lemma kernel_vol_catalog : catalog_at vol [Some recs].
Proof.
  unfold catalog_at. change (catalog_range vol) with (1, 1). cbv beta iota zeta.
  split_and!; try done.
  - apply mapped_check. vm_compute. reflexivity.
  - intros [|k] node Hk; [|by destruct k]. apply (inj Some) in Hk as <-.
    apply leaf_at_check. vm_compute. reflexivity.
Qed.

(** The last line; the first bytes of block 4 are 69, 70, 71, 72. *)
Lemma hfs_probe_root_reports_example :
  returns (hfs_probe_root bufs) entered (fun _ s' =>
    b_hfs s' = vol /\ exists pre, b_out s' = pre ++
      "[riscv32] /kernel.elf size=5000 fileid=0 ext0=4+2 head=0x45464748\r\n").
Proof.
  pose proof (hfs_probe_root_reports bufs sector_ok block_ok node_ok [Some recs] entered) as Hthm.
  rewrite kvolume_vol in Hthm.
  assert (Kernel.crlf (probe_report [Some recs]) =
    "[riscv32] /kernel.elf size=5000 fileid=0 ext0=4+2 head=0x45464748\r\n") as E.
  { unfold probe_report. rewrite kvolume_vol. vm_compute. reflexivity. }
  rewrite E in Hthm. apply Hthm; clear Hthm.
  - apply zero_ok.
  - done.
  - left. vm_compute. reflexivity.
  - apply vol_kcatalog.
  - split; vm_compute; discriminate.
  - apply kernel_vol_catalog.
  - assert (file_search "kernel.elf" [Some recs] = Some (file 2 "kernel.elf" 5000 4 2)) as ->
      by (vm_compute; reflexivity).
    intros r [= <-]. split; [|vm_compute; reflexivity]. apply mapped_check. vm_compute. reflexivity.
Defined.

Lemma hfs_find_root_file_agrees_example :
  returns (hfs_find_root_file bufs "kernel.elf") probed (fun r _ =>
    returns (catalog_scan_child SECBUF HFSPLUS_ROOT_FOLDER_ID "kernel.elf" WantFile 0) probed (fun b _ =>
      b.1.1 = r.1 /\ b.2 = (fun f => FoundFile (Fork (hf_logical_size f) (hf_extents f))) <$> r.2)).
Proof.
  apply (hfs_find_root_file_agrees bufs node_ok SECBUF "kernel.elf" [Some recs]).
  - apply zero_ok.
  - apply vol_kcatalog.
  - apply kernel_vol_catalog.
  - apply bufs_ok. done.
Defined.

End Example.

End KernelHfs.
