(* ===== verification/Syscalls.v ===== *)
(** The system calls of the stage-0 kernel: one definition per branch of
    [xnu_stage0_user_trap_dispatch] (src/kernel_xnu_entry.c), in the order of the
    source, and the dispatcher that selects among them.

    A branch computes the value of [frame->a0]; [sysret] stores it and skips the
    [ecall].  [exit] and an unexpected trap stop the hart. *)

From S2P Require Import Prelude Print Kernel.

Module Syscalls.

Import Print Kernel.

Local Open Scope c_scope.

(** [frame->a0 = ret; frame->sepc += 4u; return;] *)
Definition sysret (ret : Z) : K unit := modifyP (fun k =>
  let f := k_frame k in
  set_frame (Frame ret (a1 f) (a2 f) (a3 f) (a4 f) (a7 f) (sepc f +! 4) (scause f) (stval f) (regs f)) k).

Section Handlers.
Context (timer : nat -> Z).

Definition sys_getpid (f : frame) : K Z :=
  puts "[riscv32] linux getpid() -> ";; kputdec XNU_STAGE0_LINUX_PID;; puts "\n";;
  mret XNU_STAGE0_LINUX_PID.

Definition sys_getids (f : frame) : K Z :=
  let '(name, ret) :=
    if a7 f =? 173 then (cstr "getppid", XNU_STAGE0_LINUX_PPID)
    else if a7 f =? 178 then (cstr "gettid", XNU_STAGE0_LINUX_PID)
    else if a7 f =? 174 then (cstr "getuid", 0)
    else if a7 f =? 175 then (cstr "geteuid", 0)
    else if a7 f =? 176 then (cstr "getgid", 0)
    else if a7 f =? 177 then (cstr "getegid", 0)
    else (cstr "getid", 0) in
  puts "[riscv32] linux ";; puts name;; puts "() -> ";; kputdec ret;; puts "\n";; mret ret.

Definition sys_set_tid_address (f : frame) : K Z :=
  puts "[riscv32] linux set_tid_address(addr=0x";; kputhex32 (a0 f);; puts ") -> ";;
  kputdec XNU_STAGE0_LINUX_PID;; puts "\n";; mret XNU_STAGE0_LINUX_PID.

Definition sys_futex (f : frame) : K Z :=
  let cmd := a1 f &! 0x7f in
  puts "[riscv32] linux ";; puts (if a7 f =? 422 then cstr "futex_time64" else cstr "futex");;
  puts "(uaddr=0x";; kputhex32 (a0 f);; puts ", op=";; kputdec cmd;; puts ", val=";;
  kputdec (a2 f);; puts ") -> ";;
  ret ← (if a0 f =? 0 then puts "-EFAULT";; mret (linux_errno LINUX_EFAULT)
         else if cmd =? 0 then puts "-EAGAIN";; mret (linux_errno LINUX_EAGAIN)
         else if cmd =? 1 then kputdec 0;; mret 0
         else puts "-EINVAL";; mret (linux_errno LINUX_EINVAL));
  puts "\n";; mret ret.

Definition sys_rt_sigaction (f : frame) : K Z :=
  puts "[riscv32] linux rt_sigaction(sig=";; kputdec (a0 f);; puts ", act=0x";; kputhex32 (a1 f);;
  puts ", oldact=0x";; kputhex32 (a2 f);; puts ") -> ";;
  ret ← (if (a0 f =? 0) || (65 <=? a0 f) then puts "-EINVAL";; mret (linux_errno LINUX_EINVAL)
         else (if negb (a2 f =? 0) then modm (fun m => linux_zero_user m (a2 f) 16) else mret tt);;
              kputdec 0;; mret 0);
  puts "\n";; mret ret.

Definition sys_rt_sigprocmask (f : frame) : K Z :=
  puts "[riscv32] linux rt_sigprocmask(how=";; kputdec (a0 f);; puts ", set=0x";; kputhex32 (a1 f);;
  puts ", oldset=0x";; kputhex32 (a2 f);; puts ") -> 0\n";;
  (if negb (a2 f =? 0)
   then modm (fun m => linux_zero_user m (a2 f) (if a3 f <? 8 then a3 f else 8)) else mret tt);;
  mret 0.

Definition sys_sched_getaffinity (f : frame) : K Z :=
  puts "[riscv32] linux sched_getaffinity(pid=";; kputdec (a0 f);; puts ", len=";; kputdec (a1 f);;
  puts ") -> ";;
  ret ← (if (1 <? a0 f) || (a1 f <? 4) || (a2 f =? 0)
         then puts "-EINVAL";; mret (linux_errno LINUX_EINVAL)
         else modm (fun m => linux_store32 m (a2 f) 1);; kputdec 4;; mret 4);
  puts "\n";; mret ret.

Definition sys_sched_setaffinity (f : frame) : K Z :=
  puts "[riscv32] linux sched_setaffinity(pid=";; kputdec (a0 f);; puts ", len=";; kputdec (a1 f);;
  puts ") -> ";;
  m ← getP k_mem;
  ret ← (if (1 <? a0 f) || (a1 f <? 4) || (a2 f =? 0) || (linux_load32 m (a2 f) &! 1 =? 0)
         then puts "-EINVAL";; mret (linux_errno LINUX_EINVAL)
         else kputdec 0;; mret 0);
  puts "\n";; mret ret.

Definition sys_getcpu (f : frame) : K Z :=
  puts "[riscv32] linux getcpu(cpu=0x";; kputhex32 (a0 f);; puts ", node=0x";; kputhex32 (a1 f);;
  puts ") -> 0\n";;
  (if negb (a0 f =? 0) then modm (fun m => linux_store32 m (a0 f) 0) else mret tt);;
  (if negb (a1 f =? 0) then modm (fun m => linux_store32 m (a1 f) 0) else mret tt);;
  mret 0.

Definition sys_clock_getres (f : frame) : K Z :=
  puts "[riscv32] linux ";;
  puts (if a7 f =? 406 then cstr "clock_getres_time64" else cstr "clock_getres");;
  puts "(clock=";; kputdec (a0 f);; puts ", tp=0x";; kputhex32 (a1 f);; puts ") -> 0\n";;
  (if negb (a1 f =? 0) then
     modm (fun m =>
       let m := linux_store32 m (a1 f) 0 in
       let m := linux_store32 m (a1 f + 4) 0 in
       if a7 f =? 406
       then linux_store32 (linux_store32 m (a1 f + 8) 1) (a1 f + 12) 0
       else linux_store32 m (a1 f + 4) 1)
   else mret tt);;
  mret 0.

Definition sys_nanosleep (f : frame) : K Z :=
  puts "[riscv32] linux nanosleep(req=0x";; kputhex32 (a0 f);; puts ", rem=0x";; kputhex32 (a1 f);;
  puts ") -> 0\n";;
  (if negb (a1 f =? 0) then modm (fun m => linux_zero_user m (a1 f) 8) else mret tt);;
  mret 0.

Definition sys_clock_nanosleep (f : frame) : K Z :=
  puts "[riscv32] linux clock_nanosleep(clock=";; kputdec (a0 f);; puts ", req=0x";;
  kputhex32 (a2 f);; puts ", rem=0x";; kputhex32 (a3 f);; puts ") -> 0\n";;
  (if negb (a3 f =? 0) then modm (fun m => linux_zero_user m (a3 f) 8) else mret tt);;
  mret 0.

Definition sys_sched_yield (f : frame) : K Z :=
  puts "[riscv32] linux sched_yield() -> 0\n";; mret 0.

Definition sys_ppoll (f : frame) : K Z :=
  puts "[riscv32] linux ";; puts (if a7 f =? 414 then cstr "ppoll_time64" else cstr "ppoll");;
  puts "(fds=0x";; kputhex32 (a0 f);; puts ", nfds=";; kputdec (a1 f);; puts ") -> ";;
  ret ← (if (a0 f =? 0) && (a1 f =? 0) then kputdec 0;; mret 0
         else puts "-EINVAL";; mret (linux_errno LINUX_EINVAL));
  puts "\n";; mret ret.

Definition sys_getrusage (f : frame) : K Z :=
  puts "[riscv32] linux getrusage(who=";; kputdec (a0 f);; puts ", usage=0x";; kputhex32 (a1 f);;
  puts ") -> ";;
  ret ← (if a1 f =? 0 then puts "-EFAULT";; mret (linux_errno LINUX_EFAULT)
         else modm (fun m => linux_zero_user m (a1 f) 72);; kputdec 0;; mret 0);
  puts "\n";; mret ret.

Definition sys_times (f : frame) : K Z :=
  '(sec, nsec) ← linux_time_now timer;
  let ticks := sec *! 100 +! nsec / 10000000 in
  puts "[riscv32] linux times(tms=0x";; kputhex32 (a0 f);; puts ") -> ticks=";; kputdec ticks;;
  puts "\n";;
  (if negb (a0 f =? 0) then modm (fun m => linux_zero_user m (a0 f) 16) else mret tt);;
  mret ticks.

Definition sys_umask (f : frame) : K Z :=
  g ← getg;
  let old := umask g in
  modg (set_umask (a0 f &! 0x1ff));;
  puts "[riscv32] linux umask(mask=";; kputdec (a0 f &! 0x1ff);; puts ") -> ";; kputdec old;;
  puts "\n";; mret old.

Definition sys_brk (f : frame) : K Z :=
  puts "[riscv32] linux brk(0x";; kputhex32 (a0 f);; puts ") -> 0x";;
  kputhex32 XNU_STAGE0_LINUX_BRK;; puts "\n";; mret XNU_STAGE0_LINUX_BRK.

Definition sys_mmap (f : frame) : K Z :=
  let len := linux_page_align (a1 f) in
  puts "[riscv32] linux mmap(addr=0x";; kputhex32 (a0 f);; puts ", len=";; kputdec (a1 f);;
  puts ", prot=0x";; kputhex32 (a2 f);; puts ", flags=0x";; kputhex32 (a3 f);; puts ") -> ";;
  g ← getg;
  ret ← (if negb (len =? 0) && (len <=? XNU_STAGE0_MMAP_LIMIT -! mmap_next g) then
           let ret := mmap_next g in
           modg (set_mmap_next (mmap_next g +! len));;
           modm (fun m => linux_zero_user m ret len);;
           puts "0x";; kputhex32 ret;; mret ret
         else puts "-ENOMEM";; mret (linux_errno LINUX_ENOMEM));
  puts "\n";; mret ret.

Definition sys_mremap (f : frame) : K Z :=
  puts "[riscv32] linux mremap(old=0x";; kputhex32 (a0 f);; puts ", old_size=";; kputdec (a1 f);;
  puts ", new_size=";; kputdec (a2 f);; puts ") -> ";;
  ret ← (if negb (a1 f =? 0) && negb (linux_user_range (a0 f) (a1 f))
         then puts "-EFAULT";; mret (linux_errno LINUX_EFAULT)
         else if a2 f <=? a1 f then puts "0x";; kputhex32 (a0 f);; mret (a0 f)
         else puts "-ENOMEM";; mret (linux_errno LINUX_ENOMEM));
  puts "\n";; mret ret.

Definition sys_madvise (f : frame) : K Z :=
  puts "[riscv32] linux madvise(addr=0x";; kputhex32 (a0 f);; puts ", len=";; kputdec (a1 f);;
  puts ", advice=";; kputdec (a2 f);; puts ") -> ";;
  ret ← (if negb (a1 f =? 0) && negb (linux_user_range (a0 f) (a1 f))
         then puts "-EFAULT";; mret (linux_errno LINUX_EFAULT) else kputdec 0;; mret 0);
  puts "\n";; mret ret.

Definition sys_munmap_mprotect (f : frame) : K Z :=
  puts "[riscv32] linux ";; puts (if a7 f =? 215 then cstr "munmap" else cstr "mprotect");;
  puts "(addr=0x";; kputhex32 (a0 f);; puts ", len=";; kputdec (a1 f);; puts ") -> ";;
  ret ← (if negb (a1 f =? 0) && negb (linux_user_range (a0 f) (a1 f))
         then puts "-EFAULT";; mret (linux_errno LINUX_EFAULT) else kputdec 0;; mret 0);
  puts "\n";; mret ret.

Definition sys_uname (f : frame) : K Z :=
  puts "[riscv32] linux uname(buf=0x";; kputhex32 (a0 f);;
  puts ") -> Linux/caribeos-rv32/riscv32\n";;
  (if negb (a0 f =? 0) then modm (fun m => linux_fill_uname m (a0 f)) else mret tt);;
  mret 0.

Definition sys_getcwd (f : frame) : K Z :=
  m ← getP k_mem;
  let '(m, ret) := linux_copy_cstr_to_user m (a0 f) "/" (a1 f) true in
  modm (fun _ => m);;
  puts "[riscv32] linux getcwd(buf=0x";; kputhex32 (a0 f);; puts ", size=";; kputdec (a1 f);;
  puts ") -> ";;
  ret ← (if ret =? UINT32_MAX then puts "-ERANGE";; mret (linux_errno LINUX_ERANGE)
         else puts "\q/\q";; mret ret);
  puts "\n";; mret ret.

Definition sys_sysinfo (f : frame) : K Z :=
  puts "[riscv32] linux sysinfo(info=0x";; kputhex32 (a0 f);; puts ") -> ";;
  ret ← (if a0 f =? 0 then puts "-EFAULT";; mret (linux_errno LINUX_EFAULT)
         else linux_copyout_sysinfo timer (a0 f);; kputdec 0;; mret 0);
  puts "\n";; mret ret.

Definition sys_prlimit64 (f : frame) : K Z :=
  puts "[riscv32] linux prlimit64(pid=";; kputdec (a0 f);; puts ", resource=";; kputdec (a1 f);;
  puts ", old=0x";; kputhex32 (a3 f);; puts ") -> ";;
  ret ← (if negb (a2 f =? 0) then puts "-EINVAL";; mret (linux_errno LINUX_EINVAL)
         else
           let lim := if a1 f =? 3 then 8 * 1024 * 1024
                      else if a1 f =? 7 then 16 else UINT32_MAX in
           (if negb (a3 f =? 0) then modm (fun m => linux_copyout_rlimit64 m (a3 f) lim lim)
            else mret tt);;
           kputdec 0;; mret 0);
  puts "\n";; mret ret.

(** [if (addr != 0) linux_print_user_cstr(addr, 96u);] *)
Definition print_path (addr : Z) : K unit :=
  if negb (addr =? 0) then linux_print_user_cstr addr 96 else mret tt.

Definition print_dirfd (fd : Z) : K unit :=
  if fd =? LINUX_AT_FDCWD then puts "AT_FDCWD" else kputdec fd.

Definition sys_statfs64 (f : frame) : K Z :=
  puts "[riscv32] linux statfs64(path=\q";; print_path (a0 f);; puts "\q) -> ";;
  m ← getP k_mem;
  ret ← (if a1 f =? 0 then puts "-EFAULT";; mret (linux_errno LINUX_EFAULT)
         else if negb (a0 f =? 0) && linux_known_path m (a0 f)
         then modm (fun m => linux_copyout_statfs64 m (a1 f));; kputdec 0;; mret 0
         else puts "-ENOENT";; mret (linux_errno LINUX_ENOENT));
  puts "\n";; mret ret.

Definition sys_faccessat (f : frame) : K Z :=
  puts "[riscv32] linux faccessat(dirfd=";; print_dirfd (a0 f);; puts ", path=\q";;
  print_path (a1 f);; puts "\q) -> ";;
  m ← getP k_mem;
  ret ← (if negb (a1 f =? 0) && linux_known_path m (a1 f) then kputdec 0;; mret 0
         else puts "-ENOENT";; mret (linux_errno LINUX_ENOENT));
  puts "\n";; mret ret.

Definition sys_readlinkat (f : frame) : K Z :=
  puts "[riscv32] linux readlinkat(path=\q";; print_path (a1 f);; puts "\q, size=";;
  kputdec (a3 f);; puts ") -> ";;
  m ← getP k_mem;
  ret ← (if negb (a1 f =? 0) && linux_user_streq m (a1 f) "/proc/self/exe" then
           let '(m, ret) := linux_copy_cstr_to_user m (a2 f) "/kernel.elf" (a3 f) false in
           modm (fun _ => m);;
           if ret =? UINT32_MAX then puts "-ERANGE";; mret (linux_errno LINUX_ERANGE)
           else puts "\q/kernel.elf\q";; mret ret
         else puts "-ENOENT";; mret (linux_errno LINUX_ENOENT));
  puts "\n";; mret ret.

Definition sys_fstatat64 (f : frame) : K Z :=
  puts "[riscv32] linux fstatat64(dirfd=";; print_dirfd (a0 f);; puts ", path=\q";;
  print_path (a1 f);; puts "\q) -> ";;
  m ← getP k_mem; g ← getg;
  ret ← (if a2 f =? 0 then puts "-EFAULT";; mret (linux_errno LINUX_EFAULT)
         else match (if negb (a1 f =? 0) then linux_path_metadata m (kernel_size g) (a1 f) else None) with
         | Some (mode, size, ino) =>
             modm (fun m => linux_copyout_stat64 m (a2 f) mode size ino);; kputdec 0;; mret 0
         | None => puts "-ENOENT";; mret (linux_errno LINUX_ENOENT)
         end);
  puts "\n";; mret ret.

(** The metadata [statx] finds for a known path. *)
Definition statx_metadata (m : mem) (ksize addr : Z) : Z * Z * Z :=
  if linux_user_streq m addr "/" || linux_user_streq m addr "/proc" ||
     linux_user_streq m addr "/proc/self" then (LINUX_MODE_DIR, 0, 5)
  else if linux_user_streq m addr "/proc/self/exe" then (LINUX_MODE_LNK, 11, 7)
  else if linux_user_streq m addr "/proc/version" then
    (LINUX_MODE_REG, linux_strlen g_stage0_proc_version, 8)
  else if linux_user_streq m addr "/proc/cpuinfo" then
    (LINUX_MODE_REG, linux_strlen g_stage0_proc_cpuinfo, 9)
  else if linux_user_streq m addr "/proc/meminfo" then
    (LINUX_MODE_REG, linux_strlen g_stage0_proc_meminfo, 10)
  else if linux_user_streq m addr "/proc/uptime" then
    (LINUX_MODE_REG, linux_strlen g_stage0_proc_uptime, 12)
  else if linux_user_streq m addr "/proc/stat" then
    (LINUX_MODE_REG, linux_strlen g_stage0_proc_stat, 13)
  else if linux_user_streq m addr "/proc/caribeos" then
    (LINUX_MODE_REG, linux_strlen g_stage0_proc_caribeos, 11)
  else if linux_user_streq m addr "/kernel.elf" then (LINUX_MODE_REG, ksize, 17)
  else (LINUX_MODE_REG, 0, 8).

Definition sys_statx (f : frame) : K Z :=
  puts "[riscv32] linux statx(dirfd=";; print_dirfd (a0 f);; puts ", path=\q";;
  print_path (a1 f);; puts "\q, mask=0x";; kputhex32 (a3 f);; puts ") -> ";;
  m ← getP k_mem; g ← getg;
  ret ← (if negb (a1 f =? 0) && negb (a4 f =? 0) && linux_known_path m (a1 f) then
           let '(mode, size, ino) := statx_metadata m (kernel_size g) (a1 f) in
           modm (fun m => linux_copyout_statx m (a4 f) mode size ino);; kputdec 0;; mret 0
         else if a4 f =? 0 then puts "-EFAULT";; mret (linux_errno LINUX_EFAULT)
         else puts "-ENOENT";; mret (linux_errno LINUX_ENOENT));
  puts "\n";; mret ret.

Definition sys_clock_gettime (f : frame) : K Z :=
  '(sec, nsec) ← linux_time_now timer;
  puts "[riscv32] linux ";;
  puts (if a7 f =? 403 then cstr "clock_gettime64" else cstr "clock_gettime");;
  puts "(clock=";; kputdec (a0 f);; puts ", tp=0x";; kputhex32 (a1 f);; puts ") -> sec=";;
  kputdec sec;; puts " nsec=";; kputdec nsec;; puts "\n";;
  if negb (a1 f =? 0) then
    modm (fun m =>
      if a7 f =? 403 then
        linux_store32 (linux_store32 (linux_store32 (linux_store32 m (a1 f) sec)
          (a1 f + 4) 0) (a1 f + 8) nsec) (a1 f + 12) 0
      else linux_store32 (linux_store32 m (a1 f) sec) (a1 f + 4) nsec);;
    mret 0
  else mret (linux_errno LINUX_EFAULT).

Definition sys_gettimeofday (f : frame) : K Z :=
  '(sec, nsec) ← linux_time_now timer;
  puts "[riscv32] linux gettimeofday(tv=0x";; kputhex32 (a0 f);; puts ") -> sec=";; kputdec sec;;
  puts " usec=";; kputdec (nsec / 1000);; puts "\n";;
  (if negb (a0 f =? 0)
   then modm (fun m => linux_store32 (linux_store32 m (a0 f) sec) (a0 f + 4) (nsec / 1000))
   else mret tt);;
  (if negb (a1 f =? 0)
   then modm (fun m => linux_store32 (linux_store32 m (a1 f) 0) (a1 f + 4) 0) else mret tt);;
  mret 0.

(** The byte [i] of [getrandom]. *)
Definition random_byte (a2 i : Z) : Z := u8 (Z.lxor (Z.lxor 0xa5 (i *! 73)) a2).

Definition sys_getrandom (f : frame) : K Z :=
  let len := if 32 <? a1 f then 32 else a1 f in
  puts "[riscv32] linux getrandom(buf=0x";; kputhex32 (a0 f);; puts ", len=";; kputdec (a1 f);;
  puts ") -> ";;
  if a0 f =? 0 then puts "-EFAULT\n";; mret (linux_errno LINUX_EFAULT)
  else
    modm (fun m => write_bytes m (a0 f) (random_byte (a2 f) <$> seqZ 0 len));;
    kputdec len;; puts " deterministic bytes\n";; mret len.

(** The comparisons of [openat], in order. *)
Definition openat_file (m : mem) (addr : Z) : option Z :=
  if linux_user_streq m addr "/proc/version" then Some 1
  else if linux_user_streq m addr "/proc/cpuinfo" then Some 2
  else if linux_user_streq m addr "/proc/meminfo" then Some 3
  else if linux_user_streq m addr "/proc/uptime" then Some 5
  else if linux_user_streq m addr "/proc/stat" then Some 6
  else if linux_user_streq m addr "/proc/caribeos" then Some 4
  else None.

Definition sys_openat (f : frame) : K Z :=
  puts "[riscv32] linux openat(dirfd=";; print_dirfd (a0 f);; puts ", path=\q";;
  print_path (a1 f);; puts "\q) -> ";;
  m ← getP k_mem;
  ret ← (match (if negb (a1 f =? 0) then openat_file m (a1 f) else None) with
         | Some file => modg (set_proc 1 0 file);; mret XNU_STAGE0_PROC_FD
         | None =>
             if negb (a1 f =? 0) && linux_user_streq m (a1 f) "/proc"
             then modg (set_dir 1 0);; mret XNU_STAGE0_PROC_DIR_FD
             else mret 0xfffffffe
         end);
  (if ret &! 0x80000000 =? 0 then kputdec ret else puts "-ENOENT");;
  puts "\n";; mret ret.

(** The loop of [getdents64]; [fuel] is at least the entries left. *)
Fixpoint getdents_loop (fuel : nat) (buf count total : Z) : K Z :=
  g ← getg;
  match linux_proc_dir_entry (proc_dir_offset g) with
  | None => mret total
  | Some (name, ino, type) =>
      match fuel with
      | O => out_of_fuel
      | S fuel =>
          let reclen := linux_align8 (19 + linux_strlen name + 1) in
          if count -! total <? reclen then mret total
          else
            modm (fun m => (linux_copyout_dirent64 m (buf +! total) ino
              (proc_dir_offset g +! 1) type name).1);;
            puts "\n  [dirent] name=";; puts name;; puts " ino=";; kputdec ino;; puts " type=";;
            kputdec type;;
            modg (set_dir (proc_dir_open g) (proc_dir_offset g +! 1));;
            getdents_loop fuel buf count (total +! reclen)
      end
  end.

Definition sys_getdents64 (f : frame) : K Z :=
  puts "[riscv32] linux getdents64(fd=";; kputdec (a0 f);; puts ", count=";; kputdec (a2 f);;
  puts ")";;
  g ← getg;
  ret ← (if (a0 f =? XNU_STAGE0_PROC_DIR_FD) && negb (proc_dir_open g =? 0) && negb (a1 f =? 0)
         then getdents_loop 9 (a1 f) (a2 f) 0
         else if a1 f =? 0 then mret (linux_errno LINUX_EFAULT)
         else mret (linux_errno LINUX_EBADF));
  puts "\n[riscv32] linux getdents64 -> ";;
  (if ret &! 0x80000000 =? 0 then kputdec ret
   else if ret =? linux_errno LINUX_EFAULT then puts "-EFAULT" else puts "-EBADF");;
  puts "\n";; mret ret.

Definition sys_fstatfs64 (f : frame) : K Z :=
  puts "[riscv32] linux fstatfs64(fd=";; kputdec (a0 f);; puts ") -> ";;
  g ← getg;
  ret ← (if a1 f =? 0 then puts "-EFAULT";; mret (linux_errno LINUX_EFAULT)
         else if (a0 f <=? 2) ||
                 ((a0 f =? XNU_STAGE0_PROC_FD) && negb (proc_open g =? 0)) ||
                 ((a0 f =? XNU_STAGE0_PROC_DIR_FD) && negb (proc_dir_open g =? 0))
         then modm (fun m => linux_copyout_statfs64 m (a1 f));; kputdec 0;; mret 0
         else puts "-EBADF";; mret (linux_errno LINUX_EBADF));
  puts "\n";; mret ret.

(** The inode [fstat64] reports for an open file. *)
Definition fstat_ino (file : Z) : Z :=
  if file =? 4 then 11 else if file =? 3 then 10 else if file =? 5 then 12
  else if file =? 6 then 13 else if file =? 2 then 9 else 8.

Definition sys_fstat64 (f : frame) : K Z :=
  puts "[riscv32] linux fstat64(fd=";; kputdec (a0 f);; puts ") -> ";;
  g ← getg;
  ret ← (if a1 f =? 0 then puts "-EFAULT";; mret (linux_errno LINUX_EFAULT)
         else if (a0 f =? XNU_STAGE0_PROC_FD) && negb (proc_open g =? 0) then
           let size := linux_strlen (linux_proc_file_content (proc_file g)) in
           modm (fun m => linux_copyout_stat64 m (a1 f) LINUX_MODE_REG size (fstat_ino (proc_file g)));;
           kputdec 0;; mret 0
         else if (a0 f =? XNU_STAGE0_PROC_DIR_FD) && negb (proc_dir_open g =? 0) then
           modm (fun m => linux_copyout_stat64 m (a1 f) LINUX_MODE_DIR 0 5);; kputdec 0;; mret 0
         else puts "-EBADF";; mret (linux_errno LINUX_EBADF));
  puts "\n";; mret ret.

Definition sys_read (f : frame) : K Z :=
  puts "[riscv32] linux read(fd=";; kputdec (a0 f);; puts ", count=";; kputdec (a2 f);;
  puts ") -> ";;
  g ← getg;
  ret ← (if (a0 f =? XNU_STAGE0_PROC_FD) && negb (proc_open g =? 0) && negb (a1 f =? 0) then
           let content := linux_proc_file_content (proc_file g) in
           let size := linux_strlen content in
           let left := if proc_offset g <? size then size - proc_offset g else 0 in
           let n := if left <? a2 f then left else a2 f in
           modm (fun m => linux_copy_to_user m (a1 f)
             (take (Z.to_nat n) (drop (Z.to_nat (proc_offset g)) content)));;
           modg (set_proc (proc_open g) (proc_offset g +! n) (proc_file g));;
           mret n
         else mret 0xfffffff7);
  (if ret &! 0x80000000 =? 0 then kputdec ret else puts "-EBADF");;
  puts "\n";; mret ret.

Definition sys_close (f : frame) : K Z :=
  puts "[riscv32] linux close(fd=";; kputdec (a0 f);; puts ") -> ";;
  g ← getg;
  ret ← (if (a0 f =? XNU_STAGE0_PROC_FD) && negb (proc_open g =? 0)
         then modg (set_proc 0 0 0);; mret 0
         else if (a0 f =? XNU_STAGE0_PROC_DIR_FD) && negb (proc_dir_open g =? 0)
         then modg (set_dir 0 0);; mret 0
         else mret 0xfffffff7);
  (if ret &! 0x80000000 =? 0 then kputdec ret else puts "-EBADF");;
  puts "\n";; mret ret.

Definition sys_write (f : frame) : K Z :=
  modg (fun g => set_counts (umode_writes g +! 1) (umode_exits g) g);;
  puts "[riscv32] linux write(fd=";; kputdec (a0 f);; puts ", len=";; kputdec (a2 f);;
  puts ") -> ";; linux_print_user_buf (a1 f) (a2 f);; mret (a2 f).

(** The loop over the vectors of [writev]. *)
Fixpoint writev_loop (n : nat) (iov total : Z) : K Z :=
  match n with
  | O => mret total
  | S n =>
      m ← getP k_mem;
      let base := load32 m iov in
      let len := load32 m (iov + 4) in
      puts "  [iov] base=0x";; kputhex32 base;; puts " len=";; kputdec len;; puts " -> ";;
      linux_print_user_buf base len;;
      writev_loop n (iov + 8) (total +! len)
  end.

Definition sys_writev (f : frame) : K Z :=
  let count := if 4 <? a2 f then 4 else a2 f in
  modg (fun g => set_counts (umode_writes g +! 1) (umode_exits g) g);;
  puts "[riscv32] linux writev(fd=";; kputdec (a0 f);; puts ", iovcnt=";; kputdec (a2 f);;
  puts ")\n";; writev_loop (Z.to_nat count) (a1 f) 0.

Definition sys_exit (f : frame) : K unit :=
  modg (fun g => set_counts (umode_writes g) (umode_exits g +! 1) g);;
  puts "[riscv32] linux ";; puts (if a7 f =? 94 then cstr "exit_group" else cstr "exit");;
  puts "(status=";; kputdec (a0 f);; puts ") syscalls=";;
  g ← getg;
  kputdec (umode_syscalls g);; puts " writes=";; kputdec (umode_writes g);; puts "\n";;
  puts "[XNU-CaribeOS] kernel_bootstrap parked after umode proof\n";; halt.

Definition unexpected_trap (f : frame) : K unit :=
  puts "[riscv32] unexpected user trap scause=0x";; kputhex32 (scause f);; puts " sepc=0x";;
  kputhex32 (sepc f);; puts " stval=0x";; kputhex32 (stval f);; puts " syscall=";;
  kputdec (a7 f);; puts "\n";; halt.

(** ** Dispatch *)

(** The branch taken for a system-call number: the first [if] of the source whose
    condition names it. *)
Definition handler (nr : Z) : option (frame -> K Z) :=
  let one_of := existsb (Z.eqb nr) in
  if nr =? 172 then Some sys_getpid
  else if one_of [173; 178; 174; 175; 176; 177] then Some sys_getids
  else if nr =? 96 then Some sys_set_tid_address
  else if one_of [98; 422] then Some sys_futex
  else if nr =? 134 then Some sys_rt_sigaction
  else if nr =? 135 then Some sys_rt_sigprocmask
  else if nr =? 123 then Some sys_sched_getaffinity
  else if nr =? 122 then Some sys_sched_setaffinity
  else if nr =? 168 then Some sys_getcpu
  else if one_of [114; 406] then Some sys_clock_getres
  else if nr =? 101 then Some sys_nanosleep
  else if nr =? 115 then Some sys_clock_nanosleep
  else if nr =? 124 then Some sys_sched_yield
  else if one_of [73; 414] then Some sys_ppoll
  else if nr =? 165 then Some sys_getrusage
  else if nr =? 153 then Some sys_times
  else if nr =? 166 then Some sys_umask
  else if nr =? 214 then Some sys_brk
  else if nr =? 222 then Some sys_mmap
  else if nr =? 216 then Some sys_mremap
  else if nr =? 233 then Some sys_madvise
  else if one_of [215; 226] then Some sys_munmap_mprotect
  else if nr =? 160 then Some sys_uname
  else if nr =? 17 then Some sys_getcwd
  else if nr =? 179 then Some sys_sysinfo
  else if nr =? 261 then Some sys_prlimit64
  else if nr =? 43 then Some sys_statfs64
  else if nr =? 48 then Some sys_faccessat
  else if nr =? 78 then Some sys_readlinkat
  else if nr =? 79 then Some sys_fstatat64
  else if nr =? 291 then Some sys_statx
  else if one_of [113; 403] then Some sys_clock_gettime
  else if nr =? 169 then Some sys_gettimeofday
  else if nr =? 278 then Some sys_getrandom
  else if nr =? 56 then Some sys_openat
  else if nr =? 61 then Some sys_getdents64
  else if nr =? 44 then Some sys_fstatfs64
  else if nr =? 80 then Some sys_fstat64
  else if nr =? 63 then Some sys_read
  else if nr =? 57 then Some sys_close
  else if nr =? 64 then Some sys_write
  else if nr =? 66 then Some sys_writev
  else None.

(** [xnu_stage0_user_trap_dispatch(frame)] *)
Definition xnu_stage0_user_trap_dispatch : K unit :=
  f ← getf;
  modg (fun g => set_last (scause f) (sepc f) (stval f) (count_syscall (a7 f) g));;
  if negb (scause f =? SCAUSE_ECALL_U) then unexpected_trap f
  else match handler (a7 f) with
  | Some h => ret ← h f; sysret ret
  | None => if (a7 f =? 93) || (a7 f =? 94) then sys_exit f else unexpected_trap f
  end.

End Handlers.

(** The resets of [stage0_umode_linux_smoke] before user mode is entered. *)
Definition umode_reset (g : globals) : globals :=
  Globals (timer_ticks g) (trap_unhandled g) (last_scause g) (last_sepc g) (last_stval g)
    (timer_delta g) 0 0 0 0 0 0 0 0 0 XNU_STAGE0_MMAP_BASE (umask g) (timebase_hz g) (kernel_size g).

End Syscalls.
