(* ===== verification/SyscallSpec.v ===== *)
(** Properties of every system call (src/kernel_xnu_entry.c): what the dispatcher
    does to the trap frame, the invariant of the globals that every handler keeps,
    and mmap.  The runs of the machine are in KernelRun.v. *)

From S2P Require Import Prelude Print Kernel Syscalls.

Module SyscallSpec.

Import Print Kernel Syscalls.

Local Open Scope c_scope.

(** ** Timer *)

(** The time read is the value of the counter at a moment of the reading, and
    two rounds are always enough. *)
Lemma csr_read_time_value timer k :
  slow timer ->
  returns (csr_read_time timer) k (fun t k' =>
    exists n, (k_clk k <= n < k_clk k')%nat /\ t = timer n /\ k' = set_clk (k_clk k') k).
Proof.
  intros Hs. unfold csr_read_time. set (n := k_clk k). cbn [csr_read_time_loop].
  unfold returns, csrr_time, mbind, PST_bind, getP, modifyP, mret, PST_ret.
  cbn [set_clk k_clk]. fold n. fold (high (timer n)) (high (timer (S (S n)))).
  destruct (Z.eqb_spec (high (timer n)) (high (timer (S (S n))))) as [Heq|Hne]; cbn [negb].
  { exists (S n). cbn [set_clk k_clk]. split; [lia|]. split; [|done]. by apply read_consistent. }
  cbn [set_clk k_clk].
  pose proof (second_round timer n Hs Hne) as Heq.
  simpl in Heq. fold (high (timer (S (S (S n))))) (high (timer (S (S (S (S (S n))))))).
  rewrite Heq, Z.eqb_refl. cbn [negb]. exists (4 + n)%nat. cbn [set_clk k_clk].
  split; [lia|]. split; [|done]. rewrite <- Heq. apply (read_consistent timer (3 + n) Hs). done.
Qed.

(** ** Predicates that printing and reading the clock keep *)

(** A predicate of the frame, the globals, the memory and the halt flag. *)
Definition on (Q : frame -> globals -> mem -> bool -> Prop) (k : kstate) : Prop :=
  Q (k_frame k) (k_glob k) (k_mem k) (k_halted k).

Section Ends.
Context (Q : frame -> globals -> mem -> bool -> Prop).

Lemma ends_puts t : ends (on Q) (puts t).
Proof. by apply ends_modify. Qed.

Lemma ends_modm f :
  (forall fr g m h, Q fr g m h -> Q fr g (f m) h) -> ends (on Q) (modm f).
Proof. intros Hf. apply ends_modify. intros k Hk. by apply Hf. Qed.

Lemma ends_modg f :
  (forall fr g m h, Q fr g m h -> Q fr (f g) m h) -> ends (on Q) (modg f).
Proof. intros Hf. apply ends_modify. intros k Hk. by apply Hf. Qed.

Lemma ends_print_buf addr len : ends (on Q) (linux_print_user_buf addr len).
Proof. unfold linux_print_user_buf. apply ends_get. intros k _. apply ends_puts. Qed.

Lemma ends_print_cstr addr len : ends (on Q) (linux_print_user_cstr addr len).
Proof. unfold linux_print_user_cstr. apply ends_get. intros k _. apply ends_puts. Qed.

Lemma ends_print_path addr : ends (on Q) (print_path addr).
Proof. unfold print_path. apply ends_if; [apply ends_print_cstr | apply ends_ret]. Qed.

Lemma ends_print_dirfd fd : ends (on Q) (print_dirfd fd).
Proof. unfold print_dirfd. apply ends_if; apply ends_puts. Qed.

Lemma ends_writev n : forall iov total, ends (on Q) (writev_loop n iov total).
Proof.
  induction n as [|n IH]; intros iov total; cbn [writev_loop]; [apply ends_ret|].
  apply ends_get. intros k _. unfold kputhex32, kputdec.
  do 5 (apply ends_bind; [apply ends_puts | intros _]).
  apply ends_bind; [apply ends_print_buf | intros _]. apply IH.
Qed.

Context (timer : nat -> Z) (Hslow : slow timer).

Lemma ends_read_time : ends (on Q) (csr_read_time timer).
Proof.
  intros k Hk. eapply returns_mono; [by apply csr_read_time_value|].
  by intros t k' (n & _ & _ & ->).
Qed.

Lemma ends_time_now : ends (on Q) (linux_time_now timer).
Proof.
  unfold linux_time_now. apply ends_get. intros k _.
  apply ends_bind; [apply ends_read_time | intros t; apply ends_ret].
Qed.

End Ends.

(** Walks through a handler; the updates of the memory and of the globals are
    left to [tac]. *)
Ltac ends_walk tac :=
  repeat lazymatch goal with
  | |- ends _ (mret _) => apply ends_ret
  | |- ends _ (puts _) => apply ends_puts
  | |- ends _ (kputdec _) => apply ends_puts
  | |- ends _ (kputhex32 _) => apply ends_puts
  | |- ends _ (print_path _) => apply ends_print_path
  | |- ends _ (print_dirfd _) => apply ends_print_dirfd
  | |- ends _ (linux_print_user_buf _ _) => apply ends_print_buf
  | |- ends _ (writev_loop _ _ _) => apply ends_writev
  | |- ends _ (linux_time_now _) => apply ends_time_now; assumption
  | |- ends _ (mbind _ (getP _)) => apply ends_get; intros ? ?
  | |- ends _ (mbind _ getg) => apply ends_get; intros ? ?
  | |- ends _ (mbind _ _) => apply ends_bind; [|intros ?]
  | |- ends _ (modm _) => apply ends_modm; solve [tac]
  | |- ends _ (modg _) => apply ends_modg; solve [tac]
  | |- ends _ (match ?x with _ => _ end) => destruct x eqn:?
  | |- ends _ (let '_ := ?x in _) => destruct x eqn:?
  end.

Create HintDb handlers.

#[export] Hint Unfold sys_getpid sys_getids sys_set_tid_address sys_futex sys_rt_sigaction
  sys_rt_sigprocmask sys_sched_getaffinity sys_sched_setaffinity sys_getcpu sys_clock_getres
  sys_nanosleep sys_clock_nanosleep sys_sched_yield sys_ppoll sys_getrusage sys_times sys_umask
  sys_brk sys_mmap sys_mremap sys_madvise sys_munmap_mprotect sys_uname sys_getcwd sys_sysinfo
  linux_copyout_sysinfo sys_prlimit64 sys_statfs64 sys_faccessat sys_readlinkat sys_fstatat64
  sys_statx sys_clock_gettime sys_gettimeofday sys_getrandom sys_openat sys_fstatfs64 sys_fstat64
  sys_read sys_close sys_write sys_writev : handlers.

(** Splits on the handler chosen, named in [H]. *)
Ltac each_handler H :=
  unfold handler in H;
  repeat (match type of H with (if ?b then _ else _) = _ => destruct b eqn:? end;
          [injection H as <-|]); [.. | discriminate H].

Lemma proc_dir_entry_index i e : linux_proc_dir_entry i = Some e -> 0 <= i <= 8.
Proof. unfold linux_proc_dir_entry. repeat (case_if; zbool; [lia|]). done. Qed.

(** The loop of [getdents64] ends: there are nine entries. *)
Lemma getdents_loop_ends (Q : frame -> globals -> mem -> bool -> Prop) buf count :
  (forall fr g m h m', Q fr g m h -> Q fr g m' h) ->
  (forall fr g m h, Q fr g m h -> proc_dir_open g <> 0 -> 0 <= proc_dir_offset g <= 8 ->
     Q fr (set_dir (proc_dir_open g) (proc_dir_offset g +! 1) g) m h) ->
  forall fuel total k, on Q k -> proc_dir_open (k_glob k) <> 0 ->
    9 - Z.of_nat fuel <= proc_dir_offset (k_glob k) \/ proc_dir_offset (k_glob k) < 0 ->
    returns (getdents_loop fuel buf count total) k (fun _ k' => on Q k').
Proof.
  intros Hm Hd. induction fuel as [|fuel IH]; intros total k Hk Ho Hf; cbn [getdents_loop];
    apply returns_get; destruct (linux_proc_dir_entry _) as [[[name ino] type]|] eqn:He; try done.
  all: apply proc_dir_entry_index in He.
  { simpl in Hf. lia. }
  case_if; [done|]. apply returns_modify. do 6 (apply returns_modify). apply returns_modify.
  cbn [set_kmem set_glob add_out k_glob k_frame k_mem k_halted].
  apply IH; unfold on in *; cbn [set_kmem set_glob add_out k_glob k_frame k_mem k_halted].
  - apply Hd; [by eapply Hm | done | done].
  - done.
  - left. cbn [proc_dir_offset set_dir]. rewrite u32_small by mlia. lia.
Qed.

(** Executes code without loops. *)
Ltac run_code :=
  lazy [returns mbind PST_bind modifyP mret PST_ret getP getg puts modm modg kputdec kputhex32 halt].

Section Frames.
Context (timer : nat -> Z) (Hslow : slow timer).

(** A predicate that does not look at the memory, across any handler. *)
Lemma getdents_ends (Q : frame -> globals -> mem -> bool -> Prop) f :
  (forall fr g m h m', Q fr g m h -> Q fr g m' h) ->
  (forall fr g m h, Q fr g m h -> proc_dir_open g <> 0 -> 0 <= proc_dir_offset g <= 8 ->
     Q fr (set_dir (proc_dir_open g) (proc_dir_offset g +! 1) g) m h) ->
  ends (on Q) (sys_getdents64 f).
Proof.
  intros Hm Hd. set (Q' d := fun fr g m h => Q fr g m h /\ proc_dir_open g = d).
  assert (forall d, ends (on (Q' d)) (sys_getdents64 f)) as Hall.
  { intros d. unfold sys_getdents64. ends_walk ltac:(fail).
    intros k [Hk Hdk]. apply getdents_loop_ends; [| | done | | lia].
    - intros fr g m h m' [HQ Hg]. split; [by eapply Hm | done].
    - intros fr g m h [HQ Hg] Ho Hoff. split; [by apply Hd | done].
    - match goal with Hs : on (Q' d) ?s, Hc : _ && _ = true |- _ =>
        destruct Hs as [_ Hsd]; rewrite !andb_true_iff, !negb_true_iff, !Z.eqb_neq in Hc; revert Hc end.
      rewrite Hdk. intros Hc Hd0. rewrite Hd0 in Hsd. tauto. }
  intros k Hk. eapply returns_mono; [by apply (Hall (proc_dir_open (k_glob k)))|].
  by intros ret k' [Hk' _].
Qed.

(** The frame, the halt flag and the counters of the dispatcher. *)
Definition in_frame (f : frame) (n : Z) (fr : frame) (g : globals) (m : mem) (h : bool) : Prop :=
  fr = f /\ h = false /\ umode_syscalls g = n /\ umode_last_syscall g = a7 f /\
  last_scause g = scause f /\ last_sepc g = sepc f /\ last_stval g = stval f.

Lemma handler_frame f n nr h :
  handler timer nr = Some h -> ends (on (in_frame f n)) (h f).
Proof.
  intros H. each_handler H.
  all: lazymatch goal with
       | |- ends _ (sys_getdents64 _) => apply getdents_ends; by intros
       | _ => autounfold with handlers; ends_walk ltac:(by intros)
       end.
Qed.

Lemma handler_returns f n nr h k :
  handler timer nr = Some h -> on (in_frame f n) k ->
  returns (h f) k (fun _ k' => on (in_frame f n) k').
Proof. intros H Hk. by apply (handler_frame f n nr). Qed.

(** Entering the dispatcher. *)
Definition entered (k : kstate) : kstate :=
  let f := k_frame k in
  set_glob (set_last (scause f) (sepc f) (stval f) (count_syscall (a7 f) (k_glob k))) k.

(** The frame after a system call: the registers the trap vector reloads, and the
    [sepc] it returns to. *)
Definition returned (f : frame) (ret : Z) : frame :=
  Frame ret (a1 f) (a2 f) (a3 f) (a4 f) (a7 f) (sepc f +! 4) (scause f) (stval f) (regs f).

Lemma dispatch_handled k h (Q : unit -> kstate -> Prop) :
  scause (k_frame k) = SCAUSE_ECALL_U -> handler timer (a7 (k_frame k)) = Some h ->
  returns (h (k_frame k)) (entered k)
    (fun ret k' => Q tt (set_frame (returned (k_frame k') ret) k')) ->
  returns (xnu_stage0_user_trap_dispatch timer) k Q.
Proof.
  intros Hc Hh HQ. unfold xnu_stage0_user_trap_dispatch. apply returns_get, returns_modify.
  rewrite (proj2 (Z.eqb_eq _ _) Hc). cbn [negb]. rewrite Hh. eapply returns_bind; [exact HQ|].
  intros ret k' Hk'. exact Hk'.
Qed.

Lemma unexpected_trap_halts f k :
  returns (unexpected_trap f) k (fun _ k' =>
    k_halted k' = true /\ k_frame k' = k_frame k /\ k_mem k' = k_mem k).
Proof. unfold unexpected_trap, kputhex32, kputdec. do 9 apply returns_modify. by cbn. Qed.

Lemma sys_exit_halts f k :
  returns (sys_exit f) k (fun _ k' =>
    k_halted k' = true /\ k_frame k' = k_frame k /\ k_mem k' = k_mem k).
Proof.
  unfold sys_exit, kputdec. do 6 apply returns_modify. apply returns_get.
  do 5 apply returns_modify. by cbn.
Qed.

(** The trap frame across the dispatcher.  A system call the kernel implements
    leaves the frame as it was but for a0 and a [sepc] past the ecall; exit, an
    unknown system call and any other trap stop the hart with the frame and the
    memory as they were.  The counters record the call. *)
Theorem user_trap_dispatch_frame (k : kstate) (Hrun : k_halted k = false) :
  let f := k_frame k in
  returns (xnu_stage0_user_trap_dispatch timer) k (fun _ k' =>
    match (if scause f =? SCAUSE_ECALL_U then handler timer (a7 f) else None) with
    | Some _ =>
        (exists ret, k_frame k' = returned f ret) /\ k_halted k' = false /\
        umode_syscalls (k_glob k') = umode_syscalls (k_glob k) +! 1 /\
        umode_last_syscall (k_glob k') = a7 f /\ last_sepc (k_glob k') = sepc f
    | None => k_halted k' = true /\ k_frame k' = f /\ k_mem k' = k_mem k
    end).
Proof.
  intros f. destruct (Z.eqb_spec (scause f) SCAUSE_ECALL_U) as [Hc|Hc].
  - destruct (handler timer (a7 f)) as [h|] eqn:Hh.
    + apply (dispatch_handled k h); [done | done|]. eapply returns_mono.
      * apply (handler_returns f (umode_syscalls (k_glob k) +! 1) _ h _ Hh). by split_and!.
      * intros ret k' (Hf & Hh' & Hn & Hl & _ & Hp & _). split_and!; try done.
        exists ret. cbn [set_frame k_frame]. by rewrite Hf.
    + unfold xnu_stage0_user_trap_dispatch. apply returns_get, returns_modify. fold f.
      rewrite (proj2 (Z.eqb_eq _ _) Hc). cbn [negb]. rewrite Hh.
      case_if; [exact (sys_exit_halts f (entered k)) | exact (unexpected_trap_halts f (entered k))].
  - unfold xnu_stage0_user_trap_dispatch. apply returns_get, returns_modify. fold f.
    rewrite (proj2 (Z.eqb_neq _ _)) by done. exact (unexpected_trap_halts f (entered k)).
Qed.

(** ** The invariant of the system-call layer *)

(** The file descriptor: closed, or open on one of the six files with a cursor
    inside its contents. *)
Definition fd_inv (g : globals) : Prop :=
  proc_open g = 0 /\ proc_offset g = 0 /\ proc_file g = 0 \/
  proc_open g = 1 /\ 1 <= proc_file g <= 6 /\
  0 <= proc_offset g <= linux_strlen (linux_proc_file_content (proc_file g)).

Definition dir_inv (g : globals) : Prop :=
  proc_dir_open g = 0 /\ proc_dir_offset g = 0 \/
  proc_dir_open g = 1 /\ 0 <= proc_dir_offset g <= 9.

Definition mmap_inv (g : globals) : Prop :=
  XNU_STAGE0_MMAP_BASE <= mmap_next g <= XNU_STAGE0_MMAP_LIMIT /\ mmap_next g mod 4096 = 0.

Definition ginv (g : globals) : Prop :=
  fd_inv g /\ dir_inv g /\ mmap_inv g /\ 0 <= umask g <= 0x1ff.

Definition frame_ok (f : frame) : Prop :=
  Forall is_u32 [a0 f; a1 f; a2 f; a3 f; a4 f; a7 f; sepc f].

Definition onG (P : globals -> Prop) : kstate -> Prop := on (fun _ g _ _ => P g).

Lemma openat_file_range m addr file : openat_file m addr = Some file -> 1 <= file <= 6.
Proof. unfold openat_file. repeat (case_if; [intros [= <-]; lia|]). done. Qed.

Lemma proc_content_short file : linux_strlen (linux_proc_file_content file) < 1000.
Proof. unfold linux_proc_file_content. repeat (case_if; [by vm_compute|]). by vm_compute. Qed.

Lemma page_align_eq v : is_u32 v -> v <= 4294963200 ->
  linux_page_align v mod 4096 = 0 /\ v <= linux_page_align v < v + 4096.
Proof.
  intros Hv Hle. unfold linux_page_align. change 4095 with (Z.ones 12).
  rewrite land_not32_ones by (apply u32_range || lia). change (2 ^ 12) with 4096. mlia.
Qed.

Lemma page_align_range v : linux_page_align v mod 4096 = 0 /\ is_u32 (linux_page_align v).
Proof.
  unfold linux_page_align. change 4095 with (Z.ones 12).
  rewrite land_not32_ones by (apply u32_range || lia). change (2 ^ 12) with 4096. mlia.
Qed.

Lemma getdents_ginv f : ends (onG ginv) (sys_getdents64 f).
Proof.
  apply getdents_ends; [done|]. intros _ g _ _ (Hfd & Hdir & Hrest) Ho Hoff.
  split; [exact Hfd|]. split; [|exact Hrest]. right. cbn [set_dir proc_dir_open proc_dir_offset].
  destruct Hdir as [[H1 H2] | [H1 H2]]; [done|]. rewrite u32_small by mlia. lia.
Qed.

Lemma frame_u32 f : frame_ok f ->
  is_u32 (a0 f) /\ is_u32 (a1 f) /\ is_u32 (a2 f) /\ is_u32 (a3 f) /\ is_u32 (a4 f) /\ is_u32 (a7 f) /\ is_u32 (sepc f).
Proof. unfold frame_ok. rewrite !Forall_cons. tauto. Qed.

Lemma read_ginv f : frame_ok f -> ends (onG ginv) (sys_read f).
Proof.
  intros (_ & _ & Ha2 & _)%frame_u32. unfold sys_read. ends_walk ltac:(by intros).
  apply ends_modg. intros _ g _ _ (_ & Hdir & Hrest).
  match goal with Hs : onG ginv ?s |- _ => destruct Hs as (Hfd & _); set (g0 := k_glob s) in * end.
  split; [|by split]. right. cbn [set_proc proc_open proc_offset proc_file].
  destruct Hfd as [(H1 & _ & _) | (H1 & H2 & H3)].
  { rewrite !andb_true_iff, negb_true_iff, Z.eqb_neq in *. tauto. }
  pose proof (proc_content_short (proc_file g0)) as Hshort. split; [done|]. split; [done|].
  set (size := linux_strlen _) in *.
  assert ((if proc_offset g0 <? size then size - proc_offset g0 else 0) = size - proc_offset g0)
    as -> by zcases.
  set (n := if _ <? a2 f then _ else _).
  assert (0 <= n <= size - proc_offset g0) by (unfold n; case_if; zbool; mlia).
  rewrite u32_small by mlia. lia.
Qed.

Lemma mmap_ginv f : ends (onG ginv) (sys_mmap f).
Proof.
  unfold sys_mmap. ends_walk ltac:(by intros). apply ends_modg. intros _ g _ _ (Hfd & Hdir & _ & Hu).
  match goal with Hs : onG ginv ?s |- _ => destruct Hs as (_ & _ & [Hr Hal] & _); set (g0 := k_glob s) in * end.
  pose proof (page_align_range (a1 f)) as [Hpa Hpr]. set (len := linux_page_align (a1 f)) in *.
  split; [done|]. split; [done|]. split; [|done]. unfold mmap_inv. cbn [set_mmap_next mmap_next].
  unfold XNU_STAGE0_MMAP_BASE, XNU_STAGE0_MMAP_LIMIT in *.
  rewrite andb_true_iff, Z.leb_le in *. mlia.
Qed.

(** Every handler keeps the invariant. *)
Lemma handler_ginv f nr h :
  frame_ok f -> handler timer nr = Some h -> ends (onG ginv) (h f).
Proof.
  intros Hf H. each_handler H.
  all: lazymatch goal with
       | |- ends _ (sys_getdents64 _) => apply getdents_ginv
       | |- ends _ (sys_read _) => by apply read_ginv
       | |- ends _ (sys_mmap _) => apply mmap_ginv
       | _ => autounfold with handlers; ends_walk ltac:(by intros)
       end.
  all: apply ends_modg; intros _ g _ _ (Hfd & Hdir & Hmm & Hu);
    (split; [|split; [|split]]); try done.
  - cbn [set_umask umask]. change 0x1ff with (Z.ones 9). rewrite Z.land_ones by lia.
    change (Z.ones 9) with (2 ^ 9 - 1). pose proof (Z.mod_pos_bound (a0 f) (2 ^ 9)). lia.
  - right. cbn [set_proc proc_open proc_offset proc_file].
    match goal with Ho : (if _ then _ else _) = Some ?z |- _ =>
      destruct (negb _) in Ho; [apply openat_file_range in Ho | done] end.
    unfold linux_strlen. lia.
  - right. cbn. lia.
  - by left.
  - by left.
Qed.

Lemma dispatch_ginv k :
  frame_ok (k_frame k) -> ginv (k_glob k) ->
  returns (xnu_stage0_user_trap_dispatch timer) k (fun _ k' => ginv (k_glob k')).
Proof.
  intros Hf Hg. assert (ends (onG ginv) (sys_exit (k_frame k))) as Hexit.
  { unfold sys_exit, kputdec. intros k' Hk'. do 6 apply returns_modify. apply returns_get.
    do 5 apply returns_modify. by cbn. }
  assert (ends (onG ginv) (unexpected_trap (k_frame k))) as Htrap.
  { unfold unexpected_trap, kputhex32, kputdec. intros k' Hk'. do 9 apply returns_modify. by cbn. }
  unfold xnu_stage0_user_trap_dispatch. apply returns_get, returns_modify.
  case_if; [by apply Htrap|]. destruct (handler timer (a7 (k_frame k))) as [h|] eqn:Hh.
  - eapply returns_bind; [by apply (handler_ginv _ _ h Hf Hh)|]. by intros ret k' Hk'.
  - case_if; [by apply Hexit | by apply Htrap].
Qed.

Lemma umode_reset_ginv g : 0 <= umask g <= 0x1ff -> ginv (umode_reset g).
Proof. intros Hu. (split; [|split; [|split]]); try done; by left. Qed.

(** ** The mmap area *)

(** The bytes an mmap of [f] takes. *)
Definition mmap_len (f : frame) : Z := linux_page_align (a1 f).

Definition mmap_fits (f : frame) (g : globals) : bool :=
  negb (mmap_len f =? 0) && (mmap_len f <=? XNU_STAGE0_MMAP_LIMIT -! mmap_next g).

Lemma sys_mmap_result f k :
  returns (sys_mmap f) k (fun ret k' =>
    k_frame k' = k_frame k /\
    if mmap_fits f (k_glob k) then
      ret = mmap_next (k_glob k) /\
      mmap_next (k_glob k') = mmap_next (k_glob k) +! mmap_len f /\
      k_mem k' = linux_zero_user (k_mem k) ret (mmap_len f)
    else ret = linux_errno LINUX_ENOMEM /\ k_glob k' = k_glob k /\ k_mem k' = k_mem k).
Proof.
  unfold sys_mmap, kputhex32, kputdec. do 9 apply returns_modify. apply returns_get.
  fold (mmap_len f). cbn [add_out k_glob]. fold (mmap_fits f (k_glob k)).
  destruct (mmap_fits f (k_glob k)); run_code; by split_and!.
Qed.

Lemma handler_mmap_next f nr h v :
  handler timer nr = Some h -> nr <> 222 -> ends (onG (fun g => mmap_next g = v)) (h f).
Proof.
  intros H Hnr. each_handler H.
  all: lazymatch goal with
       | |- ends _ (sys_getdents64 _) => apply getdents_ends; by intros
       | |- ends _ (sys_mmap _) => zbool; done
       | _ => autounfold with handlers; ends_walk ltac:(by intros)
       end.
Qed.

(** The block a trap hands to the user, if it is a successful mmap. *)
Definition mmap_block (k : kstate) : list (Z * Z) :=
  let f := k_frame k in
  if (scause f =? SCAUSE_ECALL_U) && (a7 f =? 222) && mmap_fits f (k_glob k)
  then [(mmap_next (k_glob k), mmap_len f)] else [].

Lemma dispatch_mmap_block k :
  k_halted k = false ->
  returns (xnu_stage0_user_trap_dispatch timer) k (fun _ k' =>
    match mmap_block k with
    | [] => mmap_next (k_glob k') = mmap_next (k_glob k)
    | (a, n) :: _ => a0 (k_frame k') = a /\ mmap_next (k_glob k') = a +! n /\
                     k_mem k' = linux_zero_user (k_mem k) a n
    end).
Proof.
  intros Hr. unfold mmap_block. set (f := k_frame k).
  destruct (Z.eqb_spec (scause f) SCAUSE_ECALL_U) as [Hc|Hc].
  - destruct (Z.eqb_spec (a7 f) 222) as [Hn|Hn]; cbn [andb].
    + apply (dispatch_handled k sys_mmap); [done | by fold f; rewrite Hn|]. fold f.
      eapply returns_mono; [apply sys_mmap_result|]. intros ret k' [Hf Hk].
      change (mmap_fits f (k_glob (entered k))) with (mmap_fits f (k_glob k)) in Hk.
      cbn [set_frame k_glob k_frame k_mem returned a0].
      destruct (mmap_fits f (k_glob k)); destruct Hk as (-> & Hg & Hm); [done | by rewrite Hg].
    + destruct (handler timer (a7 f)) as [h|] eqn:Hh.
      * apply (dispatch_handled k h); [done | done|]. fold f.
        eapply returns_mono; [by apply (handler_mmap_next f (a7 f) h (mmap_next (k_glob k)) Hh Hn (entered k))|].
        by intros ret k' Hk'.
      * unfold xnu_stage0_user_trap_dispatch. apply returns_get, returns_modify. fold f.
        rewrite (proj2 (Z.eqb_eq _ _) Hc). cbn [negb]. rewrite Hh.
        case_if; unfold sys_exit, unexpected_trap; by run_code.
  - cbn [andb]. unfold xnu_stage0_user_trap_dispatch. apply returns_get, returns_modify. fold f.
    rewrite (proj2 (Z.eqb_neq _ _)) by done. unfold unexpected_trap. by run_code.
Qed.

Lemma mmap_block_next k a n :
  mmap_inv (k_glob k) -> mmap_block k = [(a, n)] ->
  a = mmap_next (k_glob k) /\ 0 < n /\ n mod 4096 = 0 /\ a + n <= XNU_STAGE0_MMAP_LIMIT.
Proof.
  intros [Hr Hal]. unfold mmap_block, mmap_fits. case_if; [|done]. intros [= <- <-].
  pose proof (page_align_range (a1 (k_frame k))) as [Hpa Hpr]. fold (mmap_len (k_frame k)) in *.
  zbool. unfold XNU_STAGE0_MMAP_LIMIT, XNU_STAGE0_MMAP_BASE in *. mlia.
Qed.

(** A successful mmap returns the break, moves it past the block and zeroes
    the block and nothing else; a request that does not fit changes nothing but
    a0. *)
Theorem mmap_zeroes (k : kstate)
    (Hrun : k_halted k = false) (Hg : ginv (k_glob k))
    (Hcall : scause (k_frame k) = SCAUSE_ECALL_U /\ a7 (k_frame k) = 222) :
  let f := k_frame k in
  let a := mmap_next (k_glob k) in
  let n := mmap_len f in
  returns (xnu_stage0_user_trap_dispatch timer) k (fun _ k' =>
    if mmap_fits f (k_glob k) then
      a0 (k_frame k') = a /\ mmap_next (k_glob k') = a + n /\
      forall x, k_mem k' x = if (a <=? x) && (x <? a + n) then 0 else k_mem k x
    else
      a0 (k_frame k') = linux_errno LINUX_ENOMEM /\
      mmap_next (k_glob k') = a /\ k_mem k' = k_mem k).
Proof.
  intros f a n. destruct Hcall as [Hc Hn].
  apply (dispatch_handled k sys_mmap); [done | by rewrite Hn|]. fold f.
  eapply returns_mono; [apply sys_mmap_result|]. intros ret k' [Hf Hk].
  change (mmap_fits f (k_glob (entered k))) with (mmap_fits f (k_glob k)) in Hk.
  cbn [set_frame k_glob k_frame k_mem returned a0].
  destruct (mmap_fits f (k_glob k)) eqn:Hfit; [|by destruct Hk as (-> & -> & ->)].
  destruct Hk as (-> & -> & ->). change (k_mem (entered k)) with (k_mem k).
  change (mmap_next (k_glob (entered k))) with a. fold n.
  assert (mmap_block k = [(a, n)]) as Hblk.
  { unfold mmap_block. rewrite Hc, Hn. fold f. by rewrite Hfit. }
  destruct Hg as (_ & _ & Hmm & _).
  destruct (mmap_block_next k a n Hmm Hblk) as (_ & Hpos & _ & Hlim). destruct Hmm as [Hr _].
  fold a in Hr. unfold XNU_STAGE0_MMAP_BASE, XNU_STAGE0_MMAP_LIMIT in *.
  split; [done|]. split; [apply u32_small; mlia|]. intros x. unfold linux_zero_user.
  rewrite zero_loop_spec by (unfold region; lia). by rewrite Z2Nat.id by lia.
Qed.

End Frames.

(** ** A concrete call: mmap of one page *)

Module Example.

(** A counter of one tick per read that stops at 1000. *)
Definition ticking (n : nat) : Z := Z.min (Z.of_nat n) 1000.

Lemma ticking_slow : slow ticking.
Proof. intros n. unfold ticking. mlia. Qed.

Definition boot_globals : globals :=
  Globals 0 0 0 0 0 100000 7 7 7 7 1 5 6 1 3 0x81008000 0x12 10000000 70000.

(** An ecall with the number and the arguments. *)
Definition ecall (nr x0 x1 x2 x3 x4 : Z) : frame :=
  Frame x0 x1 x2 x3 x4 nr 0x81000100 8 0 [].

Definition user_start (f : frame) (m : mem) : kstate :=
  KState f (umode_reset boot_globals) m [] 0 None false.

(** The state after a trap. *)
Definition after (k : kstate) : kstate :=
  match xnu_stage0_user_trap_dispatch ticking k with Some (_, k') => k' | None => k end.

Lemma after_dispatch k :
  k_halted k = false -> xnu_stage0_user_trap_dispatch ticking k = Some (tt, after k).
Proof.
  intros Hr. pose proof (dispatch_mmap_block ticking ticking_slow k Hr) as H.
  unfold returns in H. unfold after. by destruct (xnu_stage0_user_trap_dispatch _ k) as [[[] k']|].
Qed.

Lemma returns_after k (Q : unit -> kstate -> Prop) :
  k_halted k = false -> returns (xnu_stage0_user_trap_dispatch ticking) k Q -> Q tt (after k).
Proof. intros Hr H. unfold returns in H. by rewrite (after_dispatch k Hr) in H. Qed.

Ltac frame_consts := repeat (apply Forall_cons_2; [by vm_compute|]); apply Forall_nil_2.

Definition k0 : kstate := user_start (ecall 222 0 5 3 34 0) (fun _ => 0xee).

Definition k1 : kstate := after k0.

Lemma mmap_zeroes_example : a0 (k_frame k1) = 0x81004000 /\ k_mem k1 0x81004fff = 0 /\ k_mem k1 0x81005000 = 0xee.
Proof.
  assert (ginv (k_glob k0)) as Hg by by apply umode_reset_ginv.
  pose proof (mmap_zeroes ticking k0 eq_refl Hg (conj eq_refl eq_refl)) as H. cbv zeta in H.
  apply (returns_after k0 _ eq_refl) in H. destruct H as (H1 & _ & H2).
  split; [exact H1|]. split; [exact (H2 0x81004fff) | exact (H2 0x81005000)].
Defined.

End Example.

End SyscallSpec.
