(* ===== verification/SyscallMem.v ===== *)
(** The memory a system call may write (src/kernel_xnu_entry.c): for every call
    the output buffers its arguments name and, for mmap, the block it returns; where
    the kernel itself lives in memory; and the range check [linux_user_range],
    which only the address-range calls make. *)

From S2P Require Import Prelude Print Kernel Syscalls SyscallSpec.

Module SyscallMem.

Import Print Kernel Syscalls SyscallSpec.

Local Open Scope c_scope.

(** ** The range check *)

(** [linux_user_range] accepts exactly the ranges that lie in the 4 MiB user
    region. *)
Lemma linux_user_range_exact (addr len : Z) (Ha : is_u32 addr) (Hl : is_u32 len) :
  linux_user_range addr len = true <->
  XNU_STAGE0_USER_BASE <= addr /\
  addr + len <= XNU_STAGE0_USER_BASE + XNU_STAGE0_USER_REGION_SIZE.
Proof.
  unfold linux_user_range, XNU_STAGE0_USER_BASE, XNU_STAGE0_USER_REGION_SIZE.
  destruct (_ || _) eqn:Hc.
  - split; [done|]. zbool; mlia.
  - zbool. rewrite Z.leb_le. mlia.
Qed.

(** ** Addresses written *)

(** [x] is one of the [n] bytes from [a], addresses wrapping around. *)
Definition touches (a n x : Z) : Prop := exists i, 0 <= i < n /\ x = u32 (a + i).

(** [m'] differs from [m] at most in the bytes of the buffers. *)
Definition writes_in (bufs : list (Z * Z)) (m m' : mem) : Prop :=
  forall x, (forall b, b ∈ bufs -> ~ touches b.1 b.2 x) -> m' x = m x.

Lemma writes_in_refl bufs m : writes_in bufs m m.
Proof. done. Qed.

(** The [n] bytes from [a] are in the buffers. *)
Definition covers (bufs : list (Z * Z)) (a n : Z) : Prop :=
  forall i, 0 <= i < n -> exists b, b ∈ bufs /\ touches b.1 b.2 (u32 (a + i)).

Lemma covers_elem bufs a n : (a, n) ∈ bufs -> covers bufs a n.
Proof. intros Hin i Hi. exists (a, n). split; [done|]. by exists i. Qed.

Lemma covers_sub bufs a n i k :
  covers bufs a n -> 0 <= i -> i + k <= n -> covers bufs (u32 (a + i)) k.
Proof.
  intros Hc Hi Hk j Hj. destruct (Hc (i + j) ltac:(lia)) as (b & Hb & Ht). exists b. split; [done|].
  replace (u32 (u32 (a + i) + j)) with (u32 (a + (i + j))) by mlia. done.
Qed.

Lemma writes_in_store8 bufs m m' a i n v :
  writes_in bufs m m' -> covers bufs a n -> 0 <= i < n -> writes_in bufs m (store8 m' (a + i) v).
Proof.
  intros H Hin Hi x Hx. rewrite store8_other; [by apply H|]. intros ->.
  destruct (Hin i Hi) as (b & Hb & Ht). by apply (Hx b Hb).
Qed.

Lemma writes_in_store32 bufs m m' a i n v :
  writes_in bufs m m' -> covers bufs a n -> 0 <= i -> i + 4 <= n ->
  writes_in bufs m (linux_store32 m' (a + i) v).
Proof.
  intros H Hin Hi Hn. unfold linux_store32, store32, store16. rewrite <- !Z.add_assoc.
  repeat (apply (writes_in_store8 _ _ _ a _ n); [|done|lia]). done.
Qed.

Lemma writes_in_store16 bufs m m' a i n v :
  writes_in bufs m m' -> covers bufs a n -> 0 <= i -> i + 2 <= n ->
  writes_in bufs m (store16 m' (a + i) v).
Proof.
  intros H Hin Hi Hn. unfold store16. rewrite <- !Z.add_assoc.
  repeat (apply (writes_in_store8 _ _ _ a _ n); [|done|lia]). done.
Qed.

Lemma writes_in_zero bufs m a n k : forall i m',
  writes_in bufs m m' -> covers bufs a n -> 0 <= i -> i + Z.of_nat k <= n ->
  writes_in bufs m (zero_loop m' (a + i) k).
Proof.
  induction k as [|k IH]; intros i m' H Hin Hi Hn; [done|]. simpl. rewrite <- Z.add_assoc.
  apply IH; [|done|lia|lia]. apply (writes_in_store8 _ _ _ a _ n); [done|done|lia].
Qed.

Lemma writes_in_bytes bufs m a n l : forall i m',
  writes_in bufs m m' -> covers bufs a n -> 0 <= i -> i + Z.of_nat (length l) <= n ->
  writes_in bufs m (write_bytes m' (a + i) l).
Proof.
  induction l as [|b l IH]; intros i m' H Hin Hi Hn; [done|]. simpl in *. rewrite <- Z.add_assoc.
  apply IH; [|done|lia|lia]. apply (writes_in_store8 _ _ _ a _ n); [done|done|lia].
Qed.

(** The same at the start of a buffer. *)

Lemma writes_in_store32_0 bufs m m' a n v :
  writes_in bufs m m' -> covers bufs a n -> 4 <= n -> writes_in bufs m (linux_store32 m' a v).
Proof.
  intros. rewrite <- (Z.add_0_r a). by apply (writes_in_store32 _ _ _ a 0 n).
Qed.

Lemma writes_in_zero_0 bufs m m' a n len :
  writes_in bufs m m' -> covers bufs a n -> len <= n -> writes_in bufs m (linux_zero_user m' a len).
Proof.
  intros ? ? Hle. unfold linux_zero_user. rewrite <- (Z.add_0_r a).
  destruct (decide (0 <= len)) as [Hp|Hp].
  - apply (writes_in_zero _ _ a n); [done|done|lia|lia].
  - by rewrite Z2Nat.nonpos by lia.
Qed.

Lemma writes_in_bytes_0 bufs m m' a n l :
  writes_in bufs m m' -> covers bufs a n -> Z.of_nat (length l) <= n ->
  writes_in bufs m (write_bytes m' a l).
Proof. intros. rewrite <- (Z.add_0_r a). by apply (writes_in_bytes _ _ a n). Qed.

(** Goes down a chain of stores into a buffer of [n] bytes. *)
Ltac writes n :=
  repeat lazymatch goal with
  | |- writes_in _ _ (linux_store32 _ (?a + ?i) _) => apply (writes_in_store32 _ _ _ a i n); [|done|lia|lia]
  | |- writes_in _ _ (linux_store32 _ _ _) => apply (writes_in_store32_0 _ _ _ _ n); [|done|lia]
  | |- writes_in _ _ (store16 _ (?a + ?i) _) => apply (writes_in_store16 _ _ _ a i n); [|done|lia|lia]
  | |- writes_in _ _ (store8 _ (?a + ?i) _) => apply (writes_in_store8 _ _ _ a i n); [|done|lia]
  | |- writes_in _ _ (linux_zero_user _ _ _) => apply (writes_in_zero_0 _ _ _ _ n); [|done|lia]
  | |- writes_in _ _ (write_bytes _ (?a + ?i) _) => apply (writes_in_bytes _ _ a n); [|done|lia|lia]
  | |- writes_in _ _ (write_bytes _ _ _) => apply (writes_in_bytes_0 _ _ _ _ n); [|done|lia]
  end.

Section Copyouts.
Context (bufs : list (Z * Z)) (m : mem).

Lemma writes_in_statx m' a mode size ino :
  writes_in bufs m m' -> covers bufs a 256 -> writes_in bufs m (linux_copyout_statx m' a mode size ino).
Proof. intros. unfold linux_copyout_statx. by writes 256. Qed.

Lemma writes_in_stat64 m' a mode size ino :
  writes_in bufs m m' -> covers bufs a 104 -> writes_in bufs m (linux_copyout_stat64 m' a mode size ino).
Proof. intros. unfold linux_copyout_stat64, linux_store64. rewrite <- !Z.add_assoc. by writes 104. Qed.

Lemma writes_in_statfs64 m' a :
  writes_in bufs m m' -> covers bufs a 88 -> writes_in bufs m (linux_copyout_statfs64 m' a).
Proof. intros. unfold linux_copyout_statfs64, linux_store64. rewrite <- !Z.add_assoc. by writes 88. Qed.

Lemma writes_in_rlimit64 m' a cur max :
  writes_in bufs m m' -> covers bufs a 16 -> writes_in bufs m (linux_copyout_rlimit64 m' a cur max).
Proof. intros. unfold linux_copyout_rlimit64, linux_store64. rewrite <- !Z.add_assoc. by writes 16. Qed.

Lemma writes_in_uts m' a field text :
  writes_in bufs m m' -> covers bufs a 390 -> 0 <= field <= 5 ->
  writes_in bufs m (linux_copy_uts_field m' a field text).
Proof.
  intros H Hin Hf. unfold linux_copy_uts_field.
  apply (writes_in_bytes _ _ a 390); [done | done | lia |].
  rewrite length_app, length_replicate. pose proof (length_take text 64). lia.
Qed.

Lemma writes_in_uname m' a :
  writes_in bufs m m' -> covers bufs a 390 -> writes_in bufs m (linux_fill_uname m' a).
Proof. intros. unfold linux_fill_uname. repeat (apply writes_in_uts; [|done|lia]). done. Qed.

Lemma writes_in_cstr m' a text max (nul : bool) :
  writes_in bufs m m' -> (a <> 0 -> covers bufs a (linux_strlen text + (if nul then 1 else 0))) ->
  writes_in bufs m (linux_copy_cstr_to_user m' a text max nul).1.
Proof.
  intros H Hc. unfold linux_copy_cstr_to_user, linux_strlen in *. case_if; [done|]. cbn [fst].
  assert (a <> 0) as Hin%Hc by (zbool; congruence).
  unfold linux_store8, linux_copy_to_user. destruct nul.
  - apply (writes_in_store8 _ _ _ a _ (Z.of_nat (length text) + 1)); [|done|lia].
    apply (writes_in_bytes_0 _ _ _ _ (Z.of_nat (length text) + 1)); [done|done|lia].
  - apply (writes_in_bytes_0 _ _ _ _ (Z.of_nat (length text) + 0)); [done|done|lia].
Qed.

Lemma align8_ge v : 0 <= v < 4294967280 -> v <= linux_align8 v < v + 8.
Proof.
  intros Hv. unfold linux_align8. change 7 with (Z.ones 3).
  rewrite land_not32_ones by (apply u32_range || lia). change (Z.ones 3) with 7.
  change (2 ^ 3) with 8. mlia.
Qed.

Lemma writes_in_dirent m' a n ino off type name :
  writes_in bufs m m' -> covers bufs a n -> linux_strlen name < 1000 ->
  linux_align8 (19 + linux_strlen name + 1) <= n ->
  writes_in bufs m (linux_copyout_dirent64 m' a ino off type name).1.
Proof.
  intros H Hc Hlen Hn. unfold linux_copyout_dirent64, linux_store64, linux_store16, linux_store8,
    linux_copy_to_user. cbn [fst]. unfold linux_strlen in *.
  pose proof (align8_ge (19 + Z.of_nat (length name) + 1) ltac:(lia)).
  rewrite <- !Z.add_assoc. rewrite <- !Z.add_assoc in *. by writes n.
Qed.

End Copyouts.

(** ** The buffers of each call *)

(** A pointer argument and the size of what is stored there; NULL is checked. *)
Definition buffer (a n : Z) : list (Z * Z) := if a =? 0 then [] else [(a, n)].

(** The output buffers among the arguments of a call. *)
Definition out_buffers (f : frame) : list (Z * Z) :=
  let nr := a7 f in
  if nr =? 134 then buffer (a2 f) 16
  else if nr =? 135 then buffer (a2 f) 8
  else if nr =? 123 then buffer (a2 f) 4
  else if nr =? 168 then buffer (a0 f) 4 ++ buffer (a1 f) 4
  else if nr =? 114 then buffer (a1 f) 8
  else if nr =? 406 then buffer (a1 f) 16
  else if nr =? 101 then buffer (a1 f) 8
  else if nr =? 115 then buffer (a3 f) 8
  else if nr =? 165 then buffer (a1 f) 72
  else if nr =? 153 then buffer (a0 f) 16
  else if nr =? 160 then buffer (a0 f) 390
  else if nr =? 17 then buffer (a0 f) 2
  else if nr =? 179 then buffer (a0 f) 64
  else if nr =? 261 then buffer (a3 f) 16
  else if nr =? 43 then buffer (a1 f) 88
  else if nr =? 78 then buffer (a2 f) 11
  else if nr =? 79 then buffer (a2 f) 104
  else if nr =? 291 then buffer (a4 f) 256
  else if nr =? 113 then buffer (a1 f) 8
  else if nr =? 403 then buffer (a1 f) 16
  else if nr =? 169 then buffer (a0 f) 8 ++ buffer (a1 f) 8
  else if nr =? 278 then buffer (a0 f) (Z.min 32 (a1 f))
  else if nr =? 61 then buffer (a1 f) (a2 f)
  else if nr =? 44 then buffer (a1 f) 88
  else if nr =? 80 then buffer (a1 f) 104
  else if nr =? 63 then buffer (a1 f) (a2 f)
  else [].

(** What a trap may write: the output buffers of a system call and the block of a
    successful mmap. *)
Definition written (k : kstate) : list (Z * Z) :=
  (if scause (k_frame k) =? SCAUSE_ECALL_U then out_buffers (k_frame k) else []) ++ mmap_block k.

(** ** Where the kernel lives *)

(** The kernel's image with its statics, the end of RAM, and the addresses the linker
    gives to the globals, in the order of [globals], and to the trap frame, which is at
    the top of [g_stage0_user_kstack]. *)
Record kernel_layout := {
  image_start : Z;
  image_end : Z;
  ram_end : Z;
  globals_at : list Z;
  frame_at : Z;
}.

(** The image is below the user region and that is in RAM; the globals and the frame are
    in the image and apart. *)
Record layout_ok (L : kernel_layout) : Prop := {
  lo_image : 0 <= image_start L /\ image_end L <= XNU_STAGE0_USER_BASE;
  lo_ram : XNU_STAGE0_USER_BASE + XNU_STAGE0_USER_REGION_SIZE <= ram_end L <= 4294967296;
  lo_count : length (globals_at L) = 19%nat;
  lo_globals : Forall (fun a => image_start L <= a /\ a + 4 <= image_end L) (globals_at L);
  lo_apart : ForallOrdPairs (fun a b => disjoint_reg a 4 b 4) (globals_at L);
  lo_frame : image_start L <= frame_at L /\ frame_at L + 96 <= image_end L;
  lo_frame_apart : Forall (fun a => disjoint_reg a 4 (frame_at L) 96) (globals_at L);
}.

(** RAM above the kernel: a store there changes nothing the kernel keeps. *)
Definition plain (L : kernel_layout) (x : Z) : Prop := image_end L <= x < ram_end L.

(** The output buffers of a call are in plain RAM. *)
Definition buffers_plain (L : kernel_layout) (f : frame) : Prop :=
  forall b x, b ∈ out_buffers f -> touches b.1 b.2 x -> plain L x.

(** The block of a successful mmap is in the user region. *)
Lemma mmap_block_plain L k b x :
  layout_ok L -> mmap_inv (k_glob k) -> b ∈ mmap_block k -> touches b.1 b.2 x -> plain L x.
Proof.
  intros HL Hi Hb (i & Hr & ->). pose proof (lo_image L HL). pose proof (lo_ram L HL).
  destruct (mmap_block k) as [|[a n] [|]] eqn:Hblk; [by apply elem_of_nil in Hb | |].
  - apply list_elem_of_singleton in Hb as ->. cbn [fst snd] in Hr.
    destruct (mmap_block_next k a n Hi Hblk) as (-> & ? & _ & ?). destruct Hi as [? _].
    unfold plain, XNU_STAGE0_MMAP_BASE, XNU_STAGE0_MMAP_LIMIT, XNU_STAGE0_USER_BASE, XNU_STAGE0_USER_REGION_SIZE in *.
    cbn [fst]. rewrite u32_small by mlia. lia.
  - exfalso. revert Hblk. unfold mmap_block. by case_if.
Qed.

Section Footprints.
Context (timer : nat -> Z) (Hslow : slow timer).

Definition onM (P : mem -> Prop) : kstate -> Prop := on (fun _ _ m _ => P m).

Lemma getdents_loop_writes bufs m0 buf count fuel : forall total k,
  covers bufs buf count -> is_u32 count -> 0 <= total <= count ->
  9 - Z.of_nat fuel <= proc_dir_offset (k_glob k) \/ proc_dir_offset (k_glob k) < 0 ->
  writes_in bufs m0 (k_mem k) ->
  returns (getdents_loop fuel buf count total) k (fun _ k' => writes_in bufs m0 (k_mem k')).
Proof.
  induction fuel as [|fuel IH]; intros total k Hc Hcount Ht Hf Hw; cbn [getdents_loop];
    apply returns_get; destruct (linux_proc_dir_entry _) as [[[name ino] type]|] eqn:He; try done.
  { apply proc_dir_entry_index in He. simpl in Hf. lia. }
  assert (linux_strlen name < 1000) as Hname.
  { revert He. unfold linux_proc_dir_entry. repeat (case_if; [by intros [= <- <- <-]|]). done. }
  apply proc_dir_entry_index in He. set (reclen := linux_align8 _).
  assert (0 <= reclen) as Hrec.
  { unfold linux_strlen in *. pose proof (align8_ge (19 + Z.of_nat (length name) + 1)). unfold reclen.
    unfold linux_strlen. lia. }
  case_if; [done|]. zbool. rewrite u32_small in * by mlia.
  do 8 apply returns_modify. rewrite u32_small by mlia.
  apply IH; cbn [set_kmem set_glob add_out k_glob k_mem set_dir proc_dir_offset]; try done; try lia.
  eapply writes_in_dirent; [done | | done | by fold reclen].
  by apply (covers_sub _ _ count); [|lia|lia].
Qed.

(** A read copies at most the bytes asked for. *)
Lemma read_writes bufs m0 f :
  frame_ok f -> covers bufs (a1 f) (a2 f) -> ends (onM (writes_in bufs m0)) (sys_read f).
Proof.
  intros (_ & _ & Ha2 & _)%frame_u32 Hc. unfold sys_read. ends_walk ltac:(by intros).
  apply ends_modm. intros _ _ m _ Hm. unfold linux_copy_to_user.
  apply (writes_in_bytes_0 _ _ _ _ (a2 f)); [done | done|].
  rewrite length_take. repeat case_if; zbool; mlia.
Qed.

Lemma getrandom_writes bufs m0 f :
  frame_ok f -> covers bufs (a0 f) (Z.min 32 (a1 f)) ->
  ends (onM (writes_in bufs m0)) (sys_getrandom f).
Proof.
  intros (_ & Ha1 & _)%frame_u32 Hc. unfold sys_getrandom. ends_walk ltac:(by intros).
  apply ends_modm. intros _ _ m _ Hm.
  apply (writes_in_bytes_0 _ _ _ _ (Z.min 32 (a1 f))); [done | done|].
  rewrite length_fmap, length_seqZ. case_if; zbool; mlia.
Qed.

Lemma getdents_writes bufs m0 f :
  frame_ok f -> covers bufs (a1 f) (a2 f) -> ends (onM (writes_in bufs m0)) (sys_getdents64 f).
Proof.
  intros (_ & _ & Ha2 & _)%frame_u32 Hc. unfold sys_getdents64. ends_walk ltac:(by intros).
  intros k Hk. apply getdents_loop_writes; (done || mlia).
Qed.

(** Puts the number of the call, known from the tests passed, in the goal. *)
Ltac number_known :=
  repeat match goal with Hf : _ = false |- _ => clear Hf end;
  cbn [existsb] in *; rewrite ?orb_false_r in *;
  repeat match goal with Ho : _ || _ = true |- _ => apply orb_true_iff in Ho as [Ho|Ho] end;
  match goal with He : (a7 ?f =? _) = true |- context [out_buffers ?f] =>
    apply Z.eqb_eq in He; unfold out_buffers; rewrite He end;
  cbn [Z.eqb Pos.eqb]; unfold buffer;
  repeat match goal with |- context [?a =? 0] => destruct (a =? 0) eqn:? end; cbn [app].

(** The stores of a handler, into the buffers of the list. *)
Ltac store_tac :=
  apply ends_modm; intros _ _ m' _ Hm';
  lazymatch goal with |- writes_in ?bufs _ _ =>
    repeat lazymatch goal with
    | |- context [linux_zero_user _ _ (if ?b then _ else _)] => destruct b eqn:?; zbool
    | |- writes_in _ _ (if ?b then _ else _) => destruct b eqn:?
    end;
    assert (forall a n, (a, n) ∈ bufs -> covers bufs a n) as Hcov by (intros; by apply covers_elem);
    lazymatch bufs with
    | [(?a, ?n)] => pose proof (Hcov a n ltac:(by left))
    | [(?a, ?n); (?b, _)] =>
        pose proof (Hcov a n ltac:(by left)); pose proof (Hcov b n ltac:(by right; left))
    end;
    lazymatch bufs with (_, ?n) :: _ =>
      lazymatch goal with
      | |- writes_in _ _ (linux_copyout_statx _ _ _ _ _) => by apply writes_in_statx
      | |- writes_in _ _ (linux_copyout_stat64 _ _ _ _ _) => by apply writes_in_stat64
      | |- writes_in _ _ (linux_copyout_statfs64 _ _) => by apply writes_in_statfs64
      | |- writes_in _ _ (linux_copyout_rlimit64 _ _ _ _) => by apply writes_in_rlimit64
      | |- writes_in _ _ (linux_fill_uname _ _) => by apply writes_in_uname
      | |- writes_in _ _ (linux_zero_user _ _ _) => writes n; assumption
      | |- writes_in _ _ (linux_store32 _ _ _) =>
          unfold linux_store16, linux_store8; rewrite <- ?Z.add_assoc; writes n; assumption
      end
    end
  end.

Lemma handler_writes f h k :
  frame_ok f -> handler timer (a7 f) = Some h -> a7 f <> 222 ->
  returns (h f) k (fun _ k' => writes_in (out_buffers f) (k_mem k) (k_mem k')).
Proof.
  intros Hf H Hn. each_handler H; try (zbool; congruence); number_known.
  all: lazymatch goal with
       | |- returns ?c ?k (fun _ k' => writes_in ?bufs _ _) =>
           enough (ends (onM (writes_in bufs (k_mem k))) c) as Hend by exact (Hend k (writes_in_refl _ _))
       end.
  all: lazymatch goal with
       | |- ends (onM (writes_in [_] _)) (sys_getdents64 _) => apply getdents_writes; [done | apply covers_elem; by left]
       | |- ends (onM (writes_in [_] _)) (sys_read _) => apply read_writes; [done | apply covers_elem; by left]
       | |- ends (onM (writes_in [_] _)) (sys_getrandom _) => apply getrandom_writes; [done | apply covers_elem; by left]
       | _ => autounfold with handlers; ends_walk ltac:(by intros)
       end.
  all: try store_tac.
  all: try (exfalso; zbool; congruence).
  all: try match goal with
       | He : linux_copy_cstr_to_user ?m ?a ?t ?max ?nul = (?r, _), Hs : onM _ _ |- _ =>
           apply ends_modm; intros _ _ _ _ _; pose proof (writes_in_cstr _ _ m a t max nul Hs) as Hw;
           rewrite He in Hw; apply Hw; intros Ha; zbool; (done || (apply covers_elem; by left))
       end.
  unfold sys_getdents64. ends_walk ltac:(by intros). exfalso. zbool. congruence.
Qed.

Lemma mmap_writes f k :
  returns (sys_mmap f) k (fun _ k' =>
    writes_in (if mmap_fits f (k_glob k) then [(mmap_next (k_glob k), mmap_len f)] else []) (k_mem k) (k_mem k')).
Proof.
  eapply returns_mono; [apply sys_mmap_result|]. intros ret k' [_ Hk].
  destruct (mmap_fits _ _); [|by destruct Hk as (_ & _ & ->)]. destruct Hk as (-> & _ & ->).
  apply (writes_in_zero_0 _ _ _ _ (mmap_len f)); [done | | done]. apply covers_elem. by left.
Qed.

(** What the trap may write, whatever the arguments. *)
Lemma dispatch_writes k :
  frame_ok (k_frame k) ->
  returns (xnu_stage0_user_trap_dispatch timer) k (fun _ k' => writes_in (written k) (k_mem k) (k_mem k')).
Proof.
  intros Hf. unfold xnu_stage0_user_trap_dispatch, written, mmap_block. apply returns_get, returns_modify.
  set (f := k_frame k) in *. destruct (Z.eqb_spec (scause f) SCAUSE_ECALL_U) as [Hc|Hc]; cbn [negb andb].
  - destruct (handler timer (a7 f)) as [h|] eqn:Hh.
    + destruct (Z.eqb_spec (a7 f) 222) as [Hn|Hn]; cbn [andb].
      * rewrite Hn in Hh. injection Hh as <-. eapply returns_bind; [apply mmap_writes|]. intros ret k' Hk'.
        assert (out_buffers f = []) as -> by (unfold out_buffers; by rewrite Hn).
        exact Hk'.
      * rewrite app_nil_r. eapply returns_bind; [by apply handler_writes|]. by intros ret k' Hk'.
    + case_if.
      * eapply returns_mono; [apply sys_exit_halts|]. by intros ? k' (_ & _ & ->).
      * eapply returns_mono; [apply unexpected_trap_halts|]. by intros ? k' (_ & _ & ->).
  - eapply returns_mono; [apply unexpected_trap_halts|]. by intros ? k' (_ & _ & ->).
Qed.

Lemma dispatch_other k :
  frame_ok (k_frame k) ->
  returns (xnu_stage0_user_trap_dispatch timer) k (fun _ k' =>
    scause (k_frame k) <> SCAUSE_ECALL_U -> k_mem k' = k_mem k).
Proof.
  intros Hf. destruct (decide (scause (k_frame k) = SCAUSE_ECALL_U)) as [Hc|Hc].
  - eapply returns_mono; [by apply dispatch_writes|]. done.
  - unfold xnu_stage0_user_trap_dispatch. apply returns_get, returns_modify.
    rewrite (proj2 (Z.eqb_neq _ _)) by done. cbn [negb].
    eapply returns_mono; [apply unexpected_trap_halts|]. by intros ? k' (_ & _ & ->).
Qed.

Lemma written_plain L k b x :
  layout_ok L -> mmap_inv (k_glob k) -> buffers_plain L (k_frame k) ->
  b ∈ written k -> touches b.1 b.2 x -> plain L x.
Proof.
  intros HL Hi Hp [Hb|Hb]%elem_of_app; [|by apply (mmap_block_plain L k b)].
  destruct (_ =? _) in Hb; [by apply (Hp b) | by apply elem_of_nil in Hb].
Qed.

(** With buffers in plain RAM no store through a pointer reaches the kernel. *)
Lemma dispatch_keeps_kernel L k :
  layout_ok L -> frame_ok (k_frame k) -> mmap_inv (k_glob k) -> buffers_plain L (k_frame k) ->
  returns (xnu_stage0_user_trap_dispatch timer) k (fun _ k' =>
    forall x, ~ plain L x -> k_mem k' x = k_mem k x).
Proof.
  intros HL Hf Hi Hp. eapply returns_mono; [by apply dispatch_writes|]. cbv beta. intros u k' Hw x Hx. apply Hw. intros b Hb Ht.
  by apply Hx, (written_plain L k b).
Qed.


Lemma rt_sigaction_zeroes (k : kstate)
    (Hcall : scause (k_frame k) = SCAUSE_ECALL_U /\ a7 (k_frame k) = 134)
    (Hsig : 1 <= a0 (k_frame k) <= 64)
    (Haddr : 0 < a2 (k_frame k) <= 4294967280) :
  let old := a2 (k_frame k) in
  returns (xnu_stage0_user_trap_dispatch timer) k (fun _ k' =>
    a0 (k_frame k') = 0 /\
    forall x, k_mem k' x = if (old <=? x) && (x <? old + 16) then 0 else k_mem k x).
Proof.
  intros old. destruct Hcall as [Hc Hn]. set (f := k_frame k) in *.
  apply (dispatch_handled timer k sys_rt_sigaction); [done | by fold f; rewrite Hn|]. fold f.
  unfold sys_rt_sigaction. unfold kputdec, kputhex32. do 7 apply returns_modify.
  assert ((a0 f =? 0) || (65 <=? a0 f) = false) as -> by (zbool; lia).
  assert (negb (a2 f =? 0) = true) as -> by (zbool; lia).
  run_code. cbn [set_frame set_kmem add_out k_frame k_mem entered set_glob returned a0].
  split; [done|]. intros x. unfold linux_zero_user.
  rewrite zero_loop_spec by (unfold region; lia). by rewrite Z2Nat.id by lia.
Qed.

(** C37: the output buffers are not checked against the user region.  For every
    16 bytes of memory that are mapped and writable, those of the kernel included,
    rt_sigaction with that address as [oldact] zeroes them and reports success.  (An
    address the page table does not map faults; memory here is total.) *)
Theorem rt_sigaction_unchecked (k : kstate)
    (Hcall : scause (k_frame k) = SCAUSE_ECALL_U /\ a7 (k_frame k) = 134)
    (Hsig : 1 <= a0 (k_frame k) <= 64)
    (Haddr : 0 < a2 (k_frame k) <= 4294967280) :
  let old := a2 (k_frame k) in
  returns (xnu_stage0_user_trap_dispatch timer) k (fun _ k' =>
    a0 (k_frame k') = 0 /\
    forall x, k_mem k' x = if (old <=? x) && (x <? old + 16) then 0 else k_mem k x).
Proof. exact (rt_sigaction_zeroes k Hcall Hsig Haddr). Qed.

End Footprints.

Module Example.

Import SyscallSpec.Example.

(** A kernel of 192 KiB at 0x80400000, 256 MiB of RAM. *)
Definition small_kernel : kernel_layout :=
  {| image_start := 0x80400000; image_end := 0x80430000; ram_end := 0x90000000;
     globals_at := (fun i => 0x80410000 + 4 * i) <$> seqZ 0 19; frame_at := 0x80420fa0 |}.

Lemma small_kernel_ok : layout_ok small_kernel.
Proof.
  split; [by vm_compute | by vm_compute | done | | | by vm_compute |].
  - unfold small_kernel. cbn. repeat (apply Forall_cons_2; [lia|]). apply Forall_nil_2.
  - unfold small_kernel, disjoint_reg. cbn.
    repeat (apply FOP_cons; [repeat (apply Forall_cons_2; [lia|]); apply Forall_nil_2|]). apply FOP_nil.
  - unfold small_kernel, disjoint_reg. cbn. repeat (apply Forall_cons_2; [lia|]). apply Forall_nil_2.
Qed.

Definition uname_call : kstate := user_start (ecall 160 0x81001000 0 0 0 0) (fun _ => 0xee).

Lemma uname_plain : buffers_plain small_kernel (k_frame uname_call).
Proof.
  intros b x [= ->]%list_elem_of_singleton (i & Hi & ->). cbn in Hi. cbn [fst]. unfold plain, small_kernel.
  cbn. mlia.
Qed.


Definition sigaction_call : kstate := user_start (ecall 134 2 0 0x80400000 0 0) (fun _ => 0xee).

(** The kernel's first instructions, at 0x80400000, are zeroed. *)
Lemma rt_sigaction_unchecked_witness :
  a0 (k_frame (after sigaction_call)) = 0 /\ k_mem (after sigaction_call) 0x80400000 = 0.
Proof.
  assert (1 <= a0 (k_frame sigaction_call) <= 64) as H0 by by cbn.
  assert (0 < a2 (k_frame sigaction_call) <= 4294967280) as H2 by by cbn.
  pose proof (rt_sigaction_unchecked ticking sigaction_call (conj eq_refl eq_refl) H0 H2) as H.
  cbv zeta in H. apply (returns_after sigaction_call _ eq_refl) in H. destruct H as [Ha Hm].
  split; [exact Ha | exact (Hm 0x80400000)].
Defined.

End Example.

End SyscallMem.
