(* ===== verification/KernelRun.v ===== *)
(** Runs of the kernel once user mode is entered (src/kernel_xnu_entry.c,
    src/kernel_xnu_stage0_trap.S): the trap vector, and what every reachable state
    keeps.

    The kernel's globals and the trap frame are statics in the kernel's image, at the
    addresses of a [kernel_layout].  The runs are those in which no system call is
    given an output buffer outside of plain RAM, the RAM above the image; there is
    no such check in the kernel, and the last theorem shows that a call that names
    a global breaks what the others prove. *)

From stdpp Require Import relations.
From S2P Require Import Prelude Statics Print Kernel Syscalls SyscallSpec SyscallMem.

Module KernelRun.

Import Statics Print Kernel Syscalls SyscallSpec SyscallMem.

Local Open Scope c_scope.

(** ** The globals in memory *)

(** The globals, in the order of [globals]. *)
Definition globals_words (g : globals) : list Z :=
  [timer_ticks g; trap_unhandled g; last_scause g; last_sepc g; last_stval g; timer_delta g;
   umode_syscalls g; umode_writes g; umode_exits g; umode_last_syscall g; proc_open g; proc_offset g;
   proc_file g; proc_dir_open g; proc_dir_offset g; mmap_next g; umask g; timebase_hz g; kernel_size g].

Definition globals_fields (L : kernel_layout) (g : globals) : list field :=
  zip_with (fun a w => (a, le4 w)) (globals_at L) (globals_words g).

(** The globals are in memory at their addresses. *)
Definition resident (L : kernel_layout) (m : mem) (g : globals) : Prop := holds m (globals_fields L g).

Section Layout.
Context (L : kernel_layout) (HL : layout_ok L).

Lemma globals_field_at g f : f ∈ globals_fields L g -> f.1 ∈ globals_at L /\ length f.2 = 4%nat.
Proof.
  intros Hf. apply list_elem_of_lookup_1 in Hf as [i Hi]. apply lookup_zip_with_Some in Hi as (a & w & -> & Ha & _).
  split; [by eapply list_elem_of_lookup_2 | done].
Qed.

Lemma globals_in_image g f :
  f ∈ globals_fields L g -> image_start L <= f.1 /\ f.1 + 4 <= image_end L /\ flen f = 4.
Proof.
  intros [Ha Hn]%globals_field_at. pose proof (lo_globals L HL) as Hg. rewrite Forall_forall in Hg.
  destruct (Hg _ Ha). unfold flen. rewrite Hn. done.
Qed.

Lemma globals_region g : Forall (fun f => region f.1 (flen f)) (globals_fields L g).
Proof.
  apply Forall_forall. intros f Hf. destruct (globals_in_image g f Hf) as (? & ? & ->).
  pose proof (lo_image L HL). unfold region, XNU_STAGE0_USER_BASE in *. lia.
Qed.

Lemma globals_not_plain g x : in_fields (globals_fields L g) x -> ~ plain L x.
Proof.
  intros (f & Hf & Hin). destruct (globals_in_image g f Hf) as (? & ? & Hn). rewrite Hn in Hin.
  unfold inside, plain in *. lia.
Qed.

(** The globals stay as long as only plain RAM changes. *)
Lemma resident_same m m' g :
  resident L m g -> (forall x, ~ plain L x -> m' x = m x) -> resident L m' g.
Proof.
  intros Hr Hs. eapply holds_same; [apply globals_region | exact Hr|]. intros x Hx.
  by apply Hs, (globals_not_plain g).
Qed.

Lemma resident_load m g i a w :
  resident L m g -> globals_at L !! i = Some a -> globals_words g !! i = Some w -> load32 m a = u32 w.
Proof.
  intros Hr Ha Hw. apply load32_le4. unfold resident, holds in Hr. rewrite Forall_forall in Hr.
  apply (Hr (a, le4 w)). apply list_elem_of_lookup. exists i. apply lookup_zip_with_Some. by exists a, w.
Qed.

Lemma globals_fields_apart g : ForallOrdPairs fields_apart (globals_fields L g).
Proof using HL.
  unfold globals_fields. pose proof (lo_apart L HL) as Ha. revert Ha. generalize (globals_words g).
  induction (globals_at L) as [|a l IH]; intros ws Ha; [apply FOP_nil|].
  destruct ws as [|w ws]; [apply FOP_nil|]. inversion_clear Ha as [|? ? Hal Ha']. simpl.
  apply FOP_cons; [|by apply IH]. clear IH Ha'. revert ws. induction Hal as [|b l Hb Hal IH]; intros ws; [apply Forall_nil_2|].
  destruct ws as [|v ws]; [apply Forall_nil_2|]. by apply Forall_cons_2; [|apply IH].
Qed.

(** Storing the globals at their addresses. *)
Definition publish (g : globals) (m : mem) : mem := write_fields m (globals_fields L g).

Lemma publish_resident g m : resident L (publish g m) g.
Proof using HL.
  apply write_fields_holds; [by split; [apply globals_region | apply globals_fields_apart]|].
  apply Forall_forall. intros f Hf. apply list_elem_of_lookup_1 in Hf as [i Hi].
  apply lookup_zip_with_Some in Hi as (a & w & -> & _ & _). cbn [snd]. unfold le4.
  repeat (apply Forall_cons_2; [apply u8_range|]). apply Forall_nil_2.
Qed.

Lemma publish_plain g m x : plain L x -> publish g m x = m x.
Proof using HL.
  intros Hx. apply write_fields_frame; [apply globals_region|]. intros Hin.
  by apply (globals_not_plain g x).
Qed.

Lemma user_plain x : inside XNU_STAGE0_USER_BASE XNU_STAGE0_USER_REGION_SIZE x -> plain L x.
Proof. pose proof (lo_image L HL). pose proof (lo_ram L HL). unfold inside, plain. lia. Qed.

End Layout.

(** ** Steps *)

Section Runs.
Context (timer : nat -> Z) (Hslow : slow timer) (L : kernel_layout) (HL : layout_ok L).

(** Between traps the user changes registers and the user region at will. *)
Inductive user_step : kstate -> kstate -> Prop :=
  | user_runs k f m :
      k_halted k = false -> frame_ok f ->
      (forall x, ~ inside XNU_STAGE0_USER_BASE XNU_STAGE0_USER_REGION_SIZE x -> m x = k_mem k x) ->
      user_step k (set_kmem m (set_frame f k)).

(** A trap whose output buffers are in plain RAM runs the dispatcher.  Afterwards
    plain RAM is as the dispatcher left it, the globals are in the image, and the rest
    of the image (the stack with the frame) is arbitrary. *)
Inductive trap_step : kstate -> kstate -> Prop :=
  | trap_taken k k' m :
      k_halted k = false -> frame_ok (k_frame k) -> buffers_plain L (k_frame k) ->
      xnu_stage0_user_trap_dispatch timer k = Some (tt, k') ->
      (forall x, plain L x -> m x = k_mem k' x) -> resident L m (k_glob k') ->
      trap_step k (set_kmem m k').

Inductive kstep (k k' : kstate) : Prop :=
  | step_user : user_step k k' -> kstep k k'
  | step_trap : trap_step k k' -> kstep k k'.

(** What every state keeps. *)
Definition kinv (k : kstate) : Prop := ginv (k_glob k) /\ resident L (k_mem k) (k_glob k).

Lemma user_step_kinv k k' : user_step k k' -> kinv k -> kinv k'.
Proof using HL.
  destruct 1 as [k f m _ _ Hm]. intros [Hg Hr]. split; [done|]. eapply resident_same; [done | exact Hr|].
  intros x Hx. apply Hm. intros Hin. by apply Hx, user_plain.
Qed.

Lemma trap_step_kinv k k' : trap_step k k' -> kinv k -> kinv k'.
Proof using Hslow.
  destruct 1 as [k k' m _ Hf _ Hd _ Hr]. intros [Hg _]. split; [|done].
  pose proof (dispatch_ginv timer Hslow k Hf Hg) as H. unfold returns in H. by rewrite Hd in H.
Qed.

Lemma kstep_kinv k k' : kstep k k' -> kinv k -> kinv k'.
Proof using HL Hslow. destruct 1; [by apply user_step_kinv | by apply trap_step_kinv]. Qed.

Lemma run_kinv k k' : rtc kstep k k' -> kinv k -> kinv k'.
Proof using HL Hslow.
  induction 1 as [|k k1 k2 Hs _ IH]; [done|]. intros Hk. apply IH. by eapply kstep_kinv.
Qed.

(** During a trap of a run the globals in memory are the ones the dispatcher started
    from: no store of the handlers hits them. *)
Lemma trap_keeps_globals k :
  kinv k -> frame_ok (k_frame k) -> buffers_plain L (k_frame k) ->
  returns (xnu_stage0_user_trap_dispatch timer) k (fun _ k' => resident L (k_mem k') (k_glob k)).
Proof using HL Hslow.
  intros [Hg Hr] Hf Hp. eapply returns_mono; [apply (dispatch_keeps_kernel timer Hslow L k); try done; apply Hg|].
  intros u k' Hk. eapply resident_same; [done | exact Hr | exact Hk].
Qed.

(** C6: the invariant of the system-call layer holds in every state reachable from
    the entry into user mode, whatever the user program does, as long as no system
    call is given an output buffer outside of the RAM above the kernel: the file
    descriptor is closed or its cursor is inside one of the six files, the directory
    cursor is at most 9, the break of the mmap area is a page boundary inside the
    area, and the globals in memory have these values. *)
Theorem kernel_reachable_inv (k0 k : kstate) (g : globals)
    (Hinit : k_glob k0 = umode_reset g) (Hu : 0 <= umask g <= 0x1ff)
    (Hmem : resident L (k_mem k0) (k_glob k0)) (Hrun : rtc kstep k0 k) :
  ginv (k_glob k) /\ resident L (k_mem k) (k_glob k).
Proof using HL Hslow.
  apply (run_kinv k0 k Hrun). split; [|done]. rewrite Hinit. by apply umode_reset_ginv.
Qed.

(** ** The mmap area *)

(** Runs with the blocks mmap returned, oldest first. *)
Inductive mrun : kstate -> list (Z * Z) -> kstate -> Prop :=
  | mrun_nil k : mrun k [] k
  | mrun_user k bs k1 k2 : mrun k bs k1 -> user_step k1 k2 -> mrun k bs k2
  | mrun_trap k bs k1 k2 : mrun k bs k1 -> trap_step k1 k2 -> mrun k (bs ++ mmap_block k1) k2.

Definition block_in (hi : Z) (b : Z * Z) : Prop :=
  XNU_STAGE0_MMAP_BASE <= b.1 /\ 0 < b.2 /\ b.1 + b.2 <= hi /\ b.1 mod 4096 = 0 /\ b.2 mod 4096 = 0.

Definition separate (b c : Z * Z) : Prop := disjoint_reg b.1 b.2 c.1 c.2.

(** All blocks are in the area below the break and no two meet. *)
Definition blocks_ok (hi : Z) (bs : list (Z * Z)) : Prop :=
  Forall (block_in hi) bs /\ ForallOrdPairs separate bs.

Lemma blocks_ok_snoc hi bs a n :
  blocks_ok hi bs -> XNU_STAGE0_MMAP_BASE <= a -> hi <= a -> 0 < n -> a mod 4096 = 0 -> n mod 4096 = 0 ->
  blocks_ok (a + n) (bs ++ [(a, n)]).
Proof.
  intros [Hin Hsep] Ha Hhi Hn Hal Hnl. split.
  - apply Forall_app. split; [|apply Forall_singleton; unfold block_in; simpl; lia].
    eapply Forall_impl; [exact Hin|]. unfold block_in. intros b Hb. lia.
  - induction bs as [|b bs IH]; simpl; [repeat constructor|].
    apply Forall_cons in Hin as [Hb Hin]. inversion_clear Hsep as [|? ? Hbs Hrest].
    constructor; [|by apply IH]. apply Forall_app. split; [done|]. apply Forall_singleton.
    left. unfold block_in in Hb. simpl. lia.
Qed.

(** A trap adds at most its block, above all the others. *)
Lemma trap_step_blocks k k' bs :
  trap_step k k' -> ginv (k_glob k) -> blocks_ok (mmap_next (k_glob k)) bs ->
  blocks_ok (mmap_next (k_glob k')) (bs ++ mmap_block k).
Proof using Hslow.
  destruct 1 as [k k' m Hr Hf _ Hd _ _]. intros (_ & _ & Hmm & _) Hb. cbn [set_kmem k_glob].
  pose proof (dispatch_mmap_block timer Hslow k Hr) as Hres. unfold returns in Hres. rewrite Hd in Hres.
  destruct (mmap_block k) as [|[a n] [|]] eqn:Hblk; [by rewrite app_nil_r, Hres | |].
  - destruct (mmap_block_next k a n Hmm Hblk) as (-> & Hpos & Hal & Hlim).
    destruct Hres as (_ & -> & _). destruct Hmm as [? ?].
    unfold XNU_STAGE0_MMAP_LIMIT, XNU_STAGE0_MMAP_BASE in *.
    rewrite u32_small by mlia. apply (blocks_ok_snoc (mmap_next (k_glob k)));
      unfold XNU_STAGE0_MMAP_BASE; (done || lia).
  - exfalso. revert Hblk. unfold mmap_block. by case_if.
Qed.

Lemma mrun_blocks k0 bs k :
  mrun k0 bs k -> kinv k0 -> mmap_next (k_glob k0) = XNU_STAGE0_MMAP_BASE ->
  kinv k /\ blocks_ok (mmap_next (k_glob k)) bs.
Proof using HL Hslow.
  induction 1 as [k | k bs k1 k2 _ IH Hs | k bs k1 k2 _ IH Hs]; intros Hi Hn.
  - split; [done|]. by repeat constructor.
  - destruct (IH Hi Hn) as [Hi1 Hb]. split; [by eapply user_step_kinv|]. by destruct Hs.
  - destruct (IH Hi Hn) as [Hi1 Hb]. split; [by eapply trap_step_kinv|].
    by apply trap_step_blocks; [|apply Hi1|].
Qed.


(** ** Why the buffers must be apart from the kernel *)

(** C36: a program that gives rt_sigaction the address of [g_stage0_mmap_next] as
    [oldact] resets the break: the call succeeds, and no values of the globals that
    keep the invariant are in memory afterwards. *)
Theorem rt_sigaction_resets_break (k : kstate)
    (Hcall : scause (k_frame k) = SCAUSE_ECALL_U /\ a7 (k_frame k) = 134)
    (Hsig : 1 <= a0 (k_frame k) <= 64)
    (Haddr : globals_at L !! 15%nat = Some (a2 (k_frame k))) (Hpos : 0 < a2 (k_frame k)) :
  returns (xnu_stage0_user_trap_dispatch timer) k (fun _ k' =>
    a0 (k_frame k') = 0 /\ forall g, resident L (k_mem k') g -> ~ ginv g).
Proof using HL.
  pose proof (lo_globals L HL) as Hg. pose proof (lo_image L HL).
  pose proof (Forall_lookup_1 _ _ _ _ Hg Haddr) as Hin. cbv beta in Hin. unfold XNU_STAGE0_USER_BASE in *.
  eapply returns_mono; [apply (rt_sigaction_zeroes timer k Hcall Hsig); lia|].
  cbv zeta beta. intros _ k' [Ha Hm]. split; [done|]. intros g Hr (_ & _ & [Hb _] & _).
  set (a := a2 (k_frame k)) in *.
  pose proof (resident_load L (k_mem k') g 15 a (mmap_next g) Hr Haddr eq_refl) as Hl.
  unfold load32, load16 in Hl. rewrite !load8_region, !Hm in Hl by mlia.
  unfold XNU_STAGE0_MMAP_BASE, XNU_STAGE0_MMAP_LIMIT in *.
  rewrite (u32_small (mmap_next g)) in Hl by mlia. revert Hl. zcases.
Qed.

(** ** The vector of user traps *)

(** A register file: the value of x1 to x31. *)
Abbreviation regfile := (Z -> Z).

(** The words stored below the top of the kernel stack: ra, gp, tp, t0-t2, s0, s1,
    a0-a7, the user's sp, sepc, scause and stval. *)
Definition vector_words (r : regfile) (pc cause tval : Z) : list Z :=
  [r 1; r 3; r 4; r 5; r 6; r 7; r 8; r 9; r 10; r 11; r 12; r 13; r 14; r 15; r 16; r 17; r 2;
   pc; cause; tval].

(** [xnu_stage0_user_frame_t] at [a]. *)
Definition load_frame (m : mem) (a : Z) : frame :=
  let w i := load32 m (a + 4 * i) in
  Frame (w 8) (w 9) (w 10) (w 11) (w 12) (w 15) (w 17) (w 18) (w 19)
    [w 0; w 1; w 2; w 3; w 4; w 5; w 6; w 7; w 13; w 14; w 16].

(** The word of the frame a register is loaded from before [sret]: [t0] is loaded
    with the word of the user's sp and copied to sp. *)
Definition reloaded (i : Z) : option Z :=
  if i =? 1 then Some 0
  else if i =? 2 then Some 16
  else if i =? 3 then Some 1
  else if i =? 4 then Some 2
  else if i =? 5 then Some 16
  else if i =? 6 then Some 4
  else if i =? 7 then Some 5
  else if i =? 8 then Some 6
  else if i =? 9 then Some 7
  else if (10 <=? i) && (i <=? 17) then Some (i - 2)
  else None.

Inductive trap_outcome :=
  | Back (r : regfile) (pc : Z)
  | Parked.

(** [xnu_stage0_user_trap_vector]: the frame is stored, the dispatcher runs on it and
    assigns two of its words, and the registers are loaded from it.  [c] is the register
    file at the return of the dispatcher; a register the vector does not load keeps the
    value it has there. *)
Definition xnu_stage0_user_trap_vector (c r : regfile) (pc cause tval : Z) (k : kstate) :
    option (trap_outcome * kstate) :=
  let a := frame_at L in
  let m := write_fields (k_mem k) [(a, words_bytes (vector_words r pc cause tval))] in
  match xnu_stage0_user_trap_dispatch timer (set_frame (load_frame m a) (set_kmem m k)) with
  | None => None
  | Some (_, k') =>
      if k_halted k' then Some (Parked, k')
      else
        let m := store32 (store32 (k_mem k') (a + 32) (a0 (k_frame k'))) (a + 68) (sepc (k_frame k')) in
        let w i := load32 m (a + 4 * i) in
        Some (Back (fun i => match reloaded i with Some j => w j | None => c i end) (w 17),
              set_kmem m k')
  end.

(** The frame of a trap. *)
Definition trap_frame (r : regfile) (pc cause tval : Z) : frame :=
  Frame (r 10) (r 11) (r 12) (r 13) (r 14) (r 17) pc cause tval
    [r 1; r 3; r 4; r 5; r 6; r 7; r 8; r 9; r 15; r 16; r 2].

Section Vector.
Context (r : regfile) (pc cause tval : Z).
Context (Hr : forall i, is_u32 (r i)) (Hpc : is_u32 pc) (Hcause : is_u32 cause) (Htval : is_u32 tval).

Let ws := vector_words r pc cause tval.
Let fs : list field := [(frame_at L, words_bytes ws)].

Lemma frame_field : fields_ok fs.
Proof using HL.
  pose proof (lo_frame L HL). pose proof (lo_image L HL). unfold XNU_STAGE0_USER_BASE in *.
  split; [|apply FOP_cons; [apply Forall_nil_2 | apply FOP_nil]].
  apply Forall_cons_2; [|apply Forall_nil_2]. unfold flen. cbn [fst snd]. rewrite length_words_bytes.
  change (length ws) with 20%nat. unfold region. lia.
Qed.

(** A word of the frame, as long as the frame is what the vector stored. *)
Lemma frame_word m m' i w :
  (forall x, inside (frame_at L) 80 x -> m' x = write_fields m fs x) ->
  ws !! Z.to_nat i = Some w -> 0 <= i -> is_u32 w -> load32 m' (frame_at L + 4 * i) = w.
Proof using HL.
  intros Hm Hw Hi Hu. assert (holds m' fs) as Hh.
  { eapply holds_same; [apply frame_field | apply (write_fields_holds m) |].
    - apply frame_field.
    - apply Forall_cons_2; [apply words_bytes_u8 | apply Forall_nil_2].
    - intros x (f & Hf & Hin). apply list_elem_of_singleton in Hf as ->. apply Hm.
      unfold flen in Hin. cbn [fst snd] in Hin. rewrite length_words_bytes in Hin. exact Hin. }
  rewrite <- (Z2Nat.id i) by done. rewrite (holds_load32 m' fs _ ws _ w Hh); [by apply u32_small | by left | done].
Qed.

Lemma words_u32 i w : ws !! i = Some w -> is_u32 w.
Proof using Hr Hpc Hcause Htval.
  intros Hi. apply (Forall_lookup_1 is_u32 ws i w); [|done]. unfold ws, vector_words.
  repeat (apply Forall_cons_2; [done|]). apply Forall_nil_2.
Qed.

Lemma load_trap_frame m : load_frame (write_fields m fs) (frame_at L) = trap_frame r pc cause tval.
Proof using HL Hr Hpc Hcause Htval.
  assert (forall i w, ws !! Z.to_nat i = Some w -> 0 <= i ->
    load32 (write_fields m fs) (frame_at L + 4 * i) = w) as Hw.
  { intros i w Hi H0. by apply (frame_word m); [|..|eapply words_u32]. }
  unfold load_frame, trap_frame. cbv zeta.
  by rewrite (Hw 0 (r 1)), (Hw 1 (r 3)), (Hw 2 (r 4)), (Hw 3 (r 5)), (Hw 4 (r 6)), (Hw 5 (r 7)), (Hw 6 (r 8)), (Hw 7 (r 9)), (Hw 8 (r 10)), (Hw 9 (r 11)),
    (Hw 10 (r 12)), (Hw 11 (r 13)), (Hw 12 (r 14)), (Hw 13 (r 15)), (Hw 14 (r 16)), (Hw 15 (r 17)), (Hw 16 (r 2)), (Hw 17 (pc)), (Hw 18 (cause)), (Hw 19 (tval)) by done.
Qed.

(** The words the registers are loaded from, after the dispatcher's two stores. *)
Lemma returned_word m m' v p j w :
  (forall x, inside (frame_at L) 80 x -> m' x = write_fields m fs x) ->
  ws !! Z.to_nat j = Some w -> 0 <= j < 20 ->
  load32 (store32 (store32 m' (frame_at L + 32) v) (frame_at L + 68) p) (frame_at L + 4 * j) =
    if j =? 8 then u32 v else if j =? 17 then u32 p else w.
Proof using HL Hr Hpc Hcause Htval.
  intros Hm Hw Hj. pose proof (lo_frame L HL). pose proof (lo_image L HL). unfold XNU_STAGE0_USER_BASE in *.
  destruct (Z.eqb_spec j 17) as [->|H17].
  { cbn [Z.eqb Pos.eqb]. apply load32_store32. unfold region. lia. }
  rewrite (load32_frame (store32 m' (frame_at L + 32) v) _ (frame_at L + 68) 4);
    [| apply frame_store32; unfold region; lia | unfold region; lia | unfold disjoint_reg; lia].
  destruct (Z.eqb_spec j 8) as [->|H8].
  { apply load32_store32. unfold region. lia. }
  rewrite (load32_frame m' _ (frame_at L + 32) 4);
    [| apply frame_store32; unfold region; lia | unfold region; lia | unfold disjoint_reg; lia].
  eapply frame_word; [exact Hm | done | lia | by eapply words_u32].
Qed.

End Vector.


End Runs.

(** ** A concrete run: two mmaps, of one page and of two *)

Module Example.

Import SyscallSpec.Example SyscallMem.Example.

Abbreviation K0 := small_kernel.

(** The state after a trap, with the globals back in memory. *)
Definition trapped (k : kstate) : kstate :=
  let k' := after k in set_kmem (publish K0 (k_glob k') (k_mem k')) k'.

Lemma trapped_step k :
  k_halted k = false -> frame_ok (k_frame k) -> buffers_plain K0 (k_frame k) ->
  trap_step ticking K0 k (trapped k).
Proof.
  intros Hr Hf Hp. apply trap_taken; [done | done | done | by apply after_dispatch | |].
  - intros x Hx. by apply publish_plain; [apply small_kernel_ok|].
  - apply publish_resident, small_kernel_ok.
Qed.

Definition k0 : kstate :=
  user_start (ecall 222 0 5 3 34 0) (publish K0 (umode_reset boot_globals) (fun _ => 0xee)).

Definition k1 : kstate := trapped k0.

(** Back in user mode the program asks for 5000 bytes more. *)
Definition next_call (k : kstate) : kstate :=
  set_kmem (k_mem k) (set_frame (ecall 222 0 5000 3 34 0) k).

Lemma next_call_step k : k_halted k = false -> user_step k (next_call k).
Proof. intros Hr. apply user_runs; [done | frame_consts | done]. Qed.

Lemma mmap_plain k : a7 (k_frame k) = 222 -> buffers_plain K0 (k_frame k).
Proof. intros Hn b x Hb. unfold out_buffers in Hb. rewrite Hn in Hb. by apply elem_of_nil in Hb. Qed.

Lemma k1_runs : k_halted k1 = false.
Proof. by vm_compute. Qed.

Lemma k0_k1 : trap_step ticking K0 k0 k1.
Proof. apply trapped_step; [done | frame_consts | by apply mmap_plain]. Qed.

Lemma k2_k3 : trap_step ticking K0 (next_call k1) (trapped (next_call k1)).
Proof. apply trapped_step; [by vm_compute | frame_consts | by apply mmap_plain]. Qed.

Lemma run_to_k3 : rtc (kstep ticking K0) k0 (trapped (next_call k1)).
Proof.
  exact (rtc_l _ _ _ _ (step_trap _ _ _ _ k0_k1) (rtc_l _ _ _ _ (step_user _ _ _ _ (next_call_step k1 k1_runs))
    (rtc_once _ _ (step_trap _ _ _ _ k2_k3)))).
Qed.

Lemma k0_resident : resident K0 (k_mem k0) (k_glob k0).
Proof. apply publish_resident, small_kernel_ok. Qed.

Lemma kernel_reachable_inv_witness : ginv (k_glob (trapped (next_call k1))).
Proof.
  exact (proj1 (kernel_reachable_inv ticking ticking_slow K0 small_kernel_ok k0 _ boot_globals eq_refl
    ltac:(by vm_compute) k0_resident run_to_k3)).
Defined.

Lemma run_blocks :
  mrun ticking K0 k0 (([] ++ mmap_block k0) ++ mmap_block (next_call k1)) (trapped (next_call k1)).
Proof.
  refine (mrun_trap ticking K0 k0 _ (next_call k1) _ _ k2_k3).
  refine (mrun_user ticking K0 k0 _ k1 _ _ (next_call_step k1 k1_runs)).
  exact (mrun_trap ticking K0 k0 [] k0 k1 (mrun_nil _ _ _) k0_k1).
Qed.

Lemma run_blocks_are :
  ([] ++ mmap_block k0) ++ mmap_block (next_call k1) = [(0x81004000, 4096); (0x81005000, 8192)].
Proof. by vm_compute. Qed.


(** The registers of a program that calls uname. *)
Definition uname_regs (i : Z) : Z :=
  if i =? 17 then 160 else if i =? 10 then 0x81001000 else if i =? 2 then 0x81002000 else 100 + u8 i.


(** rt_sigaction with [oldact] at the break. *)
Definition clobber_call : kstate :=
  user_start (ecall 134 1 0 0x8041003c 0 0) (publish K0 (umode_reset boot_globals) (fun _ => 0)).

Lemma rt_sigaction_resets_break_witness :
  a0 (k_frame (after clobber_call)) = 0 /\ forall g, resident K0 (k_mem (after clobber_call)) g -> ~ ginv g.
Proof.
  assert (1 <= a0 (k_frame clobber_call) <= 64) as H0 by by cbn.
  assert (0 < a2 (k_frame clobber_call)) as H2 by by cbn.
  exact (returns_after clobber_call _ eq_refl (rt_sigaction_resets_break ticking K0 small_kernel_ok
    clobber_call (conj eq_refl eq_refl) H0 eq_refl H2)).
Defined.

End Example.

End KernelRun.
