(* ===== verification/SyscallFiles.v ===== *)
(** The file layer of the system calls (src/kernel_xnu_entry.c) against an abstract
    /proc: paths are compared as strings, reading an open file in any pieces
    gives its contents, listing the directory gives its nine entries, and the
    three ways to ask for the metadata of a file agree. *)

From S2P Require Import Prelude Print Kernel Syscalls SyscallSpec SyscallMem.

Module SyscallFiles.

Import Print Kernel Syscalls SyscallSpec SyscallMem.

Local Open Scope c_scope.

(** ** Paths *)

Lemma user_streq_loop_spec m text room : forall addr path,
  cstr_at m addr path -> is_cstr text -> (length text < room)%nat ->
  user_streq_loop m addr text room = bool_decide (path = text).
Proof.
  revert text. induction room as [|room IH]; intros text addr path Hp Ht Hr; [lia|].
  destruct path as [|p path], text as [|c text]; cbn [cstr_at length user_streq_loop] in *; try (apply Forall_cons in Ht as [Hc Ht]).
  - by rewrite Hp, bool_decide_true.
  - rewrite Hp. rewrite bool_decide_false by done. zbool; lia.
  - destruct Hp as (-> & Hp & _). rewrite bool_decide_false by done. zbool; lia.
  - destruct Hp as (-> & _ & Hp). rewrite (IH text (addr + 1) path) by (done || lia).
    destruct (Z.eqb_spec p c) as [->|Hne]; cbn [andb].
    + apply bool_decide_ext. split; [by intros -> | by intros [= ->]].
    + rewrite bool_decide_false; [done|]. by intros [= -> ->].
Qed.

(** A decision procedure for [is_cstr] on literals. *)
Ltac lit := apply (bool_decide_unpack _); vm_compute; exact I.

(** Paths.  For a string at [addr], [linux_user_streq] is equality with the
    text, for every text of at most 128 bytes. *)
Lemma linux_user_streq_exact (m : mem) (addr : Z) (path text : list Z)
    (Hp : cstr_at m addr path) (Ht : is_cstr text) (Hlen : (length text <= 128)%nat) :
  linux_user_streq m addr text = bool_decide (path = text).
Proof. apply user_streq_loop_spec; [done | done | lia]. Qed.

Lemma streq_lit m addr path text :
  cstr_at m addr path -> bool_decide (is_cstr text /\ (length text <= 128)%nat) = true ->
  linux_user_streq m addr text = bool_decide (path = text).
Proof.
  intros Hp [Ht Hl]%bool_decide_eq_true. apply user_streq_loop_spec; [done | done | lia].
Qed.

(** ** Abstract /proc *)

(** The files that can be opened, with their number and their contents. *)
Definition proc_files : list (list Z * Z * list Z) :=
  [(cstr "/proc/version", 1, g_stage0_proc_version);
   (cstr "/proc/cpuinfo", 2, g_stage0_proc_cpuinfo);
   (cstr "/proc/meminfo", 3, g_stage0_proc_meminfo);
   (cstr "/proc/uptime", 5, g_stage0_proc_uptime);
   (cstr "/proc/stat", 6, g_stage0_proc_stat);
   (cstr "/proc/caribeos", 4, g_stage0_proc_caribeos)].

Definition file_of (path : list Z) : option (Z * list Z) :=
  (fun e => (e.1.2, e.2)) <$> List.find (fun e => bytes_eqb path e.1.1) proc_files.

Lemma openat_file_of m addr path :
  cstr_at m addr path -> openat_file m addr = fst <$> file_of path.
Proof.
  intros Hp. unfold openat_file, file_of, proc_files, bytes_eqb.
  rewrite !(streq_lit m addr path) by (done || by vm_compute). cbn [List.find fst snd].
  repeat case_bool_decide; done.
Qed.

Lemma proc_files_content :
  Forall (fun e => linux_proc_file_content e.1.2 = e.2 /\ e.1.2 <> 0) proc_files.
Proof.
  unfold proc_files, linux_proc_file_content. rewrite !Forall_cons. cbn [fst snd Z.eqb Pos.eqb].
  split_and!; (reflexivity || discriminate || apply Forall_nil_2).
Qed.

(** ** The directory *)

(** The entries of /proc: name, inode and type. *)
Definition proc_listing : list (list Z * Z * Z) :=
  [(cstr ".", 5, LINUX_DT_DIR); (cstr "..", 2, LINUX_DT_DIR); (cstr "self", 6, LINUX_DT_DIR);
   (cstr "cpuinfo", 9, LINUX_DT_REG); (cstr "meminfo", 10, LINUX_DT_REG);
   (cstr "caribeos", 11, LINUX_DT_REG); (cstr "version", 8, LINUX_DT_REG);
   (cstr "uptime", 12, LINUX_DT_REG); (cstr "stat", 13, LINUX_DT_REG)].

Lemma proc_dir_entry_lookup i : linux_proc_dir_entry (Z.of_nat i) = proc_listing !! i.
Proof.
  do 9 (destruct i as [|i]; [reflexivity|]). unfold linux_proc_dir_entry.
  rewrite !(proj2 (Z.eqb_neq _ _)) by lia. reflexivity.
Qed.

(** A directory entry as the user sees it. *)
Record dirent := Dirent {
  d_ino : Z;
  d_off : Z;
  d_type : Z;
  d_name : list Z;
}.

Definition le_value (l : list Z) : Z := foldr (fun b v => b + 256 * v) 0 l.

Fixpoint c_string (l : list Z) : list Z :=
  match l with
  | [] => []
  | c :: l => if c =? 0 then [] else c :: c_string l
  end.

(** The entries in a buffer [getdents64] filled: [struct linux_dirent64]. *)
Fixpoint parse_dirents (fuel : nat) (l : list Z) : list dirent :=
  match fuel, l with
  | S fuel, _ :: _ =>
      Dirent (le_value (take 8 l)) (le_value (take 8 (drop 8 l))) (l !!! 18%nat) (c_string (drop 19 l)) ::
      parse_dirents fuel (drop (Z.to_nat (le_value (take 2 (drop 16 l)))) l)
  | _, _ => []
  end.

Definition reclen_of (e : list Z * Z * Z) : Z := linux_align8 (19 + linux_strlen e.1.1 + 1).

Fixpoint le_bytes (n : nat) (v : Z) : list Z :=
  match n with
  | O => []
  | S n => v mod 256 :: le_bytes n (v / 256)
  end.

(** The record of an entry. *)
Definition dirent_bytes (off : Z) (e : list Z * Z * Z) : list Z :=
  let '(name, ino, type) := e in
  let l := le_bytes 8 ino ++ le_bytes 8 off ++ le_bytes 2 (reclen_of e) ++ [type] ++ name in
  l ++ replicate (Z.to_nat (reclen_of e) - length l) 0.

(** The longest prefix of the entries whose records fit. *)
Fixpoint fitting (es : list (list Z * Z * Z)) (room : Z) : list (list Z * Z * Z) :=
  match es with
  | [] => []
  | e :: es => if reclen_of e <=? room then e :: fitting es (room - reclen_of e) else []
  end.

Fixpoint records (i : nat) (es : list (list Z * Z * Z)) : list Z :=
  match es with
  | [] => []
  | e :: es => dirent_bytes (Z.of_nat i + 1) e ++ records (S i) es
  end.

Fixpoint dirents (i : nat) (es : list (list Z * Z * Z)) : list dirent :=
  match es with
  | [] => []
  | (name, ino, type) :: es => Dirent ino (Z.of_nat i + 1) type name :: dirents (S i) es
  end.

Lemma read_bytes_store8_0 m a n v :
  region a (Z.of_nat n) -> (0 < n)%nat -> read_bytes (store8 m a v) a n = <[0%nat := u8 v]> (read_bytes m a n).
Proof. intros Hr Hn. rewrite <- (Z.add_0_r a) at 1. apply read_bytes_store8; [done | lia]. Qed.

(** Bytes put over a list from a position on. *)
Fixpoint overlay (i : nat) (l base : list Z) : list Z :=
  match l with
  | [] => base
  | b :: l => overlay (S i) l (<[i := u8 b]> base)
  end.

Lemma read_bytes_overlay a n l : forall m i,
  region a (Z.of_nat n) -> 0 <= i -> i + Z.of_nat (length l) <= Z.of_nat n ->
  read_bytes (write_bytes m (a + i) l) a n = overlay (Z.to_nat i) l (read_bytes m a n).
Proof.
  induction l as [|b l IH]; intros m i Hr Hi Hn; simpl in *; [done|].
  rewrite <- Z.add_assoc, IH by (done || lia). rewrite read_bytes_store8 by (done || lia).
  f_equal. lia.
Qed.

(** The bytes [linux_copyout_dirent64] stores, in its order. *)
Definition stored_bytes (off : Z) (e : list Z * Z * Z) : list Z :=
  let '(name, ino, type) := e in
  let at32 (i : nat) (v : Z) (l : list Z) :=
    <[(i + 3)%nat := u8 (v / 65536 / 256)]> (<[(i + 2)%nat := u8 (v / 65536)]>
      (<[(i + 1)%nat := u8 (v / 256)]> (<[i := u8 v]> l))) in
  let l := replicate (Z.to_nat (reclen_of e)) 0 in
  let l := at32 12%nat 0 (at32 8%nat off (at32 4%nat 0 (at32 0%nat ino l))) in
  let l := <[17%nat := u8 (u8 (Z.shiftr (u16 (reclen_of e)) 8))]>
    (<[16%nat := u8 (u8 (u16 (reclen_of e)))]> l) in
  let l := overlay 19 name (<[18%nat := u8 (u8 type)]> l) in
  <[(19 + length name)%nat := 0]> l.

Lemma stored_bytes_listing :
  Forall (fun x => stored_bytes (Z.of_nat x.1 + 1) x.2 = dirent_bytes (Z.of_nat x.1 + 1) x.2)
    (imap pair proc_listing).
Proof. by_computation. Qed.

Lemma listing_in i e : proc_listing !! i = Some e -> (i, e) ∈ imap pair proc_listing.
Proof. intros Hi. apply list_elem_of_lookup. exists i. by rewrite list_lookup_imap, Hi. Qed.

Lemma reclen_bound name ino type :
  linux_strlen name < 1000 ->
  20 + Z.of_nat (length name) <= reclen_of (name, ino, type) < 28 + Z.of_nat (length name).
Proof.
  intros Hn. unfold reclen_of, linux_strlen in *. cbn [fst].
  pose proof (align8_ge (19 + Z.of_nat (length name) + 1)). lia.
Qed.

Lemma copyout_dirent_stored m a off name ino type :
  linux_strlen name < 1000 -> region a (reclen_of (name, ino, type)) ->
  read_bytes (linux_copyout_dirent64 m a ino off type name).1 a
    (Z.to_nat (reclen_of (name, ino, type))) = stored_bytes off (name, ino, type).
Proof.
  intros Hn Hr. pose proof (reclen_bound name ino type Hn) as Hrec. unfold stored_bytes.
  set (r := reclen_of (name, ino, type)) in *.
  unfold linux_copyout_dirent64, linux_store64, linux_store16, linux_store32, linux_store8, store32,
    store16, linux_copy_to_user, linux_zero_user. cbn [fst].
  change (linux_align8 (19 + linux_strlen name + 1)) with r. unfold linux_strlen.
  rewrite <- (Z2Nat.id r) in Hr, Hrec by lia. set (n := Z.to_nat r) in *.
  rewrite <- !Z.add_assoc.
  repeat first
    [ rewrite read_bytes_store8 by (done || lia) | rewrite read_bytes_store8_0 by (done || lia)
    | rewrite read_bytes_overlay by (done || lia) ].
  rewrite read_bytes_zero by done.
  replace (Z.to_nat (19 + Z.of_nat (length name))) with (19 + length name)%nat by lia.
  reflexivity.
Qed.

Lemma listing_names :
  Forall (fun e => linux_strlen e.1.1 < 100 /\ reclen_of e <= 32) proc_listing.
Proof. by_computation. Qed.

Lemma copyout_dirent_bytes m a i name ino type :
  proc_listing !! i = Some (name, ino, type) -> region a (reclen_of (name, ino, type)) ->
  read_bytes (linux_copyout_dirent64 m a ino (Z.of_nat i + 1) type name).1 a
    (Z.to_nat (reclen_of (name, ino, type))) = dirent_bytes (Z.of_nat i + 1) (name, ino, type).
Proof.
  intros Hi Hr. destruct (Forall_lookup_1 _ _ _ _ listing_names Hi) as [Hn _]. cbn [fst] in Hn.
  rewrite copyout_dirent_stored by (done || lia).
  exact (proj1 (Forall_forall _ _) stored_bytes_listing _ (listing_in _ _ Hi)).
Qed.

Lemma copyout_dirent_frame m a off name ino type :
  linux_strlen name < 1000 -> region a (reclen_of (name, ino, type)) ->
  Prelude.frame m (linux_copyout_dirent64 m a ino off type name).1 a (reclen_of (name, ino, type)).
Proof.
  intros Hn (? & ? & ?) x Hx. set (r := reclen_of (name, ino, type)) in *.
  apply (writes_in_dirent [(a, r)] m m a r ino off type name);
    [done | apply covers_elem; by left | lia | done |].
  intros b [= ->]%list_elem_of_singleton (i & Hi & ->). cbn [fst snd] in Hi. apply Hx.
  unfold inside. cbn [fst]. rewrite u32_small by mlia. lia.
Qed.

Lemma dirent_parses : Forall (fun x => forall rest fuel,
    parse_dirents (S fuel) (dirent_bytes (Z.of_nat x.1 + 1) x.2 ++ rest) =
    Dirent x.2.1.2 (Z.of_nat x.1 + 1) x.2.2 x.2.1.1 :: parse_dirents fuel rest)
  (imap pair proc_listing).
Proof.
  repeat apply Forall_cons_2; [..|apply Forall_nil_2]; intros rest fuel; cbn [fst snd].
  all: match goal with |- context [dirent_bytes ?o ?e] =>
    let l := eval vm_compute in (dirent_bytes o e) in
    replace (dirent_bytes o e) with l by (vm_compute; reflexivity) end.
  all: cbn [app]; cbn [parse_dirents]; f_equal.
  all: vm_compute; reflexivity.
Qed.

Lemma records_parse es : forall i fuel,
  (exists n, es = take n (drop i proc_listing)) -> (length es <= fuel)%nat ->
  parse_dirents fuel (records i es) = dirents i es.
Proof.
  induction es as [|[[name ino] type] es IH]; intros i fuel [n Hes] Hf; cbn [records dirents].
  - by destruct fuel.
  - destruct fuel as [|fuel]; simpl in Hf; [lia|].
    assert (proc_listing !! i = Some (name, ino, type)) as Hi.
    { destruct n; [done|]. destruct (drop i proc_listing) eqn:Hd; [done|]. injection Hes as <- _.
      rewrite <- (Nat.add_0_r i), <- lookup_drop, Hd. done. }
    rewrite (proj1 (Forall_forall _ _) dirent_parses _ (listing_in _ _ Hi)). cbn [fst snd]. f_equal.
    apply IH; [|lia]. exists (pred n). rewrite (drop_S _ _ _ Hi) in Hes. destruct n; [done|].
    by injection Hes.
Qed.

Lemma fitting_prefix es : forall room, fitting es room = take (length (fitting es room)) es.
Proof.
  induction es as [|e es IH]; intros room; cbn [fitting]; [done|].
  case_if; [|done]. cbn [length take]. by rewrite <- IH.
Qed.

Lemma fitting_progress i room :
  32 <= room -> (i < 9)%nat -> (1 <= length (fitting (drop i proc_listing) room))%nat.
Proof.
  intros Hr Hi. destruct (lookup_lt_is_Some_2 proc_listing i Hi) as [e He].
  rewrite (drop_S _ _ _ He). cbn [fitting]. destruct (Forall_lookup_1 _ _ _ _ listing_names He) as [_ Hl].
  rewrite (proj2 (Z.leb_le _ _)) by lia. simpl. lia.
Qed.

Definition total_len (es : list (list Z * Z * Z)) : Z := foldr (fun e t => reclen_of e + t) 0 es.

(** ** Metadata *)

Lemma known_path_metadata m ks addr :
  linux_known_path m addr = true <-> is_Some (linux_path_metadata m ks addr).
Proof.
  unfold linux_known_path, linux_path_metadata.
  repeat match goal with |- context [linux_user_streq m addr ?t] =>
    destruct (linux_user_streq m addr t); cbn [orb]; rewrite ?orb_true_r;
      [split; [intros _; repeat case_match; by eexists | done]|] end.
  split; [done | by intros [? ?]].
Qed.

Lemma statx_metadata_agrees m ks addr md :
  linux_path_metadata m ks addr = Some md -> statx_metadata m ks addr = md.
Proof.
  unfold statx_metadata, linux_path_metadata.
  repeat match goal with |- context [linux_user_streq m addr ?t] =>
    destruct (linux_user_streq m addr t); cbn [orb]; [intros H; injection H; intros; congruence|] end.
  done.
Qed.

(** The metadata a file of /proc should have. *)
Definition file_metadata (f : Z * list Z) : Z * Z * Z :=
  (LINUX_MODE_REG, linux_strlen f.2, fstat_ino f.1).

(** [linux_path_metadata] as a function of the path. *)
Definition metadata_of (ks : Z) (path : list Z) : option (Z * Z * Z) :=
  let isp t := bool_decide (path = t) in
  if isp (cstr "/") || isp (cstr "/proc") || isp (cstr "/proc/self") then Some (LINUX_MODE_DIR, 0, 5)
  else if isp (cstr "/proc/self/exe") then Some (LINUX_MODE_LNK, 11, 7)
  else if isp (cstr "/proc/version") then Some (LINUX_MODE_REG, linux_strlen g_stage0_proc_version, 8)
  else if isp (cstr "/proc/cpuinfo") then Some (LINUX_MODE_REG, linux_strlen g_stage0_proc_cpuinfo, 9)
  else if isp (cstr "/proc/meminfo") then Some (LINUX_MODE_REG, linux_strlen g_stage0_proc_meminfo, 10)
  else if isp (cstr "/proc/uptime") then Some (LINUX_MODE_REG, linux_strlen g_stage0_proc_uptime, 12)
  else if isp (cstr "/proc/stat") then Some (LINUX_MODE_REG, linux_strlen g_stage0_proc_stat, 13)
  else if isp (cstr "/proc/caribeos") then Some (LINUX_MODE_REG, linux_strlen g_stage0_proc_caribeos, 11)
  else if isp (cstr "/kernel.elf") then Some (LINUX_MODE_REG, ks, 17)
  else None.

Lemma path_metadata_of m ks addr path :
  cstr_at m addr path -> linux_path_metadata m ks addr = metadata_of ks path.
Proof.
  intros Hp. unfold linux_path_metadata. by rewrite !(streq_lit m addr path) by (done || by vm_compute).
Qed.

Lemma proc_files_metadata ks :
  Forall (fun e => metadata_of ks e.1.1 = Some (file_metadata (e.1.2, e.2))) proc_files.
Proof. by_computation. Qed.

Lemma file_of_elem path n content :
  file_of path = Some (n, content) -> (path, n, content) ∈ proc_files.
Proof.
  unfold file_of. destruct (List.find _ _) as [[[q n'] c']|] eqn:He; [|done].
  apply List.find_some in He as [Hin Heq]. apply list_elem_of_In in Hin.
  apply bytes_eqb_eq in Heq. cbn [fmap option_fmap option_map fst snd] in *. subst q.
  by intros [= <- <-].
Qed.

Lemma file_content path n content :
  file_of path = Some (n, content) -> linux_proc_file_content n = content /\ n <> 0.
Proof. intros Hf%file_of_elem. exact (proj1 (Forall_forall _ _) proc_files_content _ Hf). Qed.

Lemma proc_files_listed :
  Forall (fun e => exists name, e.1.1 = "/proc/" ++ name /\
    (name, fstat_ino e.1.2, LINUX_DT_REG) ∈ proc_listing) proc_files.
Proof.
  unfold proc_files. rewrite !Forall_cons. split_and!; try done.
  - exists (cstr "version"). split; [by vm_compute | by_computation].
  - exists (cstr "cpuinfo"). split; [by vm_compute | by_computation].
  - exists (cstr "meminfo"). split; [by vm_compute | by_computation].
  - exists (cstr "uptime"). split; [by vm_compute | by_computation].
  - exists (cstr "stat"). split; [by vm_compute | by_computation].
  - exists (cstr "caribeos"). split; [by vm_compute | by_computation].
Qed.

(** Metadata.  stat64 by path, statx and fstat64 of the open file report the
    same mode, size and inode: the path routine knows exactly the known paths,
    statx agrees with it on all of them, and for each file of /proc it gives the
    length of the contents and the inode of the open descriptor, which is also
    the inode of the entry in the listing. *)
Theorem path_metadata_agree (m : mem) (ks addr : Z) (path : list Z) (Hp : cstr_at m addr path) :
  (linux_known_path m addr = true <-> is_Some (linux_path_metadata m ks addr)) /\
  (forall md, linux_path_metadata m ks addr = Some md -> statx_metadata m ks addr = md) /\
  (forall n content, file_of path = Some (n, content) ->
     linux_path_metadata m ks addr = Some (LINUX_MODE_REG, linux_strlen content, fstat_ino n) /\
     linux_proc_file_content n = content /\
     exists name, path = "/proc/" ++ name /\ (name, fstat_ino n, LINUX_DT_REG) ∈ proc_listing).
Proof.
  split; [apply known_path_metadata|]. split; [intros md; apply statx_metadata_agrees|].
  intros n content Hf. rewrite (path_metadata_of _ _ _ path) by done.
  destruct (file_content _ _ _ Hf) as [Hc _]. apply file_of_elem in Hf.
  split; [exact (proj1 (Forall_forall _ _) (proc_files_metadata ks) _ Hf)|]. split; [done|].
  exact (proj1 (Forall_forall _ _) proc_files_listed _ Hf).
Qed.

Lemma file_of_stat : file_of "/proc/stat" = Some (6, g_stage0_proc_stat).
Proof. by vm_compute. Qed.

Lemma path_metadata_agree_example :
  linux_path_metadata (mem_of_list 4096 ("/proc/stat" ++ [0])) 0 4096 =
    Some (LINUX_MODE_REG, linux_strlen g_stage0_proc_stat, 13).
Proof.
  assert (cstr_at (mem_of_list 4096 ("/proc/stat" ++ [0])) 4096 "/proc/stat") as Hp by by vm_compute.
  destruct (path_metadata_agree _ 0 _ _ Hp) as (_ & _ & H).
  exact (proj1 (H 6 g_stage0_proc_stat file_of_stat)).
Defined.

(** ** Code that only prints *)

Definition quiet {A} (c : K A) : Prop :=
  forall k, returns c k (fun _ k' => exists t, k' = add_out t k).

Lemma quiet_puts t : quiet (puts t).
Proof. intros k. by exists (crlf t). Qed.

Lemma quiet_ret {A} (a : A) : quiet (mret a).
Proof. intros k. exists []. destruct k. unfold add_out. cbn. by rewrite app_nil_r. Qed.

Lemma quiet_if {A} (b : bool) (c d : K A) : quiet c -> quiet d -> quiet (if b then c else d).
Proof. by destruct b. Qed.

Lemma quiet_print_path addr : quiet (print_path addr).
Proof. apply quiet_if; [intros k; by eexists | apply quiet_ret]. Qed.

Lemma quiet_print_dirfd fd : quiet (print_dirfd fd).
Proof. apply quiet_if; apply quiet_puts. Qed.

Lemma returns_quiet {A B} (c : K A) (f : A -> K B) k (Q : B -> kstate -> Prop) :
  quiet c -> (forall a t, returns (f a) (add_out t k) Q) -> returns (c ≫= f) k Q.
Proof. intros Hc Hf. eapply returns_bind; [apply Hc|]. intros a k' [t ->]. apply Hf. Qed.

(** The continuation as the postcondition of the first part. *)
Lemma returns_seq {A B} (c : K A) (f : A -> K B) k (Q : B -> kstate -> Prop) :
  returns c k (fun a k' => returns (f a) k' Q) -> returns (c ≫= f) k Q.
Proof. intros Hc. by eapply returns_bind; [exact Hc|]. Qed.

(** Goes over the prints and the reads of the state. *)
Ltac skip_prints :=
  repeat lazymatch goal with
  | |- returns (mbind _ (getP _)) _ _ => apply returns_get
  | |- returns (mbind _ getg) _ _ => apply returns_get
  | |- returns (mbind _ (puts _)) _ _ => apply returns_quiet; [apply quiet_puts | intros _ ?]
  | |- returns (mbind _ (kputdec _)) _ _ => apply returns_quiet; [apply quiet_puts | intros _ ?]
  | |- returns (mbind _ (kputhex32 _)) _ _ => apply returns_quiet; [apply quiet_puts | intros _ ?]
  | |- returns (mbind _ (print_path _)) _ _ =>
      apply returns_quiet; [apply quiet_print_path | intros _ ?]
  | |- returns (mbind _ (print_dirfd _)) _ _ =>
      apply returns_quiet; [apply quiet_print_dirfd | intros _ ?]
  | |- returns (mbind _ (if _ then puts _ else puts _)) _ _ =>
      apply returns_quiet; [apply quiet_if; apply quiet_puts | intros _ ?]
  | |- returns (mbind _ (if _ then kputdec _ else puts _)) _ _ =>
      apply returns_quiet; [apply quiet_if; apply quiet_puts | intros _ ?]
  end.

(** ** User programs *)

Section Programs.
Context (timer : nat -> Z).

(** The registers of a program that makes the call; the rest of the frame is [f]. *)
Definition call_frame (nr x0 x1 x2 : Z) (f : frame) : frame :=
  Frame x0 x1 x2 0 0 nr (sepc f) SCAUSE_ECALL_U (stval f) (regs f).

(** One system call from user mode: its return value. *)
Definition call (nr x0 x1 x2 : Z) : K Z :=
  modifyP (fun k => set_frame (call_frame nr x0 x1 x2 (k_frame k)) k);;
  xnu_stage0_user_trap_dispatch timer;;
  getP (fun k => a0 (k_frame k)).

(** Reads of [n] bytes to [buf], for each element of the list: the bytes each
    read delivered. *)
Fixpoint read_pieces (reads : list (Z * Z)) : K (list (list Z)) :=
  match reads with
  | [] => mret []
  | (buf, n) :: reads =>
      ret ← call 63 XNU_STAGE0_PROC_FD buf n;
      m ← getP k_mem;
      rest ← read_pieces reads;
      mret (read_bytes m buf (Z.to_nat ret) :: rest)
  end.

(** Opens the file whose path is at [addr] and reads it. *)
Definition cat (addr : Z) (reads : list (Z * Z)) : K (Z * list (list Z)) :=
  fd ← call 56 LINUX_AT_FDCWD addr 0;
  pieces ← read_pieces reads;
  mret (fd, pieces).

(** Projections of an updated state. *)
Ltac fields := cbn [add_out entered set_frame set_glob set_kmem set_last count_syscall set_proc set_dir
  returned call_frame k_frame k_glob k_mem k_halted a0 a1 a2 a3 a4 a7 sepc proc_open proc_offset
  proc_file proc_dir_open proc_dir_offset].

Lemma call_handled nr x0 x1 x2 k h (Q : Z -> kstate -> Prop) :
  let f := call_frame nr x0 x1 x2 (k_frame k) in
  handler timer nr = Some h ->
  returns (h f) (entered (set_frame f k))
    (fun ret k' => Q ret (set_frame (returned (k_frame k') ret) k')) ->
  returns (call nr x0 x1 x2) k Q.
Proof.
  intros f Hh HQ. unfold call. apply returns_modify. eapply returns_bind.
  - apply (dispatch_handled timer _ h (fun _ k' => Q (a0 (k_frame k')) k')); [done | done | exact HQ].
  - by intros [] k' Hk'.
Qed.

(** *** Opening *)

Lemma openat_opens k addr path n content :
  addr <> 0 -> cstr_at (k_mem k) addr path -> file_of path = Some (n, content) ->
  returns (call 56 LINUX_AT_FDCWD addr 0) k (fun fd k' =>
    fd = XNU_STAGE0_PROC_FD /\ k_mem k' = k_mem k /\ k_halted k' = k_halted k /\
    proc_open (k_glob k') = 1 /\ proc_offset (k_glob k') = 0 /\ proc_file (k_glob k') = n).
Proof.
  intros Ha Hp Hf. apply (call_handled _ _ _ _ _ sys_openat); [done|].
  assert (openat_file (k_mem k) addr = Some n) as Ho by by rewrite (openat_file_of _ _ path), Hf.
  assert ((addr =? 0) = false) as Hz by by apply Z.eqb_neq.
  unfold sys_openat. skip_prints. fields. rewrite Hz, Ho. cbn [negb].
  apply returns_seq, returns_modify, returns_ret. skip_prints. apply returns_ret. by split_and!.
Qed.

(** *** Reading *)

(** The descriptor is open on [content] at [pos]. *)
Definition open_at (content : list Z) (pos : nat) (k : kstate) : Prop :=
  proc_open (k_glob k) <> 0 /\ linux_proc_file_content (proc_file (k_glob k)) = content /\
  proc_offset (k_glob k) = Z.of_nat pos /\ (pos <= length content < 1000)%nat.

Lemma read_delivers k content pos buf n :
  open_at content pos k -> Forall is_u8 content -> 0 < buf -> region buf n ->
  returns (call 63 XNU_STAGE0_PROC_FD buf n) k (fun ret k' =>
    let piece := take (Z.to_nat n) (drop pos content) in
    ret = Z.of_nat (length piece) /\ read_bytes (k_mem k') buf (Z.to_nat ret) = piece /\
    open_at content (pos + length piece) k').
Proof.
  intros (Ho & Hc & Hp & Hlen) Hb Hbuf Hreg. apply (call_handled _ _ _ _ _ sys_read); [done|].
  unfold sys_read. skip_prints. fields.
  rewrite (proj2 (Z.eqb_neq buf 0)), (proj2 (Z.eqb_neq _ 0) Ho) by lia. cbn [negb andb].
  unfold XNU_STAGE0_PROC_FD. cbn [Z.eqb Pos.eqb].
  set (m := if _ <? n then _ else n). rewrite Hc, Hp, Nat2Z.id. cbn [andb].
  set (piece := take (Z.to_nat n) (drop pos content)).
  assert (m = Z.of_nat (length piece)) as Hm.
  { unfold m, piece. rewrite Hc, Hp, length_take, length_drop. unfold linux_strlen.
    destruct Hreg as (_ & ? & _).
    destruct (Z.ltb_spec (Z.of_nat pos) (Z.of_nat (length content)));
      match goal with |- context [?x <? n] => destruct (Z.ltb_spec x n) end; lia. }
  assert (take (Z.to_nat m) (drop pos content) = piece) as ->.
  { rewrite Hm, Nat2Z.id. unfold piece. rewrite length_take, <- take_take.
    rewrite (take_ge (drop pos content) (length _)); done. }
  apply returns_seq, returns_modify, returns_modify, returns_ret. skip_prints. apply returns_ret. fields.
  assert (length piece <= length content - pos)%nat as Hle.
  { unfold piece. rewrite length_take, length_drop. lia. }
  split; [done|]. rewrite Hm, Nat2Z.id. split; [|split_and!; fields; try done; try lia].
  - apply read_write_bytes.
    + destruct Hreg as (? & ? & ?). unfold piece in *. rewrite length_take. unfold region. lia.
    + by apply Forall_take, Forall_drop.
  - rewrite u32_small by mlia. lia.
Qed.

(** The pieces delivered by successive reads of the sizes. *)
Fixpoint pieces_of (content : list Z) (reads : list (Z * Z)) : list (list Z) :=
  match reads with
  | [] => []
  | (_, n) :: reads =>
      take (Z.to_nat n) content :: pieces_of (drop (Z.to_nat n) content) reads
  end.

Definition read_ok (r : Z * Z) : Prop := 0 < r.1 /\ region r.1 r.2.

Lemma read_pieces_deliver content reads : forall k pos,
  open_at content pos k -> Forall is_u8 content -> Forall read_ok reads ->
  returns (read_pieces reads) k (fun ps _ => ps = pieces_of (drop pos content) reads).
Proof.
  induction reads as [|[buf n] reads IH]; intros k pos Ho Hb Hr; cbn [read_pieces pieces_of]; [done|].
  apply Forall_cons in Hr as [[Hbuf Hreg] Hr].
  eapply returns_bind; [by apply read_delivers|]. intros ret k1 (-> & Hp & Ho1).
  apply returns_get. rewrite Hp. eapply returns_bind; [by apply IH|]. intros ps k2 ->.
  apply returns_ret. do 2 f_equal. rewrite drop_drop. rewrite length_take, length_drop.
  destruct (decide (Z.to_nat n <= length content - pos)%nat).
  - f_equal. lia.
  - rewrite !drop_ge by lia. done.
Qed.

Definition bytes_asked (reads : list (Z * Z)) : nat := sum_list_with (fun r => Z.to_nat r.2) reads.

Lemma pieces_of_concat reads : forall content,
  concat (pieces_of content reads) = take (bytes_asked reads) content.
Proof.
  induction reads as [|[buf n] reads IH]; intros content; simpl; [done|].
  rewrite IH. by rewrite take_take_drop.
Qed.

Lemma pieces_of_short reads : forall content,
  Forall2 (fun p r => (length p <= Z.to_nat r.2)%nat) (pieces_of content reads) reads.
Proof.
  induction reads as [|[buf n] reads IH]; intros content; constructor; [|apply IH].
  simpl. rewrite length_take. lia.
Qed.

Lemma proc_files_bytes : Forall (fun e => Forall is_u8 e.2) proc_files.
Proof. unfold is_u8. by_computation. Qed.

Lemma file_bytes path n content : file_of path = Some (n, content) -> Forall is_u8 content.
Proof. intros Hf%file_of_elem. exact (proj1 (Forall_forall _ _) proc_files_bytes _ Hf). Qed.

(** C17: reading a file of /proc.  A program that opens one of the six files and
    reads it with buffers of any sizes gets its contents: no read delivers more
    than was asked for, and the pieces put together are the first bytes of the
    file, as many as were asked for in all (the whole file once enough were). *)
Theorem cat_reads_file (k : kstate) (addr : Z) (path : list Z) (n : Z) (content : list Z)
    (reads : list (Z * Z))
    (Haddr : addr <> 0) (Hpath : cstr_at (k_mem k) addr path)
    (Hfile : file_of path = Some (n, content)) (Hreads : Forall read_ok reads) :
  returns (cat addr reads) k (fun r _ =>
    r.1 = XNU_STAGE0_PROC_FD /\
    concat r.2 = take (bytes_asked reads) content /\
    Forall2 (fun p r => (length p <= Z.to_nat r.2)%nat) r.2 reads).
Proof.
  unfold cat. eapply returns_bind; [by eapply openat_opens|].
  intros fd k1 (-> & _ & _ & Ho & Hp & Hf). destruct (file_content _ _ _ Hfile) as [Hc _].
  assert (open_at content 0 k1) as Hopen.
  { pose proof (proc_content_short n) as Hs. unfold linux_strlen in Hs. rewrite Hc in Hs.
    unfold open_at. rewrite Ho, Hp, Hf, Hc. split_and!; (done || lia). }
  eapply returns_bind; [eapply read_pieces_deliver; [done | by eapply file_bytes | done]|].
  intros ps k2 ->. apply returns_ret. cbn [fst snd]. rewrite drop_0.
  split; [done|]. split; [apply pieces_of_concat | apply pieces_of_short].
Qed.

(** *** Listing *)

(** Calls of getdents64 with the buffers: the entries of all of them. *)
Fixpoint list_dir (calls : list (Z * Z)) : K (list dirent) :=
  match calls with
  | [] => mret []
  | (buf, count) :: calls =>
      ret ← call 61 XNU_STAGE0_PROC_DIR_FD buf count;
      m ← getP k_mem;
      rest ← list_dir calls;
      mret (parse_dirents (Z.to_nat ret) (read_bytes m buf (Z.to_nat ret)) ++ rest)
  end.

Definition ls (addr : Z) (calls : list (Z * Z)) : K (Z * list dirent) :=
  fd ← call 56 LINUX_AT_FDCWD addr 0;
  ds ← list_dir calls;
  mret (fd, ds).

Lemma openat_proc k addr :
  addr <> 0 -> cstr_at (k_mem k) addr "/proc" ->
  returns (call 56 LINUX_AT_FDCWD addr 0) k (fun fd k' =>
    fd = XNU_STAGE0_PROC_DIR_FD /\ proc_dir_open (k_glob k') <> 0 /\ proc_dir_offset (k_glob k') = 0).
Proof.
  intros Ha Hp. apply (call_handled _ _ _ _ _ sys_openat); [done|].
  assert (openat_file (k_mem k) addr = None) as Ho by by rewrite (openat_file_of _ _ "/proc").
  assert (linux_user_streq (k_mem k) addr "/proc" = true) as Hs
    by by rewrite (streq_lit _ _ "/proc").
  assert ((addr =? 0) = false) as Hz by by apply Z.eqb_neq.
  unfold sys_openat. skip_prints. fields. rewrite Hz, Ho, Hs. cbn [negb andb].
  apply returns_seq, returns_modify, returns_ret. skip_prints. apply returns_ret. by split_and!.
Qed.

Lemma getdents_loop_lists buf count fuel : forall i total k,
  0 < buf -> region buf count -> 0 <= total <= count -> proc_dir_offset (k_glob k) = Z.of_nat i ->
  (9 <= i + fuel)%nat ->
  returns (getdents_loop fuel buf count total) k (fun ret k' =>
    let es := fitting (drop i proc_listing) (count - total) in
    ret = total + total_len es /\ total_len es <= count - total /\
    read_bytes (k_mem k') buf (Z.to_nat ret) =
      read_bytes (k_mem k) buf (Z.to_nat total) ++ records i es /\
    proc_dir_open (k_glob k') = proc_dir_open (k_glob k) /\
    proc_dir_offset (k_glob k') = Z.of_nat (i + length es)).
Proof.
  induction fuel as [|fuel IH]; intros i total k Hbuf Hreg Ht Hoff Hf; cbn [getdents_loop];
    apply returns_get; rewrite Hoff, proc_dir_entry_lookup;
    destruct (proc_listing !! i) as [[[name ino] type]|] eqn:Hi.
  1: apply lookup_lt_Some in Hi; simpl in Hi; lia.
  1, 3: rewrite drop_ge by (by apply lookup_ge_None); apply returns_ret; cbn [fitting records total_len foldr];
    rewrite app_nil_r; split_and!; (done || lia || (rewrite Hoff; simpl; lia)).
  rewrite (drop_S _ _ _ Hi). cbn [fitting]. fold (reclen_of (name, ino, type)).
  change (linux_align8 (19 + linux_strlen name + 1)) with (reclen_of (name, ino, type)).
  destruct (Forall_lookup_1 _ _ _ _ listing_names Hi) as [Hn Hr32]. cbn [fst] in Hn.
  pose proof (reclen_bound name ino type ltac:(lia)) as Hb.
  remember (name, ino, type) as e eqn:He. pose proof Hreg as (Hb0 & Hc0 & Hend).
  rewrite (u32_small (count - total)) by mlia.
  destruct (Z.ltb_spec (count - total) (reclen_of e)) as [Hlt|Hge].
  { rewrite (proj2 (Z.leb_gt _ _)) by lia. apply returns_ret. cbn [records total_len foldr].
    rewrite app_nil_r, Hoff. split_and!; (done || lia || (simpl; lia)). }
  rewrite (proj2 (Z.leb_le _ _)) by lia. do 8 apply returns_modify.
  rewrite (u32_small (total + _)), (u32_small (buf + total)) by mlia.
  assert (i < 9)%nat by (apply lookup_lt_Some in Hi; simpl in Hi; lia).
  rewrite (u32_small (Z.of_nat i + 1)) by mlia.
  eapply returns_mono; [apply (IH (S i)); fields; [done | done | lia | by rewrite Nat2Z.inj_succ | lia]|].
  intros ret k'. fields. replace (count - (total + reclen_of e)) with (count - total - reclen_of e) by lia.
  set (es := fitting _ _). intros (-> & Hle & Hbytes & Hopen & Hoffset).
  cbn [records total_len foldr length]. fold (total_len es).
  split; [lia|]. split; [lia|]. split; [|split; [done | rewrite Hoffset; lia]].
  replace (total + (reclen_of e + total_len es)) with (total + reclen_of e + total_len es) by lia.
  rewrite Hbytes, app_assoc. f_equal.
  replace (Z.to_nat (total + reclen_of e)) with (Z.to_nat total + Z.to_nat (reclen_of e))%nat by lia.
  rewrite read_bytes_app, Z2Nat.id by lia. f_equal.
  all: subst e.
  - eapply read_bytes_frame; [apply copyout_dirent_frame; [lia | unfold region; lia] | unfold region; lia |].
    left. lia.
  - apply copyout_dirent_bytes; [done | unfold region; lia].
Qed.


Definition dir_at (i : nat) (k : kstate) : Prop :=
  proc_dir_open (k_glob k) <> 0 /\ proc_dir_offset (k_glob k) = Z.of_nat i.

Definition list_ok (c : Z * Z) : Prop := 0 < c.1 /\ region c.1 c.2 /\ 32 <= c.2.

Lemma total_len_ge es : (forall e, e ∈ es -> e ∈ proc_listing) -> Z.of_nat (length es) <= total_len es.
Proof.
  induction es as [|[[name ino] type] es IH]; intros Hin; cbn [length total_len foldr]; [done|].
  fold (total_len es). assert ((name, ino, type) ∈ proc_listing) as Hl by (apply Hin; by left).
  destruct (proj1 (Forall_forall _ _) listing_names _ Hl) as [Hn _]. cbn [fst] in Hn.
  pose proof (reclen_bound name ino type ltac:(lia)).
  assert (Z.of_nat (length es) <= total_len es) by (apply IH; intros e He; apply Hin; by right). lia.
Qed.

Lemma getdents_lists k i buf count :
  dir_at i k -> (i <= 9)%nat -> list_ok (buf, count) ->
  returns (call 61 XNU_STAGE0_PROC_DIR_FD buf count) k (fun ret k' =>
    let es := fitting (drop i proc_listing) count in
    parse_dirents (Z.to_nat ret) (read_bytes (k_mem k') buf (Z.to_nat ret)) = dirents i es /\
    dir_at (i + length es) k').
Proof.
  intros [Ho Hoff] Hi (Hbuf & Hreg & Hcount). apply (call_handled _ _ _ _ _ sys_getdents64); [done|].
  unfold sys_getdents64. skip_prints. fields.
  rewrite (proj2 (Z.eqb_neq buf 0)), (proj2 (Z.eqb_neq _ 0) Ho) by (cbn in Hbuf; lia). cbn [negb andb].
  rewrite Z.eqb_refl. cbn [andb]. apply returns_seq.
  eapply returns_mono; [apply (getdents_loop_lists buf count 9 i 0); fields; (done || lia || idtac)|].
  { destruct Hreg. cbn in *. lia. }
  intros ret k' (-> & Hle & Hbytes & Hopen & Hoffset). revert Hle Hbytes Hopen Hoffset.
  rewrite Z.sub_0_r, !Z.add_0_l. set (es := fitting _ _). cbn [read_bytes app Z.to_nat]. fields.
  intros Hle Hbytes Hopen Hoffset.
  apply returns_quiet; [apply quiet_puts | intros _ ?].
  apply returns_quiet; [apply quiet_if; [apply quiet_puts | apply quiet_if; apply quiet_puts] | intros _ ?].
  skip_prints. apply returns_ret. fields. rewrite Hbytes.
  split; [|split; fields; [by rewrite Hopen | done]].
  pose proof (fitting_prefix (drop i proc_listing) count) as Hn. fold es in Hn.
  apply records_parse; [by eexists|].
  assert (Z.of_nat (length es) <= total_len es); [|lia]. apply total_len_ge.
  intros e He. rewrite Hn in He. apply elem_of_take in He as (j & He & _).
  rewrite lookup_drop in He. by eapply list_elem_of_lookup_2.
Qed.

Definition proc_dirents : list dirent := dirents 0 proc_listing.

Lemma dirents_drop i : forall es, dirents i (drop i es) = drop i (dirents 0 es).
Proof.
  assert (forall i j es, dirents (i + j) (drop i es) = drop i (dirents j es)) as H.
  { intros i'. induction i' as [|i' IH]; intros j es; [by rewrite !drop_0|].
    destruct es as [|[[name ino] type] es]; [done|]. cbn [drop dirents]. rewrite <- IH. f_equal. lia. }
  intros es. rewrite <- (Nat.add_0_r i) at 1. apply H.
Qed.

Lemma dirents_take n : forall i es, dirents i (take n es) = take n (dirents i es).
Proof.
  induction n as [|n IH]; intros i es; [done|]. destruct es as [|[[name ino] type] es]; [done|].
  cbn [take dirents]. f_equal. apply IH.
Qed.

Lemma list_dir_lists calls : forall i k,
  dir_at i k -> (i <= 9)%nat -> Forall list_ok calls ->
  returns (list_dir calls) k (fun ds _ => exists j, ds = take j (drop i proc_dirents) /\
    (length ds = j) /\ (Nat.min (9 - i) (length calls) <= j)%nat).
Proof.
  induction calls as [|[buf count] calls IH]; intros i k Hd Hi Hok; cbn [list_dir length].
  { apply returns_ret. exists 0%nat. split_and!; (done || lia). }
  apply Forall_cons in Hok as [Hc Hok]. eapply returns_bind; [by apply (getdents_lists _ i)|].
  intros ret k1 [Hp Hd1]. set (es := fitting (drop i proc_listing) count) in *.
  pose proof (fitting_prefix (drop i proc_listing) count) as Hn. fold es in Hn.
  assert (length es <= 9 - i)%nat as Hle.
  { rewrite Hn, length_take, length_drop. change (length proc_listing) with 9%nat. lia. }
  apply returns_get. rewrite Hp. eapply returns_bind; [apply (IH _ _ Hd1); [lia | done]|].
  intros ds k2 (j & -> & Hlen & Hj). apply returns_ret. exists (length es + j)%nat.
  assert (dirents i es = take (length es) (drop i proc_dirents)) as Hes.
  { rewrite Hn at 1. by rewrite dirents_take, dirents_drop. }
  assert (length (take (length es) (drop i proc_dirents)) = length es) as Hl1.
  { rewrite length_take, length_drop. change (length proc_dirents) with 9%nat. lia. }
  rewrite Hes, length_app, Hl1, Hlen. split; [by rewrite <- drop_drop, take_take_drop|]. split; [done|].
  destruct Hc as (_ & _ & Hc). cbn [snd] in Hc. destruct (decide (i < 9)%nat); [|lia].
  pose proof (fitting_progress i count Hc ltac:(done)). fold es in H. lia.
Qed.

(** C18: listing /proc.  A program that opens /proc and calls getdents64 with
    buffers of at least 32 bytes gets the nine entries in order, none lost or
    repeated between calls; nine calls are always enough for all of them. *)
Theorem ls_lists_proc (k : kstate) (addr : Z) (calls : list (Z * Z))
    (Haddr : addr <> 0) (Hpath : cstr_at (k_mem k) addr "/proc") (Hcalls : Forall list_ok calls) :
  returns (ls addr calls) k (fun r _ =>
    r.1 = XNU_STAGE0_PROC_DIR_FD /\ r.2 = take (length r.2) proc_dirents /\
    (Nat.min 9 (length calls) <= length r.2)%nat).
Proof.
  unfold ls. eapply returns_bind; [by apply openat_proc|]. intros fd k1 (-> & Ho & Hoff).
  eapply returns_bind; [apply (list_dir_lists calls 0); [done | lia | done]|].
  intros ds k2 (j & Hds & Hlen & Hj). apply returns_ret. cbn [fst snd]. rewrite Hlen.
  split; [done|]. rewrite drop_0 in Hds. split; [done | lia].
Qed.

End Programs.

(** ** Concrete programs *)

Module Example.

Import SyscallSpec.Example.

(** The string at 0x81001000. *)
Definition with_path (path : list Z) : kstate :=
  user_start (ecall 0 0 0 0 0 0) (mem_of_list 0x81001000 (path ++ [0])).

Lemma path_not_null : 0x81001000 <> 0.
Proof. discriminate. Qed.

Lemma cat_reads_file_witness :
  returns (cat ticking 0x81001000 [(0x81002000, 100); (0x81002000, 1); (0x81002000, 100)])
    (with_path "/proc/stat") (fun r _ =>
      r.1 = 3 /\ concat r.2 = g_stage0_proc_stat).
Proof.
  assert (cstr_at (k_mem (with_path "/proc/stat")) 0x81001000 "/proc/stat") as Hp by by vm_compute.
  assert (Forall read_ok [(0x81002000, 100); (0x81002000, 1); (0x81002000, 100)]) as Hr.
  { repeat (apply Forall_cons_2; [by vm_compute|]). apply Forall_nil_2. }
  eapply returns_mono; [apply (cat_reads_file ticking _ _ _ _ _ _ path_not_null Hp file_of_stat Hr)|].
  intros r k' (H1 & H2 & _). split; [exact H1|]. rewrite H2. apply take_ge. vm_compute. lia.
Defined.

(** Nine calls with a buffer that holds one record each time. *)
Lemma ls_lists_proc_witness :
  returns (ls ticking 0x81001000 (replicate 9 (0x81002000, 32))) (with_path "/proc") (fun r _ =>
    r.1 = 4 /\ r.2 = proc_dirents).
Proof.
  assert (cstr_at (k_mem (with_path "/proc")) 0x81001000 "/proc") as Hp by by vm_compute.
  assert (Forall list_ok (replicate 9 (0x81002000, 32))) as Hr.
  { apply Forall_replicate. by vm_compute. }
  eapply returns_mono; [apply (ls_lists_proc ticking _ _ _ path_not_null Hp Hr)|].
  intros r k' (H1 & H2 & H3). split; [exact H1|]. rewrite H2. apply take_ge.
  change (length proc_dirents) with 9%nat. rewrite length_replicate in H3. lia.
Defined.

End Example.

End SyscallFiles.
