(* ===== verification/Start.v ===== *)
(** The start of the stage-0 kernel (src/kernel_xnu_entry.c, [_start]): the parts of
    Stage0.v, KernelVirtio.v, KernelHfs.v and Kernel.v run in turn on one machine,
    then the timer is tried and user mode is entered.

    The machine is the state of Kernel.v (memory, output, trap globals, timer) with
    [g_info], the driver, the volume, the CSRs and the page table.  Each part runs on
    its own view of it ([on_kernel], [on_report], [on_driver], [on_volume]).  The
    firmware ([sbi_base]) and the traps taken while the kernel waits ([traps]) are
    parameters. *)

From stdpp Require Import relations.
From S2P Require Import Prelude Mmu Print Fdt Hfs VirtioDev Virtio HfsCatalog BootLoader Kernel Stage0 KernelVirtio KernelHfs Syscalls SyscallSpec SyscallMem KernelRun.

Module Start.

Import Print Kernel Syscalls SyscallSpec SyscallMem KernelRun.

Local Open Scope c_scope.

(** ** Constants *)

Definition SIE_STIE : Z := 0x00000020.

Definition SSTATUS_SIE : Z := 0x00000002.

Definition SSTATUS_SUM : Z := 0x00040000.

Definition SBI_BASE_GET_SPEC_VERSION : Z := 0.

Definition SBI_BASE_GET_IMPL_ID : Z := 1.

Definition SBI_BASE_GET_IMPL_VERSION : Z := 2.

Definition XNU_STAGE0_KERNEL_STACK_SIZE : Z := 4096.

Definition UINT64_MAX : Z := 0xffffffffffffffff.

(** ** State *)

(** What [sret] of [xnu_stage0_enter_user] starts: the program counter, the stack
    pointer and the stack the trap vector will take from sscratch. *)
Record user_entry := Entry {
  u_pc : Z;
  u_sp : Z;
  u_sscratch : Z;
}.

Record csrs := Csrs {
  stvec : Z;
  sie : Z;
  sstatus : Z;
  satp : Z;
}.

Record machine {V : Type} := Mach {
  ks : kstate;
  g_info : Stage0.info;
  drive : Virtio.vdev V;
  volume : Hfs.hfs_vol;
  csr : csrs;
  g_stage0_l1 : list Z;
  user : option user_entry;
}.

Arguments machine V : clear implicits.
Arguments Mach {V}.

(** Addresses of the image: [xnu_stage0_trap_vector], [xnu_stage0_user_trap_vector],
    the user payload, [g_stage0_user_kstack] and [g_stage0_l1]. *)
Record image := {
  trap_vector : Z;
  user_trap_vector : Z;
  payload_start : Z;
  payload_end : Z;
  user_kstack : Z;
  l1_addr : Z;
}.

Section Sequence.
Context {V : Type} `{VirtioDev.VirtioMmio V} (L : VirtioDev.queue_layout) (B : KernelHfs.buffers) (I : image).
Context (timer : nat -> Z) (sbi_base : Z -> Z * Z) (traps : nat -> list (Z * Z * Z)).

Local Abbreviation SM := (PST (machine V)).

Definition set_ks (k : kstate) (s : machine V) : machine V :=
  Mach k (g_info s) (drive s) (volume s) (csr s) (g_stage0_l1 s) (user s).

Definition set_g_info (i : Stage0.info) (s : machine V) : machine V :=
  Mach (ks s) i (drive s) (volume s) (csr s) (g_stage0_l1 s) (user s).

Definition set_drive (d : Virtio.vdev V) (s : machine V) : machine V :=
  Mach (ks s) (g_info s) d (volume s) (csr s) (g_stage0_l1 s) (user s).

Definition set_volume (h : Hfs.hfs_vol) (s : machine V) : machine V :=
  Mach (ks s) (g_info s) (drive s) h (csr s) (g_stage0_l1 s) (user s).

Definition set_csr (c : csrs) (s : machine V) : machine V :=
  Mach (ks s) (g_info s) (drive s) (volume s) c (g_stage0_l1 s) (user s).

Definition set_l1 (t : list Z) (s : machine V) : machine V :=
  Mach (ks s) (g_info s) (drive s) (volume s) (csr s) t (user s).

Definition set_user (u : user_entry) (s : machine V) : machine V :=
  Mach (ks s) (g_info s) (drive s) (volume s) (csr s) (g_stage0_l1 s) (Some u).

Definition set_out (m : mem) (o : list Z) (k : kstate) : kstate :=
  KState (k_frame k) (k_glob k) m o (k_clk k) (k_deadline k) (k_halted k).

(** ** The parts on the machine *)

Definition on_kernel {A} (c : K A) : SM A := fun s =>
  '(a, k) ← c (ks s); Some (a, set_ks k s).

Definition on_report {A} (c : ST (Stage0.state unit) A) : SM A := fun s =>
  let '(a, r) := c (Stage0.State (g_info s) (k_mem (ks s)) tt (k_out (ks s))) in
  Some (a, set_ks (set_out (Stage0.s_mem r) (Stage0.s_out r) (ks s)) (set_g_info (Stage0.s_info r) s)).

Definition on_driver {A} (c : ST (Virtio.drv V) A) : SM A := fun s =>
  let '(a, d) := c (Virtio.Drv (drive s) (k_mem (ks s)) (k_out (ks s))) in
  Some (a, set_ks (set_out (Virtio.d_mem d) (Virtio.d_out d) (ks s)) (set_drive (Virtio.d_dev d) s)).

Definition on_volume {A} (c : PST (Hfs.boot (D := Virtio.vdev V)) A) : SM A := fun s =>
  '(a, b) ← c (Hfs.Boot (k_mem (ks s)) (drive s) (k_out (ks s)) (volume s));
  Some (a, set_ks (set_out (Hfs.b_mem b) (Hfs.b_out b) (ks s))
             (set_drive (Hfs.b_dev b) (set_volume (Hfs.b_hfs b) s))).

Definition puts (t : list Z) : SM unit := on_kernel (Kernel.puts t).

Definition modk (f : mem -> mem) : SM unit := on_kernel (modm f).

(** ** CSRs and firmware *)

Definition csr_read_sstatus : SM Z := getP (fun s => sstatus (csr s)).

Definition csr_read_sie : SM Z := getP (fun s => sie (csr s)).

Definition csr_read_stvec : SM Z := getP (fun s => stvec (csr s)).

Definition csr_read_satp : SM Z := getP (fun s => satp (csr s)).

Definition mod_csr (f : csrs -> csrs) : SM unit := modifyP (fun s => set_csr (f (csr s)) s).

Definition csr_write_stvec (v : Z) : SM unit :=
  mod_csr (fun c => Csrs v (sie c) (sstatus c) (satp c)).

Definition csr_set_sie (mask : Z) : SM unit :=
  mod_csr (fun c => Csrs (stvec c) (sie c |! mask) (sstatus c) (satp c)).

Definition csr_clear_sie (mask : Z) : SM unit :=
  mod_csr (fun c => Csrs (stvec c) (sie c &! not32 mask) (sstatus c) (satp c)).

Definition csr_set_sstatus (mask : Z) : SM unit :=
  mod_csr (fun c => Csrs (stvec c) (sie c) (sstatus c |! mask) (satp c)).

Definition csr_write_satp (v : Z) : SM unit :=
  mod_csr (fun c => Csrs (stvec c) (sie c) (sstatus c) v).

(** [sbi_base fid] is the error code and the value the firmware returns. *)
Definition sbi_base_value (fid : Z) : Z :=
  let '(a0, a1) := sbi_base fid in if a0 =? 0 then a1 else 0xffffffff.

(** The deadline is handed over in two words. *)
Definition sbi_set_timer (deadline : Z) : SM unit :=
  on_kernel (modifyP (set_deadline (Z.lor (Z.shiftl (u32 (Z.shiftr deadline 32)) 32) (u32 deadline)))).

(** ** The timer *)

(** Traps taken, one after the other, through [xnu_stage0_trap_vector]. *)
Fixpoint take_traps (l : list (Z * Z * Z)) : SM unit :=
  match l with
  | [] => mret tt
  | (cause, pc, tval) :: l => on_kernel (xnu_stage0_trap_dispatch timer cause pc tval);; take_traps l
  end.

(** [while (g_stage0_timer_ticks < 2 && spins++ < 1000000u) wfi;] with [n] turns to
    go; [turn] numbers the waits. *)
Fixpoint wait_ticks (n turn : nat) : SM unit :=
  g ← getP (fun s => k_glob (ks s));
  if timer_ticks g <? 2 then
    match n with
    | O => mret tt
    | S n => take_traps (traps turn);; wait_ticks n (S turn)
    end
  else mret tt.

Definition MAX_SPINS : nat := Z.to_nat 1000000.

(** The counters cleared and the period set before the timer starts. *)
Definition reset_timer (delta : Z) (g : globals) : globals :=
  Globals 0 0 0 0 0 delta (umode_syscalls g) (umode_writes g) (umode_exits g) (umode_last_syscall g)
    (proc_open g) (proc_offset g) (proc_file g) (proc_dir_open g) (proc_dir_offset g) (mmap_next g)
    (umask g) (timebase_hz g) (kernel_size g).

Definition stage0_trap_timer_smoke : SM unit :=
  before_stvec ← csr_read_stvec;
  before_sie ← csr_read_sie;
  before_sstatus ← csr_read_sstatus;
  let spec := sbi_base_value SBI_BASE_GET_SPEC_VERSION in
  let impl := sbi_base_value SBI_BASE_GET_IMPL_ID in
  let impl_version := sbi_base_value SBI_BASE_GET_IMPL_VERSION in
  puts "[XNU-CaribeOS] SBI/trap/timer smoke\n";;
  puts "[riscv32] SBI spec=0x";; puts (puthex32 spec);; puts " impl=";; puts (putdec impl);;
  puts " impl_version=0x";; puts (puthex32 impl_version);; puts "\n";;
  puts "[riscv32] csr before stvec=0x";; puts (puthex32 before_stvec);;
  puts " sie=0x";; puts (puthex32 before_sie);;
  puts " sstatus=0x";; puts (puthex32 before_sstatus);; puts "\n";;
  hz ← getP (fun s => Stage0.i_timebase_hz (g_info s));
  let delta := hz / 100 in
  on_kernel (modg (reset_timer (if delta <? 1000 then 1000 else delta)));;
  csr_write_stvec (trap_vector I);;
  now ← on_kernel (csr_read_time timer);
  g ← getP (fun s => k_glob (ks s));
  sbi_set_timer (u64 (now + timer_delta g));;
  csr_set_sie SIE_STIE;;
  csr_set_sstatus SSTATUS_SIE;;
  wait_ticks MAX_SPINS 0;;
  csr_clear_sie SIE_STIE;;
  sbi_set_timer UINT64_MAX;;
  g ← getP (fun s => k_glob (ks s));
  puts "[riscv32] timer ticks=";; puts (putdec (timer_ticks g));;
  puts " unhandled=";; puts (putdec (trap_unhandled g));;
  puts " scause=0x";; puts (puthex32 (last_scause g));;
  puts " sepc=0x";; puts (puthex32 (last_sepc g));;
  puts " stval=0x";; puts (puthex32 (last_stval g));; puts "\n";;
  after_stvec ← csr_read_stvec;
  after_sie ← csr_read_sie;
  after_sstatus ← csr_read_sstatus;
  puts "[riscv32] csr after stvec=0x";; puts (puthex32 after_stvec);;
  puts " sie=0x";; puts (puthex32 after_sie);;
  puts " sstatus=0x";; puts (puthex32 after_sstatus);; puts "\n".

(** ** User mode *)

Definition stage0_install_umode_mmu : SM unit :=
  old_satp ← csr_read_satp;
  i ← getP g_info;
  match Sv32.stage0_install_umode_mmu (Stage0.i_mem_base i) (Stage0.i_mem_size i)
          (Stage0.i_plic_base i) (Stage0.i_aclint_base i) with
  | None => out_of_fuel
  | Some t =>
      modifyP (set_l1 t);;
      let new_satp := 0x80000000 |! Z.shiftr (l1_addr I) 12 in
      puts "[riscv32] Sv32 remap for umode old_satp=0x";; puts (puthex32 old_satp);;
      puts " new_satp=0x";; puts (puthex32 new_satp);;
      puts " user=0x";; puts (puthex32 XNU_STAGE0_USER_BASE);;
      puts "+0x";; puts (puthex32 XNU_STAGE0_USER_REGION_SIZE);; puts "\n";;
      csr_write_satp new_satp
  end.

(** [xnu_stage0_enter_user(pc, sp, kstack)] of kernel_xnu_stage0_trap.S: sstatus with
    SPP cleared and SUM and SPIE set, then [sret], which does not come back. *)
Definition xnu_stage0_enter_user (pc sp kstack : Z) : SM unit :=
  mod_csr (fun c => Csrs (stvec c) (sie c) (sstatus c &! not32 0x100 |! 0x40020) (satp c));;
  modifyP (set_user (Entry pc sp kstack)).

(** Ends with [sret]: the message after it is never printed. *)
Definition stage0_umode_linux_smoke : SM unit :=
  let payload_size := payload_end I -! payload_start I in
  let kernel_stack_top := user_kstack I +! XNU_STAGE0_KERNEL_STACK_SIZE in
  puts "[XNU-CaribeOS] Linux personality umode smoke\n";;
  puts "[riscv32] copying user payload size=";; puts (putdec payload_size);;
  puts " text=0x";; puts (puthex32 XNU_STAGE0_USER_BASE);;
  puts " stack=0x";; puts (puthex32 XNU_STAGE0_USER_STACK_TOP);;
  puts " kstack=0x";; puts (puthex32 kernel_stack_top);; puts "\n";;
  modk (fun m => zero_loop m XNU_STAGE0_USER_BASE (Z.to_nat 8192));;
  modk (fun m => copy_loop m XNU_STAGE0_USER_BASE (payload_start I) (Z.to_nat payload_size));;
  modk (fun m => zero_loop m (user_kstack I) (Z.to_nat XNU_STAGE0_KERNEL_STACK_SIZE));;
  on_kernel (modg umode_reset);;
  stage0_install_umode_mmu;;
  csr_write_stvec (user_trap_vector I);;
  csr_set_sstatus SSTATUS_SUM;;
  puts "[riscv32] entering U-mode sepc=0x";; puts (puthex32 XNU_STAGE0_USER_BASE);;
  v ← csr_read_stvec;
  puts " stvec=0x";; puts (puthex32 v);;
  st ← csr_read_sstatus;
  puts " sstatus=0x";; puts (puthex32 st);; puts "\n";;
  xnu_stage0_enter_user XNU_STAGE0_USER_BASE XNU_STAGE0_USER_STACK_TOP kernel_stack_top.

(** ** The start *)

(** [stage0_init(hartid, dtb, args)]: [blk_base] is also the base of the driver, and
    the handlers of Kernel.v have their own copy of two fields. *)
Definition init_g_info (i : Stage0.info) (s : machine V) : machine V :=
  let g := k_glob (ks s) in
  set_g_info i (set_drive (KernelVirtio.at_base (Stage0.i_blk_base i) (drive s))
    (set_ks (set_glob
      (Globals (timer_ticks g) (trap_unhandled g) (last_scause g) (last_sepc g) (last_stval g)
        (timer_delta g) (umode_syscalls g) (umode_writes g) (umode_exits g) (umode_last_syscall g)
        (proc_open g) (proc_offset g) (proc_file g) (proc_dir_open g) (proc_dir_offset g)
        (mmap_next g) (umask g) (Stage0.i_timebase_hz i) (Stage0.i_kernel_size i)) (ks s)) s)).

Definition stage0_init (fuel : nat) (hartid dtb args : Z) : SM unit := fun s =>
  i ← Stage0.stage0_init fuel (k_mem (ks s)) hartid dtb args;
  Some (tt, init_g_info i s).

(** The banner of [_start]. *)
Definition banner : SM unit :=
  i ← getP g_info;
  puts "\n[XNU-CaribeOS] riscv32_kernel_entry\n";;
  puts "  hart=";; puts (putdec (Stage0.i_hartid i));;
  puts " cpus=";; puts (putdec (Stage0.i_cpu_count i));;
  puts " dtb=0x";; puts (puthex32 (Stage0.i_dtb i));;
  puts "+0x";; puts (puthex32 (Stage0.i_dtb_size i));;
  puts " timebase=";; puts (putdec (Stage0.i_timebase_hz i));;
  puts "\n  mem=0x";; puts (puthex32 (Stage0.i_mem_base i));;
  puts "+0x";; puts (puthex32 (Stage0.i_mem_size i));;
  puts " kernel=0x";; puts (puthex32 (Stage0.i_kernel_base i));;
  puts "+0x";; puts (puthex32 (Stage0.i_kernel_size i));;
  puts "\n  uart=0x";; puts (puthex32 (Stage0.i_uart_base i));;
  puts " plic=0x";; puts (puthex32 (Stage0.i_plic_base i));;
  puts " aclint=0x";; puts (puthex32 (Stage0.i_aclint_base i));; puts "\n".

(** [virtio_mmio_scan()] with its assignments to [g_info]. *)
Definition virtio_mmio_scan : SM unit :=
  i ← getP g_info;
  count ← on_driver (KernelVirtio.virtio_mmio_scan (Stage0.i_virtio_count i));
  modifyP (fun s => set_g_info (Stage0.set_blk_base (Virtio.v_mmio (drive s))
    (Stage0.set_virtio_count count (g_info s))) s).

(** [virtio_blk_init()] with its assignment to [g_info]. *)
Definition virtio_blk_init : SM Z :=
  r ← on_driver (KernelVirtio.virtio_blk_init L);
  let '(rc, sectors) := r in
  (match sectors with
   | Some n => modifyP (fun s => set_g_info (Stage0.set_blk_sectors n (g_info s)) s)
   | None => mret tt
   end);;
  mret rc.

Definition hfs_probe_root : SM unit :=
  on_volume (@KernelHfs.hfs_probe_root _ (KernelVirtio.kernel_block_device L) B).

(** [_start(hartid, dtb, args)], up to user mode. *)
Definition _start (fuel : nat) (hartid dtb args : Z) : SM unit :=
  stage0_init fuel hartid dtb args;;
  banner;;
  on_report Stage0.stage0_print_memory_map;;
  on_report Stage0.print_cmdline;;
  puts "[XNU-CaribeOS] PE_init_platform early\n";;
  puts "[XNU-CaribeOS] pmap bootstrap identity window\n";;
  virtio_mmio_scan;;
  rc ← virtio_blk_init;
  (if rc =? 0 then hfs_probe_root else mret tt);;
  stage0_trap_timer_smoke;;
  puts "[XNU-CaribeOS] kernel_early_bootstrap pending full Mach handoff\n";;
  stage0_umode_linux_smoke.

End Sequence.

(** ** Rules *)

Section Rules.
Context {V : Type}.

Local Abbreviation SM := (PST (machine V)).

Lemma returns_kernel {A C} (c : K A) (f : A -> SM C) (s : machine V) Q :
  returns c (ks s) (fun a k => returns (f a) (set_ks k s) Q) -> returns (on_kernel c ≫= f) s Q.
Proof. unfold returns, on_kernel, mbind, PST_bind, option_bind. by destruct (c (ks s)) as [[a k]|]. Qed.

Lemma returns_puts {C} t (f : unit -> SM C) (s : machine V) Q :
  (forall o, returns (f tt) (set_ks (set_out (k_mem (ks s)) o (ks s)) s) Q) -> returns (puts t ≫= f) s Q.
Proof. intros Hf. exact (Hf _). Qed.

Lemma returns_last_puts t (s : machine V) (Q : unit -> machine V -> Prop) :
  (forall o, Q tt (set_ks (set_out (k_mem (ks s)) o (ks s)) s)) -> returns (puts t) s Q.
Proof. intros Hf. exact (Hf _). Qed.

Lemma returns_modk {C} g (f : unit -> SM C) (s : machine V) Q :
  returns (f tt) (set_ks (set_kmem (g (k_mem (ks s))) (ks s)) s) Q -> returns (modk g ≫= f) s Q.
Proof. done. Qed.

Lemma returns_kmod {C} g (f : unit -> SM C) (s : machine V) Q :
  returns (f tt) (set_ks (g (ks s)) s) Q -> returns (on_kernel (modifyP g) ≫= f) s Q.
Proof. done. Qed.

End Rules.

(** The state of the machine after an update, field by field. *)
Ltac mview :=
  cbn [set_ks set_g_info set_drive set_volume set_csr set_l1 set_user set_out ks g_info drive volume csr g_stage0_l1
       user k_frame k_glob k_mem k_out k_clk k_deadline k_halted stvec sie sstatus satp set_clk set_glob set_kmem
       set_deadline].

(** Runs the prints at the head of the code. *)
Ltac say :=
  repeat match goal with |- returns (puts _ ≫= _) _ _ => apply returns_puts; intros ?; mview end.

(** ** The timer *)

Definition is_timer (t : Z * Z * Z) : bool :=
  negb (t.1.1 &! SCAUSE_INTERRUPT =? 0) && (t.1.1 &! SCAUSE_CODE_MASK =? IRQ_S_TIMER).

(** What the dispatcher counts. *)
Definition count_trap (g : globals) (t : Z * Z * Z) : globals :=
  let g := set_last t.1.1 t.1.2 t.2 g in
  if is_timer t then set_ticks (timer_ticks g +! 1) (trap_unhandled g) g
  else set_ticks (timer_ticks g) (trap_unhandled g +! 1) g.

(** The kernel state with other trap counters, output, clock and deadline. *)
Definition with_traps (g : globals) (o : list Z) (n : nat) (d : option Z) (k : kstate) : kstate :=
  KState (k_frame k) g (k_mem k) o n d (k_halted k).

Section TimerProofs.
Context {V : Type} (timer : nat -> Z) (traps : nat -> list (Z * Z * Z)) (Hslow : slow timer).

Lemma dispatch_counts c p v k :
  returns (xnu_stage0_trap_dispatch timer c p v) k (fun _ k' =>
    exists n d, k' = with_traps (count_trap (k_glob k) (c, p, v)) (k_out k) n d k).
Proof.
  unfold xnu_stage0_trap_dispatch. apply returns_modify. unfold count_trap, is_timer. cbn [fst snd].
  destruct (_ && _).
  - apply returns_modify, returns_get. destruct (_ <? 3).
    + eapply returns_bind; [by apply csr_read_time_value|]. intros t k' (n & _ & _ & ->). by eexists _, _.
    + apply returns_ret. by eexists _, _.
  - by eexists _, _.
Qed.

Lemma take_traps_counts l : forall (s : machine V),
  returns (take_traps timer l) s (fun _ s' =>
    exists n d, s' = set_ks (with_traps (foldl count_trap (k_glob (ks s)) l) (k_out (ks s)) n d (ks s)) s).
Proof.
  induction l as [|[[c p] v] l IH]; intros s; cbn [take_traps foldl].
  { apply returns_ret. exists (k_clk (ks s)), (k_deadline (ks s)). by destruct s as [[]]. }
  apply returns_kernel. eapply returns_mono; [apply dispatch_counts|]. intros _ k' (n & d & ->).
  eapply returns_mono; [apply IH|]. intros _ s' (n' & d' & ->). by eexists _, _.
Qed.

(** The traps taken during the waits from [turn] on, [n] of them. *)
Definition taken (turn n : nat) : list (Z * Z * Z) := concat (traps <$> seq turn n).

(** The waits end after [n] turns of at most [limit]: by the second tick or by the
    limit, and not before. *)
Definition waits (g : globals) (turn limit n : nat) : Prop :=
  (n <= limit)%nat /\
  (forall i, (i < n)%nat -> timer_ticks (foldl count_trap g (taken turn i)) < 2) /\
  ((n < limit)%nat -> 2 <= timer_ticks (foldl count_trap g (taken turn n))).

Lemma wait_ticks_counts limit : forall turn (s : machine V),
  returns (wait_ticks timer traps limit turn) s (fun _ s' =>
    exists n c d, waits (k_glob (ks s)) turn limit n /\
      s' = set_ks (with_traps (foldl count_trap (k_glob (ks s)) (taken turn n)) (k_out (ks s)) c d (ks s)) s).
Proof.
  induction limit as [|limit IH]; intros turn s; cbn [wait_ticks]; apply returns_get.
  all: assert (exists c d, s = set_ks (with_traps (foldl count_trap (k_glob (ks s)) (taken turn 0)) (k_out (ks s)) c d (ks s)) s)
    as (c0 & d0 & Hs) by (exists (k_clk (ks s)), (k_deadline (ks s)); by destruct s as [[]]).
  - destruct (_ <? 2); apply returns_ret; exists 0%nat, c0, d0; (split; [|exact Hs]); split_and!; lia.
  - destruct (_ <? 2) eqn:E; zbool.
    2: { apply returns_ret. exists 0%nat, c0, d0. split; [|exact Hs]. split_and!; [lia | lia |]. intros _. exact E. }
    eapply returns_bind; [apply take_traps_counts|]. intros _ s1 (c1 & d1 & ->).
    eapply returns_mono; [apply IH|]. intros _ s' (n & c & d & (Hn & Hlt & Hge) & ->).
    cbn [set_ks ks with_traps k_glob] in *.
    assert (forall i, taken turn (S i) = traps turn ++ taken (S turn) i) as Ht by done.
    exists (S n), c, d. split; [split_and!; [lia | | ] |].
    + intros [|i] Hi; [exact E|]. rewrite Ht, foldl_app. apply Hlt. lia.
    + intros Hl. rewrite Ht, foldl_app. apply Hge. lia.
    + rewrite Ht, foldl_app. done.
Qed.

(** The numbers of timer interrupts and of other traps. *)
Definition ticks_in (l : list (Z * Z * Z)) : Z := Z.of_nat (length (List.filter is_timer l)).

Definition others_in (l : list (Z * Z * Z)) : Z := Z.of_nat (length l) - ticks_in l.

Lemma count_traps l : forall g, is_u32 (timer_ticks g) -> is_u32 (trap_unhandled g) ->
  let g' := foldl count_trap g l in
  timer_ticks g' = u32 (timer_ticks g + ticks_in l) /\ trap_unhandled g' = u32 (trap_unhandled g + others_in l) /\
  (last_scause g', last_sepc g', last_stval g') =
    default (last_scause g, last_sepc g, last_stval g) (last l).
Proof.
  induction l as [|t l IH]; intros g Ht Hu; cbn [foldl].
  { unfold ticks_in, others_in, ticks_in. cbn. rewrite !Z.add_0_r, !u32_small by done. done. }
  destruct (IH (count_trap g t)) as (H1 & H2 & H3).
  1, 2: unfold count_trap; destruct (is_timer t); cbn; first [apply u32_range | done].
  cbn zeta in *. rewrite H1, H2, H3. clear H1 H2 H3 IH. unfold others_in, ticks_in. cbn [List.filter].
  split_and!.
  - unfold count_trap. destruct (is_timer t); cbn [timer_ticks set_ticks set_last length]; mlia.
  - unfold count_trap. destruct (is_timer t); cbn [trap_unhandled set_ticks set_last length]; mlia.
  - rewrite last_cons. destruct (last l) as [t'|]; [done|]. cbn [default]. unfold count_trap.
    destruct t as [[c p] v]. by destruct (is_timer _).
Qed.

(** Only the counters of the traps change. *)
Lemma count_traps_keep l : forall g, exists a b c d e,
  foldl count_trap g l = set_last c d e (set_ticks a b g).
Proof.
  induction l as [|t l IH]; intros g; cbn [foldl].
  { exists (timer_ticks g), (trap_unhandled g), (last_scause g), (last_sepc g), (last_stval g). by destruct g. }
  destruct (IH (count_trap g t)) as (a & b & c & d & e & ->). exists a, b, c, d, e.
  unfold count_trap. by destruct (is_timer t).
Qed.

End TimerProofs.

(** The two words of a deadline. *)
Lemma deadline_words d : is_u64 d -> Z.lor (Z.shiftl (u32 (Z.shiftr d 32)) 32) (u32 d) = d.
Proof.
  intros Hd. rewrite Z.shiftr_div_pow2 by lia. change (2 ^ 32) with 4294967296.
  rewrite lor_shiftl_add by (try change (2 ^ 32) with 4294967296; mlia).
  rewrite Z.shiftl_mul_pow2 by lia. change (2 ^ 32) with 4294967296. mlia.
Qed.

Section Smoke.
Context {V : Type} (I : image) (timer : nat -> Z) (sbi_base : Z -> Z * Z) (traps : nat -> list (Z * Z * Z)).
Context (Hslow : slow timer).

(** The period of the timer. *)
Definition timer_period (s : machine V) : Z := Z.max 1000 (Stage0.i_timebase_hz (g_info s) / 100).

(** The CSRs after the test: the vector is the kernel's, the timer interrupt is
    masked again and interrupts stay enabled. *)
Definition smoke_csrs (c : csrs) : csrs :=
  Csrs (trap_vector I) ((sie c |! SIE_STIE) &! not32 SIE_STIE) (sstatus c |! SSTATUS_SIE) (satp c).

Lemma timer_smoke_runs (s : machine V) :
  returns (stage0_trap_timer_smoke I timer sbi_base traps) s (fun _ s' =>
    let g := reset_timer (timer_period s) (k_glob (ks s)) in
    exists n o c, waits traps g 0 MAX_SPINS n /\
      s' = set_csr (smoke_csrs (csr s))
        (set_ks (with_traps (foldl count_trap g (taken traps 0 n)) o c (Some UINT64_MAX) (ks s)) s)).
Proof.
  unfold stage0_trap_timer_smoke. generalize MAX_SPINS. intros limit. do 3 apply returns_get. cbn zeta. say. apply returns_get. mview.
  unfold modg, sbi_set_timer. rewrite (deadline_words UINT64_MAX) by done. apply returns_kmod. mview.
  assert ((if Stage0.i_timebase_hz (g_info s) / 100 <? 1000 then 1000 else Stage0.i_timebase_hz (g_info s) / 100) =
    timer_period s) as -> by (unfold timer_period; zcases).
  apply returns_modify. mview. apply returns_kernel.
  eapply returns_mono; [by apply csr_read_time_value|]. intros t k1 (n1 & _ & _ & ->). mview.
  apply returns_get. mview. apply returns_kmod, returns_modify, returns_modify. mview.
  eapply returns_bind; [by apply wait_ticks_counts|]. intros _ s1 (n & c & d & Hw & ->). unfold with_traps. mview.
  cbn [ks set_csr set_ks k_glob] in Hw.
  apply returns_modify. mview. apply returns_kmod, returns_get. mview. say. do 3 apply returns_get.
  say. apply returns_last_puts. intros out. mview. exists n, out, c. split; [exact Hw|]. done.
Qed.

(** C26: the test of the timer ends, whatever traps are taken while it waits: by the
    second tick or after a million waits, and not before.  It reports the exact
    numbers of timer interrupts and of other traps and the last trap; the timer is
    left masked with no deadline, the period at least 1000 counts, and memory as it
    was. *)
Theorem timer_smoke_counts (s : machine V) :
  returns (stage0_trap_timer_smoke I timer sbi_base traps) s (fun _ s' =>
    let g := k_glob (ks s') in
    exists n, (n <= MAX_SPINS)%nat /\
      timer_ticks g = u32 (ticks_in (taken traps 0 n)) /\
      trap_unhandled g = u32 (others_in (taken traps 0 n)) /\
      (last_scause g, last_sepc g, last_stval g) = default (0, 0, 0) (last (taken traps 0 n)) /\
      (forall i, (i < n)%nat -> u32 (ticks_in (taken traps 0 i)) < 2) /\
      ((n < MAX_SPINS)%nat -> 2 <= timer_ticks g) /\
      timer_delta g = timer_period s /\ csr s' = smoke_csrs (csr s) /\
      k_deadline (ks s') = Some UINT64_MAX /\ k_mem (ks s') = k_mem (ks s)).
Proof.
  eapply returns_mono; [apply timer_smoke_runs|]. cbn zeta. intros _ s' (n & o & c & (Hn & Hlt & Hge) & ->).
  revert Hn Hge. generalize MAX_SPINS. intros limit Hn Hge. cbn [set_csr set_ks ks with_traps k_glob csr k_deadline k_mem].
  set (g := reset_timer (timer_period s) (k_glob (ks s))) in *.
  assert (forall l, timer_ticks (foldl count_trap g l) = u32 (ticks_in l)) as Ht.
  { intros l. by destruct (count_traps l g) as [-> _]. }
  destruct (count_traps (taken traps 0 n) g) as (_ & H2 & H3); [done..|].
  exists n. split_and!; try done.
  - intros i Hi. rewrite <- Ht. by apply Hlt.
  - by destruct (count_traps_keep (taken traps 0 n) g) as (? & ? & ? & ? & ? & ->).
Qed.

End Smoke.

(** ** User mode *)

Section UserMode.
Context {V : Type} (I : image).

(** The payload fits in the two pages cleared for it, and it and the kernel stack are
    outside of them and of each other. *)
Record image_ok : Prop := {
  io_payload : region (payload_start I) (payload_end I - payload_start I);
  io_size : payload_end I - payload_start I <= 8192;
  io_apart : forall a, inside (payload_start I) (payload_end I - payload_start I) a ->
    ~ inside XNU_STAGE0_USER_BASE 8192 a;
  io_stack : region (user_kstack I) XNU_STAGE0_KERNEL_STACK_SIZE;
  io_stack_apart : forall a, inside (user_kstack I) XNU_STAGE0_KERNEL_STACK_SIZE a ->
    ~ inside XNU_STAGE0_USER_BASE 8192 a;
}.

(** RAM and devices aligned as on QEMU virt. *)
Definition ram_ok (i : Stage0.info) : Prop :=
  is_u32 (Stage0.i_mem_base i) /\ Stage0.i_mem_base i mod 4194304 = 0 /\
  0 <= Stage0.i_mem_size i /\ Stage0.i_mem_size i mod 4194304 = 0 /\
  Stage0.i_mem_base i + Stage0.i_mem_size i <= 0xffc00000 /\
  Sv32.mmio_ok (Stage0.i_plic_base i) /\ Sv32.mmio_ok (Stage0.i_aclint_base i).

(** The kernel is in RAM, which is above the devices; its vector, its page table and
    the stack the frame is on are in its image. *)
Record laid_out (KL : kernel_layout) (i : Stage0.info) : Prop := {
  la_layout : layout_ok KL;
  la_ram : Stage0.i_mem_base i <= image_start KL /\ ram_end KL = Stage0.i_mem_base i + Stage0.i_mem_size i;
  la_devices : Forall (fun b => b < Stage0.i_mem_base i) [0x10000000; Stage0.i_plic_base i; Stage0.i_aclint_base i];
  la_vector : image_start KL <= user_trap_vector I < image_end KL;
  la_table : image_start KL <= l1_addr I /\ l1_addr I + 4096 <= image_end KL;
  la_stack : image_start KL <= user_kstack I /\ user_kstack I + XNU_STAGE0_KERNEL_STACK_SIZE <= image_end KL;
  la_frame : frame_at KL = user_kstack I + XNU_STAGE0_KERNEL_STACK_SIZE - 96;
}.

(** The user's pages: the program at their start, zeros after it. *)
Definition payload_loaded (m m' : mem) : Prop :=
  forall j, 0 <= j < 8192 -> m' (XNU_STAGE0_USER_BASE + j) =
    if j <? payload_end I - payload_start I then m (payload_start I + j) else 0.

(** The page table in force gives user mode its own superpage only. *)
Definition isolated (i : Stage0.info) (l1 : list Z) : Prop :=
  forall md acc va, is_u32 va -> Sv32.sv32_translate l1 md acc va =
    Sv32.umode_spec (Stage0.i_mem_base i) (Stage0.i_mem_base i + Stage0.i_mem_size i)
      [0x10000000; Stage0.i_plic_base i; Stage0.i_aclint_base i] md acc va.

(** The kernel goes on running under its own page table. *)
Lemma kernel_mapped KL i l1 acc va :
  ram_ok i -> laid_out KL i -> isolated i l1 -> inside (image_start KL) (image_end KL - image_start KL) va ->
  Sv32.sv32_translate l1 (Sv32.Supervisor true) acc va = Some va.
Proof.
  intros (Hb & Hal & Hsz & _) [Hlay [Hlo Hend] Hdev _ _ _ _] Hiso Hva.
  pose proof (lo_image KL Hlay) as [H0 H1]. pose proof (lo_ram KL Hlay) as [H2 H3]. unfold inside in Hva.
  unfold XNU_STAGE0_USER_BASE, XNU_STAGE0_USER_REGION_SIZE in *.
  rewrite Hiso by mlia. unfold Sv32.umode_spec. rewrite !Forall_cons in Hdev.
  destruct Hdev as (Hd1 & Hd2 & Hd3 & _).
  assert (existsb (fun b => Sv32.super va =? Sv32.super b)
    [0x10000000; Stage0.i_plic_base i; Stage0.i_aclint_base i] = false) as ->.
  { cbn [existsb]. unfold Sv32.super. rewrite !orb_false_iff, !Z.eqb_neq. split_and!; try done; lia. }
  rewrite (proj2 (Z.leb_le _ va)), (proj2 (Z.ltb_lt va _)) by lia. cbn [andb].
  rewrite (proj2 (Z.eqb_neq _ _)); [done|]. unfold Sv32.super, Sv32.XNU_STAGE0_USER_BASE. lia.
Qed.

Lemma umode_memory m : image_ok -> mem_ok m ->
  let m1 := zero_loop m XNU_STAGE0_USER_BASE (Z.to_nat 8192) in
  let m2 := copy_loop m1 XNU_STAGE0_USER_BASE (payload_start I) (Z.to_nat (payload_end I -! payload_start I)) in
  payload_loaded m (zero_loop m2 (user_kstack I) (Z.to_nat XNU_STAGE0_KERNEL_STACK_SIZE)).
Proof.
  intros [Hp Hsz Hap Hst Hsa] Hm m1 m2 j Hj. pose proof Hp as (Hp0 & Hp1 & Hp2).
  unfold XNU_STAGE0_KERNEL_STACK_SIZE in *. set (n := payload_end I - payload_start I) in *.
  assert (u32 n = n) as En by mlia.
  rewrite zero_loop_spec by (rewrite Z2Nat.id by lia; exact Hst). rewrite Z2Nat.id by lia.
  rewrite (proj2 (andb_false_iff _ _)).
  2: { specialize (Hsa (XNU_STAGE0_USER_BASE + j)). unfold inside in Hsa.
       destruct (user_kstack I <=? _) eqn:E; [right | by left]. zbool. apply Z.ltb_ge. lia. }
  unfold m2. rewrite En, copy_loop_spec.
  - rewrite Z2Nat.id by lia. unfold XNU_STAGE0_USER_BASE at 1 2 3.
    assert (forall a, m1 a = if (XNU_STAGE0_USER_BASE <=? a) && (a <? XNU_STAGE0_USER_BASE + 8192) then 0 else m a) as Hm1.
    { intros a. unfold m1. rewrite zero_loop_spec; rewrite Z2Nat.id by lia; [done|]. done. }
    rewrite !Hm1. specialize (Hap (payload_start I + j)). unfold inside, XNU_STAGE0_USER_BASE in *.
    replace (2164260864 + j - 2164260864 + payload_start I) with (payload_start I + j) by lia.
    destruct (j <? n) eqn:E; zbool; zcases.
  - rewrite Z2Nat.id by lia. unfold XNU_STAGE0_USER_BASE, region. lia.
  - by rewrite Z2Nat.id by lia.
  - rewrite Z2Nat.id by lia. destruct (decide (n = 0)); [lia|].
    pose proof (Hap (payload_start I)). pose proof (Hap (payload_start I + n - 1)). pose proof (Hap XNU_STAGE0_USER_BASE).
    unfold inside, XNU_STAGE0_USER_BASE in *. lia.
  - by apply mem_ok_zero_loop.
Qed.

(** The CSRs at [sret]: the vector of user traps, the new page table, and sstatus with
    SUM and SPIE set and SPP cleared. *)
Definition user_csrs (c : csrs) : csrs :=
  Csrs (user_trap_vector I) (sie c) ((sstatus c |! SSTATUS_SUM) &! not32 0x100 |! 0x40020)
    (0x80000000 |! Z.shiftr (l1_addr I) 12).

Definition user_start : user_entry :=
  Entry XNU_STAGE0_USER_BASE XNU_STAGE0_USER_STACK_TOP (user_kstack I +! XNU_STAGE0_KERNEL_STACK_SIZE).

Lemma install_mmu_runs (s : machine V) : ram_ok (g_info s) ->
  returns (stage0_install_umode_mmu I) s (fun _ s' =>
    exists o l1, isolated (g_info s) l1 /\
      s' = Mach (set_out (k_mem (ks s)) o (ks s)) (g_info s) (drive s) (volume s)
             (Csrs (stvec (csr s)) (sie (csr s)) (sstatus (csr s)) (0x80000000 |! Z.shiftr (l1_addr I) 12))
             l1 (user s)).
Proof.
  intros (H1 & H2 & H3 & H4 & H5 & H6 & H7).
  destruct (Sv32.umode_table_translates _ _ _ _ H1 H2 H3 H4 H5 H6 H7) as (l1 & Hl1 & Ht).
  unfold stage0_install_umode_mmu. apply returns_get, returns_get. mview. rewrite Hl1.
  apply returns_modify. mview. cbn zeta. say. by eexists _, l1.
Qed.

Lemma umode_smoke_runs (s : machine V) :
  image_ok -> mem_ok (k_mem (ks s)) -> ram_ok (g_info s) ->
  returns (stage0_umode_linux_smoke I) s (fun _ s' =>
    exists m o l1, payload_loaded (k_mem (ks s)) m /\ isolated (g_info s) l1 /\
      s' = Mach (set_out m o (set_glob (umode_reset (k_glob (ks s))) (ks s))) (g_info s) (drive s) (volume s)
             (user_csrs (csr s)) l1 (Some user_start)).
Proof.
  intros Himg Hm Hram. unfold stage0_umode_linux_smoke. cbn zeta. say.
  do 3 (apply returns_modk; mview). unfold modg. apply returns_kmod. mview.
  eapply returns_bind; [by apply install_mmu_runs|]. mview. intros _ s1 (out & l1 & Hl1 & ->). mview.
  do 2 (apply returns_modify; mview). say. apply returns_get. mview. say. apply returns_get. mview. say.
  unfold xnu_stage0_enter_user. apply returns_modify. mview.
  eexists _, _, l1. split; [by apply umode_memory|]. split; [exact Hl1|]. reflexivity.
Qed.

End UserMode.

(** ** The whole start *)

(** What the page table is built from. *)
Definition core (i : Stage0.info) : list Z :=
  [Stage0.i_mem_base i; Stage0.i_mem_size i; Stage0.i_plic_base i; Stage0.i_aclint_base i].

Lemma ram_ok_core i j : core i = core j -> ram_ok i -> ram_ok j.
Proof. unfold core, ram_ok. intros [= -> -> -> ->]. done. Qed.

Lemma isolated_core i j l1 : core i = core j -> isolated i l1 -> isolated j l1.
Proof. unfold core, isolated. intros [= -> -> -> ->]. done. Qed.

Lemma fixed_core i j : Stage0.fixed i = Stage0.fixed j -> core i = core j.
Proof. unfold Stage0.fixed, core. by intros [= -> -> -> -> _ _ _]. Qed.

Section Parts.
Context {V : Type} {HV : VirtioDev.VirtioMmio V} {HD : VirtioDev.VirtioBlkSpec V} (L : VirtioDev.queue_layout).
Context (HL : VirtioDev.layout_ok L) (Hqt : VirtioDev.QT L <> 0) (Hnum : VirtioDev.QNUM <= VirtioDev.dev_num_max).

Local Abbreviation SM := (PST (machine V)).

Lemma returns_report {A C} (c : ST (Stage0.state unit) A) (f : A -> SM C) (s : machine V) Q :
  Stage0.keeps c ->
  (forall a i o, Stage0.fixed i = Stage0.fixed (g_info s) ->
     returns (f a) (set_ks (set_out (k_mem (ks s)) o (ks s)) (set_g_info i s)) Q) ->
  returns (on_report c ≫= f) s Q.
Proof.
  intros Hc Hf. unfold returns, on_report, mbind, PST_bind.
  destruct (Hc (Stage0.State (g_info s) (k_mem (ks s)) tt (k_out (ks s)))) as (Hm & _ & Hi).
  destruct (c _) as [a r]. cbn [snd Stage0.s_mem Stage0.s_info] in *. rewrite Hm. exact (Hf a _ _ Hi).
Qed.

Lemma returns_driver {A C} (c : ST (Virtio.drv V) A) (f : A -> SM C) (s : machine V) Q :
  yields c (Virtio.Drv (drive s) (k_mem (ks s)) (k_out (ks s))) (fun a d =>
    returns (f a) (set_ks (set_out (Virtio.d_mem d) (Virtio.d_out d) (ks s)) (set_drive (Virtio.d_dev d) s)) Q) ->
  returns (on_driver c ≫= f) s Q.
Proof. unfold yields, returns, on_driver, mbind, PST_bind. by destruct (c _) as [a d]. Qed.

Lemma stage0_init_runs fuel hartid dtb args t (s : machine V) :
  let i0 := Stage0.init_info (k_mem (ks s)) hartid dtb args in
  mem_ok (k_mem (ks s)) -> Stage0.sized_blob_at (k_mem (ks s)) (Stage0.i_dtb i0) t ->
  (length (Fdt.flatten t) < fuel)%nat ->
  returns (stage0_init fuel hartid dtb args) s (fun _ s' =>
    exists i, core i = core i0 /\ Stage0.i_blk_base i = 0 /\ s' = init_g_info i s).
Proof.
  intros i0 Hm Hblob Hfuel. unfold stage0_init, Stage0.stage0_init, returns. fold i0.
  assert (Stage0.i_cpu_count i0 = 1 /\ Stage0.i_blk_base i0 = 0) as [Hc Hb].
  { unfold i0, Stage0.init_info. by destruct (_ && _). }
  rewrite (Stage0.fdt_probe_tree _ fuel _ t) by first [done | rewrite Hc; mlia].
  cbn [mbind option_bind]. eexists. split; [|split; [|reflexivity]]; destruct i0; by case_if.
Qed.

Lemma banner_runs (s : machine V) :
  returns banner s (fun _ s' => exists o, s' = set_ks (set_out (k_mem (ks s)) o (ks s)) s).
Proof.
  unfold banner. apply returns_get. say. apply returns_last_puts. intros o'. by exists o'.
Qed.

Lemma scan_runs (s : machine V) : Virtio.v_mmio (drive s) = 0 ->
  returns virtio_mmio_scan s (fun _ s' =>
    exists i o, core i = core (g_info s) /\
      s' = Mach (set_out (k_mem (ks s)) o (ks s)) i (KernelVirtio.at_base VirtioDev.dev_base (drive s)) (volume s)
             (csr s) (g_stage0_l1 s) (user s)).
Proof.
  intros H0. unfold virtio_mmio_scan. apply returns_get. apply returns_driver.
  eapply yields_mono; [by apply KernelVirtio.scan_finds|]. intros n d [Hm Hd]. cbn [Virtio.d_mem Virtio.d_dev] in *.
  unfold returns, modifyP. rewrite Hm, Hd. eexists _, _. split; [|reflexivity]. mview. by destruct (g_info s).
Qed.

Lemma blk_init_runs (s : machine V) :
  Virtio.v_mmio (drive s) = VirtioDev.dev_base -> mem_ok (k_mem (ks s)) ->
  returns (virtio_blk_init L) s (fun rc s' => rc = 0 /\
    exists i m o d, core i = core (g_info s) /\ Virtio.ready L d m /\ mem_ok m /\
      (forall a, ~ VirtioDev.private L a -> m a = k_mem (ks s) a) /\
      s' = Mach (set_out m o (ks s)) i d (volume s) (csr s) (g_stage0_l1 s) (user s)).
Proof.
  intros Hb Hm. unfold virtio_blk_init. apply returns_driver. unfold VirtioDev.QNUM in Hnum.
  eapply yields_mono; [apply (KernelVirtio.kinit_ready L HL Hqt); [lia | done | done]|].
  intros r d (-> & Hr & Hok & Hf & _). rewrite Z.min_r in Hr by (unfold VirtioDev.QNUM; lia).
  apply returns_modify. apply returns_ret. split; [done|]. mview.
  eexists _, (Virtio.d_mem d), _, (Virtio.d_dev d). split; [|split_and!; [by exists 0 | done | | reflexivity]].
  - by destruct (g_info s).
  - intros a Ha. apply Hf. unfold VirtioDev.private in Ha. tauto.
Qed.

(** *** The probe, with the kernel's driver as the block device *)

#[local] Instance kdev : Hfs.BlockDevice (Virtio.vdev V) := KernelVirtio.kernel_block_device L.

#[local] Instance kdev_spec : Hfs.BlockDeviceSpec (Virtio.vdev V) :=
  KernelVirtio.kernel_block_device_spec L HL Hqt Hnum.

Context (B : KernelHfs.buffers).

Definition buffers_ok : Prop :=
  KernelHfs.buffer_ok (KernelHfs.SECTOR B) 512 /\ KernelHfs.buffer_ok (KernelHfs.BLOCK B) 4096 /\
  KernelHfs.buffer_ok (KernelHfs.NODE B) 4096.

(** A disk with an HFS+ volume whose catalog nodes are blocks. *)
Record disk_ok (nodes : list (option (list HfsCatalog.cat_rec))) : Prop := {
  do_sectors : 3 <= VirtioDev.capacity;
  do_sig : be16 HfsCatalog.header_bytes 0 = 0x482b \/ be16 HfsCatalog.header_bytes 0 = 0x4858;
  do_catalog : KernelHfs.kcatalog_ok KernelHfs.kvolume;
  do_ext : 0 <= (KernelHfs.ext0 (Hfs.fk_ext (Hfs.catalog KernelHfs.kvolume))).1 /\
    Hfs.blockSize KernelHfs.kvolume * ((KernelHfs.ext0 (Hfs.fk_ext (Hfs.catalog KernelHfs.kvolume))).1 + 1)
      <= 512 * VirtioDev.capacity;
  do_nodes : HfsCatalog.catalog_at KernelHfs.kvolume nodes;
  do_file : forall r, KernelHfs.file_search "kernel.elf" nodes = Some r ->
    KernelHfs.starts_ok (Hfs.blockSize KernelHfs.kvolume) (HfsCatalog.rec_fork r);
}.

Lemma probe_runs nodes (s : machine V) :
  buffers_ok -> disk_ok nodes -> mem_ok (k_mem (ks s)) -> Virtio.ready L (drive s) (k_mem (ks s)) ->
  returns (hfs_probe_root L B) s (fun _ s' =>
    exists m o d, mem_ok m /\ (forall a, ~ KernelHfs.in_buffers B a -> m a = k_mem (ks s) a) /\
      s' = Mach (set_out m o (ks s)) (g_info s) d KernelHfs.kvolume (csr s) (g_stage0_l1 s) (user s)).
Proof.
  intros (Hb1 & Hb2 & Hb3) [Hc Hsig Hk Hext Hcat Hfile] Hm Hr.
  pose proof (KernelHfs.hfs_probe_root_result B Hb1 Hb2 Hb3 nodes
    (Hfs.Boot (k_mem (ks s)) (drive s) (k_out (ks s)) (volume s)) (conj Hm Hr) Hc Hsig Hk Hext Hcat Hfile) as Hp.
  unfold returns, hfs_probe_root, on_volume in *.
  change (KernelVirtio.kernel_block_device L) with kdev.
  destruct (KernelHfs.hfs_probe_root B _) as [[u b]|]; [|done]. destruct Hp as ([[Hm' _] Hf] & Hv & _).
  cbn [mbind option_bind]. exists (Hfs.b_mem b), (Hfs.b_out b), (Hfs.b_dev b). split_and!; [done | exact Hf |].
  rewrite <- Hv. done.
Qed.

Context (I : image) (timer : nat -> Z) (sbi_base : Z -> Z * Z) (traps : nat -> list (Z * Z * Z)).
Context (Hslow : slow timer).

(** The payload is not in a buffer of the kernel. *)
Definition payload_apart : Prop :=
  forall a, inside (payload_start I) (payload_end I - payload_start I) a -> ~ KernelHfs.in_buffers B a.

(** C2: the kernel reaches user mode.  From a device tree the probe can read, boot
    arguments whose RAM holds the kernel and the user region and is aligned as on
    QEMU virt, a virtio disk with an HFS+ volume and whatever traps come while it
    tries the timer, [_start] ends in [sret]: the program counter is at the payload,
    which fills the start of two pages otherwise zero; the page table gives user mode
    its own superpage only and maps the kernel's image where it is; the volume is the
    one of the disk; the timer is masked; and from there, with the globals in memory
    at their addresses and as long as no system call is given an output buffer
    outside of the RAM above the kernel, every state the machine reaches keeps the
    invariant of the system-call layer. *)
Theorem kernel_boots (KL : kernel_layout) (s : machine V) (fuel : nat) (hartid dtb args : Z) (t : Fdt.node)
    (nodes : list (option (list HfsCatalog.cat_rec)))
    (Hm : mem_ok (k_mem (ks s)))
    (Hblob : Stage0.sized_blob_at (k_mem (ks s))
      (Stage0.i_dtb (Stage0.init_info (k_mem (ks s)) hartid dtb args)) t)
    (Hfuel : (length (Fdt.flatten t) < fuel)%nat)
    (Hram : ram_ok (Stage0.init_info (k_mem (ks s)) hartid dtb args))
    (Hlay : laid_out I KL (Stage0.init_info (k_mem (ks s)) hartid dtb args))
    (Himg : image_ok I) (Hpay : payload_apart) (Hbuf : buffers_ok) (Hdisk : disk_ok nodes)
    (Hmask : 0 <= umask (k_glob (ks s)) <= 0x1ff) :
  returns (_start L B I timer sbi_base traps fuel hartid dtb args) s (fun _ s' =>
    user s' = Some (user_start I) /\ csr s' = user_csrs I (smoke_csrs I (csr s)) /\
    payload_loaded I (k_mem (ks s)) (k_mem (ks s')) /\
    isolated (Stage0.init_info (k_mem (ks s)) hartid dtb args) (g_stage0_l1 s') /\
    (forall acc va, inside (image_start KL) (image_end KL - image_start KL) va ->
       Sv32.sv32_translate (g_stage0_l1 s') (Sv32.Supervisor true) acc va = Some va) /\
    volume s' = KernelHfs.kvolume /\ k_deadline (ks s') = Some UINT64_MAX /\
    forall m k, (forall x, plain KL x -> m x = k_mem (ks s') x) -> resident KL m (k_glob (ks s')) ->
      rtc (kstep timer KL) (set_kmem m (ks s')) k -> ginv (k_glob k) /\ resident KL (k_mem k) (k_glob k)).
Proof.
  unfold _start. set (i0 := Stage0.init_info _ _ _ _) in *.
  eapply returns_bind; [by eapply stage0_init_runs|]. intros _ s1 (i1 & Hi1 & Hb1 & ->). unfold init_g_info.
  eapply returns_bind; [apply banner_runs|]. intros _ s2 (o2 & ->). mview.
  apply returns_report; [apply Stage0.keeps_print_memory_map|]. intros _ i2 o3 Hi2. mview.
  apply returns_report; [apply Stage0.keeps_print_cmdline|]. intros _ i3 o4 Hi3. mview. say.
  cbn [g_info set_ks set_g_info set_drive] in Hi2, Hi3.
  assert (core i3 = core i0) as Hc3 by (rewrite (fixed_core i3 i2), (fixed_core i2 i1); done).
  eapply returns_bind; [apply scan_runs; exact Hb1|]. mview. intros _ s4 (i4 & o5 & Hi4 & ->). mview.
  eapply returns_bind; [apply blk_init_runs; done|]. mview.
  intros rc s5 (-> & i5 & m5 & o6 & d5 & Hi5 & Hr5 & Hm5 & Hf5 & ->). mview. cbn [Z.eqb].
  eapply returns_bind; [by apply (probe_runs nodes)|]. mview. intros _ s6 (m6 & o7 & d6 & Hm6 & Hf6 & ->). mview.
  eapply returns_bind; [by apply timer_smoke_runs|]. cbn zeta. intros _ s7 (n & o8 & c & _ & ->).
  unfold with_traps. mview. say.
  assert (core i5 = core i0) as Hc5 by congruence.
  eapply returns_mono; [apply umode_smoke_runs; [done | exact Hm6 | exact (ram_ok_core i0 _ (eq_sym Hc5) Hram)]|].
  mview. intros _ s8 (m8 & o9 & l1 & Hm8 & Hl1 & ->). mview.
  split_and!; try done.
  - intros j Hj. rewrite Hm8 by done. destruct (j <? _) eqn:E; [|done]. zbool.
    assert (inside (payload_start I) (payload_end I - payload_start I) (payload_start I + j)) as Hin
      by (unfold inside; lia).
    specialize (Hpay _ Hin). rewrite Hf6 by done. apply Hf5. intros Hp. apply Hpay. by do 3 right.
  - by eapply isolated_core.
  - intros acc va Hva. eapply (kernel_mapped I KL i0); [done | done | by eapply isolated_core | done].
  - intros m k _ Hres Hk. eapply (run_kinv timer Hslow KL); [apply Hlay | exact Hk |]. split; [|exact Hres].
    apply umode_reset_ginv.
    match goal with |- context [foldl count_trap ?g ?l] => destruct (count_traps_keep l g) as (? & ? & ? & ? & ? & ->) end.
    exact Hmask.
Qed.

End Parts.

Module Example.

Import SyscallSpec.Example SyscallMem.Example.

(** QEMU virt with the disk of KernelHfs.v and the device tree of Stage0.v. *)
Definition data (x : Z) : Z := u8 (HfsCatalog.Example.volume KernelHfs.Example.recs x).

Lemma data_u8 x : is_u8 (data x).
Proof. apply u8_range. Qed.

#[local] Instance dev : VirtioDev.VirtioMmio VirtioDev.config := Virtio.Example.machine 8 data.

#[local] Instance dev_spec : VirtioDev.VirtioBlkSpec VirtioDev.config := Virtio.Example.machine_spec 8 data data_u8.

Lemma num_ok : VirtioDev.QNUM <= VirtioDev.dev_num_max.
Proof. done. Qed.

Definition img : image :=
  {| trap_vector := 0x80401000; user_trap_vector := 0x80401080; payload_start := 0x8fe00000;
     payload_end := 0x8fe00004; user_kstack := 0x80420000; l1_addr := 0x80428000 |}.

(** Every wait ends with a timer interrupt. *)
Definition tick_traps (_ : nat) : list (Z * Z * Z) := [(0x80000005, 0x80400100, 0)].

Definition sbi (_ : Z) : Z * Z := (0, 1).

Definition entered : machine VirtioDev.config :=
  Mach (KState (Frame 0 0 0 0 0 0 0 0 0 []) boot_globals Stage0.Example.tree_mem [] 0 None false)
    Stage0.zero_info Virtio.Example.start KernelHfs.blank (Csrs 0x80200000 0x220 2 0x80080000) [] None.

Lemma tick_traps_count n : ticks_in (taken tick_traps 0 n) = Z.of_nat n.
Proof.
  unfold taken. generalize 0%nat. induction n as [|n IH]; intros k; [done|].
  specialize (IH (S k)). unfold ticks_in in *.
  change (Z.of_nat (S (length (List.filter is_timer (concat (tick_traps <$> seq (S k) n))))) = Z.of_nat (S n)). lia.
Qed.

Lemma spins_many : (3 <= MAX_SPINS)%nat.
Proof. unfold MAX_SPINS. change 3%nat with (Z.to_nat 3). apply Z2Nat.inj_le; done. Qed.

(** Two ticks, and the timer interrupt masked: 0x220 becomes 0x200. *)
Lemma timer_smoke_counts_witness :
  returns (stage0_trap_timer_smoke img ticking sbi tick_traps) entered (fun _ s' =>
    timer_ticks (k_glob (ks s')) = 2 /\ sie (csr s') = 0x200).
Proof.
  eapply returns_mono; [exact (timer_smoke_counts img ticking sbi tick_traps ticking_slow entered)|].
  cbn zeta. intros _ s' (n & _ & Ht & _ & _ & Hlt & Hge & _ & Hc & _). rewrite Hc. split; [|done].
  rewrite tick_traps_count in Ht. assert (n < 3)%nat as Hn3.
  { clear Hge. destruct (decide (n < 3)%nat); [done|]. specialize (Hlt 2%nat ltac:(lia)).
    rewrite tick_traps_count in Hlt. mlia. }
  specialize (Hge (Nat.lt_le_trans n 3 MAX_SPINS Hn3 spins_many)). rewrite Ht in *. mlia.
Defined.

Lemma start_layout : VirtioDev.QT Virtio.Example.layout <> 0.
Proof. done. Qed.

Abbreviation spec := (kdev_spec Virtio.Example.layout Virtio.Example.layout_is_ok start_layout num_ok).

Lemma volume_read : @KernelHfs.kvolume _ _ spec = HfsCatalog.Example.vol.
Proof. vm_compute. reflexivity. Qed.

Definition nodes : list (option (list HfsCatalog.cat_rec)) := [Some KernelHfs.Example.recs].

#[local] Instance extent_ok_dec e : Decision (Hfs.extent_ok e).
Proof. unfold Hfs.extent_ok. apply _. Defined.

Lemma start_mapped bs fk :
  bool_decide (0 < Hfs.fk_size fk) && bool_decide (Hfs.fk_size fk < 4294967296) &&
  bool_decide (Forall Hfs.extent_ok (Hfs.fk_ext fk)) &&
  bool_decide (Hfs.fk_size fk <= bs * Z.of_nat (length (Hfs.fork_blocks fk))) &&
  bool_decide (Forall (fun b => bs * (b + 1) <= 512 * 64) (Hfs.fork_blocks fk)) = true ->
  @Hfs.fork_mapped _ _ spec bs fk.
Proof. rewrite !andb_true_iff, !bool_decide_eq_true. unfold Hfs.fork_mapped. simpl. tauto. Qed.

Lemma disk_is_ok : @disk_ok _ _ _ _ Virtio.Example.layout_is_ok start_layout num_ok nodes.
Proof.
  split; rewrite ?volume_read.
  - done.
  - left. vm_compute. reflexivity.
  - apply KernelHfs.Example.vol_kcatalog.
  - split; vm_compute; discriminate.
  - unfold HfsCatalog.catalog_at. change (Hfs.catalog_range HfsCatalog.Example.vol) with (1, 1).
    cbv beta iota zeta. split_and!; try done.
    + apply start_mapped. vm_compute. reflexivity.
    + intros [|k] node Hk; [|by destruct k]. apply (inj Some) in Hk as <-.
      apply HfsCatalog.Example.leaf_at_check. vm_compute. reflexivity.
  - assert (KernelHfs.file_search "kernel.elf" nodes =
      Some (HfsCatalog.Example.file 2 "kernel.elf" 5000 4 2)) as -> by (vm_compute; reflexivity).
    intros r [= <-]. split; [|vm_compute; reflexivity]. apply start_mapped. vm_compute. reflexivity.
Qed.

Lemma buffers_are_ok :
  @buffers_ok _ _ _ _ Virtio.Example.layout_is_ok start_layout num_ok KernelHfs.Example.bufs.
Proof.
  unfold buffers_ok, KernelHfs.buffer_ok, region, inside. cbn. unfold VirtioDev.private, inside. cbn.
  split_and!; try lia; intros x Hx; lia.
Qed.

Lemma img_ok : image_ok img.
Proof.
  split; unfold region, inside, XNU_STAGE0_USER_BASE, XNU_STAGE0_KERNEL_STACK_SIZE; cbn; try lia; intros; lia.
Qed.

Lemma img_apart : @payload_apart _ _ _ _ Virtio.Example.layout_is_ok start_layout num_ok KernelHfs.Example.bufs img.
Proof.
  unfold payload_apart, KernelHfs.in_buffers. cbn. unfold VirtioDev.private, inside. cbn. intros a Ha. lia.
Qed.

Lemma img_laid_out : laid_out img small_kernel (Stage0.init_info Stage0.Example.tree_mem 0 0x8fe00000 0).
Proof.
  split; [apply small_kernel_ok | by vm_compute | | by vm_compute | by vm_compute | by vm_compute | by vm_compute].
  cbn. repeat (apply Forall_cons_2; [lia|]). apply Forall_nil_2.
Qed.

(** The kernel enters user mode at the four bytes of the payload, with the volume of
    the disk mounted. *)
Lemma kernel_boots_witness :
  returns (_start Virtio.Example.layout KernelHfs.Example.bufs img ticking sbi tick_traps 100 0 0x8fe00000 0) entered
    (fun _ s' => user s' = Some (Entry 0x81000000 0x81002000 0x80421000) /\
       (fun j => k_mem (ks s') (0x81000000 + j)) <$> [0; 1; 2; 3; 4] = [0xd0; 0x0d; 0xfe; 0xed; 0] /\
       volume s' = HfsCatalog.Example.vol).
Proof.
  eapply returns_mono.
  { eapply (kernel_boots Virtio.Example.layout Virtio.Example.layout_is_ok start_layout num_ok
      KernelHfs.Example.bufs img ticking sbi tick_traps ticking_slow small_kernel entered 100 0 0x8fe00000 0 Stage0.Example.tree nodes).
    - exact Stage0.Example.tree_mem_ok.
    - exact Stage0.Example.tree_blob.
    - vm_compute. lia.
    - unfold ram_ok, Sv32.mmio_ok. cbn. split_and!; mlia.
    - exact img_laid_out.
    - exact img_ok.
    - exact img_apart.
    - exact buffers_are_ok.
    - exact disk_is_ok.
    - done. }
  intros _ s' (Hu & _ & Hp & _ & _ & Hv & _). rewrite Hu, Hv, volume_read. split; [done|]. split; [|done].
  cbn [fmap list_fmap]. rewrite !Hp by lia. vm_compute. reflexivity.
Defined.


End Example.

End Start.
