(* ===== verification/Payload.v ===== *)
(** The stand-alone boot payload (src/payload_hfsplus_boot.c), an earlier boot path
    that is built on its own with the driver src/virtio_blk_legacy.c: it mounts the
    HFS+ volume, prints its catalog, reads com.apple.Boot.plist, the kernel and the
    initrd and enters the kernel.  PayloadSpec.v has the theorems.

    It runs on the block device of Hfs.v, with the state of Hfs.v: of the volume
    record it uses [blockSize], [totalBlocks] and [catalog], its static [hv].
    [printf] is a stub in the source and prints nothing.  The UART is the text sent. *)

From S2P Require Import Prelude Print BootConfig Hfs.

Module Payload.

Import Print BootConfig Hfs.

Local Open Scope c_scope.

(** ** Text *)

(** [putu32(v)]: digits into [char b[11]] from its end, below the NUL. *)
Definition putu32 (v : Z) : list Z := dec_loop 10 v (if v =? 0 then [48] else []).

Fixpoint s_eq (a b : list Z) : bool :=
  match a, b with
  | x :: a, y :: b => if negb (x =? y) then false else s_eq a b
  | [], [] => true
  | _, _ => false
  end.

Fixpoint s_starts (s p : list Z) : bool :=
  match p with
  | [] => true
  | c :: p =>
      match s with
      | d :: s => if (d =? 0) || negb (d =? c) then false else s_starts s p
      | [] => false
      end
  end.

(** [u16be_to_ascii(u16be, n, out, outcap)] with [k] characters stored: what is
    stored from there on. *)
Fixpoint u16be_to_ascii (m : mem) (u16be : Z) (n : nat) (outcap k : Z) : list Z :=
  match n with
  | O => []
  | S n =>
      let ch := be16 m u16be in
      let c := if ch <? 128 then ch else 63 in
      if k + 1 <? outcap then c :: u16be_to_ascii m (u16be + 2) n outcap (k + 1) else []
  end.

(** *** Paths, as the suffix at an index *)

(** [while (full[i] == '/') i++;] *)
Fixpoint slashes (full : list Z) : list Z :=
  match full with
  | c :: rest => if c =? 47 then slashes rest else full
  | [] => []
  end.

(** [while (full[i] && full[i] != '/')] with [k] characters stored: what is stored
    from there on, and the rest. *)
Fixpoint component (full : list Z) (k : Z) : list Z * list Z :=
  match full with
  | c :: rest =>
      if c =? 47 then ([], full)
      else if k <? 127 then let '(out, rest) := component rest (k + 1) in (c :: out, rest)
      else component rest k
  | [] => ([], [])
  end.

(** [split_next(full, start, out)]: [None] for -1. *)
Definition split_next (full : list Z) : option (list Z * list Z) :=
  match slashes full with
  | [] => None
  | full => let '(out, rest) := component full 0 in Some (out, slashes rest)
  end.

Definition has_more (full : list Z) : bool :=
  match slashes full with [] => false | _ => true end.

(** ** Memory *)

(** Addresses of [secbuf], [plist], [kimg] and [initrd]. *)
Record buffers := {
  SECBUF : Z;
  PLIST : Z;
  KIMG : Z;
  INITRD : Z;
}.

Definition PLIST_CAP : Z := 8192.

Definition KIMG_CAP : Z := 8 * 1024 * 1024.

Definition INITRD_CAP : Z := 16 * 1024 * 1024.

Definition DTB_ADDR : Z := 0x8fe00000.

(** What the kernel is entered with. *)
Record jump := Jump {
  j_entry : Z;
  j_a0 : Z;
  j_a1 : Z;
  j_a2 : Z;
}.

Section Boot.
Context {D : Type} `{BlockDevice D} (B : buffers).

Local Abbreviation M := (PST (boot (D := D))).

Definition puts (t : list Z) : M unit := p t.

Definition disk_read (lba count buf : Z) : M Z :=
  puts "[disk_read] lba=";; puts (putu32 (u32 lba));;
  puts " count=";; puts (putu32 count);; puts "\r\n";;
  virtio_blk_read_blocks lba count buf.

(** ** Forks *)

(** [fk->ext[0].start] *)
Definition ext0_start (fk : ForkMeta) : Z := (default (0, 0) (head (fk_ext fk))).1.

Definition ext0_count (fk : ForkMeta) : Z := (default (0, 0) (head (fk_ext fk))).2.

(** [while (len > 0) { ... }] *)
Fixpoint fork_loop (fuel : nat) (bs sectorsPerBlock : Z) (fk : ForkMeta) (off32 out len : Z) : M Z :=
  if len <=? 0 then mret 0
  else match fuel with
  | O => out_of_fuel
  | S fuel =>
      let fileBlock := off32 / bs in
      let inBlock := off32 mod bs in
      let physBlock := ext0_start fk +! fileBlock in
      let lba := physBlock *! sectorsPerBlock in
      rc ← disk_read lba sectorsPerBlock (SECBUF B);
      if negb (rc =? 0) then mret (-1)
      else
        let chunk := bs - inBlock in
        let chunk := if len <? chunk then len else chunk in
        modifyP (fun s => set_mem (copy_loop (b_mem s) out (SECBUF B + inBlock) (Z.to_nat chunk)) s);;
        fork_loop fuel bs sectorsPerBlock fk (off32 +! chunk) (out +! chunk) (len - chunk)
  end.

(** [fork_read(fk, off, dst, len)] *)
Definition fork_read (fk : ForkMeta) (off dst len : Z) : M Z :=
  h ← getP b_hfs;
  let bs := if blockSize h =? 0 then 4096 else blockSize h in
  let sectorsPerBlock := bs / 512 in
  let sectorsPerBlock := if sectorsPerBlock =? 0 then 1 else sectorsPerBlock in
  if fk_size fk <=? off then mret (-1)
  else
    let len := if fk_size fk <? u64 (off + len) then u32 (fk_size fk - off) else len in
    fork_loop (Z.to_nat (len / bs + 4)) bs sectorsPerBlock fk (u32 off) dst len.

(** ** Mounting *)

(** The loop that prints the catalog extents. *)
Fixpoint print_extents (i : Z) (ext : list (Z * Z)) : M unit :=
  match ext with
  | [] => mret tt
  | (start, count) :: ext =>
      if count =? 0 then mret tt
      else
        puts "[hfs+] cat.ext ";; puts (putu32 i);;
        puts ": start=";; puts (putu32 start);;
        puts " count=";; puts (putu32 count);; puts "\r\n";;
        print_extents (i + 1) ext
  end.

(** [hv] from the volume header in [secbuf]; the other fields are not the payload's. *)
Definition read_vh (m : mem) (h : hfs_vol) : hfs_vol :=
  let vh := SECBUF B in
  {| blockSize := be32 m (vh + 40); totalBlocks := be32 m (vh + 44);
     catalogNodeSize := catalogNodeSize h; firstLeafNode := firstLeafNode h;
     lastLeafNode := lastLeafNode h; totalCatalogNodes := totalCatalogNodes h;
     catalog := Fork (be64 m (vh + 272)) (read_extents m (vh + 288) 8) |}.

Definition hfsplus_mount : M Z :=
  rc ← disk_read 2 1 (SECBUF B);
  if negb (rc =? 0) then mret (-1)
  else
    m ← getP b_mem;
    let sig := be16 m (SECBUF B) in
    if negb ((sig =? 0x482b) || (sig =? 0x4858)) then puts "[hfs+] firma invalida\r\n";; mret (-1)
    else
      modifyP (fun s => set_hfs (read_vh m (b_hfs s)) s);;
      h ← getP b_hfs;
      puts "[hfs+] OK bs=";; puts (putu32 (blockSize h));;
      puts " blocks=";; puts (putu32 (totalBlocks h));;
      puts " cat.size=";; puts (putu32 (u32 (fk_size (catalog h))));; puts "\r\n";;
      print_extents 0 (fk_ext (catalog h));;
      mret 0.

(** ** The catalog *)

(** A record in [secbuf]: its parent, its name, the address and type of its data. *)
Record record := Rec {
  r_parent : Z;
  r_name : list Z;
  r_data : Z;
  r_type : Z;
}.

Definition read_rec (m : mem) (rec_off : Z) : record :=
  let rec := SECBUF B + rec_off in
  let parent := be32 m (rec + 2) in
  let nlen := be16 m (rec + 6) in
  let name := c_string (u16be_to_ascii m (rec + 8) (Z.to_nat nlen) 128 0) in
  let data := rec + 2 + be16 m rec in
  Rec parent name data (be16 m data).

(** The fork of the file record at [data]. *)
Definition file_fork (m : mem) (data : Z) : ForkMeta :=
  Fork (be64 m (data + 88)) (read_extents m (data + 104) 8).

(** What a record of the wanted name says: a folder to go into, or the file with
    its identifier. *)
Inductive hit := Folder (folderID : Z) | File (cnid : Z) (fk : ForkMeta).

(** [for (r = 0; r < num; r++)] of [find_cnid_by_path]; [more] is
    [has_more(path, idx)]. *)
Fixpoint cnid_slots (m : mem) (want_parent : Z) (comp : list Z) (more : bool) (idxv : Z) (n : nat) : option hit :=
  match n with
  | O => None
  | S n =>
      let r := read_rec m (be16 m idxv) in
      let next := cnid_slots m want_parent comp more (idxv + 2) n in
      if (r_parent r =? want_parent) && s_eq (r_name r) comp then
        if r_type r =? 1 then Some (Folder (be32 m (r_data r + 8)))
        else if r_type r =? 2 then
          if negb more then Some (File (be32 m (r_data r + 8)) (file_fork m (r_data r))) else next
        else next
      else next
  end.

(** [for (off = 4096; off < hv.cat.size; off += 4096)]: [inr h] when a record ends
    it, [inl true] when a read fails, [inl false] at the end. *)
Fixpoint cnid_nodes (fuel : nat) (want_parent : Z) (comp : list Z) (more : bool) (off : Z) : M (bool + hit) :=
  h ← getP b_hfs;
  if off <? fk_size (catalog h) then
    match fuel with
    | O => out_of_fuel
    | S fuel =>
        rc ← fork_read (catalog h) off (SECBUF B) 4096;
        if negb (rc =? 0) then mret (inl true)
        else
          m ← getP b_mem;
          let next := cnid_nodes fuel want_parent comp more (u64 (off + 4096)) in
          if negb (load8 m (SECBUF B + 8) =? 0xff) then next
          else
            let num := be16 m (SECBUF B + 10) in
            match cnid_slots m want_parent comp more (SECBUF B + 4096 - 2 * (num + 1)) (Z.to_nat num) with
            | Some f => mret (inr f)
            | None => next
            end
    end
  else mret (inl false).

(** The nodes of the catalog after the header node. *)
Definition node_fuel (h : hfs_vol) : nat := Z.to_nat (fk_size (catalog h) / 4096 + 1).

(** [while ((idx = split_next(path, idx, comp)) != -1)]: the identifier returned and
    the fork stored. *)
Fixpoint cnid_path (fuel : nat) (path : list Z) (want_file : bool) (want_parent : Z) : M (Z * option ForkMeta) :=
  match split_next path with
  | None => mret (if want_file then 0 else want_parent, None)
  | Some (comp, path) =>
      match fuel with
      | O => out_of_fuel
      | S fuel =>
          h ← getP b_hfs;
          r ← cnid_nodes (node_fuel h) want_parent comp (has_more path) 4096;
          match r with
          | inr (Folder id) => cnid_path fuel path want_file id
          | inr (File cnid fk) => mret (cnid, Some fk)
          | inl true => mret (0, None)
          | inl false =>
              puts "[hfs+] componente no encontrado: ";; puts comp;; puts "\r\n";; mret (0, None)
          end
      end
  end.

(** [find_cnid_by_path(path, want_file, out_fork)] *)
Definition find_cnid_by_path (path : list Z) (want_file : bool) : M (Z * option ForkMeta) :=
  h ← getP b_hfs;
  rc ← fork_read (catalog h) 0 (SECBUF B) 4096;
  if negb (rc =? 0) then mret (0, None)
  else
    m ← getP b_mem;
    (let kind := load8 m (SECBUF B + 8) in
     if negb (kind =? 1) then puts "[hfs+] warn: cat header kind=";; puts (putu32 kind);; puts "\r\n" else mret tt);;
    cnid_path (S (length path)) path want_file 2.

(** *** A file of the root folder *)

(** [for (r = 0; r < num; r++)] of [hfsplus_find_root_file]. *)
Fixpoint root_slots (m : mem) (parent : Z) (name : list Z) (idxv : Z) (n : nat) : option ForkMeta :=
  match n with
  | O => None
  | S n =>
      let r := read_rec m (be16 m idxv) in
      if (r_parent r =? parent) && (r_type r =? 2) && s_eq (r_name r) name then Some (file_fork m (r_data r))
      else root_slots m parent name (idxv + 2) n
  end.

(** [for (node = firstLeaf; node <= lastLeaf; node++)] *)
Fixpoint root_nodes (fuel : nat) (nodeSize : Z) (name : list Z) (node lastLeaf : Z) : M (Z * option ForkMeta) :=
  if node <=? lastLeaf then
    match fuel with
    | O => out_of_fuel
    | S fuel =>
        h ← getP b_hfs;
        rc ← fork_read (catalog h) (node * nodeSize) (SECBUF B) nodeSize;
        if negb (rc =? 0) then mret (-1, None)
        else
          m ← getP b_mem;
          let kind := load8 m (SECBUF B + 8) in
          let num := be16 m (SECBUF B + 10) in
          puts "[hfs+] root-scan node=";; puts (putu32 node);;
          puts " kind=";; puts (putu32 kind);;
          puts " num=";; puts (putu32 num);; puts "\r\n";;
          if negb (kind =? 0xff) || (num =? 0) then root_nodes fuel nodeSize name (node + 1) lastLeaf
          else
            match root_slots m 2 name (SECBUF B + nodeSize - 2 * (num + 1)) (Z.to_nat num) with
            | Some fk => mret (0, Some fk)
            | None => root_nodes fuel nodeSize name (node + 1) lastLeaf
            end
    end
  else mret (-1, None).

(** The fields of [BTHeaderRecLocal]. *)
Record btree := Btree {
  bt_depth : Z;
  bt_first : Z;
  bt_last : Z;
  bt_nodeSize : Z;
  bt_total : Z;
}.

Definition read_btree (m : mem) : btree :=
  let hdr := SECBUF B + 14 in
  Btree (be16 m hdr) (be32 m (hdr + 10)) (be32 m (hdr + 14)) (be16 m (hdr + 18)) (be32 m (hdr + 22)).

(** The leaves to look at. *)
Definition leaf_range (cat_size nodeSize : Z) (t : btree) : Z * Z :=
  let totalNodes := if bt_total t =? 0 then u32 cat_size / nodeSize else bt_total t in
  if ((bt_first t =? 0) && (bt_last t =? 0)) || (totalNodes <=? bt_first t) || (totalNodes <=? bt_last t)
  then if 1 <? totalNodes then (1, totalNodes - 1) else (0, 0)
  else (bt_first t, bt_last t).

(** [hfsplus_find_root_file(name, out_fork)] *)
Definition hfsplus_find_root_file (name : list Z) : M (Z * option ForkMeta) :=
  h ← getP b_hfs;
  rc ← fork_read (catalog h) 0 (SECBUF B) 4096;
  if negb (rc =? 0) then mret (-1, None)
  else
    m ← getP b_mem;
    let t := read_btree m in
    let nodeSize := if bt_nodeSize t =? 0 then 4096 else bt_nodeSize t in
    puts "[hfs+] find_root: depth=";; puts (putu32 (bt_depth t));;
    puts " nodeSize=";; puts (putu32 nodeSize);;
    puts " totalNodes=";; puts (putu32 (bt_total t));;
    puts " firstLeaf=";; puts (putu32 (bt_first t));;
    puts " lastLeaf=";; puts (putu32 (bt_last t));; puts "\r\n";;
    let '(firstLeaf, lastLeaf) := leaf_range (fk_size (catalog h)) nodeSize t in
    root_nodes (Z.to_nat (lastLeaf - firstLeaf + 1)) nodeSize name firstLeaf lastLeaf.

(** [hfsplus_read_file(path, dst, cap, out_sz)] *)
Definition hfsplus_read_file (path : list Z) (dst cap : Z) : M (Z * option Z) :=
  let simple := negb (bool_decide (path = [])) && negb (existsb (Z.eqb 47) path) in
  r ← (if simple then hfsplus_find_root_file path else mret (-1, None));
  '(cnid, fk) ← (if r.1 =? 0 then mret (1, r.2) else find_cnid_by_path path true);
  match fk with
  | Some fk =>
      if cnid =? 0 then puts "[hfs+] no se resolvio: ";; puts path;; puts "\r\n";; mret (-1, None)
      else if cap <? fk_size fk then puts "[hfs+] buffer chico\r\n";; mret (-1, None)
      else
        rc ← fork_read fk 0 dst (u32 (fk_size fk));
        if negb (rc =? 0) then mret (-1, None) else mret (0, Some (u32 (fk_size fk)))
  | None => puts "[hfs+] no se resolvio: ";; puts path;; puts "\r\n";; mret (-1, None)
  end.

(** ** The dump of the catalog *)

(** [hfs_hexdump(p, len)] from byte [i] on: the text sent. *)
Fixpoint hexdump_from (m : mem) (a i : Z) (n : nat) : list Z :=
  match n with
  | O => []
  | S n =>
      let v := load8 m (a + i) in
      (if i mod 16 =? 0 then cstr "\r\n" else []) ++
      [HEX !!! Z.to_nat (Z.shiftr v 4 &! 0xF); HEX !!! Z.to_nat (v &! 0xF); 32] ++
      hexdump_from m a (i + 1) n
  end.

Definition hfs_hexdump (m : mem) (a len : Z) : list Z := hexdump_from m a 0 (Z.to_nat len) ++ cstr "\r\n".

(** [for (i = 0; i < 4; i++)] of [hfsplus_debug_cat_first_blocks], [n] turns to go. *)
Fixpoint debug_blocks (n : nat) (i : Z) : M unit :=
  match n with
  | O => mret tt
  | S n =>
      h ← getP b_hfs;
      let off := i * 4096 in
      if fk_size (catalog h) <=? off then mret tt
      else
        rc ← fork_read (catalog h) off (SECBUF B) 4096;
        if negb (rc =? 0) then
          puts "[hfs+] debug_cat: fork_read FAIL at off=";; puts (putu32 off);; puts "\r\n"
        else
          puts "[hfs+] debug_cat: block#";; puts (putu32 i);; puts "\r\n";;
          m ← getP b_mem;
          puts (hfs_hexdump m (SECBUF B) 64);;
          debug_blocks n (i + 1)
  end.

Definition hfsplus_debug_cat_first_blocks : M unit :=
  h ← getP b_hfs;
  puts "[hfs+] debug_cat: size=";; puts (putu32 (u32 (fk_size (catalog h))));;
  puts " ext0.start=";; puts (putu32 (ext0_start (catalog h)));;
  puts " ext0.count=";; puts (putu32 (ext0_count (catalog h)));; puts "\r\n";;
  debug_blocks 4 0.

(** [for (r = 0; r < num; r++)] *)
Fixpoint dump_slots (m : mem) (idxv : Z) (n : nat) : M unit :=
  match n with
  | O => mret tt
  | S n =>
      let r := read_rec m (be16 m idxv) in
      puts "[hfs+] cat entry: parent=";; puts (putu32 (r_parent r));;
      puts " name='";; puts (r_name r);;
      puts "' type=";; puts (putu32 (r_type r));; puts "\r\n";;
      dump_slots m (idxv + 2) n
  end.

(** [for (off = 4096; off < hv.cat.size; off += 4096)]: false when a read fails. *)
Fixpoint dump_nodes (fuel : nat) (off : Z) : M bool :=
  h ← getP b_hfs;
  if off <? fk_size (catalog h) then
    match fuel with
    | O => out_of_fuel
    | S fuel =>
        rc ← fork_read (catalog h) off (SECBUF B) 4096;
        if negb (rc =? 0) then puts "[hfs+] dump_root: fork_read FAIL\r\n";; mret false
        else
          m ← getP b_mem;
          (if negb (load8 m (SECBUF B + 8) =? 0xff) then mret tt
           else
             let num := be16 m (SECBUF B + 10) in
             dump_slots m (SECBUF B + 4096 - 2 * (num + 1)) (Z.to_nat num));;
          dump_nodes fuel (u64 (off + 4096))
    end
  else mret true.

Definition hfsplus_dump_root_entries : M unit :=
  hfsplus_debug_cat_first_blocks;;
  h ← getP b_hfs;
  rc ← fork_read (catalog h) 0 (SECBUF B) 4096;
  if negb (rc =? 0) then puts "[hfs+] dump_root: fork_read header FAIL\r\n"
  else
    m ← getP b_mem;
    puts "[hfs+] dump_root: header kind=";; puts (putu32 (load8 m (SECBUF B + 8)));; puts "\r\n";;
    puts "[hfs+] dump_root: inicio\r\n";;
    done ← dump_nodes (node_fuel h) 4096;
    if done : bool then puts "[hfs+] dump_root: fin\r\n" else mret tt.

(** ** The kernel *)

(** [for (k = 0; k < ph[i].p_filesz; k++) dst[k] = src[k];] and
    [for (k = ph[i].p_filesz; k < ph[i].p_memsz; k++) dst[k] = 0;] from [k] on.  The
    bound is read from memory at every turn; [None]: [fuel] turns are not enough. *)
Fixpoint copy_filesz (fuel : nat) (m : mem) (ph dst src k : Z) : option mem :=
  if k <? load32 m (ph + 16) then
    match fuel with
    | O => None
    | S fuel => copy_filesz fuel (store8 m (dst + k) (load8 m (src + k))) ph dst src (k + 1)
    end
  else Some m.

Fixpoint zero_memsz (fuel : nat) (m : mem) (ph dst k : Z) : option mem :=
  if k <? load32 m (ph + 20) then
    match fuel with
    | O => None
    | S fuel => zero_memsz fuel (store8 m (dst + k) 0) ph dst (k + 1)
    end
  else Some m.

(** The body of the loop for the header at [ph]. *)
Definition load_ph (fuel : nat) (m : mem) (img ph : Z) : option mem :=
  if negb (load32 m ph =? 1) then Some m
  else
    let src := img + load32 m (ph + 4) in
    let dst := load32 m (ph + 8) in
    m ← copy_filesz fuel m ph dst src 0;
    zero_memsz fuel m ph dst (load32 m (ph + 16)).

(** [for (i = 0; i < eh->e_phnum; i++)], [turns] to go. *)
Fixpoint load_phs (turns fuel : nat) (m : mem) (img ph i : Z) : option mem :=
  if i <? load16 m (img + 44) then
    match turns with
    | O => None
    | S turns => m ← load_ph fuel m img (ph + 32 * i); load_phs turns fuel m img ph (i + 1)
    end
  else Some m.

(** [elf32_load_and_jump(img, sz, dtb)]: the code, and the jump if it is reached. *)
Definition elf32_load_and_jump (fuel : nat) (img dtb : Z) : M (Z * option jump) :=
  m ← getP b_mem;
  if negb (load32 m img =? 0x464c457f) then puts "[ELF] magic invalido\r\n";; mret (-1, None)
  else if negb (load8 m (img + 4) =? 1) || negb (load8 m (img + 5) =? 1) then
    puts "[ELF] clase/dato no soportado\r\n";; mret (-1, None)
  else
    match load_phs (Z.to_nat 65536) fuel m img (img + load32 m (img + 28)) 0 with
    | None => out_of_fuel
    | Some m =>
        modifyP (set_mem m);;
        let entry := load32 m (img + 24) in
        puts "[ELF] saltando a ";; puts (puthex32 entry);;
        puts " a1=dtb=";; puts (putu32 dtb);; puts "\r\n";;
        mret (0, Some (Jump entry 0 dtb 0))
    end.

(** ** com.apple.Boot.plist *)

(** The suffix at the first "Kernel Flags" that has a byte behind it. *)
Fixpoint flags_key (f : list Z) : option (list Z) :=
  match f with
  | c :: rest =>
      if 12 <? slen f then
        if (c =? 75) && s_starts f "Kernel Flags" then Some f else flags_key rest
      else None
  | [] => None
  end.

(** The suffix at the first [tag] that has a byte behind it. *)
Fixpoint find_tag (tag f : list Z) : option (list Z) :=
  match f with
  | c :: rest =>
      if slen tag <? slen f then
        if (c =? 60) && s_starts f tag then Some f else find_tag tag rest
      else None
  | [] => None
  end.

(** [flags]: the string after the key, 255 characters at most; empty when there is none. *)
Definition plist_flags (f : list Z) : list Z :=
  match flags_key f with
  | None => []
  | Some f =>
      match find_tag "<string>" f with
      | None => []
      | Some f =>
          let s1 := drop 8 f in
          match find_tag "</string>" s1 with
          | None => []
          | Some s2 =>
              let L := slen s1 - slen s2 in
              let L := if 256 <=? L then 255 else L in
              c_string (take (Z.to_nat L) s1)
          end
      end
  end.

(** [while (flags[i] && flags[i] != ' ' && k + 1 < sizeof(kernel_path))] *)
Fixpoint path_chars (flags : list Z) (k : Z) : list Z :=
  match flags with
  | c :: flags => if negb (c =? 32) && (k + 1 <? 128) then c :: path_chars flags (k + 1) else []
  | [] => []
  end.

(** [kernel_path]: the value of the first "kernel=". *)
Fixpoint flags_kernel (flags : list Z) : list Z :=
  match flags with
  | c :: rest => if (c =? 107) && s_starts flags "kernel=" then path_chars (drop 7 flags) 0 else flags_kernel rest
  | [] => []
  end.

(** What [payload_entry] takes from the file and prints of it. *)
Definition plist_kernel (f : list Z) : M (list Z) :=
  let flags := plist_flags f in
  if bool_decide (flags = []) then mret []
  else
    puts "  Flags: '";; puts flags;; puts "'\r\n";;
    let kernel_path := flags_kernel flags in
    (if bool_decide (kernel_path = []) then mret tt
     else puts "  Kernel: '";; puts kernel_path;; puts "'\r\n");;
    mret kernel_path.

(** com.apple.Boot.plist: the path of the kernel, or none. *)
Definition boot_plist : M (list Z) :=
  '(rc, psz) ← hfsplus_read_file "com.apple.Boot.plist" (PLIST B) PLIST_CAP;
  if rc =? 0 then
    puts "[Boot.plist] ";; puts (putu32 (default 0 psz));; puts " bytes\r\n";;
    m ← getP b_mem;
    plist_kernel (read_bytes m (PLIST B) (Z.to_nat (default 0 psz)))
  else puts "[Boot.plist] no encontrado (ok)\r\n";; mret [].

(** The jump, or the endless loop behind it. *)
Definition enter_kernel (fuel : nat) : M (option jump) :=
  '(_, j) ← elf32_load_and_jump fuel (KIMG B) DTB_ADDR;
  match j with
  | Some j => mret (Some j)
  | None => puts "[boot] regreso del kernel (no esperado)\r\n";; mret None
  end.

(** The kernel and the initrd. *)
Definition boot_kernel (fuel : nat) (kpath : list Z) : M (option jump) :=
  '(rc, ksz) ← hfsplus_read_file kpath (KIMG B) KIMG_CAP;
  if negb (rc =? 0) then
    puts "[boot] fallo leyendo kernel: ";; puts kpath;; puts "\r\n";; mret None
  else
    puts "[boot] kernel ";; puts kpath;; puts " size=";; puts (putu32 (default 0 ksz));; puts "\r\n";;
    '(rc, rsz) ← hfsplus_read_file "/initrd.img" (INITRD B) INITRD_CAP;
    (if rc =? 0 then puts "[boot] initrd size=";; puts (putu32 (default 0 rsz));; puts "\r\n" else mret tt);;
    enter_kernel fuel.

(** [payload_entry()], up to the jump; [None] when it stays in an endless loop.
    [fuel] bounds the copies of a segment. *)
Definition payload_entry (fuel : nat) : M (option jump) :=
  puts "\r\n[CaribeBootX HFS+ RAM] init\r\n";;
  rc ← virtio_blk_init;
  if negb (rc =? 0) then puts "[boot] virtio_blk_init FAIL\r\n";; mret None
  else
    puts "[ramdisk] probe LBA2...\r\n";;
    rc ← disk_read 2 1 (SECBUF B);
    if negb (rc =? 0) then puts "[ramdisk] read LBA2 FAIL\r\n";; mret None
    else
      puts "[ramdisk] read LBA2 OK, sig=";;
      m ← getP b_mem;
      puts [load8 m (SECBUF B)];; puts [load8 m (SECBUF B + 1)];; puts "\r\n";;
      rc ← hfsplus_mount;
      if negb (rc =? 0) then puts "[boot] hfs+ mount FAIL\r\n";; mret None
      else
        hfsplus_dump_root_entries;;
        kernel_path ← boot_plist;
        boot_kernel fuel (match kernel_path with [] => cstr "kernel.elf" | _ => kernel_path end).

End Boot.

End Payload.
