(* ===== verification/PayloadSpec.v ===== *)
(** What the stand-alone payload does (Payload.v, src/payload_hfsplus_boot.c), on the
    abstract catalogs of HfsCatalog.v: its path look-up is that of the booter, and
    the boot ends with the kernel of the volume loaded and entered.

    The payload reads whole blocks of a fork through its first extent into a buffer
    of 4096 bytes; the theorems are about volumes with blocks and catalog nodes of
    that size and forks in one extent. *)

From S2P Require Import Prelude MemoryMap Mmu Fdt BootArgs Print BootConfig Hfs HfsCatalog BootLoader Console ConsoleElf Kernel KernelHfs Payload.

Module PayloadSpec.

Import Print BootConfig Hfs HfsCatalog Payload.
Import KernelHfs (buffer_ok, loaded, read_sectors, buffer_sub, loaded_same).

Local Open Scope c_scope.

(** ** Text *)

Lemma s_eq_booter a : forall b, Payload.s_eq a b = BootConfig.s_eq a b.
Proof. induction a as [|x a IH]; intros [|y b]; try done. simpl. rewrite IH. by destruct (x =? y). Qed.

Lemma u16be_to_ascii_booter m n : forall a k, 0 <= k ->
  u16be_to_ascii m a n 128 k = ascii_name_from_utf16be m a n (Z.to_nat (127 - k)).
Proof.
  induction n as [|n IH]; intros a k Hk; simpl; [done|]. case_if; zbool.
  - replace (Z.to_nat (127 - k)) with (S (Z.to_nat (127 - (k + 1)))) by lia. by rewrite IH by lia.
  - by replace (Z.to_nat (127 - k)) with 0%nat by lia.
Qed.

Lemma slashes_booter l : slashes l = skip_slashes l.
Proof. induction l as [|c l IH]; simpl; [done|]. by rewrite IH. Qed.

Lemma component_booter l : forall k, 0 <= k <= 127 ->
  component l k = (take (Z.to_nat (127 - k)) (span_component l).1, (span_component l).2).
Proof.
  induction l as [|c l IH]; intros k Hk; simpl; [by rewrite take_nil|].
  destruct (c =? 47); simpl; [by rewrite take_nil|]. destruct (span_component l) as [a b]. simpl in *.
  case_if; zbool.
  - rewrite IH by lia. by replace (Z.to_nat (127 - k)) with (S (Z.to_nat (127 - (k + 1)))) by lia.
  - rewrite IH by lia. by replace (Z.to_nat (127 - k)) with 0%nat by lia.
Qed.

Lemma split_next_booter l : split_next l = split_next_path_component l 128.
Proof.
  unfold split_next, split_next_path_component. rewrite slashes_booter. destruct (skip_slashes l) as [|c r]; [done|].
  rewrite component_booter, slashes_booter by lia. by destruct (span_component (c :: r)).
Qed.

Lemma has_more_booter l : has_more l = path_has_more l.
Proof. unfold has_more, path_has_more. rewrite slashes_booter. by destruct (skip_slashes l). Qed.

(** ** Searching the records of a catalog *)

(** The records the code looks at, in its order: those of each leaf from the last
    down to the second. *)
Definition visited (nodes : list (option (list cat_rec))) : list cat_rec :=
  concat ((fun nd => match nd with Some recs => reverse (tail recs) | None => [] end) <$> nodes).

Fixpoint pick {A} (f : cat_rec -> option A) (rs : list cat_rec) : option A :=
  match rs with
  | [] => None
  | r :: rs => match f r with Some x => Some x | None => pick f rs end
  end.

Lemma pick_app {A} (f : cat_rec -> option A) l1 l2 :
  pick f (l1 ++ l2) = match pick f l1 with Some x => Some x | None => pick f l2 end.
Proof. induction l1 as [|r l1 IH]; simpl; [done|]. by destruct (f r). Qed.

Lemma catalog_search_pick parent name w nodes :
  catalog_search parent name w nodes = pick (answer parent name w) (visited nodes).
Proof.
  assert (forall rs, first_answer parent name w rs = pick (answer parent name w) rs) as Hf
    by (induction rs as [|r rs IH]; simpl; [done | by rewrite IH]).
  induction nodes as [|[recs|] nodes IH]; [done | | done]. unfold visited. cbn [catalog_search fmap list_fmap concat].
  rewrite pick_app, <- Hf. by destruct (first_answer _ _ _ _).
Qed.

(** What the loop of [find_cnid_by_path] takes of a record. *)
Definition entry (parent : Z) (name : list Z) (more : bool) (r : cat_rec) : option hit :=
  if (cr_parent r =? parent) && bytes_eqb (cr_name r) name then
    if rec_type r =? 1 then Some (Folder (rec_folder r))
    else if rec_type r =? 2 then
      if more then None else Some (File (rec_folder r) (rec_fork r))
    else None
  else None.

(** The walk of [find_cnid_by_path]. *)
Fixpoint walk (nodes : list (option (list cat_rec))) (parent : Z) (cs : list (list Z)) : option (Z * ForkMeta) :=
  match cs with
  | [] => None
  | c :: cs =>
      match pick (entry parent c (negb (bool_decide (cs = [])))) (visited nodes) with
      | Some (Folder id) => walk nodes id cs
      | Some (File id fk) => Some (id, fk)
      | None => None
      end
  end.

(** No name belongs to a file and to a folder of the same parent. *)
Definition clear_of (rs : list cat_rec) (r : cat_rec) : Prop :=
  Forall (fun r' => cr_parent r' = cr_parent r -> cr_name r' = cr_name r ->
    rec_type r = 1 -> rec_type r' <> 2) rs.

Definition names_clear (nodes : list (option (list cat_rec))) : Prop :=
  Forall (clear_of (visited nodes)) (visited nodes).

Lemma no_file_beside r rs : clear_of rs r -> rec_type r = 1 ->
  pick (answer (cr_parent r) (cr_name r) WantFile) rs = None.
Proof.
  intros Hc H1. induction Hc as [|r' rs Hr Hc IH]; [done|]. cbn [pick]. unfold answer at 1.
  destruct ((cr_parent r' =? cr_parent r) && _) eqn:E; [|exact IH].
  apply andb_true_iff in E as [Ep En]. zbool. apply bool_decide_eq_true in En.
  by rewrite (proj2 (Z.eqb_neq (rec_type r') 2)) by auto.
Qed.

Lemma pick_folder parent name rs :
  (exists id, pick (entry parent name true) rs = Some (Folder id) /\
     pick (answer parent name WantFolder) rs = Some (FoundFolder id)) \/
  (pick (entry parent name true) rs = None /\ pick (answer parent name WantFolder) rs = None).
Proof.
  induction rs as [|r rs IH]; simpl; [by right|]. unfold entry at 1 3, answer at 1 3.
  destruct (_ && _); [|exact IH]. destruct (rec_type r =? 1); [left; by eexists|].
  by destruct (rec_type r =? 2).
Qed.

(** The last component, on records that are clear. *)
Lemma pick_file parent name rs : Forall (clear_of rs) rs ->
  match pick (entry parent name false) rs with
  | Some (File _ fk) => pick (answer parent name WantFile) rs = Some (FoundFile fk)
  | _ => pick (answer parent name WantFile) rs = None
  end.
Proof.
  induction rs as [|r rs IH]; intros Hc; [done|]. apply Forall_cons in Hc as [Hr Hc].
  apply Forall_cons in Hr as [_ Hr].
  assert (Forall (clear_of rs) rs) as Hc'.
  { eapply Forall_impl; [exact Hc|]. intros x Hx. by apply Forall_cons in Hx as [_ Hx]. }
  specialize (IH Hc'). cbn [pick].
  assert (answer parent name WantFile r =
    if (cr_parent r =? parent) && bytes_eqb (cr_name r) name then
      if rec_type r =? 2 then Some (FoundFile (rec_fork r)) else None else None) as -> by done.
  unfold entry at 1. destruct ((cr_parent r =? parent) && _) eqn:E; [|exact IH].
  apply andb_true_iff in E as [Ep En]. zbool. apply bool_decide_eq_true in En. subst.
  destruct (Z.eqb_spec (rec_type r) 1) as [H1|]; [|by destruct (rec_type r =? 2)].
  rewrite H1. by apply no_file_beside.
Qed.

(** The walk finds the file the booter finds. *)
Lemma walk_resolve nodes (Hclear : names_clear nodes) cs : forall parent,
  snd <$> walk nodes parent cs = resolve nodes parent cs.
Proof.
  induction cs as [|c cs IH]; intros parent; [done|]. cbn [walk]. destruct cs as [|c' cs].
  - rewrite bool_decide_eq_true_2 by done. cbn [negb resolve]. rewrite catalog_search_pick.
    pose proof (pick_file parent c (visited nodes) Hclear) as Hp.
    by destruct (pick (entry parent c false) _) as [[]|]; rewrite Hp.
  - rewrite bool_decide_eq_false_2 by done. cbn [negb].
    change (resolve nodes parent (c :: c' :: cs)) with
      (match catalog_search parent c WantFolder nodes with
       | Some (FoundFolder id) => resolve nodes id (c' :: cs) | _ => None end).
    rewrite catalog_search_pick.
    destruct (pick_folder parent c (visited nodes)) as [(id & -> & ->)|[-> ->]]; [apply IH | done].
Qed.

(** ** A node in memory *)

Section NodeProofs.
Context (B : buffers) (m b : mem) (Hb : same_bytes m (SECBUF B) b 0 4096).

Lemma read_rec_rec o r : rec_at b 4096 o r -> rec_ok r ->
  let data := SECBUF B + (o + 8 + 2 * Z.of_nat (length (cr_name r))) in
  read_rec B m o = Rec (cr_parent r) (cr_name r) data (rec_type r) /\
  same_bytes m data (mem_of_list 0 (cr_data r)) 0 (Z.of_nat (length (cr_data r))).
Proof.
  intros Hat Hok data. pose proof (data_at (SECBUF B) m b 4096 ltac:(lia) Hb o r Hat Hok) as Hdata.
  pose proof Hat as (Ho & Hend & Hkey & Hpar & Hlen & Hname & _).
  pose proof Hok as (Hascii & Hshort & H2 & _). split; [|exact Hdata]. unfold read_rec. cbv zeta.
  rewrite (node_be16 (SECBUF B) m b 4096 Hb), Hkey by lia.
  rewrite <- (Z.add_assoc (SECBUF B) o 2), <- (Z.add_assoc (SECBUF B) o 6), <- (Z.add_assoc (SECBUF B) o 8).
  rewrite (node_be32 (SECBUF B) m b 4096 Hb (o + 2)), (node_be16 (SECBUF B) m b 4096 Hb (o + 6)), Hpar, Hlen, Nat2Z.id by lia.
  rewrite u16be_to_ascii_booter by lia. change (Z.to_nat (127 - 0)) with 127%nat.
  rewrite (name_at (SECBUF B) m b 4096 Hb)
    by (done || lia || (intros i c Hi; rewrite <- (Hname i c) by done; f_equal; lia)).
  rewrite c_string_ascii by done.
  replace (SECBUF B + (o + 2) + (6 + 2 * Z.of_nat (length (cr_name r)))) with data by (unfold data; lia).
  f_equal. rewrite <- (Z.add_0_r data). apply (same_be16 _ _ _ _ 0 _ Hdata); lia.
Qed.

(** The free-space slot, when there is room behind it. *)
Lemma read_rec_free free : 0 <= free -> free + 8 < 4096 -> be32 b (free + 2) = 0 ->
  r_parent (read_rec B m free) = 0.
Proof.
  intros Hf Hr Hz. unfold read_rec. cbn [r_parent].
  by rewrite <- (Z.add_assoc (SECBUF B)), (node_be32 (SECBUF B) m b 4096 Hb) by lia.
Qed.

(** The slots of the records [rs] at [i]. *)
Definition slots_at (i : Z) (rs : list cat_rec) : Prop :=
  0 <= i /\ i + 2 * Z.of_nat (length rs) <= 4096 /\
  forall k r, rs !! k = Some r -> rec_ok r /\ rec_at b 4096 (be16 b (i + 2 * Z.of_nat k)) r.

Lemma slots_at_cons i r rs : slots_at i (r :: rs) ->
  be16 m (SECBUF B + i) = be16 b i /\ rec_ok r /\ rec_at b 4096 (be16 b i) r /\ slots_at (i + 2) rs.
Proof.
  intros (Hi & Hend & Hrs). cbn [length] in Hend. destruct (Hrs 0%nat r eq_refl) as [Hok Hat].
  rewrite Z.mul_0_r, Z.add_0_r in Hat. split_and!; try done.
  - apply (node_be16 (SECBUF B) m b 4096 Hb); lia.
  - unfold slots_at. split_and!; [lia | lia |]. intros k r' Hk.
    replace (i + 2 + 2 * Z.of_nat k) with (i + 2 * Z.of_nat (S k)) by lia. by apply Hrs.
Qed.

Lemma file_fork_rec data r : rec_ok r -> rec_type r = 2 ->
  same_bytes m data (mem_of_list 0 (cr_data r)) 0 (Z.of_nat (length (cr_data r))) ->
  file_fork m data = rec_fork r /\ be32 m (data + 8) = rec_folder r.
Proof.
  intros (_ & _ & _ & _ & _ & H168) Ht Hd. specialize (H168 Ht). split.
  - apply (fork_from_file_record_same _ _ _ _ _ Hd). lia.
  - apply (same_be32 _ _ _ _ 8 _ Hd); lia.
Qed.

Lemma cnid_slots_pick parent comp more : forall rs i, slots_at i rs ->
  cnid_slots B m parent comp more (SECBUF B + i) (length rs) = pick (entry parent comp more) rs.
Proof.
  induction rs as [|r rs IH]; intros i Hs; [done|].
  apply slots_at_cons in Hs as (Hi & Hok & Hat & Hs). cbn [length cnid_slots pick]. rewrite Hi.
  destruct (read_rec_rec _ r Hat Hok) as [-> Hd]. cbn [r_parent r_name r_type r_data]. cbv zeta.
  rewrite s_eq_booter, s_eq_bytes, <- (Z.add_assoc (SECBUF B) i 2), (IH _ Hs).
  generalize (pick (entry parent comp more) rs). intros nx. unfold entry.
  destruct (_ && _); [|done]. destruct (Z.eqb_spec (rec_type r) 1) as [Ht|].
  - destruct Hok as (_ & _ & _ & _ & H12 & _). destruct (H12 Ht). do 2 f_equal.
    apply (same_be32 _ _ _ _ 8 _ Hd); lia.
  - destruct (Z.eqb_spec (rec_type r) 2) as [Ht|]; [|done]. destruct more; [done|].
    by destruct (file_fork_rec _ r Hok Ht Hd) as [-> ->].
Qed.

Lemma root_slots_pick name : forall rs i, slots_at i rs ->
  FoundFile <$> root_slots B m 2 name (SECBUF B + i) (length rs) = pick (answer 2 name WantFile) rs.
Proof.
  induction rs as [|r rs IH]; intros i Hs; [done|].
  apply slots_at_cons in Hs as (Hi & Hok & Hat & Hs). cbn [length root_slots pick]. rewrite Hi.
  destruct (read_rec_rec _ r Hat Hok) as [-> Hd]. cbn [r_parent r_name r_type r_data].
  rewrite s_eq_booter, s_eq_bytes, <- (Z.add_assoc (SECBUF B) i 2). unfold answer at 1.
  destruct (cr_parent r =? 2), (Z.eqb_spec (rec_type r) 2) as [Ht|], (bytes_eqb (cr_name r) name); cbn [andb];
    try (exact (IH _ Hs)).
  by destruct (file_fork_rec _ r Hok Ht Hd) as [-> _].
Qed.

(** A leaf with room behind its free-space offset: the first slot is the free space,
    the others the records but the first. *)
Definition roomy (recs : list cat_rec) : Prop :=
  be16 b (4096 - 2 * (Z.of_nat (length recs) + 1)) + 8 < 4096.

Lemma leaf_slots recs : leaf_at b 4096 recs -> roomy recs ->
  exists n i, be16 m (SECBUF B + 10) = Z.of_nat (S n) /\
    SECBUF B + 4096 - 2 * (Z.of_nat (S n) + 1) = SECBUF B + i /\
    r_parent (read_rec B m (be16 m (SECBUF B + i))) = 0 /\
    slots_at (i + 2) (reverse (tail recs)) /\ length (reverse (tail recs)) = n.
Proof.
  intros (Hkind & Hnum & Hpos & Hfit & Hrecs & Hfree & Hzero) Hroom.
  destruct recs as [|r0 recs]; [simpl in Hpos; lia|]. unfold roomy in Hroom. cbn [length tail] in *.
  set (n := length recs) in *. exists n, (4096 - 2 * (Z.of_nat (S n) + 1)).
  rewrite !(node_be16 (SECBUF B) m b 4096 Hb) by lia. split_and!; [done | lia | | | apply length_reverse].
  - apply read_rec_free; [done | done | by apply Hzero].
  - unfold slots_at. rewrite length_reverse. fold n. split_and!; [lia | lia |].
    intros k r Hk. apply reverse_lookup_Some in Hk as [Hk Hlt]. fold n in Hk, Hlt.
    destruct (Hrecs (S (n - S k)) r Hk) as [Hok Hat]. split; [done|].
    replace (4096 - 2 * (Z.of_nat (S n) + 1) + 2 + 2 * Z.of_nat k)
      with (4096 - 2 * (Z.of_nat (S (n - S k)) + 1)) by lia. done.
Qed.

End NodeProofs.

(** ** Loading the kernel *)

Section Loader.
Import BootLoader ConsoleElf.
Context (img size : Z) (Himg : region img size).

Lemma copy_filesz_copies ph dst src fs : region ph 32 -> region dst fs -> disjoint_reg dst fs ph 32 ->
  forall n m k fuel, load32 m (ph + 16) = fs -> 0 <= k -> fs - k = Z.of_nat n -> (n <= fuel)%nat ->
  copy_filesz fuel m ph dst src k = Some (copy_loop m (dst + k) (src + k) n).
Proof.
  intros (? & ? & ?) (? & ? & ?) Hd. induction n as [|n IH]; intros m k fuel Hfs Hk Hn Hf.
  { destruct fuel; cbn [copy_filesz]; by rewrite Hfs, (proj2 (Z.ltb_ge _ _)) by lia. }
  destruct fuel as [|fuel]; [lia|]. cbn [copy_filesz copy_loop]. rewrite Hfs, (proj2 (Z.ltb_lt _ _)) by lia.
  rewrite IH by (lia || (rewrite <- Hfs; apply load32_same;
    [unfold region; lia | intros x Hx; apply store8_other; unfold inside, disjoint_reg in *; rewrite u32_small by mlia; lia])).
  by rewrite !Z.add_assoc.
Qed.

Lemma zero_memsz_zeroes ph dst ms : region ph 32 -> region dst ms -> disjoint_reg dst ms ph 32 ->
  forall n m k fuel, load32 m (ph + 20) = ms -> 0 <= k -> ms - k = Z.of_nat n -> (n <= fuel)%nat ->
  zero_memsz fuel m ph dst k = Some (zero_loop m (dst + k) n).
Proof.
  intros (? & ? & ?) (? & ? & ?) Hd. induction n as [|n IH]; intros m k fuel Hms Hk Hn Hf.
  { destruct fuel; cbn [zero_memsz]; by rewrite Hms, (proj2 (Z.ltb_ge _ _)) by lia. }
  destruct fuel as [|fuel]; [lia|]. cbn [zero_memsz zero_loop]. rewrite Hms, (proj2 (Z.ltb_lt _ _)) by lia.
  rewrite IH by (lia || (rewrite <- Hms; apply load32_same;
    [unfold region; lia | intros x Hx; apply store8_other; unfold inside, disjoint_reg in *; rewrite u32_small by mlia; lia])).
  by rewrite !Z.add_assoc.
Qed.

(** One header: the payload's copy is the booter's. *)
Lemma load_ph_loads fuel m a : mem_ok m -> region a 32 ->
  let ph := read_phdr m a in
  (is_load ph -> seg_valid size ph /\ disjoint_reg (p_vaddr ph) (p_memsz ph) a 32 /\ p_memsz ph <= Z.of_nat fuel) ->
  load_ph fuel m img a = Some (load_if img m ph).
Proof.
  intros Hm Hr ph Hl. unfold load_ph, load_if. change (load32 m a) with (p_type ph).
  destruct (p_type ph =? 1) eqn:E; [|done]. zbool. destruct (Hl E) as ((Hle & Hin & Hend) & Hd & Hfuel). clear Hl.
  assert (phdr_u32 ph) as (Ho & Hva & Hfs & Hms) by (unfold phdr_u32, ph; cbn; auto with words).
  cbn [negb]. cbv zeta. change (load32 m (a + 4)) with (p_offset ph). change (load32 m (a + 8)) with (p_vaddr ph).
  rewrite (copy_filesz_copies a (p_vaddr ph) _ (p_filesz ph) Hr) with (n := Z.to_nat (p_filesz ph));
    [|unfold region; mlia | unfold disjoint_reg in *; mlia | done | lia | mlia | mlia].
  rewrite !Z.add_0_r. set (m1 := copy_loop _ _ _ _). cbn [mbind option_bind].
  assert (frame m m1 (p_vaddr ph) (Z.of_nat (Z.to_nat (p_filesz ph)))) as Hf.
  { apply copy_loop_frame. unfold region. mlia. }
  assert (read_phdr m1 a = ph) as Hph.
  { apply read_phdr_same; [done|]. intros x Hx. apply Hf. unfold inside, disjoint_reg in *. mlia. }
  change (load32 m1 (a + 16)) with (p_filesz (read_phdr m1 a)). rewrite Hph.
  rewrite (zero_memsz_zeroes a (p_vaddr ph) (p_memsz ph) Hr) with (n := Z.to_nat (p_memsz ph - p_filesz ph));
    [done | unfold region; mlia | done | | mlia | mlia | mlia].
  change (load32 m1 (a + 20)) with (p_memsz (read_phdr m1 a)). by rewrite Hph.
Qed.

(** The segments fit in [fuel] turns. *)
Definition segments_fit (fuel : nat) (phs : list phdr) : Prop :=
  Forall (fun ph => p_memsz ph <= Z.of_nat fuel) (loads phs).

Lemma fit_cons fuel ph phs : segments_fit fuel (ph :: phs) ->
  (is_load ph -> p_memsz ph <= Z.of_nat fuel) /\ segments_fit fuel phs.
Proof.
  unfold segments_fit. intros H. destruct (decide (is_load ph)).
  - rewrite loads_cons_load in H by done. by apply Forall_cons in H as [? ?].
  - by rewrite loads_cons_other in H by done.
Qed.

(** The loop over the headers from the [i]-th on. *)
Lemma load_phs_all ph fuel k : forall m i turns,
  mem_ok m -> load16 m (img + 44) = i + Z.of_nat k -> 0 <= i -> 52 <= size ->
  region (ph + 32 * i) (32 * Z.of_nat k) ->
  let phs := read_phdrs m (ph + 32 * i) k in
  Forall (seg_valid size) (loads phs) -> apart phs img 52 -> apart phs (ph + 32 * i) (32 * Z.of_nat k) ->
  segments_fit fuel phs -> (k <= turns)%nat ->
  load_phs turns fuel m img ph i = Some (load_all img phs m).
Proof.
  pose proof Himg as (? & ? & ?).
  induction k as [|k IH]; intros m i turns Hm Hnum Hi Hsz Hr phs Hv Hah Hap Hfit Hturns.
  { destruct turns; cbn [load_phs]; rewrite Hnum; by rewrite (proj2 (Z.ltb_ge _ _)) by lia. }
  destruct turns as [|turns]; [lia|]. cbn [load_phs]. rewrite Hnum, (proj2 (Z.ltb_lt _ _)) by lia.
  destruct Hr as (? & ? & ?). subst phs. cbn [read_phdrs] in *.
  replace (ph + 32 * i + 32) with (ph + 32 * (i + 1)) in * by lia. set (p0 := read_phdr m (ph + 32 * i)) in *.
  set (phs := read_phdrs m (ph + 32 * (i + 1)) k) in *.
  apply valid_cons in Hv as [Hv0 Hv]. apply apart_cons in Hah as [Hah0 Hah]. apply apart_cons in Hap as [Hap0 Hap].
  apply fit_cons in Hfit as [Hfit0 Hfit].
  assert (phdr_u32 p0) as Hu by (unfold phdr_u32, p0; cbn; auto with words).
  rewrite load_ph_loads; [|done | unfold region; lia |].
  2: { fold p0. intros E. split_and!; auto. specialize (Hap0 E). unfold disjoint_reg in *. lia. }
  fold p0. set (m1 := load_if img m p0). cbn [mbind option_bind].
  assert (forall x, inside img 52 x -> m1 x = m x) as Hk1 by (by eapply load_if_frame).
  assert (forall x, inside (ph + 32 * i) (32 * Z.of_nat (S k)) x -> m1 x = m x) as Hk2 by (by eapply load_if_frame).
  assert (read_phdrs m1 (ph + 32 * (i + 1)) k = phs) as Hphs.
  { apply read_phdrs_same; [unfold region; lia|]. intros x Hx. apply Hk2. unfold inside in *. lia. }
  unfold load_all. cbn [foldl]. fold m1. fold (load_all img phs m1). rewrite <- Hphs. apply IH; rewrite ?Hphs; try done; try lia.
  - unfold m1, load_if. case_if; [by apply load_one_mem_ok | done].
  - rewrite (load16_ext m1 m) by (unfold region; lia || intros; apply Hk1; unfold inside in *; lia). lia.
  - unfold region. lia.
  - eapply Forall_impl; [exact Hap|]. intros q Hq. unfold disjoint_reg in *. lia.
Qed.

End Loader.

(** ** Reading through the first extent *)

Section OnDevice.
Context {D : Type} `{HD : BlockDevice D} `{HS : !BlockDeviceSpec D} (B : Payload.buffers).
Context (Hsec : buffer_ok (SECBUF B) 4096).

Implicit Types (s : boot (D := D)).

(** A fork on the disk, all in its first extent. *)
Definition one_extent (fk : ForkMeta) : Prop := fork_mapped 4096 fk /\ fk_size fk <= 4096 * ext0_count fk.

Lemma ext0_block fk q : one_extent fk -> 0 <= q -> 4096 * q < fk_size fk ->
  fork_blocks fk !! Z.to_nat q = Some (ext0_start fk + q) /\
  0 <= ext0_start fk /\ 4096 * (ext0_start fk + q + 1) <= 512 * blk_sectors.
Proof.
  intros [(_ & Hext & _ & Hdisk) Hfit] Hq Hlt. unfold ext0_start, ext0_count, fork_blocks in *.
  destruct (fk_ext fk) as [|[st cnt] ext]; [simpl in *; lia|]. simpl in *.
  apply Forall_cons in Hext as [(? & ? & ?) _]. simpl in *.
  assert ((seqZ st cnt ++ concat (map (fun '(start, count) => seqZ start count) ext)) !! Z.to_nat q = Some (st + q)) as Hl.
  { rewrite lookup_app_l by (rewrite length_seqZ; lia). apply lookup_seqZ. lia. }
  split_and!; [exact Hl | done |]. by apply (Forall_lookup_1 _ _ _ _ Hdisk Hl).
Qed.

Lemma returns_print {A} t (f : unit -> PST boot A) s (Q : A -> boot -> Prop) :
  returns (f tt) (emit t s) Q -> returns (puts t ≫= f) s Q.
Proof. done. Qed.

Lemma disk_read_loads lba count s :
  ok s -> 0 <= lba -> 0 < count <= 8 -> lba + count <= blk_sectors ->
  returns (disk_read lba count (SECBUF B)) s (fun rc s' =>
    rc = 0 /\ loaded (SECBUF B) (512 * lba) (512 * count) s s').
Proof.
  intros Hok Hl Hc Hcap. unfold disk_read. do 5 apply returns_print.
  eapply returns_mono; [apply read_sectors; try done; try lia; eapply buffer_sub; [exact Hsec | lia]|].
  by intros rc s' [-> Hd].
Qed.

(** Whole memory is left alone but [n] bytes at [a], the sector buffer and what the
    driver owns. *)
Local Abbreviation keeps := (Hfs.keeps (SECBUF B)).

(** One turn of the loop at the start of block [q]: it reads the block [q] after the
    start of the first extent, whatever the extents are. *)
Lemma fork_turn_block fuel fk q out len s (Q : Z -> boot -> Prop) :
  let chunk := Z.min 4096 len in
  let blk := ext0_start fk + q in
  ok s -> 0 <= ext0_start fk -> 0 <= q -> 4096 * (blk + 1) <= 512 * blk_sectors -> 0 < len ->
  buffer_ok out chunk -> out = SECBUF B \/ disjoint_reg out chunk (SECBUF B) 4096 ->
  (forall s', ok s' -> keeps s s' out chunk 4096 ->
     (forall i, 0 <= i < chunk -> b_mem s' (out + i) = blk_byte (4096 * blk + i)) ->
     returns (fork_loop B fuel 4096 8 fk (u32 (4096 * q + chunk)) (u32 (out + chunk)) (len - chunk)) s' Q) ->
  returns (fork_loop B (S fuel) 4096 8 fk (4096 * q) out len) s Q.
Proof.
  intros chunk blk Hok Hst Hq Hdisk Hlen Hbuf Halias HQ.
  pose proof blk_sectors_u32. cbn [fork_loop]. rewrite (proj2 (Z.leb_gt len 0)) by lia. cbv zeta.
  replace (4096 * q / 4096) with q by lia. replace ((4096 * q) mod 4096) with 0 by lia. fold blk.
  rewrite (u32_small blk), (u32_small (_ * 8)) by (unfold blk in *; mlia).
  eapply returns_bind; [apply disk_read_loads; [done | lia..]|].
  intros rc s1 (-> & [Hm1 Hr1] & Hh1 & Hb1 & Hf1). cbn [negb Z.eqb].
  assert ((if len <? 4096 - 0 then len else 4096 - 0) = chunk) as -> by (unfold chunk; case_if; zbool; lia).
  destruct Hsec as [(? & ? & ?) Hsp], Hbuf as [(? & ? & ?) Hbp].
  assert (forall x, copy_loop (b_mem s1) out (SECBUF B + 0) (Z.to_nat chunk) x =
    if (out <=? x) && (x <? out + chunk) then b_mem s1 (x - out + SECBUF B) else b_mem s1 x) as Hcopy.
  { intros x. rewrite copy_loop_spec; [by rewrite Z2Nat.id, Z.add_0_r by lia | unfold region; lia.. | | done].
    destruct Halias as [->|[]]; lia. }
  apply returns_modify. apply HQ; unfold set_mem; cbn [b_mem b_dev b_hfs].
  - split; cbn [b_mem b_dev]; [by apply mem_ok_copy_loop|]. eapply blk_ready_frame; [done|].
    intros a Ha. rewrite Hcopy. zcases. exfalso. eapply Hbp; [|done]. unfold inside. lia.
  - split; [done|]. intros x Hx Hx2 Hx3. cbn [b_mem]. rewrite Hcopy.
    rewrite <- Hf1; [|unfold inside in *; lia | done]. unfold inside in *. zcases.
  - intros i Hi. rewrite Hcopy. zcases. replace (out + i - out + SECBUF B) with (SECBUF B + i) by lia.
    rewrite Hb1 by lia. f_equal. lia.
Qed.

(** For a fork in one extent that is its block [q]. *)
Lemma fork_turn fuel fk q out len s (Q : Z -> boot -> Prop) :
  let chunk := Z.min 4096 len in
  ok s -> one_extent fk -> 0 <= q -> 0 < len -> 4096 * q + len <= fk_size fk ->
  buffer_ok out chunk -> out = SECBUF B \/ disjoint_reg out chunk (SECBUF B) 4096 ->
  (forall s', ok s' -> keeps s s' out chunk 4096 ->
     (forall i, 0 <= i < chunk -> b_mem s' (out + i) = fork_byte 4096 fk (4096 * q + i)) ->
     returns (fork_loop B fuel 4096 8 fk (u32 (4096 * q + chunk)) (u32 (out + chunk)) (len - chunk)) s' Q) ->
  returns (fork_loop B (S fuel) 4096 8 fk (4096 * q) out len) s Q.
Proof.
  intros chunk Hok Hone Hq Hlen Hend Hbuf Halias HQ.
  destruct (ext0_block fk q Hone Hq ltac:(lia)) as (Hblk & Hst & Hdisk).
  apply fork_turn_block; try done. intros s' Hok' Hk' Hb'. apply HQ; try done.
  intros i Hi. rewrite (fork_byte_at 4096 fk q (ext0_start fk + q)) by (done || lia). by apply Hb'.
Qed.

Lemma fork_loop_nil fuel bs spb fk off out s : fork_loop B fuel bs spb fk off out 0 s = Some (0, s).
Proof. by destruct fuel. Qed.

(** The loop with a destination outside the sector buffer. *)
Lemma fork_loop_reads fk : forall fuel q out len s,
  ok s -> one_extent fk -> 0 <= q -> 0 <= len -> 4096 * q + len <= fk_size fk -> len <= Z.of_nat fuel * 4096 ->
  buffer_ok out len -> disjoint_reg out len (SECBUF B) 4096 ->
  returns (fork_loop B fuel 4096 8 fk (4096 * q) out len) s (fun rc s' =>
    rc = 0 /\ ok s' /\ keeps s s' out len 4096 /\
    forall i, 0 <= i < len -> b_mem s' (out + i) = fork_byte 4096 fk (4096 * q + i)).
Proof.
  induction fuel as [|fuel IH]; intros q out len s Hok Hone Hq Hlen Hend Hfuel Hbuf Hdis;
    (destruct (decide (len = 0)) as [->|Hne];
     [unfold returns; rewrite fork_loop_nil; split_and!; (done || lia) |]); [lia|].
  pose proof Hone as [(Hsize & _) _]. pose proof Hbuf as [(? & ? & ?) Hbp].
  apply fork_turn; try done; try lia.
  - eapply buffer_sub; [exact Hbuf | lia].
  - right. unfold disjoint_reg in *. lia.
  - intros s1 Hok1 Hk1 Hb1. destruct (decide (len <= 4096)) as [Hs|Hs].
    { rewrite Z.min_r, Z.sub_diag in * by lia. unfold returns. rewrite fork_loop_nil. by split_and!. }
    rewrite Z.min_l in * by lia. rewrite !u32_small by mlia.
    replace (4096 * q + 4096) with (4096 * (q + 1)) by lia.
    eapply returns_mono; [apply IH; try done; try lia|].
    + split; [unfold region; lia|]. intros a Ha. apply Hbp. unfold inside in *. lia.
    + unfold disjoint_reg in *. lia.
    + intros rc s2 (-> & Hok2 & Hk2 & Hb2). split_and!; try done.
      * apply (keeps_trans (SECBUF B) s s1 s2 _ _ out 4096 (out + 4096) (len - 4096)); try done; unfold inside; lia.
      * intros i Hi. destruct (decide (i < 4096)).
        -- destruct Hk2 as [_ Hk2]. rewrite Hk2; [by apply Hb1; lia | unfold inside; lia | |].
           ++ unfold inside, disjoint_reg in *. lia.
           ++ apply Hbp. unfold inside. lia.
        -- replace (out + i) with (out + 4096 + (i - 4096)) by lia. rewrite Hb2 by lia. f_equal. lia.
Qed.

Lemma fork_read_enter fk q dst len s (Q : Z -> boot -> Prop) :
  blockSize (b_hfs s) = 4096 -> fk_size fk < 4294967296 -> 0 <= q -> 0 < len -> 4096 * q + len <= fk_size fk ->
  returns (fork_loop B (Z.to_nat (len / 4096 + 4)) 4096 8 fk (4096 * q) dst len) s Q ->
  returns (fork_read B fk (4096 * q) dst len) s Q.
Proof.
  intros Hbs Hsize Hq Hlen Hend HQ. unfold fork_read. apply returns_get. rewrite Hbs. cbn [Z.eqb].
  change (4096 / 512) with 8. cbn [Z.eqb]. rewrite (proj2 (Z.leb_gt (fk_size fk) _)) by lia.
  assert (u64 (4096 * q + len) = 4096 * q + len) as -> by (apply Z.mod_small; mlia).
  rewrite (proj2 (Z.ltb_ge (fk_size fk) _)), u32_small by mlia. exact HQ.
Qed.

(** A file, from its start. *)
Lemma fork_read_file fk dst s :
  ok s -> blockSize (b_hfs s) = 4096 -> one_extent fk ->
  buffer_ok dst (fk_size fk) -> disjoint_reg dst (fk_size fk) (SECBUF B) 4096 ->
  returns (fork_read B fk 0 dst (u32 (fk_size fk))) s (fun rc s' =>
    rc = 0 /\ ok s' /\ keeps s s' dst (fk_size fk) 4096 /\
    forall i, 0 <= i < fk_size fk -> b_mem s' (dst + i) = fork_byte 4096 fk i).
Proof.
  intros Hok Hbs Hone Hbuf Hdis. pose proof Hone as [(Hsize & _) _]. rewrite u32_small by mlia.
  apply (fork_read_enter fk 0); try done; try lia. apply (fork_loop_reads fk _ 0); try done; lia.
Qed.

(** A node of the catalog, to the sector buffer. *)
Definition cat_node (h : hfs_vol) (k : Z) : mem := fun i => fork_byte 4096 (catalog h) (4096 * k + i).

(** Nothing changed but the sector buffer and the memory of the driver. *)
Definition quiet s s' : Prop := keeps s s' (SECBUF B) 4096 4096.

Lemma quiet_id s : quiet s s.
Proof. by split. Qed.

Lemma quiet_seq s1 s2 s3 : quiet s1 s2 -> quiet s2 s3 -> quiet s1 s3.
Proof. intros H1 H2. by eapply keeps_trans. Qed.

Lemma fork_read_node h k s :
  ok s -> b_hfs s = h -> blockSize h = 4096 -> one_extent (catalog h) ->
  0 <= k -> 4096 * (k + 1) <= fk_size (catalog h) ->
  returns (fork_read B (catalog h) (4096 * k) (SECBUF B) 4096) s (fun rc s' =>
    rc = 0 /\ ok s' /\ quiet s s' /\ same_bytes (b_mem s') (SECBUF B) (cat_node h k) 0 4096).
Proof.
  intros Hok Hh Hbs Hone Hk Hend. subst h. pose proof Hone as [(Hsize & _) _].
  apply fork_read_enter; [done | lia | lia | lia | lia |].
  change (Z.to_nat (4096 / 4096 + 4)) with 5%nat.
  apply fork_turn; [done | done | lia | lia | lia | exact Hsec | by left |].
  intros s' Hok' Hk' Hb'. rewrite Z.min_id, Z.sub_diag in *. unfold returns. rewrite fork_loop_nil.
  split_and!; try done. intros i Hi. destruct Hsec as [(? & ? & ?) _]. unfold load8, cat_node.
  rewrite Z.add_0_l, !u32_small by mlia. by rewrite Hb' by lia.
Qed.

(** A fork in two extents: the block behind the first extent is read instead of the
    first block of the second. *)
Lemma fork_read_ignores_extents fk s :
  ok s -> blockSize (b_hfs s) = 4096 -> fk_size fk < 4294967296 -> 0 <= ext0_start fk -> 0 < ext0_count fk ->
  4096 * (ext0_count fk + 1) <= fk_size fk ->
  4096 * (ext0_start fk + ext0_count fk + 1) <= 512 * blk_sectors ->
  returns (fork_read B fk (4096 * ext0_count fk) (SECBUF B) 4096) s (fun rc s' => rc = 0 /\
    forall i, 0 <= i < 4096 -> b_mem s' (SECBUF B + i) = blk_byte (4096 * (ext0_start fk + ext0_count fk) + i)).
Proof.
  intros Hok Hbs Hsize Hst Hc Hend Hdisk. apply fork_read_enter; [done | lia..|].
  change (Z.to_nat (4096 / 4096 + 4)) with 5%nat.
  apply fork_turn_block; [done | done | lia | lia | lia | exact Hsec | by left |].
  intros s' Hok' _ Hb'. rewrite Z.min_id, Z.sub_diag in *. unfold returns. by rewrite fork_loop_nil.
Qed.

(** On a volume with blocks of 8192 bytes a read to the sector buffer writes 4096
    bytes behind it. *)
Lemma fork_read_overruns fk s :
  buffer_ok (SECBUF B) 8192 -> ok s -> blockSize (b_hfs s) = 8192 -> 4096 <= fk_size fk -> 0 <= ext0_start fk ->
  8192 * (ext0_start fk + 1) <= 512 * blk_sectors ->
  returns (fork_read B fk 0 (SECBUF B) 4096) s (fun rc s' => rc = 0 /\
    forall i, 4096 <= i < 8192 -> b_mem s' (SECBUF B + i) = blk_byte (8192 * ext0_start fk + i)).
Proof using Type.
  intros Hbig Hok Hbs Hsize Hst Hdisk. pose proof blk_sectors_u32. unfold fork_read. apply returns_get.
  rewrite Hbs. cbn [Z.eqb]. change (8192 / 512) with 16. cbn [Z.eqb]. rewrite (proj2 (Z.leb_gt (fk_size fk) _)) by lia.
  change (u64 (0 + 4096)) with 4096. rewrite (proj2 (Z.ltb_ge (fk_size fk) _)) by lia.
  change (Z.to_nat (4096 / 8192 + 4)) with 4%nat. generalize 3%nat. intros fuel. cbn [fork_loop Z.leb Z.compare]. change (u32 0) with 0.
  cbv zeta. rewrite Z.div_0_l, Z.mod_0_l, !Z.add_0_r, (u32_small (ext0_start fk)), (u32_small (_ * 16)) by mlia.
  unfold disk_read. eapply returns_bind.
  { do 5 apply returns_print. apply read_sectors; try done; try lia. }
  intros rc s1 (-> & _ & _ & Hb1 & _). cbn [negb Z.eqb].
  change (if 4096 <? 8192 - 0 then 4096 else 8192 - 0) with 4096.
  apply returns_modify. unfold returns. change (4096 - 4096) with 0. rewrite fork_loop_nil. split; [done|].
  intros i Hi. cbn [set_mem b_mem]. pose proof Hbig as [(? & ? & ?) _].
  rewrite copy_loop_frame; [rewrite Hb1 by lia; f_equal; lia | |];
    change (Z.of_nat (Z.to_nat 4096)) with 4096; [unfold region; lia | unfold inside; lia].
Qed.

(** ** The catalog *)

(** The node is [nd]; a leaf has room behind its records. *)
Definition node_fits (b : mem) (nd : option (list cat_rec)) : Prop :=
  node_at b 4096 nd /\ match nd with Some recs => roomy b recs | None => True end.

(** The catalog of [h]: a header node, then [nodes]. *)
Record catalog_holds (h : hfs_vol) (nodes : list (option (list cat_rec))) : Prop := {
  ch_blocks : blockSize h = 4096;
  ch_extent : one_extent (catalog h);
  ch_size : fk_size (catalog h) = 4096 * (1 + Z.of_nat (length nodes));
  ch_nodes : forall k nd, nodes !! k = Some nd -> node_fits (cat_node h (1 + Z.of_nat k)) nd;
}.

Lemma visited_cons nd nodes : visited (nd :: nodes) =
  match nd with Some recs => reverse (tail recs) | None => [] end ++ visited nodes.
Proof. done. Qed.

(** A search of the node in the sector buffer. *)
Lemma cnid_slots_node m b parent comp more recs :
  same_bytes m (SECBUF B) b 0 4096 -> node_fits b (Some recs) -> parent <> 0 ->
  let num := be16 m (SECBUF B + 10) in
  cnid_slots B m parent comp more (SECBUF B + 4096 - 2 * (num + 1)) (Z.to_nat num) =
    pick (entry parent comp more) (reverse (tail recs)).
Proof.
  intros Hb [Hleaf Hroom] Hp. destruct (leaf_slots B m b Hb recs Hleaf Hroom) as (n & i & Hnum & Hi & Hfree & Hs & Hn).
  cbv zeta. rewrite Hnum, Nat2Z.id, Hi. cbn [cnid_slots]. rewrite Hfree, (proj2 (Z.eqb_neq 0 parent)) by done.
  cbn [andb]. rewrite <- Z.add_assoc, <- Hn. by apply (cnid_slots_pick B m b Hb).
Qed.

Lemma root_slots_node m b name recs :
  same_bytes m (SECBUF B) b 0 4096 -> node_fits b (Some recs) ->
  let num := be16 m (SECBUF B + 10) in
  num <> 0 /\ FoundFile <$> root_slots B m 2 name (SECBUF B + 4096 - 2 * (num + 1)) (Z.to_nat num) =
    pick (answer 2 name WantFile) (reverse (tail recs)).
Proof.
  intros Hb [Hleaf Hroom]. destruct (leaf_slots B m b Hb recs Hleaf Hroom) as (n & i & Hnum & Hi & Hfree & Hs & Hn).
  cbv zeta. rewrite Hnum, Nat2Z.id, Hi. split; [lia|]. cbn [root_slots]. rewrite Hfree.
  cbn [Z.eqb andb]. rewrite <- Z.add_assoc, <- Hn. by apply (root_slots_pick B m b Hb).
Qed.

Lemma node_kind m b nd : same_bytes m (SECBUF B) b 0 4096 -> node_fits b nd ->
  (load8 m (SECBUF B + 8) =? 0xff) = bool_decide (is_Some nd).
Proof.
  intros Hb [Hn _]. rewrite (Hb 8), Z.add_0_l by lia. destruct nd as [recs|]; simpl in Hn.
  - destruct Hn as (-> & _). by rewrite bool_decide_eq_true_2.
  - rewrite bool_decide_eq_false_2 by (by intros [? ?]). by apply Z.eqb_neq.
Qed.

Lemma cnid_nodes_pick h parent comp more : forall nodes fuel k s,
  ok s -> b_hfs s = h -> blockSize h = 4096 -> one_extent (catalog h) -> parent <> 0 -> 1 <= k ->
  fk_size (catalog h) = 4096 * (k + Z.of_nat (length nodes)) -> (length nodes <= fuel)%nat ->
  (forall j nd, nodes !! j = Some nd -> node_fits (cat_node h (k + Z.of_nat j)) nd) ->
  returns (cnid_nodes B fuel parent comp more (4096 * k)) s (fun r s' => ok s' /\ quiet s s' /\
    r = match pick (entry parent comp more) (visited nodes) with Some f => inr f | None => inl false end).
Proof.
  induction nodes as [|nd nodes IH]; intros fuel k s Hok Hh Hbs Hone Hp Hk Hsz Hfuel Hat; cbn [length] in *.
  { destruct fuel; cbn [cnid_nodes]; apply returns_get; rewrite Hh, (proj2 (Z.ltb_ge _ _)) by lia;
      apply returns_ret; split_and!; try done; apply quiet_id. }
  destruct fuel as [|fuel]; [lia|]. cbn [cnid_nodes]. apply returns_get. rewrite Hh, (proj2 (Z.ltb_lt _ _)) by lia.
  pose proof Hone as [(Hsize & _) _].
  eapply returns_bind; [apply (fork_read_node h k); try done; lia|].
  intros rc s1 (-> & Hok1 & Hq1 & Hb1). cbn [negb Z.eqb]. apply returns_get.
  pose proof (Hat 0%nat nd eq_refl) as Hnd. rewrite Z.add_0_r in Hnd.
  assert (u64 (4096 * k + 4096) = 4096 * (k + 1)) as -> by (unfold u64; rewrite Z.mod_small; mlia).
  rewrite (node_kind _ _ nd Hb1 Hnd), visited_cons, pick_app.
  assert (returns (cnid_nodes B fuel parent comp more (4096 * (k + 1))) s1 (fun r s' => ok s' /\ quiet s s' /\
    r = match pick (entry parent comp more) (visited nodes) with Some f => inr f | None => inl false end)) as Hnext.
  { eapply returns_mono; [apply IH; try done; try lia|].
    - destruct Hq1 as [-> _]. done.
    - intros j nd' Hj. replace (k + 1 + Z.of_nat j) with (k + Z.of_nat (S j)) by lia. by apply Hat.
    - intros r s2 (Hok2 & Hq2 & Hr). split_and!; try done. by eapply quiet_seq. }
  destruct nd as [recs|].
  - rewrite bool_decide_eq_true_2 by done. cbn [negb]. cbv zeta.
    rewrite (cnid_slots_node _ _ _ _ _ recs Hb1 Hnd Hp).
    destruct (pick (entry parent comp more) (reverse (tail recs))); [|exact Hnext].
    apply returns_ret. by split_and!.
  - rewrite bool_decide_eq_false_2 by (by intros [? ?]). exact Hnext.
Qed.

Lemma root_nodes_pick h name last : forall nodes fuel k s,
  ok s -> b_hfs s = h -> blockSize h = 4096 -> one_extent (catalog h) -> 1 <= k ->
  last = k + Z.of_nat (length nodes) - 1 -> 4096 * (last + 1) <= fk_size (catalog h) -> (length nodes <= fuel)%nat ->
  (forall j nd, nodes !! j = Some nd -> node_fits (cat_node h (k + Z.of_nat j)) nd) ->
  returns (root_nodes B fuel 4096 name k last) s (fun r s' => ok s' /\ quiet s s' /\
    exists o, r = (if bool_decide (o = None) then -1 else 0, o) /\
      FoundFile <$> o = pick (answer 2 name WantFile) (visited nodes)).
Proof.
  induction nodes as [|nd nodes IH]; intros fuel k s Hok Hh Hbs Hone Hk Hlast Hsz Hfuel Hat; cbn [length] in *.
  { destruct fuel; cbn [root_nodes]; rewrite (proj2 (Z.leb_gt _ _)) by lia;
      apply returns_ret; split_and!; try done; try apply quiet_id; by exists None. }
  destruct fuel as [|fuel]; [lia|]. cbn [root_nodes]. rewrite (proj2 (Z.leb_le _ _)) by lia. apply returns_get.
  pose proof Hone as [(Hsize & _) _]. rewrite Hh, (Z.mul_comm k).
  eapply returns_bind; [apply (fork_read_node h k); try done; lia|].
  intros rc s1 (-> & Hok1 & Hq1 & Hb1). cbn [negb Z.eqb]. apply returns_get. cbv zeta. do 7 apply returns_print.
  pose proof (Hat 0%nat nd eq_refl) as Hnd. rewrite Z.add_0_r in Hnd.
  rewrite (node_kind _ _ nd Hb1 Hnd), visited_cons, pick_app.
  match goal with |- returns _ ?s0 _ =>
  assert (returns (root_nodes B fuel 4096 name (k + 1) last) s0 (fun r s' => ok s' /\ quiet s s' /\
    exists o, r = (if bool_decide (o = None) then -1 else 0, o) /\
      FoundFile <$> o = pick (answer 2 name WantFile) (visited nodes))) as Hnext end.
  { eapply returns_mono; [apply IH; try done; try lia|].
    - destruct Hq1 as [Hh1 _]. cbn [emit b_hfs]. congruence.
    - intros j nd' Hj. replace (k + 1 + Z.of_nat j) with (k + Z.of_nat (S j)) by lia. by apply Hat.
    - intros r s2 (Hok2 & Hq2 & Hr). split_and!; try done. by eapply quiet_seq. }
  destruct nd as [recs|].
  - rewrite bool_decide_eq_true_2 by done. cbn [negb orb].
    destruct (root_slots_node _ _ name recs Hb1 Hnd) as [Hnum Hpick].
    rewrite (proj2 (Z.eqb_neq _ 0) Hnum). rewrite <- Hpick.
    destruct (root_slots _ _ _ _ _ _) as [fk|]; [|exact Hnext].
    apply returns_ret. split_and!; try done. by exists (Some fk).
  - rewrite bool_decide_eq_false_2 by (by intros [? ?]). exact Hnext.
Qed.

(** *** Paths *)

Lemma visited_elem nodes r : r ∈ visited nodes -> exists recs, Some recs ∈ nodes /\ r ∈ recs.
Proof.
  unfold visited. intros Hr. apply list_elem_of_In, in_concat in Hr as (l & Hl & Hr).
  apply list_elem_of_In, list_elem_of_fmap in Hl as ([recs|] & -> & Hin); [|done].
  apply list_elem_of_In in Hr. rewrite elem_of_reverse in Hr. exists recs. split; [done|].
  destruct recs; [done | by right].
Qed.

Lemma holds_recs_ok h nodes : catalog_holds h nodes -> Forall rec_ok (visited nodes).
Proof.
  intros [_ _ _ Hn]. rewrite Forall_forall. intros r (recs & Hin & Hr)%visited_elem.
  apply list_elem_of_lookup_1 in Hin as [k Hk]. apply list_elem_of_lookup_1 in Hr as [j Hj].
  destruct (Hn k _ Hk) as [(_ & _ & _ & _ & Hrecs & _) _]. by destruct (Hrecs j r Hj).
Qed.

Lemma pick_elem {A} (f : cat_rec -> option A) rs x : pick f rs = Some x -> exists r, r ∈ rs /\ f r = Some x.
Proof.
  induction rs as [|r rs IH]; simpl; [done|]. destruct (f r) eqn:E.
  - intros [= <-]. exists r. split; [left | done].
  - intros (r' & Hr & Hf)%IH. exists r'. split; [by right | done].
Qed.

Lemma entry_folder_nonzero parent c more rs id :
  Forall rec_ok rs -> pick (entry parent c more) rs = Some (Folder id) -> id <> 0.
Proof.
  intros Hok (r & Hr & He)%pick_elem. rewrite Forall_forall in Hok. destruct (Hok r Hr) as (_ & _ & _ & _ & H12 & _).
  unfold entry in He. destruct (_ && _); [|done]. destruct (Z.eqb_spec (rec_type r) 1) as [Ht|].
  - injection He as <-. by apply H12.
  - destruct (rec_type r =? 2); [|done]. by destruct more.
Qed.

Lemma catalog_fuel h nodes : catalog_holds h nodes -> (length nodes <= node_fuel h)%nat.
Proof. intros [_ _ Hsz _]. unfold node_fuel. rewrite Hsz. lia. Qed.

(** The result of [find_cnid_by_path] for a file. *)
Definition cnid_of (o : option (Z * ForkMeta)) : Z * option ForkMeta :=
  match o with Some (id, fk) => (id, Some fk) | None => (0, None) end.

Lemma cnid_path_walk h nodes : catalog_holds h nodes -> forall cs fuel path parent s,
  ok s -> b_hfs s = h -> parent <> 0 ->
  Forall plain cs -> Forall (fun c => slen c < 128) cs ->
  path = slash_join cs \/ path = unslash cs -> (length cs <= fuel)%nat ->
  returns (cnid_path B fuel path true parent) s (fun r s' =>
    ok s' /\ quiet s s' /\ r = cnid_of (walk nodes parent cs)).
Proof.
  intros Hcat. pose proof (holds_recs_ok h nodes Hcat) as Hrecs. pose proof Hcat as [Hbs Hone Hsz Hat].
  induction cs as [|c cs IH]; intros fuel path parent s Hok Hh Hp Hplain Hshort Hpath Hfuel.
  { assert (path = []) as -> by (by destruct Hpath). destruct fuel; apply returns_ret; split_and!; try done; apply quiet_id. }
  apply Forall_cons in Hplain as [Hc Hplain]. apply Forall_cons in Hshort as [Hlc Hshort].
  assert (split_next path = Some (c, unslash cs)) as Hsplit.
  { rewrite split_next_booter. destruct (split_next_join c cs 128 Hc Hlc) as [H1 H2]. by destruct Hpath as [-> | ->]. }
  destruct fuel as [|fuel]; cbn [length] in Hfuel; [lia|]. cbn [cnid_path walk]. rewrite Hsplit. apply returns_get.
  rewrite Hh, has_more_booter, path_has_more_unslash by done.
  eapply returns_bind.
  { change 4096 with (4096 * 1) at 1. apply (cnid_nodes_pick h _ _ _ nodes); try done; [by apply catalog_fuel]. }
  intros r s1 (Hok1 & Hq1 & ->). pose proof Hq1 as [Hh1 _].
  destruct (pick (entry parent c _) (visited nodes)) as [[id|id fk]|] eqn:Hpick.
  - eapply returns_mono; [apply IH; try done; try lia; [congruence | by eapply entry_folder_nonzero | by right]|].
    intros r s2 (Hok2 & Hq2 & ->). split_and!; try done. by eapply quiet_seq.
  - apply returns_ret. by split_and!.
  - do 3 apply returns_print. apply returns_ret. by split_and!.
Qed.

Lemma find_cnid_walk h nodes cs path s :
  catalog_holds h nodes -> ok s -> b_hfs s = h ->
  Forall plain cs -> Forall (fun c => slen c < 128) cs -> path = slash_join cs \/ path = unslash cs ->
  returns (find_cnid_by_path B path true) s (fun r s' =>
    ok s' /\ quiet s s' /\ r = cnid_of (walk nodes 2 cs)).
Proof.
  intros Hcat Hok Hh Hplain Hshort Hpath. pose proof Hcat as [Hbs Hone Hsz _]. unfold find_cnid_by_path.
  apply returns_get. rewrite Hh. eapply returns_bind; [apply (fork_read_node h 0); try done; lia|].
  intros rc s1 (-> & Hok1 & Hq1 & _). cbn [negb Z.eqb]. apply returns_get. pose proof Hq1 as [Hh1 _].
  pose proof (path_length cs path Hplain Hpath).
  assert (forall s1', ok s1' -> quiet s s1' -> b_hfs s1' = h ->
    returns (cnid_path B (S (length path)) path true 2) s1' (fun r s' =>
      ok s' /\ quiet s s' /\ r = cnid_of (walk nodes 2 cs))) as Hgo.
  { intros s1' Hok' Hq' Hh'. eapply returns_mono; [apply (cnid_path_walk h nodes Hcat cs); try done; lia|].
    intros r s2 (Hok2 & Hq2 & ->). split_and!; try done. by eapply quiet_seq. }
  rewrite Hh in Hh1. case_if; [by apply (Hgo (emit _ (emit _ (emit _ s1)))) | by apply Hgo].
Qed.

(** *** The root folder *)

(** The B-tree header has nodes of 4096 bytes and a range with all the leaves. *)
Definition range_holds (h : hfs_vol) (nodes : list (option (list cat_rec))) : Prop :=
  let t := read_btree {| SECBUF := 0; PLIST := 0; KIMG := 0; INITRD := 0 |} (cat_node h 0) in
  bt_nodeSize t = 4096 /\
  let '(first, last) := leaf_range (fk_size (catalog h)) 4096 t in
  1 <= first <= last + 1 /\ last <= Z.of_nat (length nodes) /\
  visited (take (Z.to_nat (last - first + 1)) (drop (Z.to_nat (first - 1)) nodes)) = visited nodes.

Lemma read_btree_node m b : same_bytes m (SECBUF B) b 0 4096 ->
  read_btree B m = read_btree {| SECBUF := 0; PLIST := 0; KIMG := 0; INITRD := 0 |} b.
Proof.
  intros Hb. unfold read_btree. cbn [SECBUF]. rewrite <- !Z.add_assoc.
  f_equal; first [eapply same_be16 | eapply same_be32]; try exact Hb; lia.
Qed.

Lemma find_root_search h nodes name s :
  catalog_holds h nodes -> range_holds h nodes -> ok s -> b_hfs s = h ->
  returns (hfsplus_find_root_file B name) s (fun r s' => ok s' /\ quiet s s' /\
    exists o, r = (if bool_decide (o = None) then -1 else 0, o) /\
      FoundFile <$> o = catalog_search 2 name WantFile nodes).
Proof.
  intros [Hbs Hone Hsz Hat] Hrange Hok Hh. unfold hfsplus_find_root_file. apply returns_get. rewrite Hh.
  eapply returns_bind; [apply (fork_read_node h 0); try done; lia|].
  intros rc s1 (-> & Hok1 & Hq1 & Hb1). cbn [negb Z.eqb]. apply returns_get. cbv zeta.
  rewrite (read_btree_node _ _ Hb1). unfold range_holds in Hrange. cbv zeta in Hrange.
  destruct Hrange as [-> Hrange]. cbn [Z.eqb]. do 11 apply returns_print.
  destruct (leaf_range _ _ _) as [first last]. destruct Hrange as (Hf & Hl & Hvis).
  set (sub := take _ _) in Hvis.
  assert (Z.of_nat (length sub) = last - first + 1) as Hlen by (unfold sub; rewrite length_take, length_drop; lia).
  pose proof Hq1 as [Hh1 _]. rewrite catalog_search_pick, <- Hvis.
  eapply returns_mono; [apply (root_nodes_pick h name last sub); try done; try lia|].
  - cbn [emit b_hfs]. congruence.
  - intros j nd Hj. unfold sub in Hj. apply lookup_take_Some in Hj as [Hj Hlt]. rewrite lookup_drop in Hj.
    specialize (Hat _ _ Hj). by replace (first + Z.of_nat j) with (1 + Z.of_nat (Z.to_nat (first - 1) + j)) by lia.
  - intros r s2 (Hok2 & Hq2 & Hr). split_and!; try done. by eapply quiet_seq.
Qed.

(** *** Files *)

(** A volume the payload reads as the booter does: all leaves in the range of the
    header, names clear, no file with identifier 0. *)
Record volume_holds (h : hfs_vol) (nodes : list (option (list cat_rec))) : Prop := {
  vh_catalog : catalog_holds h nodes;
  vh_range : range_holds h nodes;
  vh_clear : names_clear nodes;
  vh_ids : Forall (fun r => rec_type r = 2 -> rec_folder r <> 0) (visited nodes);
}.

(** What reading a file leaves: the code, the size and the bytes. *)
Definition file_read (nodes : list (option (list cat_rec))) (cs : list (list Z)) (dst cap : Z)
    s (r : Z * option Z) s' : Prop :=
  ok s' /\
  match resolve nodes 2 cs with
  | Some fk =>
      if cap <? fk_size fk then r = (-1, None) /\ quiet s s'
      else r = (0, Some (fk_size fk)) /\ keeps s s' dst (fk_size fk) 4096 /\
           forall i, 0 <= i < fk_size fk -> b_mem s' (dst + i) = fork_byte 4096 fk i
  | None => r = (-1, None) /\ quiet s s'
  end.

(** The fork looked up, or none. *)
Definition looked_up (o : option ForkMeta) (r : Z * option ForkMeta) : Prop :=
  r.2 = o /\ (o <> None -> r.1 <> 0).

Lemma walk_looked_up h nodes cs : volume_holds h nodes ->
  looked_up (resolve nodes 2 cs) (cnid_of (walk nodes 2 cs)).
Proof.
  intros [_ _ Hclear Hids]. rewrite <- (walk_resolve nodes Hclear).
  assert (forall parent, match walk nodes parent cs with Some (id, _) => id <> 0 | None => True end) as Hid.
  { induction cs as [|c cs IH]; intros parent; [done|]. cbn [walk].
    destruct (pick (entry parent c _) (visited nodes)) as [[id|id fk]|] eqn:Hp; [apply IH | | done].
    apply pick_elem in Hp as (r & Hr & He). rewrite Forall_forall in Hids. specialize (Hids r Hr).
    unfold entry in He. destruct (_ && _); [|done]. destruct (rec_type r =? 1); [done|].
    destruct (Z.eqb_spec (rec_type r) 2) as [Ht|]; [|done]. destruct (negb _); [done|].
    injection He as <- _. by apply Hids. }
  specialize (Hid 2). destruct (walk nodes 2 cs) as [[id fk]|]; by split.
Qed.

(** The look-up of [hfsplus_read_file]: in the root folder first for a name without
    a slash. *)
Lemma path_simple cs path : Forall plain cs -> cs <> [] -> path = slash_join cs \/ path = unslash cs ->
  negb (bool_decide (path = [])) && negb (existsb (Z.eqb 47) path) = true -> cs = [path].
Proof.
  intros Hplain Hne Hpath (_ & Hs%negb_true_iff)%andb_true_iff.
  destruct cs as [|c cs]; [done|]. apply Forall_cons in Hplain as [Hc Hplain].
  assert (path = unslash (c :: cs)) as ->.
  { destruct Hpath as [-> | ->]; [|done]. by change (slash_join (c :: cs)) with (47 :: c ++ slash_join cs) in Hs. }
  assert (unslash (c :: cs) = c ++ slash_join cs) as E.
  { unfold unslash. change (slash_join (c :: cs)) with (47 :: c ++ slash_join cs). cbn [skip_slashes Z.eqb Pos.eqb].
    by apply skip_slashes_plain. }
  rewrite E in *. destruct cs as [|c' cs]; [by rewrite app_nil_r|].
  rewrite existsb_app in Hs. apply orb_false_iff in Hs as [_ Hs].
  by change (slash_join (c' :: cs)) with (47 :: c' ++ slash_join cs) in Hs.
Qed.

Lemma read_file_lookup h nodes cs path s :
  volume_holds h nodes -> ok s -> b_hfs s = h ->
  Forall plain cs -> Forall (fun c => slen c < 128) cs -> cs <> [] -> path = slash_join cs \/ path = unslash cs ->
  let simple := negb (bool_decide (path = [])) && negb (existsb (Z.eqb 47) path) in
  forall A (f : Z * option ForkMeta -> PST boot A) (Q : A -> boot -> Prop),
  (forall r s', ok s' -> quiet s s' -> looked_up (resolve nodes 2 cs) r -> returns (f r) s' Q) ->
  returns ((if simple then hfsplus_find_root_file B path else mret (-1, None)) ≫= fun r =>
    (if r.1 =? 0 then mret (1, r.2) else find_cnid_by_path B path true) ≫= f) s Q.
Proof.
  intros Hvol Hok Hh Hplain Hshort Hne Hpath simple A f Q Hf. pose proof Hvol as [Hcat Hrange _ _].
  assert (forall s', ok s' -> quiet s s' -> returns (find_cnid_by_path B path true ≫= f) s' Q) as Hwalk.
  { intros s' Hok' Hq'. pose proof Hq' as [Hh' _]. eapply returns_bind; [by apply (find_cnid_walk h nodes cs); try congruence|].
    intros r s2 (Hok2 & Hq2 & ->). apply Hf; [done | by eapply quiet_seq | by eapply walk_looked_up]. }
  unfold simple. destruct (negb _ && negb _) eqn:E; [|apply (Hwalk s Hok (quiet_id s))].
  rewrite (path_simple cs path) in Hf by done.
  eapply returns_bind; [by apply (find_root_search h nodes)|].
  intros r s1 (Hok1 & Hq1 & o & -> & Ho). cbn [fst snd]. destruct o as [fk|].
  - rewrite bool_decide_eq_false_2 by done. cbn [Z.eqb].
    change (returns (f (1, Some fk)) s1 Q). apply Hf; try done. cbn [resolve]. by rewrite <- Ho.
  - rewrite bool_decide_eq_true_2 by done. cbn [Z.eqb]. by apply Hwalk.
Qed.

(** Destinations: buffers outside the sector buffer. *)
Definition dst_fits (dst cap : Z) : Prop := buffer_ok dst cap /\ disjoint_reg dst cap (SECBUF B) 4096.

Lemma read_file_reads h nodes cs path dst cap s :
  volume_holds h nodes -> ok s -> b_hfs s = h -> dst_fits dst cap ->
  (forall fk, resolve nodes 2 cs = Some fk -> fk_size fk <= cap -> one_extent fk) ->
  Forall plain cs -> Forall (fun c => slen c < 128) cs -> cs <> [] -> path = slash_join cs \/ path = unslash cs ->
  returns (hfsplus_read_file B path dst cap) s (file_read nodes cs dst cap s).
Proof.
  intros Hvol Hok Hh [Hbuf Hdis] Hfk Hplain Hshort Hne Hpath. pose proof Hvol as [[Hbs _ _ _] _ _ _].
  unfold hfsplus_read_file. apply (read_file_lookup h nodes cs path); try done.
  intros [cnid o] s1 Hok1 Hq1 [Ho Hid]. cbn [fst snd] in *. subst o. unfold file_read.
  destruct (resolve nodes 2 cs) as [fk|] eqn:Hr.
  2: { do 3 apply returns_print. apply returns_ret. by split_and!. }
  rewrite (proj2 (Z.eqb_neq cnid 0)) by (by apply Hid). case_if; zbool.
  { apply returns_print, returns_ret. by split_and!. }
  pose proof (Hfk fk eq_refl ltac:(lia)) as Hone. pose proof Hone as [(Hsize & _) _]. pose proof Hq1 as [Hh1 Hm1].
  eapply returns_bind.
  { apply fork_read_file; try done; [congruence | eapply buffer_sub; [exact Hbuf | lia] |].
    unfold disjoint_reg in *. lia. }
  intros rc s2 (-> & Hok2 & [Hh2 Hm2] & Hb2). cbn [Z.eqb negb]. apply returns_ret. rewrite u32_small by mlia.
  split_and!; try done. split; [congruence|]. intros x Hx Hx2 Hx3. by rewrite Hm2, Hm1.
Qed.

(** ** The boot *)

Import BootLoader (image_ok, image_phdrs, read_ehdr, e_entry, e_magic, e_class, e_data, e_phentsize, e_phnum, e_phoff, elf_check, phdr_u32, read_phdrs_u32, CARIBE_ELF32_MAX_PHDRS).
Import ConsoleElf.

Lemma elf_loads fuel img size dtb s :
  mem_ok (b_mem s) -> region img size -> image_ok (b_mem s) img size -> headers_apart (b_mem s) img ->
  segments_fit fuel (image_phdrs (b_mem s) img) ->
  returns (Payload.elf32_load_and_jump fuel img dtb) s (fun r s' =>
    r = (0, Some (Jump (e_entry (read_ehdr (b_mem s) img)) 0 dtb 0)) /\
    b_mem s' = load_all img (image_phdrs (b_mem s) img) (b_mem s)).
Proof.
  intros Hm Himg (Hchk & Hv & _) [Ha Hb] Hfit. unfold elf_check in Hchk. pose proof Himg as (? & ? & ?).
  repeat (let E := fresh "E" in destruct (_ : bool) eqn:E in Hchk; [done|]).
  cbn [e_magic e_class e_data e_phentsize e_phnum e_phoff read_ehdr] in *. zbool.
  set (m := b_mem s) in *. unfold Payload.elf32_load_and_jump. apply returns_get. fold m.
  pose proof (load32_range m (img + 28) Hm). pose proof (load16_range m (img + 44) Hm).
  repeat match goal with Heq : load8 m _ = _ |- _ => rewrite Heq; clear Heq end.
  match goal with Heq : load32 m img = _ |- _ => rewrite Heq; clear Heq end. cbn [Z.eqb Pos.eqb negb orb].
  assert (Forall phdr_u32 (image_phdrs m img)) as Hu by (by apply read_phdrs_u32).
  assert (load_phs (Z.to_nat 65536) fuel m img (img + load32 m (img + 28)) 0 =
    Some (load_all img (image_phdrs m img) m)) as ->.
  { unfold image_phdrs in *. cbn [e_phoff e_phnum read_ehdr] in *.
    remember (Z.to_nat (load16 m (img + 44))) as k eqn:Hk.
    assert (load16 m (img + 44) = Z.of_nat k) as Hnum by (subst k; mlia).
    rewrite Hnum in Hb. unfold CARIBE_ELF32_MAX_PHDRS in *.
    pose proof (load_phs_all img size Himg (img + load32 m (img + 28)) fuel k m 0 (Z.to_nat 65536) Hm) as Hloop.
    rewrite Hnum in Hloop. replace (img + load32 m (img + 28) + 32 * 0) with (img + load32 m (img + 28)) in Hloop by lia.
    apply Hloop; try done; try (unfold region; mlia). }
  apply returns_modify. cbv zeta. do 5 apply returns_print. apply returns_ret. split; [|done]. do 3 f_equal.
  cbn [e_entry read_ehdr]. apply load32_same; [unfold region; lia|].
  intros x Hx. apply (load_all_keeps img size) with img 52; try done. unfold inside in *. lia.
Qed.

(** Memory is left alone but the sector buffer and what the driver owns. *)
Definition mem_quiet s s' : Prop :=
  forall x, ~ inside (SECBUF B) 4096 x -> ~ blk_private x -> b_mem s' x = b_mem s x.

(** The volume in the header of the disk; the payload leaves the other fields. *)
Definition header_volume (h : hfs_vol) : hfs_vol :=
  read_vh {| SECBUF := 0; PLIST := 0; KIMG := 0; INITRD := 0 |} header_bytes h.

Lemma print_extents_any ext : forall i s (A : Type) (f : unit -> PST boot A) (Q : A -> boot -> Prop),
  (forall out, returns (f tt) (Boot (b_mem s) (b_dev s) out (b_hfs s)) Q) ->
  returns (Payload.print_extents i ext ≫= f) s Q.
Proof.
  induction ext as [|[start count] ext IH]; intros i s A f Q Hf; [destruct s; apply Hf|].
  cbn [Payload.print_extents]. case_if; [destruct s; apply Hf|].
  refine (IH (i + 1) (Boot (b_mem s) (b_dev s) _ (b_hfs s)) A f Q Hf).
Qed.

Lemma mount_reads s :
  ok s -> 3 <= blk_sectors -> be16 header_bytes 0 = 0x482b \/ be16 header_bytes 0 = 0x4858 ->
  returns (hfsplus_mount B) s (fun rc s' => rc = 0 /\ ok s' /\ b_hfs s' = header_volume (b_hfs s) /\ mem_quiet s s').
Proof.
  intros Hok Hcap Hsig. unfold hfsplus_mount. eapply returns_bind; [apply disk_read_loads; (done || lia)|].
  intros rc s1 [-> Hl]. pose proof Hl as (Hok1 & Hh1 & _ & Hf1).
  apply (loaded_same _ _ _ _ _ (buffer_sub _ _ 512 Hsec ltac:(lia))) in Hl. fold header_bytes in Hl.
  cbn [negb Z.eqb]. apply returns_get. cbv zeta.
  assert (be16 (b_mem s1) (SECBUF B) = be16 header_bytes 0) as ->.
  { rewrite <- (Z.add_0_r (SECBUF B)). apply (same_be16 _ _ _ _ 0 _ Hl); lia. }
  replace (negb (_ || _)) with false by (destruct Hsig as [-> | ->]; done).
  assert (read_vh B (b_mem s1) (b_hfs s1) = header_volume (b_hfs s)) as Hv.
  { unfold header_volume, read_vh. cbn [SECBUF]. rewrite Hh1.
    rewrite (same_be32 _ _ _ _ 40 _ Hl), (same_be32 _ _ _ _ 44 _ Hl), (same_be64 _ _ _ _ 272 _ Hl) by lia.
    by rewrite (read_extents_same (b_mem s1) header_bytes (SECBUF B) 0 8 288 512) by (done || lia). }
  apply returns_modify, returns_get. cbn [set_hfs b_hfs]. do 7 apply returns_print.
  apply print_extents_any. intros out. apply returns_ret. cbn [emit set_hfs b_hfs b_mem].
  split_and!; try done. intros x Hx Hp. cbn [b_mem]. apply Hf1; [|done]. unfold inside in *. lia.
Qed.

(** *** The dump *)

Lemma dump_slots_any m n : forall idxv s (A : Type) (f : unit -> PST boot A) (Q : A -> boot -> Prop),
  (forall out, returns (f tt) (Boot (b_mem s) (b_dev s) out (b_hfs s)) Q) ->
  returns (dump_slots B m idxv n ≫= f) s Q.
Proof.
  induction n as [|n IH]; intros idxv s A f Q Hf; [destruct s; apply Hf|]. cbn [dump_slots].
  refine (IH (idxv + 2) (Boot (b_mem s) (b_dev s) _ (b_hfs s)) A f Q Hf).
Qed.

Lemma debug_blocks_quiet h nodes : catalog_holds h nodes -> forall n i s,
  ok s -> b_hfs s = h -> 0 <= i -> returns (debug_blocks B n i) s (fun _ s' => ok s' /\ quiet s s').
Proof.
  intros [Hbs Hone Hsz _]. induction n as [|n IH]; intros i s Hok Hh Hi; cbn [debug_blocks].
  { apply returns_ret. split; [done | apply quiet_id]. }
  apply returns_get. rewrite Hh. case_if; zbool; [apply returns_ret; split; [done | apply quiet_id]|].
  rewrite (Z.mul_comm i). eapply returns_bind; [apply (fork_read_node h i); try done; lia|].
  intros rc s1 (-> & Hok1 & Hq1 & _). cbn [negb Z.eqb]. do 3 apply returns_print. apply returns_get, returns_print.
  pose proof Hq1 as [Hh1 _].
  eapply returns_mono; [apply IH; [done | cbn [emit b_hfs]; congruence | lia]|].
  intros _ s2 [Hok2 Hq2]. split; [done | by eapply quiet_seq].
Qed.

Lemma dump_nodes_quiet h : blockSize h = 4096 -> one_extent (catalog h) -> forall n fuel k s,
  ok s -> b_hfs s = h -> 1 <= k -> fk_size (catalog h) = 4096 * (k + Z.of_nat n) -> (n <= fuel)%nat ->
  returns (dump_nodes B fuel (4096 * k)) s (fun r s' => ok s' /\ quiet s s').
Proof.
  intros Hbs Hone. pose proof Hone as [(Hsize & _) _]. induction n as [|n IH]; intros fuel k s Hok Hh Hk Hsz Hfuel.
  { destruct fuel; cbn [dump_nodes]; apply returns_get; rewrite Hh, (proj2 (Z.ltb_ge _ _)) by lia;
      apply returns_ret; split; try done; apply quiet_id. }
  destruct fuel as [|fuel]; [lia|]. cbn [dump_nodes]. apply returns_get. rewrite Hh, (proj2 (Z.ltb_lt _ _)) by lia.
  eapply returns_bind; [apply (fork_read_node h k); try done; lia|].
  intros rc s1 (-> & Hok1 & Hq1 & _). cbn [negb Z.eqb]. apply returns_get. pose proof Hq1 as [Hh1 _].
  assert (u64 (4096 * k + 4096) = 4096 * (k + 1)) as -> by (unfold u64; rewrite Z.mod_small; mlia).
  assert (forall out, returns (dump_nodes B fuel (4096 * (k + 1))) (Boot (b_mem s1) (b_dev s1) out (b_hfs s1))
    (fun r s' => ok s' /\ quiet s s')) as Hnext.
  { intros out. eapply returns_mono; [apply IH; try done; try lia; cbn [b_hfs]; congruence|].
    intros r s2 [Hok2 Hq2]. split; [done | by eapply (quiet_seq s s1)]. }
  case_if; [destruct s1; apply Hnext | by apply dump_slots_any].
Qed.

Lemma dump_quiet h nodes s : catalog_holds h nodes -> ok s -> b_hfs s = h ->
  returns (hfsplus_dump_root_entries B) s (fun _ s' => ok s' /\ quiet s s').
Proof.
  intros Hcat Hok Hh. pose proof Hcat as [Hbs Hone Hsz _]. unfold hfsplus_dump_root_entries. eapply returns_bind.
  { unfold hfsplus_debug_cat_first_blocks. apply returns_get. do 7 apply returns_print.
    by apply (debug_blocks_quiet h nodes Hcat 4 0). }
  intros _ s1 [Hok1 Hq1]. pose proof Hq1 as [Hh1 _]. apply returns_get. cbn [emit b_hfs] in Hh1. rewrite Hh1, Hh.
  eapply returns_bind; [apply (fork_read_node h 0); try done; [congruence | lia]|].
  intros rc s2 (-> & Hok2 & Hq2 & _). cbn [negb Z.eqb]. apply returns_get. do 4 apply returns_print. pose proof Hq2 as [Hh2 _].
  eapply returns_bind.
  { change 4096 with (4096 * 1) at 1. apply (dump_nodes_quiet h Hbs Hone (length nodes)); try done; try lia.
    - cbn [emit b_hfs]. congruence.
    - by apply catalog_fuel. }
  intros r s3 [Hok3 Hq3]. assert (quiet s s3) as Hq by (eapply (quiet_seq s s1); [done | by eapply (quiet_seq s1 s2)]).
  by destruct r; apply returns_ret.
Qed.

(** *** The whole boot *)

(** The bytes of a file. *)
Definition contents (fk : ForkMeta) : list Z := read_bytes (fork_byte 4096 fk) 0 (Z.to_nat (fk_size fk)).

Lemma read_contents m a fk : region a (fk_size fk) -> 0 <= fk_size fk < 4294967296 ->
  (forall i, 0 <= i < fk_size fk -> m (a + i) = fork_byte 4096 fk i) ->
  read_bytes m a (Z.to_nat (fk_size fk)) = contents fk.
Proof.
  intros (? & ? & ?) Hsz Hb. unfold contents. apply list_eq_same_length with (Z.to_nat (fk_size fk));
    [apply length_read_bytes | apply length_read_bytes |].
  intros i x y Hi Hx Hy. apply list_lookup_total_correct in Hx as <-. apply list_lookup_total_correct in Hy as <-.
  rewrite !read_bytes_lookup by done. unfold load8. rewrite !u32_small by mlia. by rewrite Hb by lia.
Qed.

(** The kernel as a file of the volume at its place in memory. *)
Definition image (fk : ForkMeta) : mem := fun a => fork_byte 4096 fk (a - KIMG B).

(** What a kernel must be to be entered: an image the loader of the booter accepts,
    whose headers no segment covers. *)
Definition kernel_fits (fuel : nat) (fk : ForkMeta) : Prop :=
  one_extent fk /\ image_ok (image fk) (KIMG B) (fk_size fk) /\ headers_apart (image fk) (KIMG B) /\
  segments_fit fuel (image_phdrs (image fk) (KIMG B)).

Lemma image_same fuel fk m : region (KIMG B) (fk_size fk) -> kernel_fits fuel fk ->
  (forall i, 0 <= i < fk_size fk -> m (KIMG B + i) = fork_byte 4096 fk i) ->
  read_ehdr m (KIMG B) = read_ehdr (image fk) (KIMG B) /\
  image_phdrs m (KIMG B) = image_phdrs (image fk) (KIMG B).
Proof.
  intros (? & ? & ?) (_ & (Hchk & _) & _) Hb.
  assert (forall x, inside (KIMG B) (fk_size fk) x -> m x = image fk x) as Heq.
  { intros x Hx. unfold image, inside in *. rewrite <- Hb by lia. f_equal. lia. }
  assert (mem_ok (image fk)) as Hok by (intros x; apply blk_byte_u8).
  unfold elf_check in Hchk. repeat (let E := fresh "E" in destruct (_ : bool) eqn:E in Hchk; [done|]).
  cbn [e_magic e_class e_data e_phentsize e_phnum e_phoff read_ehdr] in *. zbool.
  pose proof (load32_range (image fk) (KIMG B + 28) Hok). pose proof (load16_range (image fk) (KIMG B + 44) Hok).
  assert (read_ehdr m (KIMG B) = read_ehdr (image fk) (KIMG B)) as He.
  { unfold read_ehdr.
    rewrite !(load32_same (image fk) m), !(load16_ext m (image fk)), !load8_region, !Heq
      by ((unfold region; mlia) || (unfold inside; lia) || (intros; apply Heq; unfold inside in *; lia)). done. }
  split; [exact He|]. unfold image_phdrs. rewrite He. cbn [e_phoff e_phnum read_ehdr].
  apply read_phdrs_same; [unfold region; mlia|]. intros x Hx. apply Heq. unfold inside in *. mlia.
Qed.

(** The kernel named by com.apple.Boot.plist, or kernel.elf. *)
Definition boot_path (nodes : list (option (list cat_rec))) : list Z :=
  let kernel_path :=
    match resolve nodes 2 [cstr "com.apple.Boot.plist"] with
    | Some fk => if PLIST_CAP <? fk_size fk then [] else flags_kernel (plist_flags (contents fk))
    | None => []
    end in
  match kernel_path with [] => cstr "kernel.elf" | _ => kernel_path end.

Definition buffers_fit : Prop :=
  dst_fits (PLIST B) PLIST_CAP /\ dst_fits (KIMG B) KIMG_CAP /\ dst_fits (INITRD B) INITRD_CAP /\
  disjoint_reg (KIMG B) KIMG_CAP (INITRD B) INITRD_CAP.

(** A file that fits its buffer is on the disk in one extent. *)
Definition readable (nodes : list (option (list cat_rec))) (cs : list (list Z)) (cap : Z) : Prop :=
  forall fk, resolve nodes 2 cs = Some fk -> fk_size fk <= cap -> one_extent fk.

(** The file is in memory at [dst] if it is on the volume and fits. *)
Definition in_memory (nodes : list (option (list cat_rec))) (cs : list (list Z)) (dst cap : Z) (m : mem) : Prop :=
  forall fk, resolve nodes 2 cs = Some fk -> fk_size fk <= cap ->
    forall i, 0 <= i < fk_size fk -> m (dst + i) = fork_byte 4096 fk i.

Lemma file_read_memory nodes cs dst cap s r s' :
  file_read nodes cs dst cap s r s' -> ok s' /\ b_hfs s' = b_hfs s /\ in_memory nodes cs dst cap (b_mem s').
Proof.
  intros [Hok Hr]. unfold in_memory. destruct (resolve nodes 2 cs) as [fk|].
  - destruct (cap <? fk_size fk) eqn:E; zbool.
    + destruct Hr as (_ & Hh & _). split_and!; try done. intros fk' [= <-]. lia.
    + destruct Hr as (_ & [Hh _] & Hb). split_and!; try done. by intros fk' [= <-].
  - by destruct Hr as (_ & Hh & _).
Qed.

(** Another read keeps a buffer. *)
Lemma file_read_keeps nodes cs dst cap s r s' a n :
  file_read nodes cs dst cap s r s' -> dst_fits a n -> disjoint_reg a n dst cap ->
  forall i, 0 <= i < n -> b_mem s' (a + i) = b_mem s (a + i).
Proof.
  intros [_ Hr] [[_ Hp] Hs] Hd i Hi.
  assert (inside a n (a + i)) as Hin by (unfold inside; lia). specialize (Hp _ Hin).
  assert (~ inside (SECBUF B) 4096 (a + i)) as Hsb by (unfold inside, disjoint_reg in *; lia).
  destruct (resolve nodes 2 cs) as [fk|]; [destruct (cap <? fk_size fk) eqn:E; zbool|].
  - destruct Hr as (_ & _ & Hm). by apply Hm.
  - destruct Hr as (_ & [_ Hm] & _). apply Hm; try done. unfold inside, disjoint_reg in *. lia.
  - destruct Hr as (_ & _ & Hm). by apply Hm.
Qed.

Lemma plist_any f s (Q : list Z -> boot -> Prop) :
  (forall out, Q (flags_kernel (plist_flags f)) (Boot (b_mem s) (b_dev s) out (b_hfs s))) ->
  returns (plist_kernel f) s Q.
Proof.
  intros Hk. unfold plist_kernel. case_bool_decide as Hf.
  - rewrite Hf in Hk. destruct s. apply Hk.
  - case_bool_decide; exact (Hk _).
Qed.

Lemma disk_ready s : mem_ok (b_mem s) -> blk_present (b_dev s) ->
  returns virtio_blk_init s (fun rc s' => rc = 0 /\ ok s' /\ b_hfs s' = b_hfs s).
Proof.
  intros Hm Hp. unfold returns, virtio_blk_init. pose proof (blk_init_ok (b_dev s) (b_mem s) Hp Hm) as Hi.
  destruct (blk_init _ _) as [[[rc t] d] m']. destruct Hi as (-> & Hr & Hm' & _). by split_and!.
Qed.

(** How the boot ends. *)
Definition booted (nodes : list (option (list cat_rec))) (kcs : list (list Z)) (j : option jump) s' : Prop :=
  match resolve nodes 2 kcs with
  | Some fk =>
      if KIMG_CAP <? fk_size fk then j = None
      else j = Some (Jump (e_entry (read_ehdr (image fk) (KIMG B))) 0 DTB_ADDR 0) /\
        exists m, in_memory nodes kcs (KIMG B) KIMG_CAP m /\
          in_memory nodes [cstr "initrd.img"] (INITRD B) INITRD_CAP m /\
          b_mem s' = load_all (KIMG B) (image_phdrs (image fk) (KIMG B)) m
  | None => j = None
  end.

Section Whole.
Context (nodes : list (option (list cat_rec))) (kcs : list (list Z)) (fuel : nat).
Context (Hbuf : buffers_fit)
  (Hplist : readable nodes [cstr "com.apple.Boot.plist"] PLIST_CAP)
  (Hinitrd : readable nodes [cstr "initrd.img"] INITRD_CAP)
  (Hplain : Forall plain kcs) (Hshort : Forall (fun c => slen c < 128) kcs) (Hne : kcs <> [])
  (Hpath : boot_path nodes = slash_join kcs \/ boot_path nodes = unslash kcs)
  (Hkernel : forall fk, resolve nodes 2 kcs = Some fk -> fk_size fk <= KIMG_CAP -> kernel_fits fuel fk).

Lemma enters_kernel fk s : ok s -> resolve nodes 2 kcs = Some fk -> fk_size fk <= KIMG_CAP -> kernel_fits fuel fk ->
  in_memory nodes kcs (KIMG B) KIMG_CAP (b_mem s) ->
  returns (enter_kernel B fuel) s (fun j s' =>
    j = Some (Jump (e_entry (read_ehdr (image fk) (KIMG B))) 0 DTB_ADDR 0) /\
    b_mem s' = load_all (KIMG B) (image_phdrs (image fk) (KIMG B)) (b_mem s)).
Proof using Hbuf.
  intros [Hm _] Hres Hsize Hfits Hmem. destruct Hbuf as (_ & [[(? & ? & ?) _] _] & _).
  pose proof Hfits as (Hone & Himg & Hhdr & Hfit). pose proof Hone as [(Hsz & _) _].
  assert (region (KIMG B) (fk_size fk)) as Hreg by (unfold region; lia).
  destruct (image_same fuel fk (b_mem s) Hreg) as [He Hp]; [done | by apply Hmem |].
  unfold enter_kernel. eapply returns_bind.
  { apply (elf_loads fuel (KIMG B) (fk_size fk)); try done; unfold image_ok, headers_apart in *; cbv zeta in *; by rewrite ?Hp, ?He. }
  intros r s' [-> Hm']. apply returns_ret. by rewrite He, <- Hp.
Qed.

(** From the kernel on. *)
Lemma kernel_boots_from h s : volume_holds h nodes -> ok s -> b_hfs s = h ->
  returns (boot_kernel B fuel (boot_path nodes)) s (booted nodes kcs).
Proof using All.
  intros Hvol Hok Hh. pose proof Hbuf as (_ & Hk & Hi & Hd). unfold boot_kernel. eapply returns_bind.
  { apply (read_file_reads h nodes kcs); try done. intros fk Hr Hs. by destruct (Hkernel fk Hr Hs). }
  intros [rc ksz] s1 Hr1. pose proof (file_read_memory _ _ _ _ _ _ _ Hr1) as (Hok1 & Hh1 & Hmem1).
  destruct Hr1 as [_ Hr1]. unfold booted.
  destruct (resolve nodes 2 kcs) as [fk|] eqn:Hres; [destruct (KIMG_CAP <? fk_size fk) eqn:E; zbool|].
  1, 3: destruct Hr1 as [[= -> ->] _]; cbn [Z.eqb negb]; do 3 apply returns_print; by apply returns_ret.
  destruct Hr1 as ([= -> ->] & _). cbn [Z.eqb negb]. do 5 apply returns_print. eapply returns_bind.
  { apply (read_file_reads h nodes [cstr "initrd.img"]); try done;
      [cbn [emit b_hfs]; congruence | by_computation | by_computation | by left]. }
  intros [rc rsz] s2 Hr2. pose proof (file_read_memory _ _ _ _ _ _ _ Hr2) as (Hok2 & _ & Hmem2).
  assert (in_memory nodes kcs (KIMG B) KIMG_CAP (b_mem s2)) as Hmem.
  { intros fk' Hr' Hs' i Hi'. rewrite (file_read_keeps _ _ _ _ _ _ _ (KIMG B) KIMG_CAP Hr2) by (done || lia).
    by apply Hmem1. }
  assert (forall out, returns (enter_kernel B fuel) (Boot (b_mem s2) (b_dev s2) out (b_hfs s2)) (fun j s' =>
      j = Some (Jump (e_entry (read_ehdr (image fk) (KIMG B))) 0 DTB_ADDR 0) /\
      exists m, in_memory nodes kcs (KIMG B) KIMG_CAP m /\
        in_memory nodes [cstr "initrd.img"] (INITRD B) INITRD_CAP m /\
        b_mem s' = load_all (KIMG B) (image_phdrs (image fk) (KIMG B)) m)) as Hjump.
  { intros out. eapply returns_mono; [apply (enters_kernel fk); try done; by apply Hkernel|]. intros j s3 [-> Hm3]. split; [done|]. by exists (b_mem s2). }
  case_if; [exact (Hjump _) | destruct s2; exact (Hjump _)].
Qed.

Lemma plist_path h s : volume_holds h nodes -> ok s -> b_hfs s = h ->
  returns (boot_plist B) s (fun path s' => ok s' /\ b_hfs s' = h /\
    match path with [] => cstr "kernel.elf" | _ => path end = boot_path nodes).
Proof using Hsec Hbuf Hplist.
  intros Hvol Hok Hh. pose proof Hbuf as (Hp & _). pose proof Hp as [[(? & ? & ?) _] _]. unfold boot_plist.
  eapply returns_bind.
  { apply (read_file_reads h nodes [cstr "com.apple.Boot.plist"]); try done; [by_computation | by_computation | by right]. }
  intros [rc psz] s1 Hr. pose proof (file_read_memory _ _ _ _ _ _ _ Hr) as (Hok1 & Hh1 & Hmem).
  destruct Hr as [_ Hr]. unfold boot_path.
  change (resolve nodes 2 [cstr "com.apple.Boot.plist"]) with (resolve nodes 2 [cstr "com.apple.Boot.plist"]) in Hr |- *.
  destruct (resolve nodes 2 [cstr "com.apple.Boot.plist"]) as [fk|] eqn:Hres;
    [destruct (PLIST_CAP <? fk_size fk) eqn:E; zbool|].
  1, 3: destruct Hr as [[= -> ->] _]; cbn [Z.eqb]; apply returns_print, returns_ret; split_and!; (done || (cbn [emit b_hfs]; congruence)).
  destruct Hr as ([= -> ->] & _). cbn [Z.eqb default from_option id]. do 3 apply returns_print. apply returns_get.
  pose proof (Hplist fk Hres ltac:(lia)) as [(Hsz & _) _]. cbn [emit b_mem].
  rewrite (read_contents _ _ fk) by ((unfold region; lia) || lia || by apply Hmem).
  apply plist_any. intros out. split_and!; (done || (cbn [emit b_hfs]; congruence)).
Qed.


End Whole.


End OnDevice.

(** ** A volume with a kernel

    The volume of HfsCatalog.v with com.apple.Boot.plist in block 5, which names
    /boot/k.elf, and that kernel in block 4. *)

Module Example.

Import HfsCatalog.Example.
Import ConsoleElf.

Definition file (parent : Z) (name : list Z) (id size start count : Z) : cat_rec :=
  CatRec parent name (w16 2 ++ replicate 6 0 ++ w32 id ++ replicate 76 0 ++ w_fork size start count).

Definition recs : list cat_rec :=
  [folder 1 "Root" 2; folder 2 "boot" 16; file 2 "com.apple.Boot.plist" 17 83 5 1; file 16 "k.elf" 18 92 4 1].

Definition plist : list Z := "<dict><key>Kernel Flags</key><string>-v kernel=/boot/k.elf debug</string>\n</dict>\n".

Definition disk : Z -> Z := patch 16384 BootLoader.small_elf (patch 20480 plist (volume recs)).

#[local] Instance dev : BlockDevice unit := ram_disk disk.

#[local] Instance dev_spec : BlockDeviceSpec unit := ram_disk_spec disk.

Definition bufs : Payload.buffers :=
  {| Payload.SECBUF := 0x88010000; PLIST := 0x88020000; KIMG := 0x88100000; INITRD := 0x89000000 |}.

Definition nodes : list (option (list cat_rec)) := [Some recs].

Definition kcs : list (list Z) := [cstr "boot"; cstr "k.elf"].

Definition start : boot (D := unit) := Boot (fun _ => 0) tt [] vol.

Lemma header_vol : header_volume vol = vol.
Proof. vm_compute. reflexivity. Qed.

Lemma secbuf_fits : buffer_ok (Payload.SECBUF bufs) 4096.
Proof. split; [done | by intros x _ []]. Qed.

Lemma one_extent_check fk :
  bool_decide (0 < fk_size fk) && bool_decide (fk_size fk < 4294967296) &&
  bool_decide (Forall extent_ok (fk_ext fk)) &&
  bool_decide (fk_size fk <= 4096 * Z.of_nat (length (fork_blocks fk))) &&
  bool_decide (Forall (fun b => 4096 * (b + 1) <= 512 * sectors) (fork_blocks fk)) = true ->
  fk_size fk <= 4096 * ext0_count fk -> one_extent fk.
Proof. intros Hm Hs. split; [by apply mapped_check | done]. Qed.

Lemma vol_holds : volume_holds vol nodes.
Proof.
  split.
  - split; [done | apply one_extent_check; [vm_compute; reflexivity | done] | done |].
    intros [|k] nd Hk; [|by destruct k]. apply (inj Some) in Hk as <-.
    split; [apply leaf_at_check; vm_compute; reflexivity | vm_compute; reflexivity].
  - split; [vm_compute; reflexivity|]. vm_compute. intuition congruence.
  - unfold names_clear, clear_of. by_computation.
  - by_computation.
Qed.

Definition plist_fork : ForkMeta := Fork 83 ((5, 1) :: replicate 7 (0, 0)).

Definition kernel_fork : ForkMeta := Fork 92 ((4, 1) :: replicate 7 (0, 0)).

Lemma plist_resolves : resolve nodes 2 [cstr "com.apple.Boot.plist"] = Some plist_fork.
Proof. vm_compute. reflexivity. Qed.

Lemma kernel_resolves : resolve nodes 2 kcs = Some kernel_fork.
Proof. vm_compute. reflexivity. Qed.

Lemma no_initrd : resolve nodes 2 [cstr "initrd.img"] = None.
Proof. vm_compute. reflexivity. Qed.

Lemma fits_any dst cap : region dst cap -> disjoint_reg dst cap (Payload.SECBUF bufs) 4096 -> dst_fits bufs dst cap.
Proof. intros Hr Hd. split; [split; [done | by intros x _ []] | done]. Qed.

Lemma bufs_fit : buffers_fit bufs.
Proof. split_and!; try (apply fits_any; [done | by right]). by left. Qed.

Lemma kernel_one_extent : one_extent kernel_fork.
Proof. by apply one_extent_check. Qed.

Lemma kernel_phdrs : BootLoader.image_phdrs (image bufs kernel_fork) (KIMG bufs) = [BootLoader.Phdr 1 84 0x80400000 8 16].
Proof. vm_compute. reflexivity. Qed.

Lemma kernel_fits_here : kernel_fits bufs 16 kernel_fork.
Proof.
  split; [exact kernel_one_extent|]. unfold BootLoader.image_ok, headers_apart, apart, segments_fit. cbv zeta.
  rewrite kernel_phdrs. split_and!.
  - vm_compute. reflexivity.
  - apply Forall_cons. split; [by vm_compute | constructor].
  - done.
  - apply Forall_cons. split; [by left | constructor].
  - apply Forall_cons. split; [vm_compute; left; congruence | constructor].
  - apply Forall_cons. split; [done | constructor].
Qed.



End Example.

End PayloadSpec.
