(* ===== verification/FdtList.v ===== *)
(** The payloads that read the device tree: src/payload_fdt_ls.c and
    src/payload_fdt_ls_fixed.c list it, src/payload_fdt_auto.c prints the boot
    arguments, src/payload_md_dtb.c dumps it.

    The first three share a loop over the tokens of the structure block and keep
    the path of the current node in an array of 256 bytes.  The theorems say
    what they print on a blob that encodes a tree; they end in an endless loop, so
    a run is the text printed until then. *)

From S2P Require Import Prelude Print Fdt.

Module FdtList.

Import Print Fdt.

(** ** Runs

    A run gives a value, needs more fuel (a scan of memory did not end), or reads
    or writes outside an array. *)
Inductive res (A : Type) := Ok (a : A) | NoFuel | Overrun.

Arguments Ok {A}.
Arguments NoFuel {A}.
Arguments Overrun {A}.

#[global] Instance res_ret : MRet res := fun A a => Ok a.

#[global] Instance res_bind : MBind res := fun A B f r =>
  match r with Ok a => f a | NoFuel => NoFuel | Overrun => Overrun end.

(** ** Reading the blob *)

(** [bswap32(x)] *)
Definition bswap32 (x : Z) : Z :=
  ((x &! 0xFF) <<! 24) |! ((x &! 0xFF00) <<! 8) |! Z.shiftr (x &! 0xFF0000) 8 |!
  (Z.shiftr x 24 &! 0xFF).

(** [be32( *(uint32_t * )p)] *)
Definition word (m : mem) (p : Z) : Z := bswap32 (load32 m p).

(** A token with what the loops take from it; [IBad] has the unknown word. *)
Inductive item :=
  | IBegin (name : Z)
  | IEnd
  | IProp (len pname pdata : Z)
  | INop
  | IDone
  | IBad (tok : Z).

(** The head of the loops: the token at [p] and the pointer after it. *)
Definition next_item (m : mem) (strings : Z) (slack : nat) (p : Z) : res (item * Z) :=
  let tok := word m p in
  let p := p + 4 in
  if tok =? FDT_BEGIN_NODE then
    match skip_str m slack p with
    | Some q => Ok (IBegin p, align_ptr (q + 1))
    | None => NoFuel
    end
  else if tok =? FDT_END_NODE then Ok (IEnd, p)
  else if tok =? FDT_PROP then
    let len := word m p in
    let p := p + 4 in
    let nameoff := word m p in
    let p := p + 4 in
    Ok (IProp len (strings + nameoff) p, p + ((len +! 3) &! not32 3))
  else if tok =? FDT_NOP then Ok (INop, p)
  else if tok =? FDT_END then Ok (IDone, p)
  else Ok (IBad tok, p).

(** [for(;;)]: a step goes on ([inl]) or breaks ([inr]). *)
Fixpoint loop {S : Type} (step : item -> S -> res (S + S)) (m : mem) (strings : Z)
    (slack fuel : nat) (p : Z) (s : S) : res S :=
  match fuel with
  | O => NoFuel
  | Datatypes.S fuel =>
      '(i, p) ← next_item m strings slack p;
      r ← step i s;
      match r with
      | inl s => loop step m strings slack fuel p s
      | inr s => Ok s
      end
  end.

(** [puts(s)] of a string in memory *)
Fixpoint mem_text (m : mem) (fuel : nat) (a : Z) : res (list Z) :=
  if load8 m a =? 0 then Ok []
  else match fuel with
       | O => NoFuel
       | S fuel => t ← mem_text m fuel (a + 1); Ok (load8 m a :: t)
       end.

(** [s_eq(a, b)] with [b] a literal and [a] read by [get]. *)
Fixpoint s_eq (get : nat -> Z) (i : nat) (b : list Z) : bool :=
  match b with
  | [] => get i =? 0
  | d :: b => if get i =? 0 then false else if get i =? d then s_eq get (S i) b else false
  end.

Definition mem_get (m : mem) (a : Z) (i : nat) : Z := load8 m (a + Z.of_nat i).

(** [for(uint32_t i=0;i<len;i++){ char c=p[i]; if(c==0) break; putc(c); }] *)
Definition value_text (m : mem) (p len : Z) : list Z := copy_arg m p (Z.to_nat len).

(** ** The array [char path[256]] *)

Definition rd (path : list Z) (i : nat) : res Z :=
  match path !! i with Some c => Ok c | None => Overrun end.

Definition wr (path : list Z) (i : nat) (v : Z) : res (list Z) :=
  if decide (i < length path)%nat then Ok (<[i := v]> path) else Overrun.

(** [int n=0; while(path[n]) n++;] *)
Fixpoint path_len (path : list Z) : res nat :=
  match path with
  | [] => Overrun
  | c :: path => if c =? 0 then Ok 0%nat else n ← path_len path; Ok (S n)
  end.

(** [puts(path)] *)
Fixpoint path_text (path : list Z) : res (list Z) :=
  match path with
  | [] => Overrun
  | c :: path => if c =? 0 then Ok [] else t ← path_text path; Ok (c :: t)
  end.

(** [while(name[i] && n<255){ path[n++]=name[i++]; }] with [k] places left. *)
Fixpoint append (m : mem) (k : nat) (path : list Z) (n : nat) (name : Z) : res (list Z * nat) :=
  match k with
  | O => Ok (path, n)
  | S k =>
      let c := load8 m name in
      if c =? 0 then Ok (path, n)
      else path ← wr path n c; append m k path (S n) (name + 1)
  end.

(** [while(n>0 && path[n-1]!='/') n--;] *)
Fixpoint cut (path : list Z) (n : nat) : res nat :=
  match n with
  | O => Ok O
  | S k => c ← rd path k; if c =? 47 then Ok n else cut path k
  end.

(** [path[0]='/'; path[1]=0;] *)
Definition root_path (path : list Z) : res (list Z) := path ← wr path 0 47; wr path 1 0.

(** ** payload_fdt_ls.c *)

Record ls_state := Ls {
  l_path : list Z;
  l_depth : Z;
  have_chosen : bool;
  have_bootargs : bool;
  l_out : list Z;
}.

(** [path[0]=='/' && path[1]=='c' && ... && path[7]==0] *)
Definition in_chosen (path : list Z) : bool := bytes_eqb (take 8 path) ("/chosen" ++ [0]).

Definition ls_begin (m : mem) (name : Z) (s : ls_state) : res ls_state :=
  n ← path_len (l_path s);
  path ← (if decide (n = 0%nat) then root_path (l_path s)
          else
            '(path, n) ← (if decide (n < 255)%nat then path ← wr (l_path s) n 47; Ok (path, S n)
                          else Ok (l_path s, n));
            '(path, n) ← append m (255 - n) path n name;
            wr path n 0);
  t ← path_text path;
  Ok (Ls path (l_depth s + 1) (have_chosen s || in_chosen path) (have_bootargs s)
        (l_out s ++ "[NODE] " ++ t ++ "\r\n")).

Definition ls_end (s : ls_state) : res (ls_state + ls_state) :=
  path ← (if 0 <? l_depth s then
            n ← path_len (l_path s);
            n ← cut (l_path s) n;
            let n := if decide (1 < n)%nat then (n - 1)%nat else n in
            path ← wr (l_path s) n 0;
            if decide (n = 0%nat) then root_path path else Ok path
          else Ok (l_path s));
  let s' := Ls path (l_depth s - 1) (have_chosen s) (have_bootargs s) (l_out s) in
  Ok (if l_depth s - 1 <? 0 then inr s' else inl s').

(** The line of a property. *)
Definition prop_line (name : list Z) (len : Z) : list Z :=
  "  - " ++ name ++ " [len=" ++ puthex32 len ++ "]\r\n".

Definition ls_prop (m : mem) (slack : nat) (len pname : Z) (s : ls_state) : res ls_state :=
  t ← mem_text m slack pname;
  Ok (Ls (l_path s) (l_depth s) (have_chosen s)
        (have_bootargs s ||
         (have_chosen s && in_chosen (l_path s) && s_eq (mem_get m pname) 0 "bootargs"))
        (l_out s ++ prop_line t len)).

Definition ls_print (t : list Z) (s : ls_state) : ls_state :=
  Ls (l_path s) (l_depth s) (have_chosen s) (have_bootargs s) (l_out s ++ t).

Definition unknown_token (tok : Z) : list Z := "[FDT] token desconocido=0x" ++ puthex32 tok ++ "\r\n".

Definition ls_step (m : mem) (slack : nat) (i : item) (s : ls_state) : res (ls_state + ls_state) :=
  match i with
  | IBegin name => s ← ls_begin m name s; Ok (inl s)
  | IEnd => ls_end s
  | IProp len pname _ => s ← ls_prop m slack len pname s; Ok (inl s)
  | INop => Ok (inl s)
  | IDone => Ok (inr s)
  | IBad tok => Ok (inr (ls_print (unknown_token tok) s))
  end.

Definition si (b : bool) : list Z := if b then "si" else "no".

Definition summary (chosen bootargs : bool) : list Z :=
  "\r\nResumen: /chosen=" ++ si chosen ++ "  bootargs=" ++ si bootargs ++ "\r\n".

Definition bad_magic (dtb : Z) : list Z := "\r\n[FDT] MAGIC invalido en " ++ puthex32 dtb ++ "\r\n".

Definition header_line (m : mem) (dtb : Z) : list Z :=
  "totalsize=" ++ puthex32 (word m (dtb + 4)) ++
  " off_struct=" ++ puthex32 (word m (dtb + 8)) ++
  " off_strings=" ++ puthex32 (word m (dtb + 12)) ++ "\r\n".

(** [_start] with [DTB_ADDR] at [dtb]; [stack] is what the array [path] has before
    it is initialised. *)
Definition fdt_ls (m : mem) (slack fuel : nat) (dtb : Z) (stack : list Z) : res (list Z) :=
  if negb (word m dtb =? FDT_MAGIC) then Ok (bad_magic dtb)
  else
    let out := "\r\n[FDT] OK. " ++ header_line m dtb in
    path ← wr stack 0 0;
    s ← loop (ls_step m slack) m (dtb + word m (dtb + 12)) slack fuel (dtb + word m (dtb + 8))
          (Ls path 0 false false out);
    Ok (l_out s ++ summary (have_chosen s) (have_bootargs s)).

(** ** The path of payload_fdt_ls_fixed.c and payload_fdt_auto.c *)

Record cursor := Cursor {
  c_path : list Z;
  c_plen : nat;
  c_depth : Z;
}.

Definition enter (m : mem) (name : Z) (c : cursor) : res cursor :=
  '(path, plen) ←
    (if c_depth c =? 0 then path ← root_path (c_path c); Ok (path, 1%nat)
     else
       c0 ← rd (c_path c) 0;
       '(path, plen) ←
         (if negb (bool_decide (c_plen c = 1%nat) && (c0 =? 47))
          then path ← wr (c_path c) (c_plen c) 47; Ok (path, S (c_plen c))
          else Ok (c_path c, c_plen c));
       '(path, plen) ← append m (255 - plen) path plen name;
       path ← wr path plen 0;
       Ok (path, plen));
  Ok (Cursor path plen (c_depth c + 1)).

(** [None] is the break. *)
Definition leave (c : cursor) : res (option cursor) :=
  if 0 <? c_depth c then
    '(path, plen) ←
      (if c_depth c =? 1 then path ← wr (c_path c) 0 0; Ok (path, 0%nat)
       else
         plen ← cut (c_path c) (c_plen c);
         let plen := if decide (1 < plen)%nat then (plen - 1)%nat else plen in
         path ← wr (c_path c) plen 0;
         Ok (path, plen));
    Ok (Some (Cursor path plen (c_depth c - 1)))
  else Ok None.

(** [s_eq(path, "/chosen") && s_eq(pname, "bootargs")] *)
Definition at_bootargs (m : mem) (pname : Z) (c : cursor) : bool :=
  s_eq (fun i => c_path c !!! i) 0 "/chosen" && s_eq (mem_get m pname) 0 "bootargs".

(** ** payload_fdt_ls_fixed.c *)

Record lsf_state := Lsf {
  f_cur : cursor;
  seen_chosen : bool;
  seen_bootargs : bool;
  f_out : list Z;
}.

Definition bootargs_line (indent value : list Z) : list Z :=
  indent ++ "bootargs=" ++ [34] ++ value ++ [34] ++ "\r\n".

Definition lsf_begin (m : mem) (name : Z) (s : lsf_state) : res lsf_state :=
  c ← enter m name (f_cur s);
  t ← path_text (c_path c);
  Ok (Lsf c (seen_chosen s || ((c_depth c =? 2) && s_eq (mem_get m name) 0 "chosen"))
        (seen_bootargs s) (f_out s ++ "[NODE] " ++ t ++ "\r\n")).

Definition lsf_prop (m : mem) (slack : nat) (len pname pdata : Z) (s : lsf_state) : res lsf_state :=
  t ← mem_text m slack pname;
  let out := f_out s ++ prop_line t len in
  Ok (if at_bootargs m pname (f_cur s)
      then Lsf (f_cur s) (seen_chosen s) true (out ++ bootargs_line "    " (value_text m pdata len))
      else Lsf (f_cur s) (seen_chosen s) (seen_bootargs s) out).

Definition lsf_step (m : mem) (slack : nat) (i : item) (s : lsf_state) : res (lsf_state + lsf_state) :=
  match i with
  | IBegin name => s ← lsf_begin m name s; Ok (inl s)
  | IEnd =>
      c ← leave (f_cur s);
      Ok (match c with
          | Some c => inl (Lsf c (seen_chosen s) (seen_bootargs s) (f_out s))
          | None => inr s
          end)
  | IProp len pname pdata => s ← lsf_prop m slack len pname pdata s; Ok (inl s)
  | INop => Ok (inl s)
  | IDone => Ok (inr s)
  | IBad tok =>
      Ok (inr (Lsf (f_cur s) (seen_chosen s) (seen_bootargs s) (f_out s ++ unknown_token tok)))
  end.

Definition fdt_ls_fixed (m : mem) (slack fuel : nat) (dtb : Z) (stack : list Z) : res (list Z) :=
  if negb (word m dtb =? FDT_MAGIC) then Ok (bad_magic dtb)
  else
    let out := "\r\n[FDT] OK. " ++ header_line m dtb in
    path ← wr stack 0 0;
    s ← loop (lsf_step m slack) m (dtb + word m (dtb + 12)) slack fuel (dtb + word m (dtb + 8))
          (Lsf (Cursor path 0 0) false false out);
    Ok (f_out s ++ summary (seen_chosen s) (seen_bootargs s)).

(** ** payload_fdt_auto.c *)

Definition auto_step (m : mem) (i : item) (s : cursor * list Z) : res (cursor * list Z + cursor * list Z) :=
  let '(c, out) := s in
  match i with
  | IBegin name => c ← enter m name c; Ok (inl (c, out))
  | IEnd => r ← leave c; Ok (match r with Some c => inl (c, out) | None => inr (c, out) end)
  | IProp len pname pdata =>
      Ok (inl (c, if at_bootargs m pname c
                  then out ++ bootargs_line [] (value_text m pdata len) else out))
  | INop => Ok (inl s)
  | IDone => Ok (inr s)
  | IBad tok =>
      Ok (inr (c, out ++ "[FDT-AUTO] token desconocido: 0x" ++ puthex32 tok ++ "\r\n"))
  end.

(** [_start] with the device tree in register [a1]. *)
Definition fdt_auto (m : mem) (slack fuel : nat) (a1 : Z) (stack : list Z) : res (list Z) :=
  let dtb := a1 in
  let out := "\r\n[FDT-AUTO] a1=" ++ puthex32 dtb ++ "\r\n" in
  if (dtb <? 0x80000000) || (0x90000000 <=? dtb)
  then Ok (out ++ "[FDT-AUTO] a1 fuera de rango esperado; abort.\r\n")
  else if negb (word m dtb =? FDT_MAGIC)
  then Ok (out ++ "[FDT-AUTO] MAGIC invalido en " ++ puthex32 dtb ++ " (no se usa fallback)\r\n")
  else
    let out := out ++ "[FDT-AUTO] " ++ header_line m dtb in
    path ← wr stack 0 0;
    s ← loop (auto_step m) m (dtb + word m (dtb + 12)) slack fuel (dtb + word m (dtb + 8))
          (Cursor path 0 0, out);
    Ok s.2.

(** ** payload_md_dtb.c *)

Definition puthex8 (v : Z) : list Z :=
  [HEX !!! Z.to_nat (Z.shiftr v 4 &! 0xF); HEX !!! Z.to_nat (v &! 0xF)].

(** [puthex8(p[i+j]); putc(' ');] for the [n] bytes of a line. *)
Fixpoint cells (m : mem) (p : Z) (n : nat) : list Z :=
  match n with
  | O => []
  | S n => puthex8 (load8 m p) ++ [32] ++ cells m (p + 1) n
  end.

(** The lines from byte [i] on; [rows] bounds their number. *)
Fixpoint hexdump_from (m : mem) (p addr len i : Z) (rows : nat) : list Z :=
  match rows with
  | O => []
  | S rows =>
      if i <? len then
        "  " ++ puthex32 (addr +! i) ++ ": " ++ cells m (p + i) (Z.to_nat (Z.min 16 (len - i))) ++
        "\r\n" ++ hexdump_from m p addr len (i + 16) rows
      else []
  end.

Definition hexdump (m : mem) (p addr len : Z) : list Z :=
  hexdump_from m p addr len 0 (Z.to_nat (len / 16 + 1)).

(** [_start] with [DTB_ADDR] at [dtb]. *)
Definition md_dtb (m : mem) (dtb : Z) : list Z :=
  let offS := word m (dtb + 8) in
  let offT := word m (dtb + 12) in
  let szS := word m (dtb + 36) in
  let szT := word m (dtb + 32) in
  "\r\n[MD] DTB @ " ++ puthex32 dtb ++ "\r\n" ++
  hexdump m dtb dtb 64 ++
  "off_struct=" ++ puthex32 offS ++ " size_struct=" ++ puthex32 szS ++ "\r\n" ++
  "off_strings=" ++ puthex32 offT ++ " size_strings=" ++ puthex32 szT ++ "\r\n" ++
  (let dump_len := if szS <? 256 then szS else 256 in
   hexdump m (dtb + offS) (dtb +! offS) dump_len).

(** ** Words and tokens *)

Lemma land_byte x : Z.land x 0xFF = x mod 256.
Proof. change 0xFF with (Z.ones 8). by rewrite Z.land_ones by lia. Qed.

(** A field of 8 bits, in place. *)
Lemma land_field x k : 0 <= k -> Z.land x (Z.shiftl 0xFF k) = Z.shiftl (Z.shiftr x k mod 256) k.
Proof.
  intros Hk. rewrite <- land_byte, Z.shiftl_land. apply Z.bits_inj'. intros i Hi.
  rewrite !Z.land_spec. destruct (decide (i < k)).
  - rewrite !(Z.shiftl_spec_low _ k) by lia. by rewrite andb_false_r.
  - rewrite !Z.shiftl_spec by lia. rewrite Z.shiftr_spec by lia. by replace (i - k + k) with i by lia.
Qed.

Lemma bswap32_bytes b0 b1 b2 b3 :
  is_u8 b0 -> is_u8 b1 -> is_u8 b2 -> is_u8 b3 ->
  bswap32 (b0 + 256 * b1 + 65536 * (b2 + 256 * b3)) = 16777216 * b0 + 65536 * b1 + 256 * b2 + b3.
Proof.
  intros H0 H1 H2 H3. unfold bswap32.
  set (x := b0 + 256 * b1 + 65536 * (b2 + 256 * b3)).
  change 0xFF00 with (Z.shiftl 0xFF 8). change 0xFF0000 with (Z.shiftl 0xFF 16).
  rewrite (land_field x 8), (land_field x 16), !land_byte by lia.
  rewrite !Z.shiftr_div_pow2 by lia. rewrite (Z.shiftl_mul_pow2 _ 16) by lia.
  change (2 ^ 8) with 256. change (2 ^ 16) with 65536. change (2 ^ 24) with 16777216.
  assert (x mod 256 = b0) as -> by (subst x; mlia).
  assert (x / 256 mod 256 = b1) as -> by (subst x; mlia).
  assert (x / 65536 mod 256 = b2) as -> by (subst x; mlia).
  assert (x / 16777216 mod 256 = b3) as -> by (subst x; mlia). clear x.
  assert (b2 * 65536 / 256 = Z.shiftl b2 8) as ->.
  { rewrite Z.shiftl_mul_pow2 by lia. change (2 ^ 8) with 256. lia. }
  assert (u32 (Z.shiftl b0 24) = Z.shiftl b0 24) as ->.
  { rewrite Z.shiftl_mul_pow2 by lia. change (2 ^ 24) with 16777216. apply u32_small. mlia. }
  assert (u32 (Z.shiftl (Z.shiftl b1 8) 8) = Z.shiftl b1 16) as ->.
  { rewrite Z.shiftl_shiftl by lia. rewrite Z.shiftl_mul_pow2 by lia.
    change (2 ^ (8 + 8)) with 65536. rewrite u32_small by mlia.
    rewrite Z.shiftl_mul_pow2 by lia. done. }
  assert (forall a k, 0 <= k -> Z.shiftl a k = a * 2 ^ k) as Hs by (intros; by apply Z.shiftl_mul_pow2).
  assert (2 ^ 8 = 256 /\ 2 ^ 16 = 65536 /\ 2 ^ 24 = 16777216) as (P8 & P16 & P24) by done.
  rewrite <- !Z.lor_assoc. rewrite (lor_shiftl_add b2 b3 8) by (rewrite ?P8; mlia).
  rewrite (lor_shiftl_add b1 _ 16) by (rewrite ?Hs, ?P8, ?P16 by lia; mlia).
  rewrite (lor_shiftl_add b0 _ 24) by (rewrite ?Hs, ?P8, ?P16, ?P24 by lia; mlia).
  rewrite !Hs, P8, P16, P24 by lia. lia.
Qed.

(** The swapped word is the big-endian word. *)
Lemma word_be32 m p : mem_ok m -> word m p = be32 m p.
Proof.
  intros Hm. unfold word, load32, load16. rewrite bswap32_bytes by auto with words.
  rewrite be32_bytes by done. by replace (p + 2 + 1) with (p + 3) by lia.
Qed.

(** What the loop sees of an encoded token. *)
Definition item_view (m : mem) (t : tok) (i : item) : Prop :=
  match t with
  | BeginNode name => exists a, i = IBegin a /\ cstr_at m a name
  | EndNode => i = IEnd
  | PropTok name data => exists pname pdata,
      i = IProp (Z.of_nat (length data)) pname pdata /\ cstr_at m pname name /\
      read_bytes m pdata (length data) = data
  | NopTok => i = INop
  | DoneTok => i = IDone
  end.

(** The scans of names end within [slack] bytes. *)
Definition short (slack : nat) (t : tok) : Prop :=
  match t with
  | BeginNode n => (length n <= slack)%nat
  | PropTok n _ => (length n <= slack)%nat
  | _ => True
  end.

Lemma short_names slack ts : Forall (short slack) ts -> names_short slack ts.
Proof. intros Hs. eapply Forall_impl; [exact Hs|]. by intros []. Qed.

(** Rounding a length up is rounding up an aligned address. *)
Lemma round_len p len :
  0 <= len < 2147483648 -> p mod 4 = 0 -> p + ((len +! 3) &! not32 3) = align4 (p + len).
Proof.
  intros Hlen Hp. change (not32 3) with (not32 (Z.ones 2)).
  rewrite land_not32_ones by (auto with words || lia). rewrite u32_small by mlia.
  change (2 ^ 2) with 4. unfold align4. lia.
Qed.

Lemma next_item_at m strings slack p t p' :
  mem_ok m -> p mod 4 = 0 -> tok_at m strings p t p' -> short slack t ->
  p' mod 4 = 0 /\ exists i, next_item m strings slack p = Ok (i, p') /\ item_view m t i.
Proof.
  intros Hm Hp Hat Hs. unfold next_item. rewrite !word_be32 by done.
  destruct t as [name| |name data| |]; cbn [tok_at short] in *.
  - destruct Hat as (-> & Hc & ->). split; [unfold align4; lia|]. cbn [Z.eqb].
    change (FDT_BEGIN_NODE =? FDT_BEGIN_NODE) with true. cbv iota.
    rewrite (skip_str_at m name), align_ptr_align4 by done.
    eexists. split; [done|]. cbn. eauto.
  - destruct Hat as (-> & ->). split; [lia|]. eexists. split; [reflexivity|]. done.
  - destruct Hat as (-> & Hlen & Hlt & Hc & Hd & ->). split; [unfold align4; lia|].
    change (FDT_PROP =? FDT_BEGIN_NODE) with false. change (FDT_PROP =? FDT_END_NODE) with false.
    change (FDT_PROP =? FDT_PROP) with true. cbv iota zeta.
    rewrite Hlen, round_len by lia.
    replace (p + 4 + 4 + 4) with (p + 12) by lia. replace (p + 4 + 4) with (p + 8) by lia.
    eexists. split; [done|]. cbn. eauto 10.
  - destruct Hat as (-> & ->). split; [lia|]. eexists. split; [reflexivity|]. done.
  - destruct Hat as (-> & ->). split; [lia|]. eexists. split; [reflexivity|]. done.
Qed.

(** The string [s] from index [i] on. *)
Fixpoint str_from (get : nat -> Z) (i : nat) (s : list Z) : Prop :=
  match s with
  | [] => get i = 0
  | c :: s => get i = c /\ 0 < c < 256 /\ str_from get (S i) s
  end.

Lemma s_eq_str get lit : forall i s, is_cstr lit -> str_from get i s -> s_eq get i lit = bytes_eqb s lit.
Proof.
  induction lit as [|d lit IH]; intros i s Hl Hat; cbn [s_eq].
  - destruct s as [|c s]; cbn [str_from] in Hat; [by rewrite Hat|].
    destruct Hat as (-> & Hc & _). rewrite (proj2 (Z.eqb_neq c 0)) by lia.
    symmetry. by apply bytes_eqb_neq.
  - apply Forall_cons in Hl as [Hd Hl]. destruct s as [|c s]; cbn [str_from] in Hat.
    + rewrite Hat. symmetry. by apply bytes_eqb_neq.
    + destruct Hat as (-> & Hc & Hat). rewrite (proj2 (Z.eqb_neq c 0)), cons_eqb by lia.
      destruct (c =? d); [|done]. by apply IH.
Qed.

Lemma str_from_mem m s : forall a i, cstr_at m (a + Z.of_nat i) s -> str_from (mem_get m a) i s.
Proof.
  induction s as [|c s IH]; intros a i Hat; [done|]. destruct Hat as (H1 & H2 & Hat). split; [done|]. split; [done|].
  apply IH. by replace (a + Z.of_nat (S i)) with (a + Z.of_nat i + 1) by lia.
Qed.

Lemma str_from_array s rest : is_cstr s -> forall pre,
  str_from (fun i => (pre ++ s ++ 0 :: rest) !!! i) (length pre) s.
Proof.
  induction 1 as [|c s Hc Hs IH]; intros pre; cbn [str_from app]; [apply list_lookup_total_middle; done|].
  split; [by apply list_lookup_total_middle|]. split; [done|].
  specialize (IH (pre ++ [c])). rewrite length_app, Nat.add_1_r, <- app_assoc in IH. exact IH.
Qed.

Lemma s_eq_mem m a s lit : is_cstr lit -> cstr_at m a s -> s_eq (mem_get m a) 0 lit = bytes_eqb s lit.
Proof. intros Hl Hat. apply s_eq_str; [done|]. apply str_from_mem. by rewrite Z.add_0_r. Qed.

Lemma mem_text_at m s : forall fuel a, cstr_at m a s -> (length s <= fuel)%nat -> mem_text m fuel a = Ok s.
Proof.
  induction s as [|c s IH]; intros fuel a Hat Hf; destruct fuel as [|fuel]; cbn in *; try lia;
    try by rewrite Hat.
  destruct Hat as (Hc & Hr & Hat). rewrite Hc. rewrite (proj2 (Z.eqb_neq c 0)) by lia.
  by rewrite IH by (done || lia).
Qed.

Lemma cstr_at_is m s : forall a, cstr_at m a s -> is_cstr s.
Proof. induction s as [|c s IH]; intros a Hat; [by constructor|]. destruct Hat as (_ & ? & ?). constructor; [done | by eapply IH]. Qed.

Lemma value_text_at m p data :
  read_bytes m p (length data) = data -> value_text m p (Z.of_nat (length data)) = first_str data.
Proof. intros Hd. unfold value_text. by rewrite Nat2Z.id, copy_arg_first, Hd. Qed.

(** ** The array *)

(** The array has the string [p]. *)
Definition holds (path p : list Z) : Prop :=
  length path = 256%nat /\ is_cstr p /\ exists rest, path = p ++ 0 :: rest.

Lemma wr_at path q c rest : path = q ++ rest -> rest <> [] ->
  wr path (length q) c = Ok (q ++ c :: drop 1 rest).
Proof.
  intros -> Hr. unfold wr. destruct rest as [|x rest]; [done|]. rewrite decide_True.
  - by rewrite insert_app_r_alt, Nat.sub_diag by lia.
  - rewrite length_app. simpl. lia.
Qed.

Lemma path_text_holds path p : holds path p -> path_text path = Ok p.
Proof.
  intros (_ & Hp & rest & ->). induction Hp as [|c p Hc Hp IH]; [done|]. cbn [app path_text].
  rewrite (proj2 (Z.eqb_neq c 0)) by lia. by rewrite IH.
Qed.

Lemma path_len_holds path p : holds path p -> path_len path = Ok (length p).
Proof.
  intros (_ & Hp & rest & ->). induction Hp as [|c p Hc Hp IH]; [done|]. cbn [app path_len].
  rewrite (proj2 (Z.eqb_neq c 0)) by lia. by rewrite IH.
Qed.

Lemma holds_short path p : holds path p -> (length p <= 255)%nat.
Proof. intros (Hl & _ & rest & ->). rewrite length_app in Hl. simpl in Hl. lia. Qed.

(** Ends the string after [q]. *)
Lemma wr_end path q rest : length path = 256%nat -> is_cstr q -> path = q ++ rest ->
  (length q <= 255)%nat -> exists path', wr path (length q) 0 = Ok path' /\ holds path' q.
Proof.
  intros Hl Hq -> Hle. destruct rest as [|x rest]; [rewrite app_nil_r in Hl; lia|].
  exists (q ++ 0 :: rest). split; [by rewrite (wr_at _ q 0 (x :: rest))|].
  split; [|eauto]. rewrite <- Hl, !length_app. done.
Qed.

Lemma wr_cons path q c rest : length path = 256%nat -> path = q ++ rest -> (length q <= 255)%nat ->
  exists rest', wr path (length q) c = Ok ((q ++ [c]) ++ rest') /\ length ((q ++ [c]) ++ rest') = 256%nat.
Proof.
  intros Hl -> Hle. destruct rest as [|x rest]; [rewrite app_nil_r in Hl; lia|].
  exists rest. rewrite (wr_at _ q c (x :: rest)) by done. rewrite <- app_assoc.
  split; [done|]. rewrite <- Hl, !length_app. done.
Qed.

Lemma append_at m s : forall path q rest name, length path = 256%nat -> path = q ++ rest ->
  (length q <= 255)%nat -> cstr_at m name s ->
  exists rest', append m (255 - length q) path (length q) name =
      Ok (take 255 (q ++ s) ++ rest', length (take 255 (q ++ s))) /\
    length (take 255 (q ++ s) ++ rest') = 256%nat.
Proof.
  induction s as [|c s IH]; intros path q rest name Hl -> Hle Hat; cbn [cstr_at] in Hat.
  - exists rest. rewrite app_nil_r, take_ge by lia. split; [|done].
    destruct (255 - length q)%nat; [done|]. cbn [append]. by rewrite Hat.
  - destruct (decide (length q = 255%nat)) as [E|E].
    { exists rest. rewrite E, take_app_le, take_ge, E by lia. done. }
    replace (255 - length q)%nat with (S (255 - length (q ++ [c]))) by (rewrite length_app; simpl; lia).
    destruct Hat as (Hc & Hr & Hat). cbn [append]. rewrite Hc, (proj2 (Z.eqb_neq c 0)) by lia.
    destruct (wr_cons _ q c rest Hl eq_refl Hle) as (rest1 & -> & Hl1). cbn [mbind res_bind].
    replace (S (length q)) with (length (q ++ [c])) by (rewrite length_app; simpl; lia).
    destruct (IH _ (q ++ [c]) rest1 (name + 1) Hl1 eq_refl) as (rest2 & -> & Hl2);
      [rewrite length_app; simpl; lia | done|].
    exists rest2. by rewrite <- app_assoc in Hl2 |- *.
Qed.

(** Writes [s] after [q] and ends the string. *)
Lemma append_holds m path q rest name s :
  length path = 256%nat -> path = q ++ rest -> (length q <= 255)%nat -> is_cstr q -> cstr_at m name s ->
  exists path', ('(path, n) ← append m (255 - length q) path (length q) name;
      path ← wr path n 0; Ok (path, n)) = Ok (path', length (take 255 (q ++ s))) /\
    holds path' (take 255 (q ++ s)).
Proof.
  intros Hl Hp Hle Hq Hat. destruct (append_at m s path q rest name Hl Hp Hle Hat) as (rest' & -> & Hl').
  cbn [mbind res_bind]. destruct (wr_end _ (take 255 (q ++ s)) rest' Hl') as (path' & -> & Hh).
  - apply Forall_take, Forall_app. split; [done | by eapply cstr_at_is].
  - done.
  - rewrite length_take. lia.
  - by exists path'.
Qed.

Lemma rd_at q c rest : rd (q ++ c :: rest) (length q) = Ok c.
Proof. unfold rd. by rewrite list_lookup_middle. Qed.

(** The scan back to the last slash. *)
Lemma cut_slash q s : forall rest, Forall (fun c => c <> 47) s ->
  cut ((q ++ 47 :: s) ++ rest) (length (q ++ 47 :: s)) = Ok (S (length q)).
Proof.
  induction s as [|c s IH] using rev_ind; intros rest Hs.
  - rewrite length_app, Nat.add_1_r, <- app_assoc. cbn [cut app]. rewrite rd_at. done.
  - apply Forall_app in Hs as [Hs [Hc _]%Forall_cons].
    rewrite app_comm_cons, app_assoc, (length_app (q ++ 47 :: s)), Nat.add_1_r, <- app_assoc.
    cbn [cut app]. rewrite rd_at. cbn [mbind res_bind]. rewrite (proj2 (Z.eqb_neq c 47)) by exact Hc.
    by apply IH.
Qed.

(** Goes back to the string before the last slash. *)
Lemma cut_holds path q s :
  holds path (q ++ 47 :: s) -> Forall (fun c => c <> 47) s -> q <> [] ->
  cut path (length (q ++ 47 :: s)) = Ok (S (length q)) /\
  exists path', wr path (length q) 0 = Ok path' /\ holds path' q.
Proof.
  intros Hh Hs Hq. pose proof (holds_short _ _ Hh) as Hle. destruct Hh as (Hl & Hc & rest & Hp).
  rewrite Hp. split; [by apply cut_slash|]. apply Forall_app in Hc as [Hc _]. rewrite length_app in Hle.
  rewrite Hp in Hl. apply (wr_end _ q ((47 :: s) ++ 0 :: rest) Hl Hc); [by rewrite app_assoc | lia].
Qed.

(** ** Walking over a tree *)

Definition node_name (t : node) : list Z := match t with Node name _ _ => name end.

(** What a lister does to its output at a node and at a property, given the paths
    of the current node and of its ancestors, innermost first. *)
Record lister (A : Type) := Lister {
  child : list Z -> list Z -> list Z;
  on_node : list (list Z) -> list Z -> A -> A;
  on_prop : list (list Z) -> list Z * list Z -> A -> A;
}.

Arguments child {A}.
Arguments on_node {A}.
Arguments on_prop {A}.

Definition visit_props {A} (l : lister A) (ps : list (list Z)) (props : list (list Z * list Z)) (a : A) : A :=
  fold_left (fun a q => on_prop l ps q a) props a.

(** The node [t] below the node with path [hd [] ps], and its properties and
    children in order. *)
Fixpoint visit {A} (l : lister A) (ps : list (list Z)) (t : node) (a : A) : A :=
  match t with
  | Node name props children =>
      let ps := child l (hd [] ps) name :: ps in
      fold_left (fun a c => visit l ps c a) children (visit_props l ps props (on_node l ps name a))
  end.

(** The whole tree. *)
Definition visit_root {A} (l : lister A) (t : node) (a : A) : A :=
  match t with
  | Node name props children =>
      let ps := [cstr "/"] in
      fold_left (fun a c => visit l ps c a) children (visit_props l ps props (on_node l ps name a))
  end.

(** The names below a node have no slash, and the path of a node with children is
    at most 254 bytes long. *)
Fixpoint fits (child : list Z -> list Z -> list Z) (p : list Z) (t : node) : Prop :=
  match t with
  | Node _ _ children =>
      (children = [] \/ (length p <= 254)%nat) /\
      foldr and True (map (fun c => Forall (fun x => x <> 47) (node_name c) /\
        fits child (child p (node_name c)) c) children)
  end.

(** [fits] as a test. *)
Fixpoint fitsb (child : list Z -> list Z -> list Z) (p : list Z) (t : node) : bool :=
  match t with
  | Node _ _ children =>
      (match children with [] => true | _ => (length p <=? 254)%nat end) &&
      forallb (fun c => forallb (fun x => negb (x =? 47)) (node_name c) &&
        fitsb child (child p (node_name c)) c) children
  end.

Lemma fitsb_fits child t : forall p, fitsb child p t = true -> fits child p t.
Proof.
  induction t as [name props children IH] using node_ind'. intros p [Hl Hc]%andb_true_iff. split.
  - destruct children; [by left | right; by apply Nat.leb_le].
  - clear Hl. induction IH as [|c children H Hcs IHc]; [done|]. cbn [forallb map foldr] in *.
    apply andb_true_iff in Hc as [[Hn Hf]%andb_true_iff Hc]. split; [|by apply IHc]. split; [|by apply H].
    apply Forall_forall. intros x Hx. rewrite forallb_forall in Hn. specialize (Hn x).
    rewrite <- list_elem_of_In in Hn. specialize (Hn Hx). zbool. done.
Qed.

#[global] Instance short_dec slack t : Decision (short slack t).
Proof. destruct t; cbn [short]; apply _. Defined.

Section Walk.
Context {S A : Type} (step : item -> S -> res (S + S)) (m : mem) (strings : Z) (slack : nat).
Context (Hm : mem_ok m) (l : lister A).

(** [R s ps a]: the state [s] is in the node with path [hd [] ps] and has put out [a]. *)
Context (R : S -> list (list Z) -> A -> Prop).
Context (R_begin : forall s p ps a name i,
  R s (p :: ps) a -> (length p <= 254)%nat -> Forall (fun x => x <> 47) name ->
  item_view m (BeginNode name) i ->
  exists s', step i s = Ok (inl s') /\
    R s' (child l p name :: p :: ps) (on_node l (child l p name :: p :: ps) name a)).
Context (R_end : forall s p q ps a, R s (p :: q :: ps) a ->
  exists s', step IEnd s = Ok (inl s') /\ R s' (q :: ps) a).
Context (R_prop : forall s p ps a name data i,
  R s (p :: ps) a -> item_view m (PropTok name data) i -> (length name <= slack)%nat ->
  exists s', step i s = Ok (inl s') /\ R s' (p :: ps) (on_prop l (p :: ps) (name, data) a)).

(** From [p] and [s] the loop goes over the tokens [ts], to a state of [Q]. *)
Definition goes (ts : list tok) (p : Z) (s : S) (rest : list tok) (Q : S -> Prop) : Prop :=
  exists p' s', p' mod 4 = 0 /\ toks_at m strings p' rest /\ Q s' /\
    forall fuel, loop step m strings slack (length ts + fuel) p s = loop step m strings slack fuel p' s'.

Lemma goes_nil p s rest (Q : S -> Prop) :
  p mod 4 = 0 -> toks_at m strings p rest -> Q s -> goes [] p s rest Q.
Proof. intros. by exists p, s. Qed.

Lemma goes_app ts1 ts2 p s rest (Q1 Q2 : S -> Prop) :
  goes ts1 p s (ts2 ++ rest) Q1 ->
  (forall p' s', p' mod 4 = 0 -> toks_at m strings p' (ts2 ++ rest) -> Q1 s' -> goes ts2 p' s' rest Q2) ->
  goes (ts1 ++ ts2) p s rest Q2.
Proof.
  intros (p1 & s1 & Hp1 & Ht1 & HQ1 & H1) H2. destruct (H2 p1 s1 Hp1 Ht1 HQ1) as (p2 & s2 & ? & ? & ? & H3).
  exists p2, s2. split_and!; [done..|]. intros fuel. rewrite length_app, <- Nat.add_assoc, H1. apply H3.
Qed.

Lemma goes_one t p s rest (Q : S -> Prop) :
  p mod 4 = 0 -> toks_at m strings p (t :: rest) -> short slack t ->
  (forall i, item_view m t i -> exists s', step i s = Ok (inl s') /\ Q s') -> goes [t] p s rest Q.
Proof.
  intros Hp Hat Hs Hstep. inversion Hat as [|? p' ? ? Ht Hts]; subst.
  destruct (next_item_at m strings slack p t p' Hm Hp Ht Hs) as (Hp' & i & Hi & Hv).
  destruct (Hstep i Hv) as (s' & Hs' & HQ). exists p', s'. split_and!; [done..|].
  intros fuel. cbn [length Nat.add loop]. by rewrite Hi; cbn [mbind res_bind]; rewrite Hs'.
Qed.

Lemma goes_props p ps : forall props a x s rest,
  R s (p :: ps) a -> x mod 4 = 0 ->
  toks_at m strings x (map (fun q => PropTok q.1 q.2) props ++ rest) ->
  Forall (short slack) (map (fun q => PropTok q.1 q.2) props) ->
  goes (map (fun q => PropTok q.1 q.2) props) x s rest
    (fun s' => R s' (p :: ps) (visit_props l (p :: ps) props a)).
Proof.
  induction props as [|[name data] props IH]; intros a x s rest HR Hx Hat Hs; [by apply goes_nil|].
  cbn [map app fst snd] in *. apply Forall_cons in Hs as [Hs1 Hs].
  apply (goes_app [_] _ _ _ _ (fun s' => R s' (p :: ps) (on_prop l (p :: ps) (name, data) a))).
  - apply goes_one; [done..|]. intros i Hi. by apply R_prop.
  - intros x' s' Hx' Hat' HR'. by apply IH.
Qed.

(** What holds of a node below a node with path [p]. *)
Definition node_goes (c : node) : Prop := forall p ps a x s rest,
  R s (p :: ps) a -> (length p <= 254)%nat -> Forall (fun x => x <> 47) (node_name c) ->
  fits (child l) (child l p (node_name c)) c -> x mod 4 = 0 ->
  toks_at m strings x (flatten c ++ rest) -> Forall (short slack) (flatten c) ->
  goes (flatten c) x s rest (fun s' => R s' (p :: ps) (visit l (p :: ps) c a)).

Lemma goes_children p ps children : Forall node_goes children -> forall a x s rest,
  R s (p :: ps) a -> children = [] \/ (length p <= 254)%nat ->
  foldr and True (map (fun c => Forall (fun x => x <> 47) (node_name c) /\
    fits (child l) (child l p (node_name c)) c) children) -> x mod 4 = 0 ->
  toks_at m strings x (concat (map flatten children) ++ rest) ->
  Forall (short slack) (concat (map flatten children)) ->
  goes (concat (map flatten children)) x s rest
    (fun s' => R s' (p :: ps) (fold_left (fun a c => visit l (p :: ps) c a) children a)).
Proof.
  induction 1 as [|c children Hc Hcs IH]; intros a x s rest HR Hlen Hfit Hx Hat Hs; [by apply goes_nil|].
  cbn [map concat foldr] in *. destruct Hfit as [[Hn Hf] Hfit]. destruct Hlen as [|Hlen]; [done|].
  apply Forall_app in Hs as [Hs1 Hs]. rewrite <- app_assoc in Hat.
  apply (goes_app _ _ _ _ _ (fun s' => R s' (p :: ps) (visit l (p :: ps) c a))).
  - by apply Hc.
  - intros x' s' Hx' Hat' HR'. apply IH; by try right.
Qed.

Lemma goes_body p ps props children a x s rest :
  Forall node_goes children -> R s (p :: ps) a -> fits (child l) p (Node [] props children) -> x mod 4 = 0 ->
  toks_at m strings x ((map (fun q => PropTok q.1 q.2) props ++ concat (map flatten children)) ++ rest) ->
  Forall (short slack) (map (fun q => PropTok q.1 q.2) props ++ concat (map flatten children)) ->
  goes (map (fun q => PropTok q.1 q.2) props ++ concat (map flatten children)) x s rest (fun s' =>
    R s' (p :: ps) (fold_left (fun a c => visit l (p :: ps) c a) children (visit_props l (p :: ps) props a))).
Proof.
  intros Hc HR [Hlen Hfit] Hx Hat [Hs1 Hs]%Forall_app. rewrite <- app_assoc in Hat.
  eapply goes_app; [by apply goes_props|]. intros x' s' Hx' Hat' HR'. by apply goes_children.
Qed.

Lemma node_goes_all c : node_goes c.
Proof.
  induction c as [name props children IH] using node_ind'.
  intros p ps a x s rest HR Hlen Hn Hfit Hx Hat Hs. cbn [node_name flatten] in *.
  rewrite app_assoc in Hat, Hs |- *. cbn [app] in Hat. apply Forall_cons in Hs as [Hs1 Hs].
  apply Forall_app in Hs as [Hs _].
  apply (goes_app [_] _ _ _ _ (fun s' =>
    R s' (child l p name :: p :: ps) (on_node l (child l p name :: p :: ps) name a))).
  { apply goes_one; [done..|]. intros i Hi. by apply R_begin. }
  intros x1 s1 Hx1 Hat1 HR1. rewrite <- app_assoc in Hat1. eapply goes_app; [by apply goes_body|].
  intros x2 s2 Hx2 Hat2 HR2. apply goes_one; [done..|]. intros i ->. exact (R_end _ _ _ _ _ HR2).
Qed.

(** The tokens between the start and the end of the root. *)
Lemma root_goes name props children a x s rest :
  R s [cstr "/"] a -> fits (child l) "/" (Node name props children) -> x mod 4 = 0 ->
  toks_at m strings x ((map (fun q => PropTok q.1 q.2) props ++ concat (map flatten children)) ++ rest) ->
  Forall (short slack) (map (fun q => PropTok q.1 q.2) props ++ concat (map flatten children)) ->
  goes (map (fun q => PropTok q.1 q.2) props ++ concat (map flatten children)) x s rest (fun s' =>
    R s' [cstr "/"] (fold_left (fun a c => visit l [cstr "/"] c a) children
      (visit_props l [cstr "/"] props a))).
Proof.
  intros. apply goes_body; try done. apply Forall_true. intros c. apply node_goes_all.
Qed.

(** A run over the whole tree, from the state [s0] before the root: [F] is what
    holds after the last token. *)
Lemma loop_root name props children a x s0 fuel (F : S -> A -> Prop) :
  let t := Node name props children in
  (forall i, item_view m (BeginNode name) i -> exists s, step i s0 = Ok (inl s) /\
     R s [cstr "/"] (on_node l [cstr "/"] name a)) ->
  (forall s b, R s [cstr "/"] b -> exists s1 s2,
     step IEnd s = Ok (inl s1) /\ step IDone s1 = Ok (inr s2) /\ F s2 b) ->
  fits (child l) "/" t -> x mod 4 = 0 -> toks_at m strings x (flatten t ++ [DoneTok]) ->
  Forall (short slack) (flatten t ++ [DoneTok]) -> (length (flatten t ++ [DoneTok]) <= fuel)%nat ->
  exists s, loop step m strings slack fuel x s0 = Ok s /\ F s (visit_root l t a).
Proof.
  intros t Hbegin Hend Hfit Hx Hat Hs Hfuel. unfold t in Hat, Hs, Hfuel. cbn [flatten app] in Hat, Hs, Hfuel.
  rewrite app_assoc, <- !app_assoc in Hat, Hs. rewrite app_assoc in Hat, Hs.
  apply Forall_cons in Hs as [Hs1 [Hs _]%Forall_app].
  destruct (goes_one _ x s0 _ (fun s => R s [cstr "/"] (on_node l [cstr "/"] name a)) Hx Hat Hs1 Hbegin)
    as (x1 & s1 & Hx1 & Hat1 & HR1 & E1).
  destruct (root_goes name props children _ x1 s1 _ HR1 Hfit Hx1 Hat1 Hs) as (x2 & s2 & Hx2 & Hat2 & HR2 & E2).
  destruct (Hend s2 _ HR2) as (s3 & s4 & Hs3 & Hs4 & HF). cbn [app] in Hat2.
  destruct (goes_one EndNode x2 s2 [DoneTok] (eq s3) Hx2 Hat2 I) as (x3 & ? & Hx3 & Hat3 & <- & E3).
  { intros i ->. eauto. }
  inversion Hat3 as [|? x4 ? ? Ht4 _]; subst.
  destruct (next_item_at m strings slack x3 DoneTok x4 Hm Hx3 Ht4 I) as (_ & i & Hi & ->).
  exists s4. split; [|exact HF]. cbn [length] in E1, E3, Hfuel. rewrite !length_app in Hfuel. cbn [length] in Hfuel.
  rewrite !length_app in E2.
  match type of E2 with forall fuel, loop _ _ _ _ (?k + _) _ _ = _ => set (n := k) in * end.
  replace fuel with (1 + (n + (1 + (1 + (fuel - n - 3)))))%nat by (unfold n; lia).
  rewrite E1, E2, E3. cbn [Nat.add loop]. by rewrite Hi; cbn [mbind res_bind]; rewrite Hs4.
Qed.

End Walk.

(** ** Paths *)

(** The path of a child as payload_fdt_ls.c builds it. *)
Definition ls_child (p name : list Z) : list Z := take 255 (p ++ 47 :: name).

(** The path of a child in the other two. *)
Definition child_path (p name : list Z) : list Z :=
  take 255 (if bytes_eqb p "/" then p ++ name else p ++ 47 :: name).

(** The paths from a node to the root. *)
Fixpoint chain (child : list Z -> list Z -> list Z) (ps : list (list Z)) : Prop :=
  match ps with
  | [] => False
  | p :: ps =>
      match ps with
      | [] => p = cstr "/"
      | q :: _ => chain child ps /\ exists name, p = child q name /\ is_cstr name /\
          Forall (fun c => c <> 47) name /\ (length q <= 254)%nat
      end
  end.

Lemma take_slash (q name : list Z) : (length q <= 254)%nat ->
  take 255 (q ++ 47 :: name) = q ++ 47 :: take (254 - length q) name.
Proof.
  intros Hq. rewrite take_app. rewrite (take_ge q) by lia.
  by replace (255 - length q)%nat with (S (254 - length q)) by lia.
Qed.

Lemma child_path_root name : child_path "/" name = 47 :: take 254 name.
Proof. done. Qed.

Lemma child_path_below q name : q <> cstr "/" -> (length q <= 254)%nat ->
  child_path q name = q ++ 47 :: take (254 - length q) name.
Proof. intros Hq Hl. unfold child_path. rewrite (proj2 (bytes_eqb_neq _ _) Hq). by apply take_slash. Qed.

Lemma chain_head p ps : chain ls_child (p :: ps) \/ chain child_path (p :: ps) ->
  exists r, p = 47 :: r.
Proof.
  revert p. induction ps as [|q ps IH]; intros p [Hc|Hc]; cbn [chain] in Hc; [by subst; eexists..| |];
    destruct Hc as (Hc & name & -> & _ & _ & Hl).
  - destruct (IH q (or_introl Hc)) as [r ->]. unfold ls_child. eexists. done.
  - destruct (IH q (or_intror Hc)) as [r ->]. unfold child_path. case_if; eexists; done.
Qed.

(** The array and the counters of a cursor in the node with path [hd [] ps]. *)
Definition cursor_at (c : cursor) (ps : list (list Z)) : Prop :=
  holds (c_path c) (hd [] ps) /\ c_plen c = length (hd [] ps) /\ c_depth c = Z.of_nat (length ps) /\
  chain child_path ps.

Lemma root_path_holds path : length path = 256%nat ->
  exists path', root_path path = Ok path' /\ holds path' "/".
Proof.
  intros Hl. unfold root_path.
  destruct (wr_cons path [] 47 path Hl eq_refl) as (rest & Hw & Hl'); [simpl; lia|].
  cbn [length app] in Hw, Hl'. rewrite Hw. cbn [mbind res_bind].
  apply (wr_end (47 :: rest) [47] rest Hl'); [by repeat constructor | done | simpl; lia].
Qed.

Lemma enter_root m a c :
  length (c_path c) = 256%nat -> c_depth c = 0 ->
  exists c', enter m a c = Ok c' /\ cursor_at c' [cstr "/"].
Proof.
  intros Hl Hd. unfold enter. rewrite Hd. cbn [Z.eqb].
  destruct (root_path_holds (c_path c) Hl) as (path' & -> & Hh). eexists. split; [done|]. by split_and!.
Qed.

Lemma enter_below m a name c p ps :
  cursor_at c (p :: ps) -> (length p <= 254)%nat -> Forall (fun x => x <> 47) name -> cstr_at m a name ->
  exists c', enter m a c = Ok c' /\ cursor_at c' (child_path p name :: p :: ps).
Proof.
  intros (Hh & Hn & Hd & Hc) Hle Hs Hat. cbn [hd] in *. unfold enter.
  rewrite (proj2 (Z.eqb_neq (c_depth c) 0)) by (rewrite Hd; simpl; lia).
  destruct (chain_head p ps (or_intror Hc)) as [r Hr]. pose proof Hh as (Hl & Hcp & rest & Hpath).
  assert (rd (c_path c) 0 = Ok 47) as -> by (by rewrite Hpath, Hr). cbn [mbind res_bind].
  assert (exists q rest', (if negb (bool_decide (c_plen c = 1%nat) && (47 =? 47))
      then path ← wr (c_path c) (c_plen c) 47; Ok (path, S (c_plen c)) else Ok (c_path c, c_plen c)) =
      Ok (q ++ rest', length q) /\ length (q ++ rest') = 256%nat /\ is_cstr q /\ (length q <= 255)%nat /\
      take 255 (q ++ name) = child_path p name) as (q & rest' & -> & Hl' & Hq & Hql & Ht).
  { rewrite Hn. change (47 =? 47) with true. rewrite andb_true_r. case_bool_decide as E; cbn [negb].
    - assert (p = cstr "/") as -> by (subst p; destruct r; [done | simpl in E; lia]).
      exists (cstr "/"), (0 :: rest). rewrite <- Hpath. split_and!; (done || lia).
    - destruct (wr_cons _ p 47 (0 :: rest) Hl Hpath ltac:(lia)) as (rest' & -> & Hl').
      exists (p ++ [47]), rest'. cbn [mbind res_bind]. rewrite length_app, Nat.add_1_r. split_and!; try done.
      + apply Forall_app. split; [done|]. by repeat constructor.
      + lia.
      + rewrite <- app_assoc. unfold child_path. rewrite (proj2 (bytes_eqb_neq _ _)); [done|].
        by intros ->. }
  cbn [mbind res_bind].
  destruct (append_holds m _ q rest' a name Hl' eq_refl Hql Hq Hat) as (path' & Ha & Hh').
  cbn [mbind res_bind] in Ha. rewrite Ha, Ht. rewrite Ht in Hh'. eexists. split; [done|].
  split_and!; try done.
  - cbn [c_depth]. rewrite Hd. simpl. lia.
  - split; [done|]. exists name. split_and!; try done. by eapply cstr_at_is.
Qed.

Lemma leave_below c p q ps :
  cursor_at c (p :: q :: ps) -> exists c', leave c = Ok (Some c') /\ cursor_at c' (q :: ps).
Proof.
  intros (Hh & Hn & Hd & Hc & name & -> & Hcs & Hs & Hle). cbn [hd] in *. unfold leave.
  rewrite Hd. rewrite (proj2 (Z.ltb_lt 0 _)), (proj2 (Z.eqb_neq _ 1)) by (simpl; lia).
  destruct (decide (q = cstr "/")) as [->|Hq].
  - rewrite child_path_root in Hh, Hn. rewrite Hn. pose proof Hh as (Hl & Hcp & rest & Hpath).
    assert (cut (c_path c) (length (47 :: take 254 name)) = Ok 1%nat) as ->.
    { rewrite Hpath. apply (cut_slash [] (take 254 name) (0 :: rest)). by apply Forall_take. }
    cbn [mbind res_bind]. rewrite decide_False by lia.
    destruct (wr_end (c_path c) [47] (take 254 name ++ 0 :: rest) Hl) as (path' & Hw & Hh');
      [by repeat constructor | done | simpl; lia|].
    cbn [length] in Hw. rewrite Hw. eexists. split; [done|]. split_and!; try done. cbn [c_depth]. simpl. lia.
  - rewrite (child_path_below q name Hq Hle) in Hh, Hn. rewrite Hn.
    destruct (chain_head q ps (or_intror Hc)) as [r Hr].
    destruct (cut_holds (c_path c) q (take (254 - length q) name) Hh) as (-> & path' & Hw & Hh');
      [by apply Forall_take | by subst|].
    cbn [mbind res_bind]. rewrite decide_True by (subst; simpl; lia).
    replace (S (length q) - 1)%nat with (length q) by lia. rewrite Hw. eexists. split; [done|].
    split_and!; try done. cbn [c_depth]. simpl. lia.
Qed.

Lemma leave_root c : cursor_at c [cstr "/"] -> exists c', leave c = Ok (Some c').
Proof.
  intros (Hh & _ & Hd & _). unfold leave. rewrite Hd. change (0 <? Z.of_nat (length [cstr "/"])) with true.
  change (Z.of_nat (length [cstr "/"]) =? 1) with true. cbv iota.
  destruct (wr_end (c_path c) [] (c_path c)) as (path' & Hw & _);
    [apply Hh | by constructor | done | simpl; lia|].
  cbn [length] in Hw. rewrite Hw. by eexists.
Qed.

(** ** payload_fdt_ls_fixed.c and payload_fdt_auto.c *)

Lemma at_bootargs_at m pname name c ps :
  cursor_at c ps -> cstr_at m pname name ->
  at_bootargs m pname c = bytes_eqb (hd [] ps) "/chosen" && bytes_eqb name "bootargs".
Proof.
  intros ((_ & Hc & rest & Hp) & _) Hat. unfold at_bootargs.
  rewrite (s_eq_mem m pname name) by (done || by apply lit_cstr). f_equal.
  apply s_eq_str; [by apply lit_cstr|]. rewrite Hp. by apply (str_from_array _ rest Hc []).
Qed.

Record report := Report {
  r_out : list Z;
  r_chosen : bool;
  r_bootargs : bool;
}.

Definition is_bootargs (ps : list (list Z)) (q : list Z * list Z) : bool :=
  bytes_eqb (hd [] ps) "/chosen" && bytes_eqb q.1 "bootargs".

Definition node_line (p : list Z) : list Z := "[NODE] " ++ p ++ "\r\n".

(** What payload_fdt_ls_fixed.c prints. *)
Definition fixed_lister : lister report := {|
  child := child_path;
  on_node ps name a := Report (r_out a ++ node_line (hd [] ps))
    (r_chosen a || (bool_decide (length ps = 2%nat) && bytes_eqb name "chosen")) (r_bootargs a);
  on_prop ps q a := Report (r_out a ++ prop_line q.1 (Z.of_nat (length q.2)) ++
      (if is_bootargs ps q then bootargs_line "    " (first_str q.2) else []))
    (r_chosen a) (r_bootargs a || is_bootargs ps q);
|}.

Definition fixed_at (s : lsf_state) (ps : list (list Z)) (a : report) : Prop :=
  cursor_at (f_cur s) ps /\ a = Report (f_out s) (seen_chosen s) (seen_bootargs s).

Lemma fixed_begin m slack s c' ps name x :
  enter m x (f_cur s) = Ok c' -> cursor_at c' ps -> cstr_at m x name ->
  exists s', lsf_step m slack (IBegin x) s = Ok (inl s') /\
    fixed_at s' ps (on_node fixed_lister ps name (Report (f_out s) (seen_chosen s) (seen_bootargs s))).
Proof.
  intros He Hc Hx. cbn [lsf_step]. unfold lsf_begin. rewrite He. cbn [mbind res_bind].
  pose proof Hc as (Hh & _ & Hd & _). rewrite (path_text_holds _ _ Hh). cbn [mbind res_bind].
  assert ((c_depth c' =? 2) = bool_decide (length ps = 2%nat)) as ->.
  { apply eq_true_iff_eq. rewrite bool_decide_eq_true, Z.eqb_eq. lia. }
  rewrite (s_eq_mem m x name) by (done || by apply lit_cstr). eexists. split; [done|]. by split.
Qed.

Lemma fixed_prop m slack s p ps a name data i :
  fixed_at s (p :: ps) a -> item_view m (PropTok name data) i -> (length name <= slack)%nat ->
  exists s', lsf_step m slack i s = Ok (inl s') /\
    fixed_at s' (p :: ps) (on_prop fixed_lister (p :: ps) (name, data) a).
Proof.
  intros (Hc & ->) (pname & pdata & -> & Hn & Hd) Hs. cbn [lsf_step]. unfold lsf_prop.
  rewrite (mem_text_at m name) by done. cbn [mbind res_bind].
  rewrite (at_bootargs_at m pname name _ (p :: ps)), value_text_at by done. eexists. split; [done|].
  cbn [on_prop fixed_lister]. unfold is_bootargs. cbn [fst snd]. destruct (_ && _); (split; [exact Hc|]).
  - cbn [r_out r_chosen r_bootargs f_out]. by rewrite <- app_assoc, orb_true_r.
  - cbn [r_out r_chosen r_bootargs f_out]. by rewrite app_nil_r, orb_false_r.
Qed.

(** The header of the blob. *)
Lemma blob_words m dtb t : mem_ok m -> blob_at m dtb t ->
  word m dtb = FDT_MAGIC /\
  toks_at m (dtb + word m (dtb + 12)) (dtb + word m (dtb + 8)) (flatten t ++ [DoneTok]).
Proof. intros Hm (_ & Hmagic & Hat). by rewrite !word_be32. Qed.

Lemma wr_first stack : length stack = 256%nat ->
  exists path, wr stack 0 0 = Ok path /\ holds path [].
Proof. intros Hl. apply (wr_end stack [] stack Hl); [by constructor | done | simpl; lia]. Qed.

Lemma fdt_ls_fixed_run m slack fuel dtb stack t :
  mem_ok m -> blob_at m dtb t -> (dtb + word m (dtb + 8)) mod 4 = 0 -> length stack = 256%nat ->
  fits child_path "/" t -> Forall (short slack) (flatten t ++ [DoneTok]) ->
  (length (flatten t ++ [DoneTok]) <= fuel)%nat ->
  let r := visit_root fixed_lister t (Report ("\r\n[FDT] OK. " ++ header_line m dtb) false false) in
  fdt_ls_fixed m slack fuel dtb stack = Ok (r_out r ++ summary (r_chosen r) (r_bootargs r)).
Proof.
  intros Hm Hblob Hal Hst Hfit Hs Hf. destruct (blob_words m dtb t Hm Hblob) as [Hmg Hat].
  unfold fdt_ls_fixed. rewrite Hmg, Z.eqb_refl. cbn [negb].
  destruct (wr_first stack Hst) as (path & -> & Hp). cbn [mbind res_bind]. destruct t as [name props children].
  generalize ("\r\n[FDT] OK. " ++ header_line m dtb). intros out.
  destruct (loop_root (lsf_step m slack) m (dtb + word m (dtb + 12)) slack Hm fixed_lister fixed_at)
    with (name := name) (x := dtb + word m (dtb + 8)) (props := props) (children := children) (fuel := fuel) (F := fun s a =>
      a = Report (f_out s) (seen_chosen s) (seen_bootargs s))
    (s0 := Lsf (Cursor path 0 0) false false out) (a := Report out false false) as (s & -> & ->);
    try done.
  - intros s p ps a nm i (Hc & ->) Hl Hn (x & -> & Hx).
    destruct (enter_below m x nm (f_cur s) p ps Hc Hl Hn Hx) as (c' & He & Hc'). by eapply fixed_begin.
  - intros s p q ps a (Hc & ->). destruct (leave_below _ _ _ _ Hc) as (c' & He & Hc').
    cbn [lsf_step]. rewrite He. eexists. split; [done|]. by split.
  - intros s p ps a nm data i. apply fixed_prop.
  - intros i (x & -> & Hx).
    destruct (enter_root m x (Cursor path 0 0)) as (c' & He & Hc'); [apply Hp | done|].
    exact (fixed_begin m slack (Lsf (Cursor path 0 0) false false out) c' _ name x He Hc' Hx).
  - intros s b (Hc & ->). cbn [lsf_step]. destruct (leave_root _ Hc) as (c' & ->). cbn [mbind res_bind].
    eexists _, _. by split_and!.
Qed.

Definition auto_lister : lister (list Z) := {|
  child := child_path;
  on_node ps name a := a;
  on_prop ps q a := a ++ (if is_bootargs ps q then bootargs_line [] (first_str q.2) else []);
|}.

Definition auto_at (s : cursor * list Z) (ps : list (list Z)) (a : list Z) : Prop :=
  cursor_at s.1 ps /\ a = s.2.

(** What payload_fdt_auto.c prints before it walks. *)
Definition auto_header (m : mem) (dtb : Z) : list Z :=
  ("\r\n[FDT-AUTO] a1=" ++ puthex32 dtb ++ "\r\n") ++ "[FDT-AUTO] " ++ header_line m dtb.

Lemma fdt_auto_run m slack fuel dtb stack t :
  mem_ok m -> blob_at m dtb t -> 0x80000000 <= dtb < 0x90000000 ->
  (dtb + word m (dtb + 8)) mod 4 = 0 -> length stack = 256%nat ->
  fits child_path "/" t -> Forall (short slack) (flatten t ++ [DoneTok]) ->
  (length (flatten t ++ [DoneTok]) <= fuel)%nat ->
  fdt_auto m slack fuel dtb stack = Ok (visit_root auto_lister t (auto_header m dtb)).
Proof.
  intros Hm Hblob Hr Hal Hst Hfit Hs Hf. destruct (blob_words m dtb t Hm Hblob) as [Hmg Hat].
  unfold fdt_auto. rewrite (proj2 (Z.ltb_ge dtb 0x80000000)), (proj2 (Z.leb_gt 0x90000000 dtb)) by lia.
  cbn [orb]. rewrite Hmg, Z.eqb_refl. cbn [negb]. cbv zeta. unfold auto_header.
  destruct (wr_first stack Hst) as (path & -> & Hp). cbn [mbind res_bind]. destruct t as [name props children].
  match goal with |- context [(Cursor _ _ _, ?o)] => generalize o; intros out end.
  destruct (loop_root (auto_step m) m (dtb + word m (dtb + 12)) slack Hm auto_lister auto_at)
    with (name := name) (x := dtb + word m (dtb + 8)) (props := props) (children := children)
    (fuel := fuel) (F := fun (s : cursor * list Z) a => a = s.2)
    (s0 := (Cursor path 0 0, out)) (a := out) as (s & -> & ->); try done.
  - intros [c o] p ps a nm i (Hc & ->) Hl Hn (x & -> & Hx).
    destruct (enter_below m x nm c p ps Hc Hl Hn Hx) as (c' & He & Hc').
    cbn [auto_step]. rewrite He. eexists. split; [done|]. by split.
  - intros [c o] p q ps a (Hc & ->). cbn [fst snd] in *. destruct (leave_below _ _ _ _ Hc) as (c' & He & Hc').
    cbn [auto_step]. rewrite He. eexists. split; [done|]. by split.
  - intros [c o] p ps a nm data i (Hc & ->) (pname & pdata & -> & Hn & Hd) Hlen. cbn [auto_step].
    rewrite (at_bootargs_at m pname nm c (p :: ps)), value_text_at by done. eexists. split; [done|].
    split; [exact Hc|]. cbn [on_prop auto_lister]. unfold is_bootargs. cbn [fst snd].
    destruct (_ && _); [done | by rewrite app_nil_r].
  - intros i (x & -> & Hx). destruct (enter_root m x (Cursor path 0 0)) as (c' & He & Hc'); [apply Hp | done|].
    cbn [auto_step]. rewrite He. eexists. split; [done|]. by split.
  - intros [c o] b (Hc & ->). cbn [auto_step fst snd] in *. destruct (leave_root _ Hc) as (c' & ->). cbn [mbind res_bind].
    eexists _, _. by split_and!.
Qed.

(** ** What the listers say of the tree *)

(** The lines of a node and of what is below it. *)
Fixpoint listing (child : list Z -> list Z -> list Z) (line : list Z -> list Z * list Z -> list Z)
    (p : list Z) (t : node) : list Z :=
  match t with
  | Node _ props children =>
      node_line p ++ concat (map (line p) props) ++
      concat (map (fun c => listing child line (child p (node_name c)) c) children)
  end.

(** A property with its length, and the boot arguments in full. *)
Definition fixed_line (p : list Z) (q : list Z * list Z) : list Z :=
  prop_line q.1 (Z.of_nat (length q.2)) ++
  (if is_bootargs [p] q then bootargs_line "    " (first_str q.2) else []).

(** The values of the properties "bootargs". *)
Definition bootargs_props (props : list (list Z * list Z)) : list (list Z) :=
  snd <$> List.filter (fun q => bytes_eqb q.1 "bootargs") props.

(** Those of the nodes whose path is "/chosen". *)
Fixpoint path_bootargs (p : list Z) (t : node) : list (list Z) :=
  match t with
  | Node _ props children =>
      (if bytes_eqb p "/chosen" then bootargs_props props else []) ++
      concat (map (fun c => path_bootargs (child_path p (node_name c)) c) children)
  end.

Definition nonempty {A} (l : list A) : bool := match l with [] => false | _ => true end.

Lemma nonempty_app {A} (l k : list A) : nonempty (l ++ k) = nonempty l || nonempty k.
Proof. by destruct l. Qed.

Lemma visit_props_fixed ps props : forall a,
  visit_props fixed_lister ps props a =
    Report (r_out a ++ concat (map (fixed_line (hd [] ps)) props)) (r_chosen a)
      (r_bootargs a || nonempty (if bytes_eqb (hd [] ps) "/chosen" then bootargs_props props else [])).
Proof.
  unfold visit_props. induction props as [|q props IH]; intros a; cbn [fold_left map concat].
  - rewrite app_nil_r. case_if; cbn; rewrite orb_false_r; by destruct a.
  - rewrite IH. cbn [on_prop fixed_lister r_out r_chosen r_bootargs]. f_equal.
    + unfold fixed_line at 2. by rewrite <- !app_assoc.
    + rewrite <- orb_assoc. f_equal. unfold is_bootargs, bootargs_props. cbn [List.filter].
      destruct (bytes_eqb (hd [] ps) "/chosen"), (bytes_eqb q.1 "bootargs"); done.
Qed.

(** A list of nodes, from what holds of each. *)
Lemma fold_left_report ps (g : node -> list Z) (h : node -> list (list Z)) (b : node -> bool) children :
  Forall (fun c => forall a, visit fixed_lister ps c a =
    Report (r_out a ++ g c) (r_chosen a || b c) (r_bootargs a || nonempty (h c))) children -> forall a,
  fold_left (fun a c => visit fixed_lister ps c a) children a =
    Report (r_out a ++ concat (map g children)) (r_chosen a || existsb b children)
      (r_bootargs a || nonempty (concat (map h children))).
Proof.
  induction 1 as [|c children Hc Hcs IH]; intros a; cbn [fold_left map concat existsb].
  - rewrite app_nil_r. cbn. rewrite !orb_false_r. by destruct a.
  - rewrite IH, Hc. cbn [r_out r_chosen r_bootargs]. by rewrite <- app_assoc, nonempty_app, !orb_assoc.
Qed.

Lemma visit_fixed c : forall ps a, (0 < length ps)%nat ->
  let p := child_path (hd [] ps) (node_name c) in
  visit fixed_lister ps c a =
    Report (r_out a ++ listing child_path fixed_line p c)
      (r_chosen a || (bool_decide (length ps = 1%nat) && bytes_eqb (node_name c) "chosen"))
      (r_bootargs a || nonempty (path_bootargs p c)).
Proof.
  induction c as [name props children IH] using node_ind'. intros ps a Hps.
  cbn [visit node_name listing path_bootargs child fixed_lister]. rewrite visit_props_fixed.
  set (p := child_path (hd [] ps) name). rewrite (fold_left_report (p :: ps)
    (fun c => listing child_path fixed_line (child_path p (node_name c)) c)
    (fun c => path_bootargs (child_path p (node_name c)) c) (fun _ => false)).
  2: { eapply Forall_impl; [exact IH|]. intros c Hc b. cbv zeta in Hc. rewrite Hc by (simpl; lia). cbn [hd].
    rewrite bool_decide_eq_false_2 by (simpl; lia). done. }
  cbn [on_node fixed_lister r_out r_chosen r_bootargs hd length].
  assert (existsb (fun _ : node => false) children = false) as -> by (clear; by induction children).
  rewrite orb_false_r, nonempty_app, !orb_assoc, <- !app_assoc. f_equal. f_equal. f_equal.
  apply bool_decide_ext. lia.
Qed.

(** What payload_fdt_auto.c prints of the values found. *)
Definition auto_lines (vs : list (list Z)) : list Z := concat (map (fun v => bootargs_line [] (first_str v)) vs).

Lemma auto_lines_app vs ws : auto_lines (vs ++ ws) = auto_lines vs ++ auto_lines ws.
Proof. unfold auto_lines. by rewrite map_app, concat_app. Qed.

Lemma auto_lines_cons v vs : auto_lines (v :: vs) = bootargs_line [] (first_str v) ++ auto_lines vs.
Proof. done. Qed.

Lemma visit_props_auto ps props : forall a,
  visit_props auto_lister ps props a =
    a ++ auto_lines (if bytes_eqb (hd [] ps) "/chosen" then bootargs_props props else []).
Proof.
  unfold visit_props. induction props as [|q props IH]; intros a; cbn [fold_left].
  - case_if; cbn; by rewrite app_nil_r.
  - rewrite IH. cbn [on_prop auto_lister]. rewrite <- app_assoc. f_equal.
    unfold is_bootargs, bootargs_props. cbn [List.filter].
    destruct (bytes_eqb (hd [] ps) "/chosen"), (bytes_eqb q.1 "bootargs"); cbn [andb fmap list_fmap];
      by rewrite ?auto_lines_cons.
Qed.

Lemma fold_left_auto ps (h : node -> list (list Z)) children :
  Forall (fun c => forall a, visit auto_lister ps c a = a ++ auto_lines (h c)) children -> forall a,
  fold_left (fun a c => visit auto_lister ps c a) children a = a ++ auto_lines (concat (map h children)).
Proof.
  induction 1 as [|c children Hc Hcs IH]; intros a; cbn [fold_left map concat].
  - cbn. by rewrite app_nil_r.
  - by rewrite IH, Hc, auto_lines_app, app_assoc.
Qed.

Lemma visit_auto c : forall ps a,
  visit auto_lister ps c a = a ++ auto_lines (path_bootargs (child_path (hd [] ps) (node_name c)) c).
Proof.
  induction c as [name props children IH] using node_ind'. intros ps a.
  cbn [visit node_name path_bootargs child on_node auto_lister]. rewrite visit_props_auto. cbn [hd].
  rewrite (fold_left_auto _ (fun c => path_bootargs (child_path (child_path (hd [] ps) name) (node_name c)) c)).
  - by rewrite auto_lines_app, app_assoc.
  - eapply Forall_impl; [exact IH|]. intros c Hc b. by rewrite Hc.
Qed.

(** ** The boot arguments of the tree *)

Definition node_props (t : node) : list (list Z * list Z) := match t with Node _ props _ => props end.

(** The boot arguments in the children of the root called "chosen". *)
Definition bootargs_values (children : list node) : list (list Z) :=
  concat (map (fun c => if bytes_eqb (node_name c) "chosen" then bootargs_props (node_props c) else []) children).

(** A path with a slash after the first. *)
Definition deep (p : list Z) : Prop := exists a b, p = 47 :: a ++ 47 :: b.

Lemma deep_not_chosen p : deep p -> bytes_eqb p "/chosen" = false.
Proof.
  intros (a & b & ->). apply bytes_eqb_neq. change (cstr "/chosen") with (47 :: cstr "chosen"). intros [= H].
  assert (47 ∈ cstr "chosen") as Hin by (rewrite <- H; apply elem_of_app; right; by left).
  revert Hin. change (~ 47 ∈ cstr "chosen"). by_computation.
Qed.

Lemma path_bootargs_deep c : forall p, deep p -> fits child_path p c -> path_bootargs p c = [].
Proof.
  induction c as [name props children IH] using node_ind'. intros p Hp [Hl Hf].
  cbn [path_bootargs]. rewrite (deep_not_chosen p Hp). cbn [app].
  destruct Hl as [->|Hl]; [done|]. induction IH as [|c children Hc Hcs IHc]; [done|].
  cbn [map foldr concat] in *. destruct Hf as [[_ Hf] Hfs]. rewrite (IHc Hfs), app_nil_r. apply Hc; [|done].
  destruct Hp as (a & b & ->). rewrite child_path_below by (try done; by destruct a).
  exists a, (b ++ 47 :: take (254 - length (47 :: a ++ 47 :: b)) (node_name c)). cbn [app]. by rewrite <- app_assoc.
Qed.

Lemma path_bootargs_child c :
  node_name c <> [] -> fits child_path (child_path "/" (node_name c)) c ->
  path_bootargs (child_path "/" (node_name c)) c =
    if bytes_eqb (node_name c) "chosen" then bootargs_props (node_props c) else [].
Proof.
  destruct c as [name props children]. cbn [node_name node_props]. intros Hn [Hl Hf]. cbn [path_bootargs].
  rewrite child_path_root in *.
  assert (bytes_eqb (47 :: take 254 name) "/chosen" = bytes_eqb name "chosen") as ->.
  { apply eq_true_iff_eq. rewrite !bytes_eqb_eq. split; [|by intros ->].
    change (cstr "/chosen") with (47 :: cstr "chosen"). intros [= H].
    destruct (decide (length name <= 254)%nat) as [Hle|Hgt]; [by rewrite take_ge in H|].
    apply (f_equal length) in H. rewrite length_take in H. change (length (cstr "chosen")) with 6%nat in H. lia. }
  assert (concat (map (fun c => path_bootargs (child_path (47 :: take 254 name) (node_name c)) c) children) = [])
    as ->; [|by rewrite app_nil_r].
  destruct Hl as [->|Hl]; [done|]. induction children as [|c children IH]; [done|].
  cbn [map foldr concat] in *. destruct Hf as [[_ Hf] Hfs]. rewrite (IH Hfs), app_nil_r.
  apply path_bootargs_deep; [|done]. rewrite child_path_below; [|by destruct name|done].
  eexists (take 254 name), _. done.
Qed.

Lemma path_bootargs_root name props children :
  Forall (fun c => node_name c <> []) children -> fits child_path "/" (Node name props children) ->
  path_bootargs "/" (Node name props children) = bootargs_values children.
Proof.
  intros Hn [_ Hf]. cbn [path_bootargs]. change (bytes_eqb "/" "/chosen") with false. cbn [app].
  unfold bootargs_values. f_equal. induction Hn as [|c children Hc Hcs IH]; [done|].
  cbn [map foldr] in *. destruct Hf as [[_ Hf] Hfs]. rewrite (IH Hfs). f_equal. by apply path_bootargs_child.
Qed.

(** The booter takes the first of them. *)
Lemma prop_value_head props : prop_value "bootargs" props = head (bootargs_props props).
Proof.
  unfold prop_value, bootargs_props. induction props as [|[n d] props IH]; [done|].
  cbn [list_find List.filter fst]. destruct (decide (n = cstr "bootargs")) as [->|Hn].
  - rewrite (proj2 (bytes_eqb_eq _ _)) by done. done.
  - rewrite (proj2 (bytes_eqb_neq _ _) Hn), <- IH.
    destruct (list_find _ props) as [[i p]|]; done.
Qed.

Lemma chosen_bootargs_head children : chosen_bootargs children = head (bootargs_values children).
Proof.
  unfold bootargs_values. induction children as [|[name props below] children IH]; [done|].
  cbn [chosen_bootargs map concat node_name node_props]. rewrite IH.
  destruct (bytes_eqb name "chosen"); [|done]. rewrite prop_value_head. by destruct (bootargs_props props).
Qed.

(** ** payload_fdt_ls.c *)

(** The paths it can have: none, the root, or one that starts with two slashes. *)
Definition ls_form (p : list Z) : Prop := p = [] \/ p = [47] \/ exists r, p = 47 :: 47 :: r.

Definition ls_inv (s : ls_state) : Prop :=
  (exists p, holds (l_path s) p /\ ls_form p) /\ have_chosen s = false /\ have_bootargs s = false.

Lemma in_chosen_false path p : holds path p -> ls_form p -> in_chosen path = false.
Proof.
  intros (_ & _ & rest & ->) Hf. unfold in_chosen. apply bytes_eqb_neq.
  change ("/chosen" ++ [0]) with [47; 99; 104; 111; 115; 101; 110; 0].
  destruct Hf as [->|[->|(r & ->)]]; cbn; congruence.
Qed.

(** The copy of a name, whatever is in memory. *)
Lemma append_any m : mem_ok m -> forall k path q rest name, length path = 256%nat -> path = q ++ rest ->
  (length q + k <= 255)%nat -> is_cstr q ->
  exists s rest', append m k path (length q) name = Ok ((q ++ s) ++ rest', length (q ++ s)) /\
    is_cstr (q ++ s) /\ (length (q ++ s) <= 255)%nat /\ length ((q ++ s) ++ rest') = 256%nat.
Proof.
  intros Hm. induction k as [|k IH]; intros path q rest name Hl -> Hle Hq; cbn [append].
  - exists [], rest. rewrite app_nil_r. split_and!; try done. lia.
  - destruct (load8 m name =? 0) eqn:E; zbool.
    { exists [], rest. rewrite app_nil_r. split_and!; try done. lia. }
    destruct (wr_cons _ q (load8 m name) rest Hl eq_refl ltac:(lia)) as (rest1 & -> & Hl1). cbn [mbind res_bind].
    pose proof (mem_ok_load8 m name Hm) as Hc.
    assert (is_cstr (q ++ [load8 m name])) as Hq1 by (apply Forall_app; split; [done|]; repeat constructor; mlia).
    replace (S (length q)) with (length (q ++ [load8 m name])) by (rewrite length_app; simpl; lia).
    destruct (IH _ _ rest1 (name + 1) Hl1 eq_refl) as (s & rest2 & -> & H1 & H2 & H3);
      [rewrite length_app; simpl; lia | done|].
    exists ([load8 m name] ++ s), rest2. rewrite (app_assoc q). by split_and!.
Qed.

Lemma last_slash r : Forall (fun c => c <> 47) r \/ exists a b, r = a ++ 47 :: b /\ Forall (fun c => c <> 47) b.
Proof.
  induction r as [|c r [IH|(a & b & -> & Hb)]]; [by left; constructor| |].
  - destruct (decide (c = 47)) as [->|Hc]; [right; by exists [], r | left; by constructor].
  - right. by exists (c :: a), b.
Qed.

(** Before the last slash of a path with two slashes in front. *)
Lemma ls_form_cut r : exists q s, 47 :: 47 :: r = q ++ 47 :: s /\ Forall (fun c => c <> 47) s /\ q <> [] /\ ls_form q.
Proof.
  destruct (last_slash r) as [Hr|(a & b & -> & Hb)].
  - exists [47], r. split_and!; try done. by right; left.
  - exists (47 :: 47 :: a), b. split_and!; try done. right. right. by exists a.
Qed.

Lemma ls_form_below p s : ls_form p -> p <> [] -> ls_form ((p ++ [47]) ++ s).
Proof.
  intros [->|[->|(r & ->)]] Hp; [done|..]; right; right; [by exists s|]. exists (r ++ [47] ++ s).
  cbn [app]. by rewrite <- !app_assoc.
Qed.

Lemma ls_begin_inv m name s : mem_ok m -> ls_inv s -> exists s', ls_begin m name s = Ok s' /\ ls_inv s'.
Proof.
  intros Hm ((p & Hh & Hf) & Hc & Hb). unfold ls_begin. rewrite (path_len_holds _ _ Hh). cbn [mbind res_bind].
  assert (forall path' p', holds path' p' -> ls_form p' -> exists s', (t ← path_text path';
      Ok (Ls path' (l_depth s + 1) (have_chosen s || in_chosen path') (have_bootargs s)
        (l_out s ++ "[NODE] " ++ t ++ "\r\n"))) = Ok s' /\ ls_inv s') as Hend.
  { intros path' p' Hh' Hf'. rewrite (path_text_holds _ _ Hh'). cbn [mbind res_bind]. eexists. split; [done|].
    split; [by exists p'|]. cbn [have_chosen have_bootargs]. by rewrite Hc, (in_chosen_false _ _ Hh' Hf'). }
  pose proof (holds_short _ _ Hh) as Hle. destruct p as [|c p].
  { rewrite decide_True by done. destruct (root_path_holds (l_path s) (proj1 Hh)) as (path' & -> & Hh').
    apply (Hend _ _ Hh'). by right; left. }
  rewrite decide_False by done. pose proof Hh as (Hl & Hcs & rest & Hp).
  destruct (decide (length (c :: p) < 255)%nat) as [Hlt|Hge]; cbn [mbind res_bind].
  - destruct (wr_cons _ (c :: p) 47 (0 :: rest) Hl Hp ltac:(lia)) as (rest1 & -> & Hl1). cbn [mbind res_bind].
    replace (S (length (c :: p))) with (length ((c :: p) ++ [47])) by (rewrite length_app; simpl; lia).
    destruct (append_any m Hm (255 - length ((c :: p) ++ [47])) _ _ rest1 name Hl1 eq_refl)
      as (s1 & rest2 & -> & H1 & H2 & H3).
    { rewrite length_app. cbn [length] in *. lia. }
    { apply Forall_app. split; [done|]. by repeat constructor. }
    cbn [mbind res_bind]. destruct (wr_end _ _ rest2 H3 H1 eq_refl H2) as (path' & -> & Hh').
    apply (Hend _ _ Hh'). by apply ls_form_below.
  - replace (255 - length (c :: p))%nat with 0%nat by lia. cbn [append mbind res_bind].
    destruct (wr_end (l_path s) (c :: p) (0 :: rest) Hl Hcs Hp Hle) as (path' & -> & Hh'). by apply (Hend _ _ Hh').
Qed.

Lemma ls_end_inv s : ls_inv s -> exists r, ls_end s = Ok r /\ ls_inv (match r with inl s' | inr s' => s' end).
Proof.
  intros ((p & Hh & Hf) & Hc & Hb). unfold ls_end.
  assert (forall path' p', holds path' p' -> ls_form p' -> exists r,
    Ok (if l_depth s - 1 <? 0 then inr (Ls path' (l_depth s - 1) (have_chosen s) (have_bootargs s) (l_out s))
        else inl (Ls path' (l_depth s - 1) (have_chosen s) (have_bootargs s) (l_out s))) = Ok r /\
    ls_inv (match r with inl s' | inr s' => s' end)) as Hend.
  { intros path' p' Hh' Hf'. eexists. split; [done|]. case_if; (split; [by exists p' | done]). }
  destruct (0 <? l_depth s); [|by apply (Hend _ p)].
  rewrite (path_len_holds _ _ Hh). cbn [mbind res_bind]. pose proof Hh as (Hl & Hcs & rest & Hp).
  destruct Hf as [->|[->|(r & ->)]].
  - cbn [length cut mbind res_bind]. rewrite decide_False by lia.
    destruct (wr_first (l_path s) Hl) as (path1 & -> & Hh1). cbn [mbind res_bind]. rewrite decide_True by done.
    destruct (root_path_holds path1 (proj1 Hh1)) as (path2 & -> & Hh2). apply (Hend _ _ Hh2). by right; left.
  - assert (cut (l_path s) (length [47]) = Ok 1%nat) as -> by (by rewrite Hp).
    cbn [mbind res_bind]. rewrite decide_False by lia.
    destruct (wr_end (l_path s) [47] (0 :: rest) Hl Hcs Hp) as (path1 & Hw & Hh1); [simpl; lia|].
    cbn [length] in Hw. rewrite Hw. cbn [mbind res_bind]. rewrite decide_False by lia. apply (Hend _ _ Hh1).
    by right; left.
  - destruct (ls_form_cut r) as (q & b & Hr & Hb' & Hq & Hf). rewrite Hr in Hh |- *.
    destruct (cut_holds _ q b Hh Hb' Hq) as (-> & path1 & Hw & Hh1). cbn [mbind res_bind].
    rewrite decide_True by (destruct q; simpl; [done | lia]).
    replace (S (length q) - 1)%nat with (length q) by lia. rewrite Hw. cbn [mbind res_bind].
    rewrite decide_False by (by destruct q). by apply (Hend _ _ Hh1).
Qed.

(** One step from a state of the invariant. *)
Lemma ls_step_inv m slack i s : mem_ok m -> ls_inv s ->
  ls_step m slack i s = NoFuel \/
  exists r, ls_step m slack i s = Ok r /\ ls_inv (match r with inl s' | inr s' => s' end).
Proof.
  intros Hm Hs. pose proof Hs as (Hp & Hc & Hb). destruct i as [name| |len pname pdata| | |tok]; cbn [ls_step].
  - right. destruct (ls_begin_inv m name s Hm Hs) as (s' & -> & Hs'). by eexists.
  - right. by apply ls_end_inv.
  - unfold ls_prop. destruct (mem_text m slack pname) as [t| |] eqn:E; [right | by left | exfalso].
    + eexists. split; [done|]. split; [exact Hp|]. cbn. by rewrite Hc, Hb.
    + revert pname E. clear. induction slack as [|n IH]; intros a; cbn [mem_text]; case_if; try done.
      destruct (mem_text m n (a + 1)) eqn:E; cbn [mbind res_bind]; try done. intros _. by apply (IH (a + 1)).
  - right. by eexists.
  - right. by eexists.
  - right. by eexists.
Qed.

Lemma ls_loop_inv m strings slack : mem_ok m -> forall fuel p s, ls_inv s ->
  loop (ls_step m slack) m strings slack fuel p s = NoFuel \/
  exists s', loop (ls_step m slack) m strings slack fuel p s = Ok s' /\ ls_inv s'.
Proof.
  intros Hm. induction fuel as [|fuel IH]; intros p s Hs; [by left|]. cbn [loop].
  destruct (next_item m strings slack p) as [[i p']| |] eqn:E; cbn [mbind res_bind]; [|by left|].
  - destruct (ls_step_inv m slack i s Hm Hs) as [->|([s'|s'] & -> & Hs')]; cbn [mbind res_bind];
      [by left | by apply IH | right; by eexists].
  - exfalso. revert E. unfold next_item. repeat case_if; try done. by destruct (skip_str _ _ _).
Qed.

(** Whatever is in memory, and whatever the array had, no access leaves the array of
    the path and a run that ends has found neither /chosen nor bootargs. *)
Lemma fdt_ls_summary m slack fuel dtb stack :
  mem_ok m -> length stack = 256%nat ->
  fdt_ls m slack fuel dtb stack <> Overrun /\
  forall text, fdt_ls m slack fuel dtb stack = Ok text ->
    text = bad_magic dtb \/ exists body, text = body ++ summary false false.
Proof.
  intros Hm Hstack.
  unfold fdt_ls. case_if; [split; [done|]; intros text [= <-]; by left|].
  destruct (wr_first stack Hstack) as (path & -> & Hp). cbn [mbind res_bind].
  match goal with |- context [Ls path 0 false false ?o] => generalize o; intros out end.
  destruct (ls_loop_inv m (dtb + word m (dtb + 12)) slack Hm fuel (dtb + word m (dtb + 8))
    (Ls path 0 false false out)) as [->|(s & -> & Hs)]; [|done|].
  - split; [exists []; split; [done | by left] | done].
  - destruct Hs as (_ & Hc & Hb). cbn [mbind res_bind]. rewrite Hc, Hb. split; [done|].
    intros text [= <-]. right. by eexists.
Qed.

(** What payload_fdt_ls.c prints. *)
Definition plain_line (p : list Z) (q : list Z * list Z) : list Z := prop_line q.1 (Z.of_nat (length q.2)).

Definition ls_lister : lister (list Z) := {|
  child := ls_child;
  on_node ps name a := a ++ node_line (hd [] ps);
  on_prop ps q a := a ++ plain_line (hd [] ps) q;
|}.

Definition ls_at (s : ls_state) (ps : list (list Z)) (a : list Z) : Prop :=
  ls_inv s /\ holds (l_path s) (hd [] ps) /\ l_depth s = Z.of_nat (length ps) /\
  chain ls_child ps /\ l_out s = a.

Lemma ls_begin_below m slack s p ps a name i :
  mem_ok m -> ls_at s (p :: ps) a -> (length p <= 254)%nat -> Forall (fun x => x <> 47) name ->
  item_view m (BeginNode name) i ->
  exists s', ls_step m slack i s = Ok (inl s') /\
    ls_at s' (ls_child p name :: p :: ps) (a ++ node_line (ls_child p name)).
Proof.
  intros Hm (Hinv & Hh & Hd & Hc & <-) Hle Hs (x & -> & Hx). cbn [hd] in *. cbn [ls_step].
  destruct (ls_begin_inv m x s Hm Hinv) as (s' & Hb & Hinv'). rewrite Hb. eexists. split; [done|].
  split; [done|]. revert Hb. unfold ls_begin. rewrite (path_len_holds _ _ Hh). cbn [mbind res_bind].
  destruct (chain_head p ps (or_introl Hc)) as [r Hr]. rewrite decide_False by (by subst).
  rewrite decide_True by lia. pose proof Hh as (Hl & Hcs & rest & Hp).
  destruct (wr_cons _ p 47 (0 :: rest) Hl Hp ltac:(lia)) as (rest1 & -> & Hl1). cbn [mbind res_bind].
  replace (S (length p)) with (length (p ++ [47])) by (rewrite length_app; simpl; lia).
  assert (is_cstr (p ++ [47])) as Hq by (apply Forall_app; split; [done | by repeat constructor]).
  destruct (append_at m name _ (p ++ [47]) rest1 x Hl1 eq_refl ltac:(rewrite length_app; simpl; lia) Hx)
    as (rest2 & -> & Hl2). rewrite <- app_assoc in Hl2 |- *. cbn [app] in Hl2 |- *. fold (ls_child p name) in *.
  cbn [mbind res_bind]. pose proof (cstr_at_is m name x Hx) as Hcn.
  assert (is_cstr (ls_child p name)) as Hcc.
  { apply Forall_take, Forall_app. split; [done|]. by constructor. }
  destruct (wr_end _ (ls_child p name) rest2 Hl2 Hcc eq_refl) as (path' & -> & Hh').
  { unfold ls_child. rewrite length_take. lia. }
  cbn [mbind res_bind]. rewrite (path_text_holds _ _ Hh'). cbn [mbind res_bind]. intros [= <-].
  split; [exact Hh'|]. split; [cbn [l_depth]; rewrite Hd; simpl; lia|]. split; [|done].
  split; [done|]. by exists name.
Qed.

Lemma ls_end_below s p q ps a : ls_at s (p :: q :: ps) a ->
  exists s', ls_end s = Ok (inl s') /\ ls_at s' (q :: ps) a.
Proof.
  intros (Hinv & Hh & Hd & (Hc & name & -> & Hcn & Hs & Hle) & <-). cbn [hd] in *.
  destruct (ls_end_inv s Hinv) as (r & He & Hr). revert He. unfold ls_end. rewrite Hd.
  rewrite (proj2 (Z.ltb_lt 0 _)), (path_len_holds _ _ Hh) by (simpl; lia). cbn [mbind res_bind].
  unfold ls_child in Hh |- *. rewrite take_slash in Hh |- * by done.
  destruct (chain_head q ps (or_introl Hc)) as [r0 Hr0].
  destruct (cut_holds _ q (take (254 - length q) name) Hh) as (-> & path' & Hw & Hh');
    [by apply Forall_take | by subst|].
  cbn [mbind res_bind]. rewrite decide_True by (subst; simpl; lia).
  replace (S (length q) - 1)%nat with (length q) by lia. rewrite Hw. cbn [mbind res_bind].
  rewrite decide_False by (by subst). cbn [mbind res_bind]. rewrite (proj2 (Z.ltb_ge _ 0)) by (simpl; lia).
  intros [= <-]. eexists. split; [done|]. split; [exact Hr|]. cbn [l_path l_depth l_out].
  split; [done|]. split; [simpl; lia | done].
Qed.

Lemma visit_props_ls ps props : forall a,
  visit_props ls_lister ps props a = a ++ concat (map (plain_line (hd [] ps)) props).
Proof.
  unfold visit_props. induction props as [|q props IH]; intros a; cbn [fold_left map concat].
  - by rewrite app_nil_r.
  - rewrite IH. cbn [on_prop ls_lister]. by rewrite <- app_assoc.
Qed.

Lemma visit_ls_children ps children :
  Forall (fun c => forall a, visit ls_lister ps c a =
    a ++ listing ls_child plain_line (ls_child (hd [] ps) (node_name c)) c) children -> forall a,
  fold_left (fun a c => visit ls_lister ps c a) children a =
    a ++ concat (map (fun c => listing ls_child plain_line (ls_child (hd [] ps) (node_name c)) c) children).
Proof.
  induction 1 as [|c children Hc Hcs IH]; intros a; cbn [fold_left map concat]; [by rewrite app_nil_r|].
  by rewrite IH, Hc, app_assoc.
Qed.

Lemma visit_ls c : forall ps a,
  visit ls_lister ps c a = a ++ listing ls_child plain_line (ls_child (hd [] ps) (node_name c)) c.
Proof.
  induction c as [name props children IH] using node_ind'. intros ps a.
  cbn [visit node_name listing child on_node ls_lister]. rewrite visit_props_ls. cbn [hd].
  rewrite visit_ls_children; [by rewrite <- !app_assoc|].
  eapply Forall_impl; [exact IH|]. intros c Hc b. by rewrite Hc.
Qed.

Lemma visit_root_ls t a : visit_root ls_lister t a = a ++ listing ls_child plain_line "/" t.
Proof.
  destruct t as [name props children]. cbn [visit_root listing on_node ls_lister]. rewrite visit_props_ls. cbn [hd].
  rewrite visit_ls_children; [by rewrite <- !app_assoc|]. apply Forall_true. intros c b. by rewrite visit_ls.
Qed.

(** On a blob the program ends, with the paths of all nodes that fit. *)
Lemma fdt_ls_lists m slack fuel dtb stack t :
  mem_ok m -> blob_at m dtb t -> (dtb + word m (dtb + 8)) mod 4 = 0 -> length stack = 256%nat ->
  fits ls_child "/" t -> Forall (short slack) (flatten t ++ [DoneTok]) ->
  (length (flatten t ++ [DoneTok]) <= fuel)%nat ->
  fdt_ls m slack fuel dtb stack =
    Ok ((("\r\n[FDT] OK. " ++ header_line m dtb) ++ listing ls_child plain_line "/" t) ++ summary false false).
Proof.
  intros Hm Hblob Hal Hst Hfit Hs Hf. destruct (blob_words m dtb t Hm Hblob) as [Hmg Hat].
  unfold fdt_ls. rewrite Hmg, Z.eqb_refl. cbn [negb]. cbv zeta.
  destruct (wr_first stack Hst) as (path & -> & Hp). cbn [mbind res_bind].
  match goal with |- context [Ls path 0 false false ?o] => generalize o; intros out end.
  rewrite <- visit_root_ls. destruct t as [name props children].
  assert (ls_inv (Ls path 0 false false out)) as H0 by (split; [exists []; split; [done | by left] | done]).
  destruct (loop_root (ls_step m slack) m (dtb + word m (dtb + 12)) slack Hm ls_lister ls_at)
    with (name := name) (x := dtb + word m (dtb + 8)) (props := props) (children := children)
    (fuel := fuel) (F := fun s a => ls_inv s /\ l_out s = a)
    (s0 := Ls path 0 false false out) (a := out) as (s & -> & (_ & Hch & Hba) & Ho); try done;
    [..|cbn [mbind res_bind]; by rewrite Hch, Hba, Ho].
  - intros s p ps a nm i. by apply ls_begin_below.
  - intros s p q ps a. cbn [ls_step]. apply ls_end_below.
  - intros s p ps a nm data i (Hinv & Hh & Hd & Hc & <-) (pname & pdata & -> & Hn & _) Hl. cbn [ls_step].
    unfold ls_prop. rewrite (mem_text_at m nm) by done. cbn [mbind res_bind]. eexists. split; [done|].
    split_and!; try done. destruct Hinv as (Hp' & Hc' & Hb'). split; [exact Hp'|]. cbn. by rewrite Hc', Hb'.
  - intros i (x & -> & Hx). cbn [ls_step]. destruct (ls_begin_inv m x _ Hm H0) as (s & Hb & Hinv). rewrite Hb.
    eexists. split; [done|]. revert Hb. unfold ls_begin. cbn [l_path].
    rewrite (path_len_holds _ _ Hp). cbn [mbind res_bind length]. rewrite decide_True by done.
    destruct (root_path_holds path (proj1 Hp)) as (path' & -> & Hh). cbn [mbind res_bind].
    rewrite (path_text_holds _ _ Hh). cbn [mbind res_bind]. intros [= <-]. by split_and!.
  - intros s b (Hinv & Hh & Hd & _ & <-). cbn [ls_step]. destruct (ls_end_inv s Hinv) as (r & He & Hr).
    assert (exists s1, r = inl s1 /\ l_out s1 = l_out s) as (s1 & -> & Ho).
    { revert He. unfold ls_end. rewrite Hd. cbn [length].
      match goal with |- context [mbind _ ?c] => destruct c as [x| |] end; try done.
      cbn [mbind res_bind]. change (Z.of_nat 1 - 1 <? 0) with false. intros [= <-]. by eexists. }
    exists s1, s1. by split_and!.
Qed.

(** C31: payload_fdt_ls.c puts a slash after the one of the root, so a child of
    the root is "//name" and its test for "/chosen" never holds.  Whatever is in
    memory, no access leaves the array of the path and a run that ends reports a
    bad magic number or that there is neither /chosen nor bootargs; on a blob that
    encodes a tree it does end, with the list of all nodes and properties and
    that report, also when the tree has both. *)
Theorem fdt_ls_misses_chosen (m : mem) (slack fuel : nat) (dtb : Z) (stack : list Z)
    (Hm : mem_ok m) (Hstack : length stack = 256%nat) :
  fdt_ls m slack fuel dtb stack <> Overrun /\
  (forall text, fdt_ls m slack fuel dtb stack = Ok text ->
     text = bad_magic dtb \/ exists body, text = body ++ summary false false) /\
  (forall t, blob_at m dtb t -> (dtb + word m (dtb + 8)) mod 4 = 0 ->
     fits ls_child "/" t -> Forall (short slack) (flatten t ++ [DoneTok]) ->
     (length (flatten t ++ [DoneTok]) <= fuel)%nat ->
     fdt_ls m slack fuel dtb stack =
       Ok ((("\r\n[FDT] OK. " ++ header_line m dtb) ++ listing ls_child plain_line "/" t) ++
           summary false false)).
Proof.
  destruct (fdt_ls_summary m slack fuel dtb stack Hm Hstack) as [Hin Hsum].
  split; [done|]. split; [done|]. intros t Hblob Hal Hfit Hs Hf. by apply fdt_ls_lists.
Qed.

(** C28: payload_fdt_ls_fixed.c.  On a blob that encodes a tree whose names have no
    slash and whose inner nodes have paths of at most 254 bytes, the program ends
    and has printed, in document order, the path of every node and every property
    with its length, the boot arguments of /chosen in full, and whether the root
    has a child "chosen" and whether such a child has boot arguments. *)
Theorem fdt_ls_fixed_lists (m : mem) (slack fuel : nat) (dtb : Z) (stack name : list Z)
    (props : list (list Z * list Z)) (children : list node)
    (Hm : mem_ok m) (Hblob : blob_at m dtb (Node name props children))
    (Halign : (dtb + word m (dtb + 8)) mod 4 = 0) (Hstack : length stack = 256%nat)
    (Hfits : fits child_path "/" (Node name props children))
    (Hnames : Forall (fun c => node_name c <> []) children)
    (Hshort : Forall (short slack) (flatten (Node name props children) ++ [DoneTok]))
    (Hfuel : (length (flatten (Node name props children) ++ [DoneTok]) <= fuel)%nat) :
  fdt_ls_fixed m slack fuel dtb stack =
    Ok ((("\r\n[FDT] OK. " ++ header_line m dtb) ++
         listing child_path fixed_line "/" (Node name props children)) ++
        summary (existsb (fun c => bytes_eqb (node_name c) "chosen") children)
          (nonempty (bootargs_values children))).
Proof.
  rewrite (fdt_ls_fixed_run m slack fuel dtb stack (Node name props children)) by done. cbv zeta.
  rewrite <- (path_bootargs_root name props children) by done.
  generalize ("\r\n[FDT] OK. " ++ header_line m dtb). intros out.
  cbn [visit_root listing path_bootargs]. rewrite visit_props_fixed. cbn [hd].
  rewrite (fold_left_report [cstr "/"]
    (fun c => listing child_path fixed_line (child_path "/" (node_name c)) c)
    (fun c => path_bootargs (child_path "/" (node_name c)) c) (fun c => bytes_eqb (node_name c) "chosen")).
  - cbn [on_node fixed_lister r_out r_chosen r_bootargs hd length orb].
    rewrite bool_decide_eq_false_2 by done. change (bytes_eqb "/" "/chosen") with false.
    cbn [orb andb app nonempty]. by rewrite <- !app_assoc.
  - apply Forall_true. intros c a. rewrite visit_fixed by (simpl; lia). by rewrite bool_decide_eq_true_2.
Qed.

(** C29: payload_fdt_auto.c agrees with the booter.  On such a blob in RAM it
    prints the values of bootargs in the children of the root called "chosen", each
    up to its NUL, and nothing else of the tree; the first of them is the one that
    [fdt_get_chosen_bootargs] gives the booter. *)
Theorem fdt_auto_prints_bootargs (m : mem) (slack fuel : nat) (dtb : Z) (stack name : list Z)
    (props : list (list Z * list Z)) (children : list node)
    (Hm : mem_ok m) (Hblob : blob_at m dtb (Node name props children))
    (Hram : 0x80000000 <= dtb < 0x90000000)
    (Halign : (dtb + word m (dtb + 8)) mod 4 = 0) (Hstack : length stack = 256%nat)
    (Hfits : fits child_path "/" (Node name props children))
    (Hnames : Forall (fun c => node_name c <> []) children)
    (Hshort : Forall (short slack) (flatten (Node name props children) ++ [DoneTok]))
    (Hfuel : (length (flatten (Node name props children) ++ [DoneTok]) <= fuel)%nat) :
  fdt_auto m slack fuel dtb stack =
    Ok (auto_header m dtb ++ auto_lines (bootargs_values children)) /\
  forall cap, 0 < cap -> fdt_get_chosen_bootargs m slack fuel dtb cap =
    Some (match head (bootargs_values children) with
          | Some v => bootargs_result cap v
          | None => (-4, [])
          end).
Proof.
  split.
  - rewrite (fdt_auto_run m slack fuel dtb stack (Node name props children)) by done.
    rewrite <- (path_bootargs_root name props children) by done. f_equal.
    cbn [visit_root path_bootargs on_node auto_lister]. rewrite visit_props_auto. cbn [hd].
    rewrite (fold_left_auto _ (fun c => path_bootargs (child_path "/" (node_name c)) c)).
    + by rewrite auto_lines_app, app_assoc.
    + apply Forall_true. intros c a. apply visit_auto.
  - intros cap Hcap. rewrite <- chosen_bootargs_head.
    apply (fdt_get_chosen_bootargs_tree m slack fuel dtb cap name props); try done.
    by apply short_names.
Qed.

(** ** Dumps *)

(** Reads a dump back: [h] is the number of characters between the end of a line and
    the first byte of the next, [skip] those still to be skipped. *)
Fixpoint undump (h skip : nat) (t : list Z) : list Z :=
  match t with
  | [] => []
  | c :: t' =>
      match skip with
      | S k => undump h k t'
      | O =>
          if c =? 13 then undump h h t'
          else match t' with
               | d :: _ :: t'' => 16 * default 0 (hex_digit c) + default 0 (hex_digit d) :: undump h 0 t''
               | _ => []
               end
      end
  end.

Lemma undump_skip h l : forall t, undump h (length l) (l ++ t) = undump h 0 t.
Proof. induction l as [|c l IH]; intros t; [done|]. apply IH. Qed.

Lemma HEX_visible d : 0 <= d < 16 -> HEX !!! Z.to_nat d <> 13.
Proof. intros Hd E. pose proof (hex_digit_HEX d Hd) as H. by rewrite E in H. Qed.

Lemma nibbles v : is_u8 v -> Z.land (Z.shiftr v 4) 0xF = v / 16 /\ Z.land v 0xF = v mod 16.
Proof.
  intros Hv. change 0xF with (Z.ones 4). rewrite !Z.land_ones, Z.shiftr_div_pow2 by lia.
  change (2 ^ 4) with 16. mlia.
Qed.

Lemma undump_byte h v t : is_u8 v -> undump h 0 (puthex8 v ++ [32] ++ t) = v :: undump h 0 t.
Proof.
  intros Hv. unfold puthex8. destruct (nibbles v Hv) as [-> ->].
  assert (0 <= v / 16 < 16 /\ 0 <= v mod 16 < 16) as [H1 H2] by mlia. cbn [app undump].
  rewrite (proj2 (Z.eqb_neq _ 13)) by (by apply HEX_visible). rewrite !hex_digit_HEX by done.
  cbn [from_option]. unfold id. f_equal. mlia.
Qed.

Lemma undump_cells h m t : mem_ok m -> forall n p,
  undump h 0 (cells m p n ++ t) = read_bytes m p n ++ undump h 0 t.
Proof.
  intros Hm. induction n as [|n IH]; intros p; [done|]. cbn [cells read_bytes].
  rewrite <- !app_assoc, undump_byte by auto with words. by rewrite IH.
Qed.

Lemma length_puthex_from n v : length (puthex_from n v) = n.
Proof. induction n as [|n IH]; [done|]. cbn. by rewrite IH. Qed.

Lemma undump_rows m p addr len : mem_ok m -> forall rows i, 0 <= i -> len <= i + 16 * Z.of_nat rows ->
  undump 13 12 (hexdump_from m p addr len i rows) = read_bytes m (p + i) (Z.to_nat (len - i)).
Proof.
  intros Hm. induction rows as [|rows IH]; intros i Hi Hlen; cbn [hexdump_from].
  { by replace (Z.to_nat (len - i)) with 0%nat by lia. }
  destruct (Z.ltb_spec i len) as [Hlt|Hge]; [|by replace (Z.to_nat (len - i)) with 0%nat by lia].
  assert (length (("  " ++ puthex32 (addr +! i)) ++ ": ") = 12%nat) as Hl.
  { rewrite !length_app. unfold puthex32. by rewrite length_puthex_from. }
  rewrite (app_assoc "  "), (app_assoc (cstr "  " ++ _)). 
  set (l := (_ ++ cstr ": ")) in *. replace (undump 13 12) with (undump 13 (length l)) by (by rewrite Hl).
  rewrite undump_skip.
  rewrite undump_cells by done. change (cstr "\r\n") with [13; 10]. cbn [app undump].
  change (13 =? 13) with true. cbv iota. rewrite IH by lia.
  replace (Z.to_nat (len - i)) with (Z.to_nat (Z.min 16 (len - i)) + Z.to_nat (len - (i + 16)))%nat by lia.
  rewrite read_bytes_app. f_equal.
  destruct (decide (len - i <= 16)); [by replace (Z.to_nat (len - (i + 16))) with 0%nat by lia|].
  rewrite Z2Nat.id, Z.min_l by lia. f_equal. lia.
Qed.

(** The dump of payload_md_dtb.c shows every byte: it can be read back. *)
Lemma hexdump_undump m p addr len : mem_ok m -> 0 <= len ->
  undump 13 12 (hexdump m p addr len) = read_bytes m p (Z.to_nat len).
Proof.
  intros Hm Hlen. unfold hexdump. rewrite undump_rows by (done || lia). by rewrite Z.add_0_r, Z.sub_0_r.
Qed.

(** ** Concrete runs *)

Module Example.

Definition dtb : Z := 0x8fe00000.

Definition stack : list Z := replicate 256 0xAA.

Lemma list_mem_ok base l : Forall is_u8 l -> mem_ok (mem_of_list base l).
Proof.
  intros Hl a. unfold mem_of_list. case_if; [|mlia].
  apply (Forall_lookup_total_1 _ _ _ Hl). zbool. lia.
Qed.

Lemma example_ok : mem_ok example_mem.
Proof. apply list_mem_ok. by_computation. Qed.

Lemma example_fits : fits child_path "/" example_tree.
Proof. apply fitsb_fits. vm_compute. reflexivity. Qed.

Lemma example_short : Forall (short 12) (flatten example_tree ++ [DoneTok]).
Proof. by_computation. Qed.

(** The tree has /chosen with boot arguments. *)
Lemma fdt_ls_misses_chosen_witness :
  fdt_ls example_mem 12 40 dtb stack =
  Ok (("\r\n[FDT] OK. totalsize=00000200 off_struct=00000028 off_strings=000000b8\r\n" ++
       "[NODE] /\r\n" ++
       "[NODE] //cpu@0\r\n" ++ "  - device_type [len=00000004]\r\n" ++
       "[NODE] //chosen\r\n" ++ "  - bootargs [len=0000000a]\r\n" ++
       "[NODE] //uart\r\n" ++ "  - compatible [len=00000009]\r\n" ++ "  - reg [len=00000004]\r\n" ++
       "\r\nResumen: /chosen=no  bootargs=no\r\n")).
Proof.
  rewrite (proj2 (proj2 (fdt_ls_misses_chosen example_mem 12 40 dtb stack example_ok eq_refl))
    example_tree example_blob_at).
  - vm_compute. reflexivity.
  - vm_compute. reflexivity.
  - apply fitsb_fits. vm_compute. reflexivity.
  - exact example_short.
  - vm_compute. lia.
Defined.

Lemma fdt_ls_fixed_lists_witness :
  fdt_ls_fixed example_mem 12 40 dtb stack =
  Ok (("\r\n[FDT] OK. totalsize=00000200 off_struct=00000028 off_strings=000000b8\r\n" ++
       "[NODE] /\r\n" ++
       "[NODE] /cpu@0\r\n" ++ "  - device_type [len=00000004]\r\n" ++
       "[NODE] /chosen\r\n" ++ "  - bootargs [len=0000000a]\r\n" ++
       "    bootargs=" ++ [34] ++ "smp-start" ++ [34] ++ "\r\n" ++
       "[NODE] /uart\r\n" ++ "  - compatible [len=00000009]\r\n" ++ "  - reg [len=00000004]\r\n" ++
       "\r\nResumen: /chosen=si  bootargs=si\r\n")).
Proof.
  rewrite (fdt_ls_fixed_lists example_mem 12 40 dtb stack [] [] _ example_ok example_blob_at eq_refl eq_refl
    example_fits).
  - vm_compute. reflexivity.
  - by_computation.
  - exact example_short.
  - vm_compute. lia.
Defined.

Lemma fdt_auto_prints_bootargs_witness :
  fdt_auto example_mem 12 40 dtb stack =
    Ok (auto_header example_mem dtb ++ "bootargs=" ++ [34] ++ "smp-start" ++ [34] ++ "\r\n").
Proof.
  refine (proj1 (fdt_auto_prints_bootargs example_mem 12 40 dtb stack [] [] _ example_ok example_blob_at _ eq_refl
    eq_refl example_fits _ example_short _)).
  - unfold dtb. lia.
  - by_computation.
  - vm_compute. lia.
Defined.

(** A node whose path fills the array, with a child. *)
Definition long_struct : list Z :=
  enc_begin [] ++ enc_begin (replicate 254 97) ++ enc_begin "b" ++ w32 2 ++ w32 2 ++ w32 2 ++ w32 9.

Definition long_mem : mem :=
  mem_of_list dtb (w32 FDT_MAGIC ++ w32 0x200 ++ w32 0x28 ++ w32 0x28 ++ replicate 24 0 ++ long_struct).

(** The slash and the end of the string are then written past the array; the
    first version of the program keeps to it. *)
Example fdt_ls_fixed_overruns :
  fdt_ls_fixed long_mem 300 40 dtb stack = Overrun /\ fdt_auto long_mem 300 40 dtb stack = Overrun /\
  exists text, fdt_ls long_mem 300 40 dtb stack = Ok text.
Proof. split_and!; [vm_compute; reflexivity..|]. eexists. vm_compute. reflexivity. Qed.

Example md_dtb_shows_header :
  undump 13 12 (hexdump example_mem dtb dtb 64) = take 64 example_blob.
Proof. rewrite hexdump_undump by (exact example_ok || lia). vm_compute. reflexivity. Qed.

End Example.

End FdtList.
