(* ===== verification/Diag.v ===== *)
(** The disk diagnosis payload (src/payload_virtio_diag.c): a block driver of its
    own that finds the disk, reads sector 2 and dumps the first bytes of it.

    The driver is verified on the device of VirtioDev.v.  Its statics and the
    primitives on registers and memory are those of the booter's driver
    (Virtio.v), from which it was made; what differs is the wait, which is for
    an index other than 0 and so is a wait for the first request only. *)

From S2P Require Import Prelude Print Fdt FdtList VirtioDev Virtio.

Module Diag.

Import Print VirtioDev Virtio.

Local Open Scope c_scope.

(** ** Printing *)

Definition puthex8 (v : Z) : list Z :=
  [HEX !!! Z.to_nat (Z.land (Z.shiftr v 4) 0xF); HEX !!! Z.to_nat (Z.land v 0xF)].

Definition puthex32 (v : Z) : list Z := puthex_from 8 v.

(** [char b[11]]: ten digits and the NUL. *)
Definition putu32 (v : Z) : list Z := if v =? 0 then [48] else dec_loop 10 v [].

(** [align_up(x, a)] *)
Definition align_up (x a : Z) : Z := (x +! a -! 1) &! not32 (a -! 1).

(** [hexdump(p, len)] from index [i] on. *)
Fixpoint hexdump (m : mem) (p i : Z) (len : nat) : list Z :=
  match len with
  | O => [13; 10]
  | S len =>
      (if i mod 16 =? 0 then [13; 10] ++ puthex32 i ++ ": " else []) ++
      puthex8 (load8 m (p + i)) ++ [32] ++ hexdump m p (i + 1) len
  end.

(** ** Driver *)

Section Driver.
Context {V : Type} `{VirtioMmio V}.

(** [L]: the addresses of [vr_raw], [g_hdr] and [g_status]. *)
Context (L : queue_layout).

Local Abbreviation M := (ST (drv V)).

Definition puts (t : list Z) : M unit := modifyS (fun s => Drv (d_dev s) (d_mem s) (d_out s ++ t)).

Definition dbg_regs (tag : list Z) : M unit :=
  puts tag;;
  puts " STATUS=";; x ← R VMMIO_STATUS; puts (putu32 x);;
  puts " ISR=";; x ← R VMMIO_INTERRUPT_STATUS; puts (putu32 x);;
  puts " QSEL=";; x ← R VMMIO_QUEUE_SEL; puts (putu32 x);;
  puts " QNUM=";; x ← R VMMIO_QUEUE_NUM; puts (putu32 x);;
  puts " QPFN=";; x ← R VMMIO_QUEUE_PFN; puts (putu32 x);;
  puts "\r\n".

(** The end of [virtio_blk_init], from the size of the queue on. *)
Definition init_queue (qmax : Z) : M Z :=
  (if qmax <? QNUM
   then puts "[virtio] WARNING: qmax < QNUM, ajustando\r\n";; W VMMIO_QUEUE_NUM qmax
   else W VMMIO_QUEUE_NUM QNUM);;
  let desc_sz := 16 * QNUM in
  let avail_off := desc_sz in
  let avail_sz := 2 * 2 + 2 * QNUM + 2 in
  let used_off := align_up (avail_off + avail_sz) 4096 in
  modmem (fun m => zero_loop m (QT L) (Z.to_nat 8192));;
  set_rings (QT L) (QT L + avail_off) (QT L + used_off);;
  W VMMIO_GUEST_PAGE_SIZE 4096;;
  W VMMIO_QUEUE_ALIGN 4096;;
  W VMMIO_QUEUE_PFN (Z.shiftr (QT L) 12);;
  avail ← getsS (fun s => v_avail (d_dev s));
  used ← getsS (fun s => v_used (d_dev s));
  modmem (fun m => store16 m avail 0);;
  modmem (fun m => store16 m (avail + 2) 0);;
  modmem (fun m => store16 m used 0);;
  modmem (fun m => store16 m (used + 2) 0);;
  st ← R VMMIO_STATUS;
  W VMMIO_STATUS (st |! VIRTIO_STATUS_DRIVER_OK);;
  puts "[virtio] desc@";; puts (puthex32 (QT L));;
  puts " avail@";; puts (puthex32 avail);;
  puts " used@";; puts (puthex32 used);;
  puts "\r\n";;
  dbg_regs "[virtio] after init";;
  mmio ← getsS (fun s => v_mmio (d_dev s));
  puts "[virtio] blk OK @ ";; puts (puthex32 mmio);; puts "\r\n";;
  mret 0.

Definition virtio_blk_init : M Z :=
  find_block;;
  mmio ← getsS (fun s => v_mmio (d_dev s));
  if mmio =? 0 then puts "[virtio] blk no encontrado\r\n";; mret (-1)
  else
    W VMMIO_STATUS 0;;
    W VMMIO_STATUS VIRTIO_STATUS_ACKNOWLEDGE;;
    st ← R VMMIO_STATUS;
    W VMMIO_STATUS (st |! VIRTIO_STATUS_DRIVER);;
    ver ← R VMMIO_VERSION;
    puts "[virtio] version=";; puts (putu32 ver);; puts "\r\n";;
    W VMMIO_DEVICE_FEATURES_SEL 0;;
    R VMMIO_DEVICE_FEATURES;;
    W VMMIO_DRIVER_FEATURES_SEL 0;;
    W VMMIO_DRIVER_FEATURES 0;;
    st ← R VMMIO_STATUS;
    W VMMIO_STATUS (st |! VIRTIO_STATUS_FEATURES_OK);;
    st ← R VMMIO_STATUS;
    if st &! VIRTIO_STATUS_FEATURES_OK =? 0
    then puts "[virtio] FEATURES_OK rechazado\r\n";; mret (-1)
    else
      W VMMIO_QUEUE_SEL 0;;
      qmax ← R VMMIO_QUEUE_NUM_MAX;
      puts "[virtio] qmax=";; puts (putu32 qmax);; puts "\r\n";;
      if qmax =? 0 then puts "[virtio] cola 0 no disponible\r\n";; mret (-1)
      else init_queue qmax.

(** [while(vq_used->idx == 0 && spins++ < maxspins) __sync_synchronize();] with
    [spins] turns left. *)
Fixpoint wait_used (spins : nat) (used : Z) : M unit :=
  match spins with
  | O => mret tt
  | S spins =>
      idx ← getmem (fun m => load16 m (used + 2));
      if idx =? 0 then barrier;; wait_used spins used else mret tt
  end.

(** A request, from its header to the end of the wait: the text of the source is
    that of the booter's driver up to the wait. *)
Definition request (lba count buf : Z) : M unit :=
  fill_header L lba;;
  clear_irq;;
  d ← getsS d_dev;
  fill_descriptors L (v_desc d) count buf;;
  publish (v_avail d);;
  notify;;
  wait_used maxspins (v_used d).

(** The end of [virtio_blk_read], after the wait. *)
Definition read_result : M Z :=
  used ← getsS (fun s => v_used (d_dev s));
  idx ← getmem (fun m => load16 m (used + 2));
  if idx =? 0 then
    puts "[virtio] timeout en read. used.idx=0 ISR=";;
    x ← R VMMIO_INTERRUPT_STATUS; puts (putu32 x);;
    puts " STATUS=";; x ← R VMMIO_STATUS; puts (putu32 x);;
    puts "\r\n";;
    dbg_regs "[virtio] after timeout";;
    mret (-1)
  else
    clear_irq;;
    st ← getmem (fun m => load8 m (QS L));
    if negb (st =? 0) then
      puts "[virtio] status de blk != 0: ";; puts (putu32 st);; puts "\r\n";; mret (-1)
    else
      idx ← getmem (fun m => load16 m (used + 2));
      puts "[virtio] read OK. used.idx=";; puts (putu32 idx);; puts "\r\n";; mret 0.

Definition virtio_blk_read (lba count buf : Z) : M Z :=
  if count =? 0 then mret 0 else request lba count buf;; read_result.

(** [payload_entry()] up to the endless loop it ends in; [sec] is the address of
    the buffer on the stack. *)
Definition payload_entry (sec : Z) : M unit :=
  puts "\r\n[virtio-diag] inicio\r\n";;
  rc ← virtio_blk_init;
  if negb (rc =? 0) then puts "[virtio-diag] init FAIL\r\n"
  else
    puts "[virtio-diag] leyendo LBA2...\r\n";;
    rc ← virtio_blk_read 2 1 sec;
    if negb (rc =? 0) then puts "[virtio-diag] read LBA2 FAIL\r\n"
    else
      puts "[virtio-diag] read LBA2 OK. Dump primeros 64 bytes:\r\n";;
      dump ← getmem (fun m => hexdump m sec 0 64);
      puts dump;;
      puts "[virtio-diag] fin, loop\r\n".

End Driver.

(** ** Correctness *)

Section Spec.
Context {V : Type} {HV : VirtioMmio V} {HD : VirtioBlkSpec V} (L : queue_layout) (HL : layout_ok L).

Local Abbreviation M := (ST (drv V)).

(** With a queue of 8 entries or more the queue is set up as by the booter. *)
Lemma init_queue_same qmax : QNUM <= qmax -> init_queue L qmax = Virtio.init_queue (V:=V) L qmax.
Proof.
  intros Hq. unfold init_queue, Virtio.init_queue, dbg_regs, Virtio.dbg_regs, puthex32, v_puthex32,
    putu32, v_putu32, align_up, align_up32, puts, v_puts.
  rewrite (proj2 (Z.ltb_ge qmax QNUM)) by exact Hq. reflexivity.
Qed.

Lemma yields_diag_puts {B} t (k : unit -> M B) s Q :
  (forall o, o = d_out s ++ t -> yields (k tt) (Drv (d_dev s) (d_mem s) o) Q) -> yields (puts t ≫= k) s Q.
Proof. intros Hk. apply yields_modify. by apply Hk. Qed.

Ltac dview := cbn [set_v set_dmem d_dev d_mem v_dev v_mmio v_desc v_avail v_used].

(** Goes over prints and reads. *)
Ltac dstep :=
  lazymatch goal with
  | |- yields (mbind _ (puts _)) _ _ => apply yields_diag_puts; intros ? _
  | |- yields (mbind _ (R _)) _ _ => apply yields_R
  | |- yields (mbind _ (getmem _)) _ _ => apply yields_gets
  | |- yields (mbind _ (getsS _)) _ _ => apply yields_gets
  | |- yields (mbind _ (mbind _ _)) _ _ => apply yields_bind
  | |- yields (mret _) _ _ => apply yields_ret
  end; dview.

(** A register write on a configuration that is known. *)
Ltac dwr Hold v Hv :=
  apply yields_W; [done|]; dview; rewrite Hold; intros v Hv;
  lazymatch type of Hv with _ = ?c => let c' := eval cbv -[QT Z.shiftr delay] in c in change c with c' in Hv end;
  clear Hold.

Lemma diag_init_ready d m t :
  QNUM <= dev_num_max -> mem_ok m ->
  yields (virtio_blk_init L) (Drv d m t) (fun rc s' =>
    rc = 0 /\ ready_at L 0 (d_dev s') (d_mem s') /\ mem_ok (d_mem s') /\
    frame m (d_mem s') (QT L) 8192).
Proof.
  intros Hnum Hm. assert (0 < dev_num_max) as Hpos by (unfold QNUM in Hnum; lia).
  unfold virtio_blk_init, find_block. apply yields_modify. dview.
  rewrite (dev_first (v_dev d)). dstep.
  pose proof (dev_base_pos (v_dev d)). rewrite (proj2 (Z.eqb_neq dev_base 0)) by lia.
  apply yields_W; [done|]. intros v1 H1. cbn [d_dev v_dev] in H1. dview.
  assert (conf v1 = reset_config) as H1' by (rewrite H1; by destruct (conf (v_dev d))). clear H1.
  dwr H1' v2 H2. dstep. rewrite read_status, H2. dwr H2 v3 H3. do 4 dstep.
  dwr H3 v4 H4. dstep. dwr H4 v5 H5. dwr H5 v6 H6. dstep. rewrite read_status, H6. dwr H6 v7 H7.
  dstep. rewrite read_status, H7. cbn [q_status].
  change (_ &! VIRTIO_STATUS_FEATURES_OK =? 0) with false. dwr H7 v8 H8. dstep.
  rewrite read_num_max. do 3 dstep. rewrite (proj2 (Z.eqb_neq dev_num_max 0)) by lia.
  rewrite init_queue_same by done.
  eapply yields_mono; [by apply (init_queue_ready L HL _ _ v8)|].
  intros rc s' (-> & Hr & Hok & Hf & _). rewrite Z.min_r in Hr by done. by split_and!.
Qed.

(** The wait ends when the device has served the first request. *)
Lemma wait_done d0 lba len buf m1 :
  mem_ok m1 -> prepared L 0 lba len buf m1 -> load16 m1 (QT L + 4098) = u16 0 ->
  region buf len -> 0 < len -> lba + len / 512 <= capacity ->
  disjoint_reg buf len (QT L) 8192 -> disjoint_reg buf len (QS L) 1 ->
  forall spins k (s : drv V), (k < spins)%nat -> underway L d0 0 lba len buf m1 k s ->
  yields (wait_used spins (QT L + 4096)) s (fun _ s' => done L d0 0 lba len buf m1 s').
Proof.
  intros Hm1 Hp Hidx Hbuf Hlen Hcap HbT HbS.
  induction spins as [|spins IH]; intros k s Hk Hu; [lia|]. cbn [wait_used]. apply yields_gets.
  replace (QT L + 4096 + 2) with (QT L + 4098) by lia.
  destruct Hu as [(Hptr & Hmem & Hs) | Hd].
  - rewrite Hmem, Hidx. change (u16 0 =? 0) with true. cbv iota. apply yields_bind.
    eapply yields_mono; [apply (barrier_underway L HL d0 0 lba len buf m1 Hm1 Hp Hbuf Hlen Hcap HbT HbS k);
      left; by split_and!|].
    intros [] s' Hs'. destruct k as [|k]; [|apply (IH k); [lia | done]].
    destruct spins as [|spins]; [done|]. apply (IH 0%nat); [lia | by right].
  - rewrite (done_idx L d0 0 lba len buf m1 s Hd). exact Hd.
Qed.

(** The request in memory, before the device is told. *)
Lemma yields_request lba count buf n d m t Q :
  ready_at L n d m -> mem_ok m -> sound_request L lba count buf ->
  (forall v, serving L n None (conf v) ->
     let m1 := publish_mem L (u16 n) (request_mem L lba count buf m) in
     mem_ok m1 -> prepared L n lba (512 * count) buf m1 -> load16 m1 (QT L + 4098) = u16 n ->
     (forall a, ~ private L a -> m1 a = m a) ->
     yields (notify;; wait_used maxspins (QT L + 4096))
       (Drv (Vdev v (v_mmio d) (v_desc d) (v_avail d) (v_used d)) m1 t) Q) ->
  yields (request L lba count buf) (Drv d m t) Q.
Proof.
  intros (Hmm & Hde & Hav & Hus & Hs & Hai & Hui) Hok (Hlba & Hcnt & Hcap & Hlen & Hbuf & Hpriv) Hk.
  pose proof capacity_u32 as Hcu. pose proof Hbuf as (? & ? & ?).
  destruct (request_prepared L HL lba count buf n m ltac:(lia) ltac:(mlia) ltac:(mlia)) as (Hp & Hidx & Hfr).
  assert (mem_ok (publish_mem L (u16 n) (request_mem L lba count buf m))) as Hok1.
  { unfold publish_mem, request_mem, descriptor_mem, header_mem.
    repeat (apply mem_ok_store16 || apply mem_ok_store32 || apply mem_ok_store64 || apply mem_ok_store8). done. }
  unfold request. apply yields_fill_header. dview. apply (yields_clear_irq L QNUM n None); [exact Hmm | exact Hs|].
  intros v1 Hs1. dview. dstep. rewrite Hus, Hde, Hav.
  apply (yields_fill_descriptors L lba _ _ _ _ m); [done|].
  apply (yields_publish L QNUM n); [exact Hs1 | dview; rewrite request_rings by (done || lia); exact Hai|].
  intros v2 Hs2. dview. rewrite Hui in Hidx.
  exact (Hk v2 Hs2 Hok1 Hp Hidx Hfr).
Qed.

(** The first request is served. *)
Lemma first_request lba count buf d m t :
  ready_at L 0 d m -> mem_ok m -> sound_request L lba count buf ->
  yields (request L lba count buf) (Drv d m t) (fun _ s' =>
    transferred L 0 lba count buf m (d_dev s') (d_mem s')).
Proof.
  intros Hr Hok Hreq. apply (yields_request lba count buf 0 d m t _ Hr Hok Hreq).
  intros v Hs m1 Hok1 Hp Hidx Hfr. pose proof Hr as (Hmm & Hde & Hav & Hus & _).
  destruct Hreq as (Hlba & Hcnt & Hcap & Hlen & Hbuf & Hpriv).
  destruct (not_private_disjoint L HL buf (512 * count) Hbuf ltac:(lia) Hpriv) as [HbT HbS].
  assert (lba + 512 * count / 512 <= capacity) as Hcap' by (rewrite Z.mul_comm, Z.div_mul by lia; done).
  apply (yields_notify L HL d 0 lba (512 * count) buf m1);
    [exact Hmm | exact Hs | by split_and! | reflexivity | done | done | done | lia | done | done | done|].
  intros s3 Hu. eapply yields_mono.
  { apply (wait_done d lba (512 * count) buf m1 Hok1 Hp Hidx Hbuf) with (k := Z.to_nat 99999999);
      [lia | done | done | done | unfold maxspins; lia | done]. }
  intros [] s4 ((P1 & P2 & P3 & P4) & Hs4 & (Hi4 & Hst & Hdata & Hrest) & Hok4).
  split; [|split; [done|split; [done|split]]].
  - unfold ready_at, ready_num. rewrite P1, P2, P3, P4. split_and!; try done.
    destruct Hp as (Hi1 & _). rewrite <- Hi1.
    destruct HL as [(? & ? & ?) _ _ _ _ _ HTS _]. apply load16_ext; [unfold region; lia|].
    intros x Hx. apply Hrest; unfold disjoint_reg, inside in *; lia.
  - done.
  - intros a Ha1 Ha2. rewrite Hrest by (try done; unfold private, inside in *; lia). by apply Hfr.
Qed.

Lemma first_read lba count buf d m t :
  ready_at L 0 d m -> mem_ok m -> sound_request L lba count buf ->
  yields (virtio_blk_read L lba count buf) (Drv d m t) (fun rc s' =>
    rc = 0 /\ transferred L 0 lba count buf m (d_dev s') (d_mem s')).
Proof.
  intros Hr Hok Hreq. pose proof Hreq as (_ & Hcnt & _). unfold virtio_blk_read.
  rewrite (proj2 (Z.eqb_neq count 0)) by lia. apply yields_bind.
  eapply yields_mono; [by apply first_request|]. intros [] s4 (Hr4 & Hok4 & Hst & Hrest).
  pose proof Hr4 as (_ & _ & _ & Hus4 & _ & _ & Hui4). unfold read_result. do 2 dstep.
  rewrite Hus4. replace (QT L + 4096 + 2) with (QT L + 4098) by lia. rewrite Hui4.
  change (u16 (0 + 1) =? 0) with false. cbv iota.
  apply (yields_clear_irq_ready L 1); [exact Hr4|]. intros s5 Hr5 Hm5.
  dstep. rewrite Hm5, Hst. cbn [negb Z.eqb]. do 5 dstep. rewrite Hm5. split; [done|]. unfold transferred. destruct Hrest. by split_and!.
Qed.

(** ** The dump *)

Lemma puthex8_same v : puthex8 v = FdtList.puthex8 v.
Proof. reflexivity. Qed.

(** The head of a line is skipped. *)
Lemma undump_head h l t : h = S (length l) -> FdtList.undump h 0 (13 :: 10 :: l ++ t) = FdtList.undump h 0 t.
Proof.
  intros ->. cbn [FdtList.undump]. change (13 =? 13) with true. cbv iota. apply FdtList.undump_skip.
Qed.

Lemma undump_hexdump m p : mem_ok m -> forall len i, 0 <= i ->
  FdtList.undump 11 0 (hexdump m p i len) = read_bytes m (p + i) len.
Proof.
  intros Hm. generalize (eq_refl : 11%nat = S (length (puthex32 0 ++ ": "))).
  generalize 11%nat. intros h Hh. induction len as [|len IH]; intros i Hi; cbn [hexdump read_bytes].
  { rewrite Hh. reflexivity. }
  assert (h = S (length (puthex32 i ++ ": "))) as Hi'.
  { rewrite Hh, !length_app. unfold puthex32. by rewrite !FdtList.length_puthex_from. }
  assert (FdtList.undump h 0 (puthex8 (load8 m (p + i)) ++ [32] ++ hexdump m p (i + 1) len) =
    load8 m (p + i) :: read_bytes m (p + i + 1) len) as Hrow.
  { rewrite puthex8_same, FdtList.undump_byte by auto with words. rewrite IH by lia. do 2 f_equal. lia. }
  case_if; [|exact Hrow]. rewrite <- app_assoc. cbn [app]. by rewrite undump_head.
Qed.

(** C30: payload_virtio_diag.c.  On every machine with a block device that follows
    the specification and whose queue has at least 8 entries, the program gets to
    its last line and has printed a dump from which the first 64 bytes of
    sector 2 of the disk can be read back. *)
Theorem diag_dumps_sector (d : vdev V) (m : mem) (t : list Z) (sec : Z)
    (Hnum : QNUM <= dev_num_max) (Hok : mem_ok m) (Hsec : sound_request L 2 1 sec) :
  yields (payload_entry L sec) (Drv d m t) (fun _ s' => exists before dump,
    d_out s' = (((before ++ "[virtio-diag] read LBA2 OK. Dump primeros 64 bytes:\r\n") ++ dump) ++
      "[virtio-diag] fin, loop\r\n") /\
    FdtList.undump 11 0 dump = disk_bytes disk 2 64).
Proof.
  unfold payload_entry. dstep. apply yields_bind.
  eapply yields_mono; [by apply diag_init_ready|]. intros rc [d1 m1 t1] (-> & Hr & Hok1 & _).
  cbn [negb Z.eqb]. dstep. apply yields_bind.
  eapply yields_mono; [by apply first_read|].
  intros rc [d2 m2 t2] (-> & _ & Hok2 & _ & Hdata & _). cbn [negb Z.eqb d_mem] in *.
  apply yields_diag_puts. intros t3 ->. apply yields_gets. dview. apply yields_diag_puts. intros t4 ->.
  cbn [d_dev d_mem d_out]. exists t2, (hexdump m2 sec 0 64). split; [done|].
  rewrite undump_hexdump by (done || lia). rewrite Z.add_0_r.
  pose proof (sectors_read L 2 1 sec m2 Hsec Hdata) as Hall.
  rewrite (Fdt.read_bytes_take m2 sec (Z.to_nat (512 * 1)) 64) by lia. rewrite Hall. reflexivity.
Qed.

(** ** Later reads *)

(** The status byte of a request that was not served. *)
Lemma request_status lba count buf aidx m :
  load8 (publish_mem L aidx (request_mem L lba count buf m)) (QS L) = 255.
Proof.
  pose proof HL as [(? & ? & ?) _ _ _ (? & ? & ?) _ HTS _].
  assert (is_u32 (QS L)) as HS by mlia. rewrite load8_region by done.
  destruct (publish_fields L HL aidx (request_mem L lba count buf m)) as (Fp & _).
  unfold disjoint_reg in HTS. rewrite Fp by (unfold inside; lia). unfold request_mem.
  do 3 (match goal with |- descriptor_mem ?t ?i ?b ?l ?f ?nx ?mm _ = _ =>
    destruct (descriptor_fields t i b l f nx mm ltac:(unfold region; lia)) as (F & _);
    rewrite F by (unfold inside; lia); clear F end).
  unfold header_mem. rewrite <- (u32_small (QS L)) at 2 by done. by rewrite store8_same.
Qed.

(** A device that takes its time has not served the request when [notify] ends. *)
Lemma notify_pending n (s : drv V) (Q : unit -> drv V -> Prop) :
  (forall v : V, (0 < delay v)%nat) -> attached s -> serving L n None (conf (v_dev (d_dev s))) ->
  (forall v' k, serving L n (Some k) (conf v') -> Q tt (set_v v' s)) -> yields notify s Q.
Proof.
  intros Hdel Ha Hs HQ. unfold notify. apply yields_W; [done|]. intros v1 H1.
  assert (serving L n None (conf v1)) as Hs1.
  { rewrite H1. destruct (conf (v_dev (d_dev s))). destruct Hs as (? & ? & ? & ? & ? & ? & ? & ? & ?). cbn in *. by subst. }
  apply yields_bind, (barrier_idle L QNUM n); [exact Hs1|]. intros v2 Hs2.
  apply yields_W; [done|]. intros v3 H3.
  assert (serving L n (Some (delay v2)) (conf v3)) as Hs3.
  { rewrite H3. dview. destruct (conf v2). destruct Hs2 as (? & ? & ? & ? & ? & ? & ? & ? & ?).
    cbn in *. by subst. }
  unfold barrier, modifyS, yields. dview. pose proof (tick_conf v3 (d_mem s)) as Ht.
  destruct (tick v3 (d_mem s)) as [v4 m4]. unfold tick_effect in Ht.
  pose proof Hs3 as (_ & _ & _ & _ & _ & _ & _ & Hkick & _). rewrite Hkick in Ht.
  pose proof (Hdel v2) as Hd2. destruct (delay v2) as [|k]; [lia|]. injection Ht as Hc ->.
  apply (serving_kick L n _ (Some k)) in Hs3. rewrite <- Hc in Hs3.
  specialize (HQ v4 k Hs3). by destruct s.
Qed.

(** A read after the first does not wait. *)
Lemma later_read n lba count buf d m t :
  (forall v : V, (0 < delay v)%nat) -> u16 n <> 0 ->
  ready_at L n d m -> mem_ok m -> sound_request L lba count buf ->
  yields (virtio_blk_read L lba count buf) (Drv d m t) (fun rc _ => rc = -1).
Proof.
  intros Hdel Hn Hr Hok Hreq. pose proof Hreq as (_ & Hcnt & _). unfold virtio_blk_read.
  rewrite (proj2 (Z.eqb_neq count 0)) by lia. apply yields_bind.
  apply (yields_request lba count buf n d m t _ Hr Hok Hreq). intros v Hs m1 Hok1 Hp Hidx _.
  pose proof Hr as (Hmm & Hde & Hav & Hus & _).
  assert (load8 m1 (QS L) = 255) as Hst by apply request_status. clearbody m1.
  apply yields_bind, (notify_pending n); [done | exact Hmm | exact Hs|]. intros v' k Hs'.
  replace maxspins with (S (Nat.pred maxspins)) by (unfold maxspins; lia). cbn [wait_used].
  apply yields_gets. dview. replace (QT L + 4096 + 2) with (QT L + 4098) by lia.
  rewrite Hidx, (proj2 (Z.eqb_neq _ 0)) by done. apply yields_ret. unfold read_result. do 2 dstep.
  rewrite Hus. replace (QT L + 4096 + 2) with (QT L + 4098) by lia.
  rewrite Hidx, (proj2 (Z.eqb_neq _ 0)) by done.
  apply (yields_clear_irq L QNUM n (Some k)); [exact Hmm | exact Hs'|]. intros v5 Hs5. dview.
  dstep. rewrite Hst. change (negb (255 =? 0)) with true. cbv iota. by do 4 dstep.
Qed.

(** The driver of payload_virtio_diag.c can only be used once.  The wait is for
    an index of the used ring other than 0, which is there from the first request
    on: on every machine whose device takes some time to answer, the first read
    succeeds and the second returns an error before the device has served it. *)
Theorem diag_second_read_fails (d : vdev V) (m : mem) (t : list Z) (lba1 count1 lba2 count2 buf : Z)
    (Hnum : QNUM <= dev_num_max) (Hdelay : forall v : V, (0 < delay v)%nat) (Hok : mem_ok m)
    (Hreq1 : sound_request L lba1 count1 buf) (Hreq2 : sound_request L lba2 count2 buf) :
  yields (rc0 ← virtio_blk_init L; rc1 ← virtio_blk_read L lba1 count1 buf;
          rc2 ← virtio_blk_read L lba2 count2 buf; mret (rc0, rc1, rc2))
    (Drv d m t) (fun r _ => r = (0, 0, -1)).
Proof.
  apply yields_bind. eapply yields_mono; [by apply diag_init_ready|].
  intros rc0 [d1 m1 t1] (-> & Hr1 & Hok1 & _). apply yields_bind.
  eapply yields_mono; [by apply first_read|]. intros rc1 [d2 m2 t2] (-> & Hr2 & Hok2 & _).
  apply yields_bind. eapply yields_mono; [by apply (later_read (0 + 1))|]. by intros rc2 s ->.
Qed.

(** Without a block device the program says so. *)
Lemma diag_no_device (d : vdev V) (m : mem) (t : list Z) (sec : Z) :
  List.find (is_block (v_dev d)) windows = None -> v_mmio d = 0 ->
  payload_entry L sec (Drv d m t) = (tt, Drv d m (t ++ "\r\n[virtio-diag] inicio\r\n" ++
    "[virtio] blk no encontrado\r\n" ++ "[virtio-diag] init FAIL\r\n")).
Proof.
  intros Hf H0. rewrite !app_assoc. cbv [payload_entry virtio_blk_init find_block mbind ST_bind puts modifyS getsS mret ST_ret].
  cbn [d_dev d_mem d_out v_dev]. rewrite Hf. cbn [d_dev d_mem d_out v_dev v_mmio]. rewrite H0. done.
Qed.

End Spec.

(** ** A concrete machine *)

Module Example.

Import Virtio.Example.

Lemma sec_ok lba : 0 <= lba < 64 ->
  @sound_request config (machine 8 contents) (machine_spec 8 contents contents_u8) layout lba 1 buf.
Proof.
  intros Hl. unfold sound_request, private, region, inside, buf. cbn. unfold sectors.
  split_and!; try lia.
Qed.

Lemma sec_two : 0 <= 2 < 64.
Proof. lia. Qed.

Lemma machine_delay (v : config) :
  (0 < @delay config (machine 8 contents) (machine_spec 8 contents contents_u8) v)%nat.
Proof. cbn. lia. Qed.

Lemma diag_dumps_sector_witness :
  let _ := machine 8 contents in
  yields (payload_entry layout buf) (Drv start (fun _ => 0) []) (fun _ s' => exists before dump,
    d_out s' = (((before ++ "[virtio-diag] read LBA2 OK. Dump primeros 64 bytes:\r\n") ++ dump) ++
      "[virtio-diag] fin, loop\r\n") /\
    FdtList.undump 11 0 dump = disk_bytes contents 2 64).
Proof.
  exact (@diag_dumps_sector config (machine 8 contents) (machine_spec 8 contents contents_u8) layout layout_is_ok
    start (fun _ => 0) [] buf (Z.le_refl 8) zero_mem_ok (sec_ok 2 sec_two)).
Defined.

Lemma diag_second_read_fails_example :
  let _ := machine 8 contents in
  yields (rc0 ← virtio_blk_init layout; rc1 ← virtio_blk_read layout 2 1 buf;
          rc2 ← virtio_blk_read layout 2 1 buf; mret (rc0, rc1, rc2))
    (Drv start (fun _ => 0) []) (fun r _ => r = (0, 0, -1)).
Proof.
  exact (@diag_second_read_fails config (machine 8 contents) (machine_spec 8 contents contents_u8) layout
    layout_is_ok start (fun _ => 0) [] 2 1 2 1 buf (Z.le_refl 8) machine_delay zero_mem_ok
    (sec_ok 2 sec_two) (sec_ok 2 sec_two)).
Defined.

End Example.

End Diag.
