(* ===== verification/VirtDtb.v ===== *)
(** The device tree that is linked into the firmware image (src/mfw/virt_dtb.c).

    The array is here byte for byte.  A checker decides whether a list of tokens
    is encoded in an array, wherever the array is in memory, so that the theorems
    of Fdt.v, BootArgs.v and FdtList.v apply to this blob: what the booter packs
    from it, and what the payloads print of it. *)

From S2P Require Import Prelude Print Fdt BootArgs FdtList.

Module VirtDtb.

Import Fdt BootArgs.

(** The bytes of the array, in decimal and in the lines of the source. *)
Definition virt_dtb : list Z :=
  [ 208; 13; 254; 237; 0; 0; 7; 50; 0; 0; 0; 56;
    0; 0; 6; 76; 0; 0; 0; 40; 0; 0; 0; 17;
    0; 0; 0; 16; 0; 0; 0; 0; 0; 0; 0; 230;
    0; 0; 6; 20; 0; 0; 0; 0; 0; 0; 0; 0;
    0; 0; 0; 0; 0; 0; 0; 0; 0; 0; 0; 1;
    0; 0; 0; 0; 0; 0; 0; 3; 0; 0; 0; 4;
    0; 0; 0; 29; 0; 0; 0; 2; 0; 0; 0; 3;
    0; 0; 0; 4; 0; 0; 0; 17; 0; 0; 0; 2;
    0; 0; 0; 3; 0; 0; 0; 22; 0; 0; 0; 6;
    117; 99; 98; 98; 97; 114; 44; 115; 112; 105; 107; 101;
    45; 98; 97; 114; 101; 45; 100; 101; 118; 0; 0; 0;
    0; 0; 0; 3; 0; 0; 0; 23; 0; 0; 0; 0;
    117; 99; 98; 98; 97; 114; 44; 115; 112; 105; 107; 101;
    45; 98; 97; 114; 101; 44; 113; 101; 109; 117; 0; 0;
    0; 0; 0; 1; 99; 104; 111; 115; 101; 110; 0; 0;
    0; 0; 0; 3; 0; 0; 0; 6; 0; 0; 0; 218;
    47; 104; 116; 105; 102; 0; 48; 48; 0; 0; 0; 2;
    0; 0; 0; 1; 109; 101; 109; 111; 114; 121; 64; 56;
    48; 48; 48; 48; 48; 48; 48; 0; 0; 0; 0; 3;
    0; 0; 0; 7; 0; 0; 0; 136; 109; 101; 109; 111;
    114; 121; 0; 0; 0; 0; 0; 3; 0; 0; 0; 16;
    0; 0; 0; 44; 0; 0; 0; 0; 128; 0; 0; 0;
    0; 0; 0; 0; 8; 0; 0; 0; 0; 0; 0; 2;
    0; 0; 0; 1; 99; 112; 117; 115; 0; 0; 0; 0;
    0; 0; 0; 3; 0; 0; 0; 4; 0; 0; 0; 29;
    0; 0; 0; 1; 0; 0; 0; 3; 0; 0; 0; 4;
    0; 0; 0; 17; 0; 0; 0; 0; 0; 0; 0; 3;
    0; 0; 0; 4; 0; 0; 0; 55; 0; 152; 150; 128;
    0; 0; 0; 1; 99; 112; 117; 64; 48; 0; 0; 0;
    0; 0; 0; 3; 0; 0; 0; 4; 0; 0; 0; 148;
    0; 0; 0; 1; 0; 0; 0; 3; 0; 0; 0; 4;
    0; 0; 0; 136; 99; 112; 117; 0; 0; 0; 0; 3;
    0; 0; 0; 4; 0; 0; 0; 44; 0; 0; 0; 0;
    0; 0; 0; 3; 0; 0; 0; 5; 0; 0; 0; 129;
    111; 107; 97; 121; 0; 0; 102; 0; 0; 0; 0; 3;
    0; 0; 0; 6; 0; 0; 0; 6; 114; 105; 115; 99;
    118; 0; 102; 0; 0; 0; 0; 3; 0; 0; 1; 69;
    0; 0; 0; 108; 105; 0; 109; 0; 97; 0; 102; 0;
    100; 0; 99; 0; 104; 0; 122; 105; 99; 54; 52; 98;
    0; 122; 105; 99; 98; 111; 109; 0; 122; 105; 99; 98;
    111; 112; 0; 122; 105; 99; 98; 111; 122; 0; 122; 105;
    99; 99; 97; 109; 111; 97; 0; 122; 105; 99; 99; 105;
    102; 0; 122; 105; 99; 99; 108; 115; 109; 0; 122; 105;
    99; 99; 114; 115; 101; 0; 122; 105; 99; 110; 116; 114;
    0; 122; 105; 99; 115; 114; 0; 122; 105; 102; 101; 110;
    99; 101; 105; 0; 122; 105; 104; 105; 110; 116; 110; 116;
    108; 0; 122; 105; 104; 105; 110; 116; 112; 97; 117; 115;
    101; 0; 122; 105; 104; 112; 109; 0; 122; 109; 109; 117;
    108; 0; 122; 97; 54; 52; 114; 115; 0; 122; 97; 97;
    109; 111; 0; 122; 97; 108; 114; 115; 99; 0; 122; 97;
    119; 114; 115; 0; 122; 102; 97; 0; 122; 99; 97; 0;
    122; 99; 102; 0; 122; 99; 100; 0; 122; 98; 97; 0;
    122; 98; 98; 0; 122; 98; 99; 0; 122; 98; 115; 0;
    115; 100; 116; 114; 105; 103; 0; 115; 104; 99; 111; 117;
    110; 116; 101; 114; 101; 110; 119; 0; 115; 104; 103; 97;
    116; 112; 97; 0; 115; 104; 116; 118; 97; 108; 97; 0;
    115; 104; 118; 115; 97; 116; 112; 97; 0; 115; 104; 118;
    115; 116; 118; 97; 108; 97; 0; 115; 104; 118; 115; 116;
    118; 101; 99; 100; 0; 115; 115; 99; 99; 112; 116; 114;
    0; 115; 115; 99; 111; 117; 110; 116; 101; 114; 101; 110;
    119; 0; 115; 115; 115; 116; 114; 105; 99; 116; 0; 115;
    115; 116; 99; 0; 115; 115; 116; 118; 97; 108; 97; 0;
    115; 115; 116; 118; 101; 99; 100; 0; 115; 115; 117; 54;
    52; 120; 108; 0; 115; 118; 97; 100; 117; 0; 115; 118;
    118; 112; 116; 99; 0; 54; 52; 120; 0; 0; 0; 3;
    0; 0; 0; 6; 0; 0; 0; 93; 114; 118; 51; 50;
    105; 0; 97; 102; 0; 0; 0; 3; 0; 0; 1; 67;
    0; 0; 0; 83; 114; 118; 51; 50; 105; 109; 97; 102;
    100; 99; 104; 95; 122; 105; 99; 54; 52; 98; 95; 122;
    105; 99; 98; 111; 109; 95; 122; 105; 99; 98; 111; 112;
    95; 122; 105; 99; 98; 111; 122; 95; 122; 105; 99; 99;
    97; 109; 111; 97; 95; 122; 105; 99; 99; 105; 102; 95;
    122; 105; 99; 99; 108; 115; 109; 95; 122; 105; 99; 99;
    114; 115; 101; 95; 122; 105; 99; 110; 116; 114; 95; 122;
    105; 99; 115; 114; 95; 122; 105; 102; 101; 110; 99; 101;
    105; 95; 122; 105; 104; 105; 110; 116; 110; 116; 108; 95;
    122; 105; 104; 105; 110; 116; 112; 97; 117; 115; 101; 95;
    122; 105; 104; 112; 109; 95; 122; 109; 109; 117; 108; 95;
    122; 97; 54; 52; 114; 115; 95; 122; 97; 97; 109; 111;
    95; 122; 97; 108; 114; 115; 99; 95; 122; 97; 119; 114;
    115; 95; 122; 102; 97; 95; 122; 99; 97; 95; 122; 99;
    102; 95; 122; 99; 100; 95; 122; 98; 97; 95; 122; 98;
    98; 95; 122; 98; 99; 95; 122; 98; 115; 95; 115; 100;
    116; 114; 105; 103; 95; 115; 104; 99; 111; 117; 110; 116;
    101; 114; 101; 110; 119; 95; 115; 104; 103; 97; 116; 112;
    97; 95; 115; 104; 116; 118; 97; 108; 97; 95; 115; 104;
    118; 115; 97; 116; 112; 97; 95; 115; 104; 118; 115; 116;
    118; 97; 108; 97; 95; 115; 104; 118; 115; 116; 118; 101;
    99; 100; 95; 115; 115; 99; 99; 112; 116; 114; 95; 115;
    115; 99; 111; 117; 110; 116; 101; 114; 101; 110; 119; 95;
    115; 115; 115; 116; 114; 105; 99; 116; 95; 115; 115; 116;
    99; 95; 115; 115; 116; 118; 97; 108; 97; 95; 115; 115;
    116; 118; 101; 99; 100; 95; 115; 115; 117; 54; 52; 120;
    108; 95; 115; 118; 97; 100; 117; 95; 115; 118; 118; 112;
    116; 99; 0; 0; 0; 0; 0; 3; 0; 0; 0; 11;
    0; 0; 0; 74; 114; 105; 115; 99; 118; 44; 115; 118;
    51; 50; 0; 115; 0; 0; 0; 1; 105; 110; 116; 101;
    114; 114; 117; 112; 116; 45; 99; 111; 110; 116; 114; 111;
    108; 108; 101; 114; 0; 0; 0; 0; 0; 0; 0; 3;
    0; 0; 0; 4; 0; 0; 0; 177; 0; 0; 0; 1;
    0; 0; 0; 3; 0; 0; 0; 0; 0; 0; 0; 156;
    0; 0; 0; 3; 0; 0; 0; 15; 0; 0; 0; 6;
    114; 105; 115; 99; 118; 44; 99; 112; 117; 45; 105; 110;
    116; 99; 0; 1; 0; 0; 0; 3; 0; 0; 0; 4;
    0; 0; 0; 148; 0; 0; 0; 2; 0; 0; 0; 2;
    0; 0; 0; 2; 0; 0; 0; 1; 99; 112; 117; 45;
    109; 97; 112; 0; 0; 0; 0; 1; 99; 108; 117; 115;
    116; 101; 114; 48; 0; 0; 0; 0; 0; 0; 0; 1;
    99; 111; 114; 101; 48; 0; 0; 0; 0; 0; 0; 3;
    0; 0; 0; 4; 0; 0; 0; 194; 0; 0; 0; 1;
    0; 0; 0; 2; 0; 0; 0; 2; 0; 0; 0; 2;
    0; 0; 0; 2; 0; 0; 0; 1; 115; 111; 99; 0;
    0; 0; 0; 3; 0; 0; 0; 4; 0; 0; 0; 29;
    0; 0; 0; 2; 0; 0; 0; 3; 0; 0; 0; 4;
    0; 0; 0; 17; 0; 0; 0; 2; 0; 0; 0; 3;
    0; 0; 0; 11; 0; 0; 0; 6; 115; 105; 109; 112;
    108; 101; 45; 98; 117; 115; 0; 102; 0; 0; 0; 3;
    0; 0; 0; 0; 0; 0; 0; 48; 0; 0; 0; 1;
    99; 108; 105; 110; 116; 64; 50; 48; 48; 48; 48; 48;
    48; 0; 0; 0; 0; 0; 0; 3; 0; 0; 0; 16;
    0; 0; 0; 198; 0; 0; 0; 2; 0; 0; 0; 3;
    0; 0; 0; 2; 0; 0; 0; 7; 0; 0; 0; 3;
    0; 0; 0; 16; 0; 0; 0; 44; 0; 0; 0; 0;
    2; 0; 0; 0; 0; 0; 0; 0; 0; 1; 0; 0;
    0; 0; 0; 3; 0; 0; 0; 27; 0; 0; 0; 6;
    115; 105; 102; 105; 118; 101; 44; 99; 108; 105; 110; 116;
    48; 0; 114; 105; 115; 99; 118; 44; 99; 108; 105; 110;
    116; 48; 0; 0; 0; 0; 0; 2; 0; 0; 0; 2;
    0; 0; 0; 1; 104; 116; 105; 102; 0; 0; 0; 0;
    0; 0; 0; 3; 0; 0; 0; 16; 0; 0; 0; 44;
    0; 0; 0; 0; 1; 0; 0; 0; 0; 0; 0; 0;
    0; 0; 16; 0; 0; 0; 0; 3; 0; 0; 0; 10;
    0; 0; 0; 6; 117; 99; 98; 44; 104; 116; 105; 102;
    48; 0; 97; 116; 0; 0; 0; 2; 0; 0; 0; 2;
    0; 0; 0; 9; 109; 111; 100; 101; 108; 0; 99; 111;
    109; 112; 97; 116; 105; 98; 108; 101; 0; 35; 115; 105;
    122; 101; 45; 99; 101; 108; 108; 115; 0; 35; 97; 100;
    100; 114; 101; 115; 115; 45; 99; 101; 108; 108; 115; 0;
    114; 101; 103; 0; 114; 97; 110; 103; 101; 115; 0; 116;
    105; 109; 101; 98; 97; 115; 101; 45; 102; 114; 101; 113;
    117; 101; 110; 99; 121; 0; 109; 109; 117; 45; 116; 121;
    112; 101; 0; 114; 105; 115; 99; 118; 44; 105; 115; 97;
    0; 114; 105; 115; 99; 118; 44; 105; 115; 97; 45; 98;
    97; 115; 101; 0; 114; 105; 115; 99; 118; 44; 105; 115;
    97; 45; 101; 120; 116; 101; 110; 115; 105; 111; 110; 115;
    0; 115; 116; 97; 116; 117; 115; 0; 100; 101; 118; 105;
    99; 101; 95; 116; 121; 112; 101; 0; 112; 104; 97; 110;
    100; 108; 101; 0; 105; 110; 116; 101; 114; 114; 117; 112;
    116; 45; 99; 111; 110; 116; 114; 111; 108; 108; 101; 114;
    0; 35; 105; 110; 116; 101; 114; 114; 117; 112; 116; 45;
    99; 101; 108; 108; 115; 0; 99; 112; 117; 0; 105; 110;
    116; 101; 114; 114; 117; 112; 116; 115; 45; 101; 120; 116;
    101; 110; 100; 101; 100; 0; 115; 116; 100; 111; 117; 116;
    45; 112; 97; 116; 104; 0 ].

Definition virt_dtb_len : Z := 1842.

(** ** Checking an encoding *)

(** [cstr_at] as a test. *)
Fixpoint cstr_check (m : mem) (a : Z) (l : list Z) : bool :=
  match l with
  | [] => load8 m a =? 0
  | c :: l => (load8 m a =? c) && (0 <? c) && (c <? 256) && cstr_check m (a + 1) l
  end.

(** Where the token at [p] ends. *)
Definition tok_end (p : Z) (t : tok) : Z :=
  match t with
  | BeginNode name => align4 (p + 4 + Z.of_nat (length name) + 1)
  | PropTok _ data => align4 (p + 12 + Z.of_nat (length data))
  | _ => p + 4
  end.

(** The token [t] is at offset [p] of [n] bytes at address 0, with its name. *)
Definition tok_check (m : mem) (n strs p : Z) (t : tok) : bool :=
  (0 <=? p) && (p + 4 <=? n) &&
  match t with
  | BeginNode name => (be32 m p =? FDT_BEGIN_NODE) && (p + 4 + Z.of_nat (length name) + 1 <=? n) &&
      cstr_check m (p + 4) name
  | EndNode => be32 m p =? FDT_END_NODE
  | PropTok name data =>
      (be32 m p =? FDT_PROP) && (p + 12 + Z.of_nat (length data) <=? n) &&
      (be32 m (p + 4) =? Z.of_nat (length data)) && (Z.of_nat (length data) <? 2147483648) &&
      (0 <=? strs + be32 m (p + 8)) && (strs + be32 m (p + 8) + Z.of_nat (length name) + 1 <=? n) &&
      cstr_check m (strs + be32 m (p + 8)) name &&
      bytes_eqb (read_bytes m (p + 12) (length data)) data
  | NopTok => be32 m p =? FDT_NOP
  | DoneTok => be32 m p =? FDT_END
  end.

Fixpoint toks_check (m : mem) (n strs p : Z) (ts : list tok) : bool :=
  match ts with
  | [] => true
  | t :: ts => tok_check m n strs p t && toks_check m n strs (tok_end p t) ts
  end.

(** The blob [blob] encodes the tree [t]. *)
Definition blob_check (blob : list Z) (t : node) : bool :=
  let m := mem_of_list 0 blob in
  let n := Z.of_nat (length blob) in
  (16 <=? n) && (be32 m 0 =? FDT_MAGIC) &&
  toks_check m n (be32 m 0xc) (be32 m 8) (flatten t ++ [DoneTok]).

Section Moved.
Context (m0 m : mem) (a n : Z).
Context (Hsame : same_bytes m a m0 0 n) (Halign : a mod 4 = 0).

Lemma moved_byte i : 0 <= i < n -> load8 m (a + i) = load8 m0 i.
Proof. intros Hi. by rewrite (Hsame i Hi). Qed.

Lemma moved_word i : 0 <= i -> i + 4 <= n -> be32 m (a + i) = be32 m0 i.
Proof. intros H1 H2. by rewrite (same_be32 m a m0 0 i n Hsame). Qed.

Lemma moved_cstr l : forall i, 0 <= i -> i + Z.of_nat (length l) + 1 <= n ->
  cstr_check m0 i l = true -> cstr_at m (a + i) l.
Proof.
  induction l as [|c l IH]; intros i Hi Hn Hc; cbn [cstr_check cstr_at length] in *; rewrite moved_byte by lia;
    zbool; [done|]. split; [done|]. split; [done|]. rewrite <- Z.add_assoc. apply IH; (done || lia).
Qed.

Lemma moved_bytes k i : 0 <= i -> i + Z.of_nat k <= n -> read_bytes m (a + i) k = read_bytes m0 i k.
Proof.
  revert i. induction k as [|k IH]; intros i Hi Hn; [done|]. cbn [read_bytes].
  rewrite moved_byte, <- Z.add_assoc, IH by lia. done.
Qed.

Lemma align4_moved p : align4 (a + p) = a + align4 p.
Proof. unfold align4. pose proof (Z.div_mod a 4). lia. Qed.

Lemma tok_check_at strs p t : tok_check m0 n strs p t = true -> tok_at m (a + strs) (a + p) t (a + tok_end p t).
Proof.
  intros H. unfold tok_check in H. apply andb_true_iff in H as [Hp H].
  apply andb_true_iff in Hp as [Hp0 Hp4]. zbool. destruct t as [name| |name data| |]; cbn [tok_at tok_end];
    rewrite moved_word by lia.
  - zbool. rewrite <- !Z.add_assoc, align4_moved. split; [done|]. split; [|done].
    apply moved_cstr; (done || lia).
  - zbool. split; [done | lia].
  - repeat (apply andb_true_iff in H as [H ?]). zbool. apply bytes_eqb_eq in H0.
    rewrite <- !Z.add_assoc, !moved_word, align4_moved by lia. split_and!; try done.
    + apply moved_cstr; (done || lia).
    + rewrite <- H0 at 2. apply moved_bytes; lia.
  - zbool. split; [done | lia].
  - zbool. split; [done | lia].
Qed.

Lemma toks_check_at strs ts : forall p, toks_check m0 n strs p ts = true -> toks_at m (a + strs) (a + p) ts.
Proof.
  induction ts as [|t ts IH]; intros p H; [constructor|]. apply andb_true_iff in H as [Ht Hts].
  econstructor; [by apply tok_check_at | by apply IH].
Qed.

End Moved.

(** The bytes of [blob] are at [a]. *)
Definition blob_in (m : mem) (a : Z) (blob : list Z) : Prop :=
  region a (Z.of_nat (length blob)) /\ read_bytes m a (length blob) = blob.

Lemma blob_in_same m a blob : blob_in m a blob -> same_bytes m a (mem_of_list 0 blob) 0 (Z.of_nat (length blob)).
Proof.
  intros [(? & ? & ?) Hr] i Hi. rewrite load8_region by mlia. unfold load8, mem_of_list.
  rewrite !u32_small by mlia. zcases. rewrite <- Hr at 1.
  replace (Z.to_nat (0 + i - 0)) with (Z.to_nat i) by lia. rewrite read_bytes_lookup by lia.
  rewrite Z2Nat.id by lia. by rewrite load8_region by mlia.
Qed.

(** What is checked holds wherever the array is. *)
Lemma blob_check_at m a blob t :
  blob_check blob t = true -> blob_in m a blob -> a mod 4 = 0 -> 0 < a -> blob_at m a t.
Proof.
  intros Hc Hin Hal Hpos. pose proof (blob_in_same m a blob Hin) as Hs. unfold blob_check in Hc. zbool.
  apply (toks_check_at _ m a _ Hs Hal) in H0.
  split; [lia|]. rewrite <- (Z.add_0_r a) at 1.
  rewrite !(moved_word _ m a _ Hs) by lia. split; [done | exact H0].
Qed.

(** ** The tree of the array *)

(** A list of strings, each with its NUL. *)
Definition strings (l : list (list Z)) : list Z := concat (map (fun s => s ++ [0]) l).

Definition virt_tree : node :=
  Node []
    [ (cstr "#address-cells", w32 0x2);
       (cstr "#size-cells", w32 0x2);
       (cstr "compatible", "ucbbar,spike-bare-dev" ++ [0]);
       (cstr "model", "ucbbar,spike-bare,qemu" ++ [0]) ]
    [ Node "chosen"
        [ (cstr "stdout-path", "/htif" ++ [0]) ]
        [];
      Node "memory@80000000"
        [ (cstr "device_type", "memory" ++ [0]);
           (cstr "reg", w32 0x0 ++ w32 0x80000000 ++ w32 0x0 ++ w32 0x8000000) ]
        [];
      Node "cpus"
        [ (cstr "#address-cells", w32 0x1);
           (cstr "#size-cells", w32 0x0);
           (cstr "timebase-frequency", w32 0x989680) ]
        [ Node "cpu@0"
            [ (cstr "phandle", w32 0x1);
               (cstr "device_type", "cpu" ++ [0]);
               (cstr "reg", w32 0x0);
               (cstr "status", "okay" ++ [0]);
               (cstr "compatible", "riscv" ++ [0]);
               (cstr "riscv,isa-extensions", strings [cstr "i"; cstr "m"; cstr "a"; cstr "f"; cstr "d"; cstr "c";
                   cstr "h"; cstr "zic64b"; cstr "zicbom"; cstr "zicbop"; cstr "zicboz"; cstr "ziccamoa"; cstr
                   "ziccif"; cstr "zicclsm"; cstr "ziccrse"; cstr "zicntr"; cstr "zicsr"; cstr "zifencei"; cstr
                   "zihintntl"; cstr "zihintpause"; cstr "zihpm"; cstr "zmmul"; cstr "za64rs"; cstr "zaamo"; cstr
                   "zalrsc"; cstr "zawrs"; cstr "zfa"; cstr "zca"; cstr "zcf"; cstr "zcd"; cstr "zba"; cstr "zbb";
                   cstr "zbc"; cstr "zbs"; cstr "sdtrig"; cstr "shcounterenw"; cstr "shgatpa"; cstr "shtvala"; cstr
                   "shvsatpa"; cstr "shvstvala"; cstr "shvstvecd"; cstr "ssccptr"; cstr "sscounterenw"; cstr
                   "ssstrict"; cstr "sstc"; cstr "sstvala"; cstr "sstvecd"; cstr "ssu64xl"; cstr "svadu"; cstr
                   "svvptc"]);
               (cstr "riscv,isa-base", "rv32i" ++ [0]);
               (cstr "riscv,isa",
                   "rv32imafdch_zic64b_zicbom_zicbop_zicboz_ziccamoa_ziccif_zicclsm_ziccrse_zicntr_zicsr_zifencei_zihintntl_zihintpause_zihpm_zmmul_za64rs_zaamo_zalrsc_zawrs_zfa_zca_zcf_zcd_zba_zbb_zbc_zbs_sdtrig_shcounterenw_shgatpa_shtvala_shvsatpa_shvstvala_shvstvecd_ssccptr_sscounterenw_ssstrict_sstc_sstvala_sstvecd_ssu64xl_svadu_svvptc"
                   ++ [0]);
               (cstr "mmu-type", "riscv,sv32" ++ [0]) ]
            [ Node "interrupt-controller"
                [ (cstr "#interrupt-cells", w32 0x1);
                   (cstr "interrupt-controller", []);
                   (cstr "compatible", "riscv,cpu-intc" ++ [0]);
                   (cstr "phandle", w32 0x2) ]
                [] ];
          Node "cpu-map"
            []
            [ Node "cluster0"
                []
                [ Node "core0"
                    [ (cstr "cpu", w32 0x1) ]
                    [] ] ] ];
      Node "soc"
        [ (cstr "#address-cells", w32 0x2);
           (cstr "#size-cells", w32 0x2);
           (cstr "compatible", "simple-bus" ++ [0]);
           (cstr "ranges", []) ]
        [ Node "clint@2000000"
            [ (cstr "interrupts-extended", w32 0x2 ++ w32 0x3 ++ w32 0x2 ++ w32 0x7);
               (cstr "reg", w32 0x0 ++ w32 0x2000000 ++ w32 0x0 ++ w32 0x10000);
               (cstr "compatible", "sifive,clint0" ++ [0] ++ "riscv,clint0" ++ [0]) ]
            [] ];
      Node "htif"
        [ (cstr "reg", w32 0x0 ++ w32 0x1000000 ++ w32 0x0 ++ w32 0x1000);
           (cstr "compatible", "ucb,htif0" ++ [0]) ]
        [] ].

Lemma virt_dtb_checked : blob_check virt_dtb virt_tree = true.
Proof. vm_compute. reflexivity. Qed.

(** The root is that of the machine spike. *)
Definition root_compatible (t : node) : option (list Z) :=
  match t with Node _ props _ => first_str <$> prop_value "compatible" props end.

(** The device tree in the firmware.  Wherever the array is in memory (at a
    word boundary) it encodes a tree, that of QEMU's machine spike.  It has no
    node for the UART or the PLIC, and the [reg] of the timer comes before its
    [compatible], so that [caribe_pack_boot_args] takes nothing from it but the
    number of processors: every base address is the default for the machine virt,
    and there are no boot arguments. *)
Theorem virt_dtb_packs_defaults (m : mem) (a : Z) (f : fdt_fuel)
    (Hin : blob_in m a virt_dtb) (Halign : a mod 4 = 0) (Hpos : 0 < a) (Hfuel : fuel_ok f virt_tree) :
  blob_at m a virt_tree /\ root_compatible virt_tree = Some (cstr "ucbbar,spike-bare-dev") /\
  caribe_pack_boot_args m f a =
    Some {| ba_dtb := a; uart_base := def_uart; plic_base := def_plic; aclint_base := def_aclint;
            mem_mb := 256; ncpus := 1 |} /\
  fdt_get_chosen_bootargs m (slack f) (fuel f) a 512 = Some (-4, []).
Proof.
  pose proof (blob_check_at m a virt_dtb virt_tree virt_dtb_checked Hin Halign Hpos) as Hblob.
  split; [done|]. split; [vm_compute; reflexivity|]. split.
  - rewrite (pack_tree m f a virt_tree Hblob) by (done || (vm_compute; intuition congruence)).
    unfold tree_boot_args, tree_base. f_equal.
  - destruct Hfuel as [Hn Hf]. unfold virt_tree in *.
    rewrite (fdt_get_chosen_bootargs_tree m (slack f) (fuel f) a 512 _ _ _ eq_refl Hblob Hn Hf).
    vm_compute. reflexivity.
Qed.

Definition example_fuel : fdt_fuel := {| slack := 32; fuel := 80 |}.

Lemma virt_dtb_packs_defaults_example :
  caribe_pack_boot_args (mem_of_list 0x80200000 virt_dtb) example_fuel 0x80200000 =
    Some {| ba_dtb := 0x80200000; uart_base := 0x10000000; plic_base := 0x0c000000;
            aclint_base := 0x02000000; mem_mb := 256; ncpus := 1 |}.
Proof.
  refine (proj1 (proj2 (proj2 (virt_dtb_packs_defaults (mem_of_list 0x80200000 virt_dtb) 0x80200000
    example_fuel _ eq_refl _ _)))).
  - split; [unfold region; vm_compute; intuition congruence | vm_compute; reflexivity].
  - lia.
  - split; [apply FdtList.short_names; by_computation | vm_compute; lia].
Defined.

End VirtDtb.
