(* ===== verification/Layout.v ===== *)
(** The structs of the sources and their layout, and the byte-order helpers.

    The models read and write fields at numeric offsets.  Here the struct types are
    declared as in the source, with the layout rule of C (natural alignment, or
    none for a packed struct), and lemmas compare offsets of the models with those of
    the fields.  Each program has big-endian helpers of its own; they are
    shown to be the same function of memory. *)

From S2P Require Import Prelude Fdt BootConfig Hfs VirtioDev Virtio BootLoader KernelVirtio Payload FdtList Diag.

Module Layout.

Local Open Scope c_scope.

(** ** Types *)

(** Integer types of a number of bytes, arrays and structs. *)
Inductive cty :=
  | UInt (bytes : Z)
  | Arr (elem : cty) (count : Z)
  | Struct (packed : bool) (fs : fields)
with fields :=
  | FNil
  | FCons (name : string) (ty : cty) (rest : fields).

Definition u8t : cty := UInt 1.

Definition u16t : cty := UInt 2.

Definition u32t : cty := UInt 4.

Definition u64t : cty := UInt 8.

(** The next multiple of [a] from [x] on. *)
Definition round_up (x a : Z) : Z := (x + a - 1) / a * a.

Fixpoint alignof (t : cty) : Z :=
  match t with
  | UInt n => n
  | Arr t _ => alignof t
  | Struct packed fs => if packed then 1 else fields_align fs
  end
with fields_align (fs : fields) : Z :=
  match fs with
  | FNil => 1
  | FCons _ t fs => Z.max (alignof t) (fields_align fs)
  end.

(** Sizes; [fields_end] is the offset behind the last field. *)
Fixpoint sizeof (t : cty) : Z :=
  match t with
  | UInt n => n
  | Arr t n => n * sizeof t
  | Struct packed fs =>
      if packed then fields_end packed fs 0 else round_up (fields_end packed fs 0) (fields_align fs)
  end
with fields_end (packed : bool) (fs : fields) (off : Z) : Z :=
  match fs with
  | FNil => off
  | FCons _ t fs =>
      fields_end packed fs ((if packed then off else round_up off (alignof t)) + sizeof t)
  end.

(** The offset and the type of a field. *)
Fixpoint field_at (packed : bool) (fs : fields) (off : Z) (name : string) : option (Z * cty) :=
  match fs with
  | FNil => None
  | FCons n t fs =>
      let off := if packed then off else round_up off (alignof t) in
      if String.eqb n name then Some (off, t) else field_at packed fs (off + sizeof t) name
  end.

(** [offsetof(t, a.b.c)] *)
Fixpoint offsetof (t : cty) (path : list string) : option Z :=
  match path with
  | [] => Some 0
  | name :: path =>
      match t with
      | Struct packed fs =>
          '(off, t) ← field_at packed fs 0 name; k ← offsetof t path; Some (off + k)
      | _ => None
      end
  end.

(** Consecutive fields of one type: [uint32_t a, b, c;]. *)
Definition same_type (names : list string) (t : cty) (rest : fields) : fields :=
  foldr (fun n fs => FCons n t fs) rest names.

(** ** HFS+ (src/booter/hfsplus_boot.c) *)

(** A fork: the anonymous structs of the volume header and of a file record. *)
Definition fork_ty : cty :=
  Struct true (FCons "logicalSize" u64t (FCons "clumpSize" u32t (FCons "totalBlocks" u32t
    (FCons "extents" (Arr (Struct true (same_type ["startBlock"; "blockCount"]%string u32t FNil)) 8) FNil)))).

Definition HFSPlusVolumeHeader : cty :=
  Struct true (same_type ["sig"; "version"]%string u16t
    (same_type ["attrs"; "lastMountedVersion"; "journalInfoBlock"; "createDate"; "modifyDate"; "backupDate";
       "checkedDate"; "fileCount"; "folderCount"; "blockSize"; "totalBlocks"; "freeBlocks"; "nextAllocation";
       "rsrcClumpSize"; "dataClumpSize"; "nextCatalogID"; "writeCount"]%string u32t
    (FCons "encodingsBitmap" u64t (FCons "finderInfo" (Arr u32t 8)
    (same_type ["allocationFile"; "extentsFile"; "catalogFile"; "attributesFile"; "startupFile"]%string fork_ty
      FNil))))).

Definition BTNodeDescriptor : cty :=
  Struct true (same_type ["fLink"; "bLink"]%string u32t (same_type ["kind"; "height"]%string u8t
    (same_type ["numRecords"; "reserved"]%string u16t FNil))).

Definition BTHeaderRec : cty :=
  Struct true (FCons "treeDepth" u16t
    (same_type ["rootNode"; "leafRecords"; "firstLeafNode"; "lastLeafNode"]%string u32t
    (same_type ["nodeSize"; "maxKeyLength"]%string u16t (same_type ["totalNodes"; "freeNodes"]%string u32t
    (FCons "reserved1" u16t (FCons "clumpSize" u32t (same_type ["btreeType"; "keyCompareType"]%string u8t
    (FCons "attributes" u32t (FCons "reserved3" (Arr u32t 16) FNil))))))))).

Definition HFSPlusCatalogKey : cty :=
  Struct true (FCons "keyLength" u16t (FCons "parentID" u32t (FCons "nameLen" u16t FNil))).

Definition HFSPlusFolderRecordPrefix : cty :=
  Struct true (same_type ["recordType"; "flags"]%string u16t (same_type ["valence"; "folderID"]%string u32t FNil)).

Definition HFSPlusFileRecord : cty :=
  Struct true (same_type ["recordType"; "flags"]%string u16t
    (same_type ["reserved1"; "fileID"; "createDate"; "contentModDate"; "attributeModDate"; "accessDate";
       "backupDate"; "uid"; "gid"; "permissions"; "special"]%string u32t
    (same_type ["userInfo"; "finderInfo"]%string (Arr u32t 4) (same_type ["textEncoding"; "reserved2"]%string u32t
    (same_type ["dataFork"; "rsrcFork"]%string fork_ty FNil))))).

(** ** ELF *)

(** src/booter/hfsplus_boot.c *)
Definition Elf32_Ehdr : cty :=
  Struct true (FCons "e_magic" u32t
    (same_type ["e_class"; "e_data"; "e_version"; "e_osabi"; "e_abiversion"]%string u8t
    (FCons "e_pad" (Arr u8t 7) (same_type ["e_type"; "e_machine"]%string u16t
    (same_type ["e_version2"; "e_entry"; "e_phoff"; "e_shoff"; "e_flags"]%string u32t
    (same_type ["e_ehsize"; "e_phentsize"; "e_phnum"; "e_shentsize"; "e_shnum"; "e_shstrndx"]%string u16t FNil)))))).

Definition Elf32_Phdr : cty :=
  Struct true (same_type ["p_type"; "p_offset"; "p_vaddr"; "p_paddr"; "p_filesz"; "p_memsz"; "p_flags";
    "p_align"]%string u32t FNil).

(** src/booter/console.c, with the alignment of the compiler *)
Definition bx_Elf32_Ehdr : cty :=
  Struct false (FCons "e_ident" (Arr u8t 16) (same_type ["e_type"; "e_machine"]%string u16t
    (same_type ["e_version"; "e_entry"; "e_phoff"; "e_shoff"; "e_flags"]%string u32t
    (same_type ["e_ehsize"; "e_phentsize"; "e_phnum"; "e_shentsize"; "e_shnum"; "e_shstrndx"]%string u16t FNil)))).

Definition bx_Elf32_Phdr : cty :=
  Struct false (same_type ["p_type"; "p_offset"; "p_vaddr"; "p_paddr"; "p_filesz"; "p_memsz"; "p_flags";
    "p_align"]%string u32t FNil).

(** src/payload_hfsplus_boot.c *)
Definition payload_Ehdr : cty :=
  Struct true (FCons "e_magic" u32t (same_type ["e_class"; "e_data"; "e_version"; "e_osabi"]%string u8t
    (FCons "e_pad" u64t (same_type ["e_type"; "e_machine"]%string u16t
    (same_type ["e_version2"; "e_entry"; "e_phoff"; "e_shoff"; "e_flags"]%string u32t
    (same_type ["e_ehsize"; "e_phentsize"; "e_phnum"; "e_shentsize"; "e_shnum"; "e_shstrndx"]%string u16t FNil)))))).

Definition payload_VolumeHeader : cty :=
  Struct true (FCons "sig" u16t (FCons "version" u16t (FCons "attrs" u32t (FCons "lastMountedVersion" u32t
    (FCons "journalInfoBlock" u32t
    (same_type ["createDate"; "modifyDate"; "backupDate"; "checkedDate"]%string u32t
    (same_type ["fileCount"; "folderCount"; "blockSize"; "totalBlocks"; "freeBlocks"]%string u32t
    (same_type ["nextAllocation"; "rsrcClumpSize"; "dataClumpSize"; "nextCatalogID"; "writeCount"]%string u32t
    (FCons "encodingsBitmap" u64t (FCons "finderInfo" (Arr u32t 8)
    (same_type ["allocationFile"; "extentsFile"; "catalogFile"; "attributesFile"; "startupFile"]%string fork_ty
      FNil))))))))))).

Definition payload_FolderRecord : cty :=
  Struct true (same_type ["recordType"; "flags"]%string u16t
    (same_type ["valence"; "folderID"; "createDate"; "contentModDate"; "attributeModDate"; "accessDate";
       "backupDate"; "uid"; "gid"; "permissions"]%string u32t
    (same_type ["userInfo"; "finderInfo"]%string (Arr u32t 4)
    (same_type ["textEncoding"; "folderCount"]%string u32t FNil)))).

Definition payload_FileRecord : cty :=
  Struct true (same_type ["recordType"; "flags"]%string u16t
    (same_type ["reserved1"; "fileID"; "createDate"; "contentModDate"; "attributeModDate"; "accessDate";
       "backupDate"; "uid"; "gid"; "permissions"; "special"]%string u32t
    (same_type ["userInfo"; "finderInfo"]%string (Arr u32t 4) (same_type ["textEncoding"; "reserved2"]%string u32t
    (same_type ["dataFork"; "rsrcFork"]%string fork_ty FNil))))).

(** ** The queue (src/virtio_blk_legacy.c, src/kernel_xnu_entry.c,
    src/payload_virtio_diag.c) *)

Definition virtq_desc : cty :=
  Struct true (FCons "addr" u64t (FCons "len" u32t (same_type ["flags"; "next"]%string u16t FNil))).

Definition virtq_used_elem : cty := Struct true (same_type ["id"; "len"]%string u32t FNil).

(** [qnum] is the size of [ring]. *)
Definition virtq_avail (qnum : Z) : cty :=
  Struct true (same_type ["flags"; "idx"]%string u16t (FCons "ring" (Arr u16t qnum) (FCons "used_event" u16t FNil))).

Definition virtq_used (qnum : Z) : cty :=
  Struct true (same_type ["flags"; "idx"]%string u16t
    (FCons "ring" (Arr virtq_used_elem qnum) (FCons "avail_event" u16t FNil))).

Definition virtio_blk_req : cty :=
  Struct true (same_type ["type"; "ioprio"]%string u32t (FCons "sector" u64t FNil)).

(** ** The handoff (src/include/uapi/xnu_bootargs.h) and the device tree *)

Definition riscv32_xnu_memory_range : cty :=
  Struct false (same_type ["type"; "pad"]%string u32t
    (same_type ["physical_start"; "virtual_start"; "number_of_pages"; "attribute"]%string u64t FNil)).

(** The header of a blob, in src/payload_fdt_ls.c and the others. *)
Definition fdt_hdr : cty :=
  Struct false (same_type ["magic"; "totalsize"; "off_dt_struct"; "off_dt_strings"; "off_mem_rsvmap"; "version";
    "last_comp_version"; "boot_cpuid_phys"; "size_dt_strings"; "size_dt_struct"]%string u32t FNil).

(** ** Byte order *)

(** src/payload_hfsplus_boot.c *)
Definition payload_be16 (x : Z) : Z := u16 (Z.shiftr x 8 |! Z.shiftl (x &! 0xFF) 8).

Definition payload_be32 (x : Z) : Z :=
  ((x &! 0xFF) <<! 24) |! ((x &! 0xFF00) <<! 8) |! (Z.shiftr x 8 &! 0xFF00) |! (Z.shiftr x 24 &! 0xFF).

Definition payload_be64 (x : Z) : Z :=
  u64 (Z.shiftl (payload_be32 (u32 x)) 32) |! payload_be32 (u32 (Z.shiftr x 32)).

(** src/payload.c *)
Definition entry_bswap32 (x : Z) : Z :=
  Z.shiftr x 24 |! (Z.shiftr x 8 &! 0xFF00) |! ((x <<! 8) &! 0xFF0000) |! (x <<! 24).

(** src/booter/console.c *)
Definition bx_bswap32 (x : Z) : Z :=
  ((x &! 0xFF) <<! 24) |! ((x &! 0xFF00) <<! 8) |! Z.shiftr (x &! 0xFF0000) 8 |! (Z.shiftr x 24 &! 0xFF).

(** src/kernel_xnu_entry.c *)
Definition kernel_be16 (m : mem) (ptr : Z) : Z := u16 (Z.shiftl (load8 m ptr) 8 |! load8 m (ptr + 1)).

Definition kernel_be32 (m : mem) (ptr : Z) : Z :=
  (load8 m ptr <<! 24) |! (load8 m (ptr + 1) <<! 16) |! (load8 m (ptr + 2) <<! 8) |! load8 m (ptr + 3).

Definition kernel_be64 (m : mem) (ptr : Z) : Z :=
  u64 (Z.shiftl (kernel_be32 m ptr) 32) |! kernel_be32 m (ptr + 4).

(** A shifted field of 8 bits: shifting and masking commute. *)
Lemma shiftr_mask x : 0 <= x -> Z.shiftr x 8 &! 0xFF00 = Z.shiftr (x &! 0xFF0000) 8.
Proof. intros Hx. rewrite Z.shiftr_land. done. Qed.

Lemma payload_be32_bswap x : is_u32 x -> payload_be32 x = FdtList.bswap32 x.
Proof. intros Hx. unfold payload_be32, FdtList.bswap32. rewrite shiftr_mask by mlia. done. Qed.

Lemma entry_bswap32_bswap x : is_u32 x -> entry_bswap32 x = FdtList.bswap32 x.
Proof.
  intros Hx. unfold entry_bswap32, FdtList.bswap32. rewrite shiftr_mask by mlia.
  assert (Z.shiftr x 24 &! 0xFF = Z.shiftr x 24) as ->.
  { rewrite FdtList.land_byte, Z.shiftr_div_pow2 by lia. change (2 ^ 24) with 16777216. mlia. }
  assert ((x &! 0xFF) <<! 24 = x <<! 24) as ->.
  { rewrite FdtList.land_byte, !Z.shiftl_mul_pow2 by lia. change (2 ^ 24) with 16777216. mlia. }
  assert ((x &! 0xFF00) <<! 8 = (x <<! 8) &! 0xFF0000) as ->.
  { change 0xFF00 with (Z.shiftl 0xFF 8). change 0xFF0000 with (Z.shiftl 0xFF 16).
    rewrite !FdtList.land_field by lia. rewrite !Z.shiftr_div_pow2, !Z.shiftl_mul_pow2 by lia.
    change (2 ^ 8) with 256. change (2 ^ 16) with 65536. mlia. }
  rewrite (Z.lor_comm _ (x <<! 24)), (Z.lor_comm _ ((x <<! 8) &! 0xFF0000)), (Z.lor_comm (Z.shiftr x 24)).
  by rewrite !Z.lor_assoc.
Qed.

(** A product by a power of two, as the shifts of the sources write it. *)
Lemma shiftl_small b k : is_u8 b -> 0 <= k <= 24 -> u32 (Z.shiftl b k) = Z.shiftl b k.
Proof.
  intros Hb Hk. apply u32_small. rewrite Z.shiftl_mul_pow2 by lia.
  assert (2 ^ k <= 2 ^ 24) by (apply Z.pow_le_mono_r; lia). change (2 ^ 24) with 16777216 in *.
  assert (0 < 2 ^ k) by (apply Z.pow_pos_nonneg; lia). unfold is_u8, is_u32 in *. nia.
Qed.

Lemma kernel_be32_be32 m a : mem_ok m -> kernel_be32 m a = be32 m a.
Proof. intros Hm. unfold kernel_be32, be32. by rewrite !shiftl_small by (auto with words || lia). Qed.

Lemma be16_bytes m a : mem_ok m -> be16 m a = 256 * load8 m a + load8 m (a + 1).
Proof.
  intros Hm. pose proof (mem_ok_load8 m a Hm). pose proof (mem_ok_load8 m (a + 1) Hm). unfold be16.
  rewrite lor_shiftl_add by (try change (2 ^ 8) with 256; mlia). rewrite Z.shiftl_mul_pow2 by lia.
  change (2 ^ 8) with 256. lia.
Qed.

Lemma payload_be16_be16 m a : mem_ok m -> payload_be16 (load16 m a) = be16 m a.
Proof.
  intros Hm. rewrite be16_bytes by done. unfold payload_be16, load16.
  pose proof (mem_ok_load8 m a Hm) as H0. pose proof (mem_ok_load8 m (a + 1) Hm) as H1.
  set (b0 := load8 m a) in *. set (b1 := load8 m (a + 1)) in *.
  rewrite FdtList.land_byte, Z.shiftr_div_pow2 by lia. change (2 ^ 8) with 256.
  assert ((b0 + 256 * b1) / 256 = b1) as -> by mlia. assert ((b0 + 256 * b1) mod 256 = b0) as -> by mlia.
  rewrite Z.lor_comm, lor_shiftl_add by (try change (2 ^ 8) with 256; mlia).
  rewrite Z.shiftl_mul_pow2 by lia. change (2 ^ 8) with 256. mlia.
Qed.

Lemma u64_word hi : is_u32 hi -> u64 (Z.shiftl hi 32) = Z.shiftl hi 32.
Proof.
  intros H. rewrite Z.shiftl_mul_pow2 by lia. change (2 ^ 32) with 4294967296. unfold u64. apply Z.mod_small. mlia.
Qed.

Lemma payload_be32_load m a : mem_ok m -> payload_be32 (load32 m a) = be32 m a.
Proof.
  intros Hm. rewrite payload_be32_bswap by auto with words. exact (FdtList.word_be32 m a Hm).
Qed.

Lemma payload_be64_load m a : mem_ok m -> payload_be64 (load64 m a) = be64 m a.
Proof.
  intros Hm. unfold payload_be64, load64, be64.
  pose proof (load32_range m a Hm) as H0. pose proof (load32_range m (a + 4) Hm) as H1.
  assert (u32 (load32 m a + 4294967296 * load32 m (a + 4)) = load32 m a) as -> by mlia.
  assert (u32 (Z.shiftr (load32 m a + 4294967296 * load32 m (a + 4)) 32) = load32 m (a + 4)) as ->.
  { rewrite Z.shiftr_div_pow2 by lia. change (2 ^ 32) with 4294967296. mlia. }
  rewrite !payload_be32_load by done. rewrite u64_word by (by apply be32_range). done.
Qed.

(** Byte order.  The seven big-endian helpers of the sources (the swaps of
    loaded words in the payloads and the console, the shifts of bytes in the
    kernel) read the same numbers from memory as those of the booter. *)
Theorem byte_order_agrees (m : mem) (a : Z) (Hm : mem_ok m) :
  payload_be16 (load16 m a) = be16 m a /\ kernel_be16 m a = be16 m a /\
  payload_be32 (load32 m a) = be32 m a /\ entry_bswap32 (load32 m a) = be32 m a /\
  bx_bswap32 (load32 m a) = be32 m a /\ FdtList.word m a = be32 m a /\ kernel_be32 m a = be32 m a /\
  payload_be64 (load64 m a) = be64 m a /\ kernel_be64 m a = be64 m a.
Proof.
  split_and!.
  - by apply payload_be16_be16.
  - pose proof (be16_range m a Hm). unfold kernel_be16. change (Z.shiftl (load8 m a) 8 |! load8 m (a + 1)) with (be16 m a).
    mlia.
  - by apply payload_be32_load.
  - rewrite entry_bswap32_bswap by auto with words. exact (FdtList.word_be32 m a Hm).
  - exact (FdtList.word_be32 m a Hm).
  - exact (FdtList.word_be32 m a Hm).
  - by apply kernel_be32_be32.
  - by apply payload_be64_load.
  - unfold kernel_be64, be64. rewrite !kernel_be32_be32, u64_word by (done || by apply be32_range). done.
Qed.

Lemma byte_order_agrees_example :
  let m := mem_of_list 0 [0xd0; 0x0d; 0xfe; 0xed; 0; 0; 7; 0x32] in
  entry_bswap32 (load32 m 0) = 0xd00dfeed /\ payload_be64 (load64 m 0) = 0xd00dfeed00000732.
Proof.
  intros m. assert (mem_ok m) as Hm by (apply FdtList.Example.list_mem_ok; by_computation).
  destruct (byte_order_agrees m 0 Hm) as (_ & _ & _ & H1 & _ & _ & _ & H2 & _).
  rewrite H1, H2. split; vm_compute; reflexivity.
Defined.

(** ** Fields *)

(** The address of a field of a struct at [a]. *)
Definition fld (t : cty) (path : list string) (a : Z) : Z := a + default 0 (offsetof t path).

(** The fork with its fields at the places of [fork_ty]. *)
Definition fork_fields (m : mem) (a : Z) : Hfs.ForkMeta :=
  Hfs.Fork (be64 m (fld fork_ty ["logicalSize"%string] a)) (Hfs.read_extents m (fld fork_ty ["extents"%string] a) 8).

Lemma fork_at m a : Hfs.Fork (be64 m a) (Hfs.read_extents m (a + 16) 8) = fork_fields m a.
Proof. unfold fork_fields, fld. cbn -[Hfs.read_extents]. by rewrite Z.add_0_r. Qed.

(** The volume header and the header of the catalog. *)
Lemma volume_header_fields SEC m :
  let vh f := fld HFSPlusVolumeHeader [f] SEC in
  let cat := fork_fields m (vh "catalogFile"%string) in
  Hfs.read_volume_header SEC m =
    {| Hfs.blockSize := be32 m (vh "blockSize"%string); Hfs.totalBlocks := be32 m (vh "totalBlocks"%string);
       Hfs.catalogNodeSize := 4096; Hfs.firstLeafNode := 1; Hfs.lastLeafNode := 1;
       Hfs.totalCatalogNodes := u32 (Hfs.fk_size cat) / 4096; Hfs.catalog := cat |}.
Proof.
  intros vh cat. unfold cat, vh, Hfs.read_volume_header, Hfs.fork_from_volume_fork. rewrite fork_at. reflexivity.
Qed.

Lemma btree_header_fields SEC m h :
  let hdr f := fld BTHeaderRec [f] (SEC + sizeof BTNodeDescriptor) in
  let nodeSize := be16 m (hdr "nodeSize"%string) in
  Hfs.read_btree_header SEC m h =
    {| Hfs.blockSize := Hfs.blockSize h; Hfs.totalBlocks := Hfs.totalBlocks h;
       Hfs.catalogNodeSize := if negb (nodeSize =? 0) && (nodeSize <=? Hfs.HFS_NODE_BUF_SIZE)
                              then nodeSize else Hfs.catalogNodeSize h;
       Hfs.firstLeafNode := be32 m (hdr "firstLeafNode"%string);
       Hfs.lastLeafNode := be32 m (hdr "lastLeafNode"%string);
       Hfs.totalCatalogNodes := be32 m (hdr "totalNodes"%string); Hfs.catalog := Hfs.catalog h |}.
Proof. reflexivity. Qed.

(** The records of a leaf. *)
Lemma file_record_fields m rec :
  Hfs.fork_from_file_record m rec = fork_fields m (fld HFSPlusFileRecord ["dataFork"%string] rec) /\
  Payload.file_fork m rec = fork_fields m (fld payload_FileRecord ["dataFork"%string] rec).
Proof.
  unfold Hfs.fork_from_file_record, Payload.file_fork. rewrite <- !fork_at.
  replace (rec + 104) with (rec + 88 + 16) by lia. done.
Qed.

Lemma catalog_key_fields B m off :
  let rec := Payload.SECBUF B + off in
  let key f := fld HFSPlusCatalogKey [f] rec in
  let data := rec + 2 + be16 m (key "keyLength"%string) in
  Payload.read_rec B m off =
    Payload.Rec (be32 m (key "parentID"%string))
      (BootConfig.c_string (Payload.u16be_to_ascii m (rec + sizeof HFSPlusCatalogKey)
        (Z.to_nat (be16 m (key "nameLen"%string))) 128 0))
      data (be16 m (fld payload_FileRecord ["recordType"%string] data)).
Proof.
  intros rec key data. unfold data, key, rec, fld. cbn [default offsetof]. unfold Payload.read_rec.
  cbn -[Payload.u16be_to_ascii]. by rewrite !Z.add_0_r.
Qed.

(** The headers of an ELF file, in the three loaders. *)
Lemma elf_header_fields m img :
  let eh f := fld Elf32_Ehdr [f] img in
  BootLoader.read_ehdr m img =
    BootLoader.Ehdr (load32 m (eh "e_magic"%string)) (load8 m (eh "e_class"%string)) (load8 m (eh "e_data"%string))
      (load32 m (eh "e_entry"%string)) (load32 m (eh "e_phoff"%string)) (load16 m (eh "e_phentsize"%string))
      (load16 m (eh "e_phnum"%string)).
Proof. intros eh. unfold eh, fld. cbn. by rewrite Z.add_0_r. Qed.

Lemma program_header_fields m a :
  let ph f := fld Elf32_Phdr [f] a in
  BootLoader.read_phdr m a =
    BootLoader.Phdr (load32 m (ph "p_type"%string)) (load32 m (ph "p_offset"%string)) (load32 m (ph "p_vaddr"%string))
      (load32 m (ph "p_filesz"%string)) (load32 m (ph "p_memsz"%string)).
Proof. intros ph. unfold ph, fld. cbn. by rewrite Z.add_0_r. Qed.

(** The fields the loaders read, at the same place in the three declarations. *)
Lemma elf_declarations_agree :
  Forall (fun f => offsetof bx_Elf32_Ehdr [f] = offsetof Elf32_Ehdr [f] /\
                   offsetof payload_Ehdr [f] = offsetof Elf32_Ehdr [f])
    ["e_machine"; "e_entry"; "e_phoff"; "e_phentsize"; "e_phnum"]%string /\
  sizeof bx_Elf32_Ehdr = sizeof Elf32_Ehdr /\ sizeof payload_Ehdr = sizeof Elf32_Ehdr /\
  sizeof bx_Elf32_Phdr = sizeof Elf32_Phdr /\ sizeof Elf32_Ehdr = 52 /\ sizeof Elf32_Phdr = 32.
Proof. split; [repeat constructor | done]. Qed.

(** The queue, as the device reads it. *)
Lemma queue_fields c m i :
  let d f := fld virtq_desc [f] (VirtioDev.desc_table c + sizeof virtq_desc * i) in
  VirtioDev.desc_addr c m i = u32 (load64 m (d "addr"%string)) /\
  VirtioDev.desc_len c m i = load32 m (d "len"%string) /\
  VirtioDev.desc_next c m i = load16 m (d "next"%string) /\
  VirtioDev.avail_ring c = VirtioDev.desc_table c + sizeof (Arr virtq_desc (VirtioDev.q_num c)).
Proof.
  intros d. unfold d, fld, VirtioDev.desc_addr. cbn -[Z.mul]. rewrite Z.add_0_r.
  change (sizeof virtq_desc) with 16. split_and!; try done. unfold VirtioDev.avail_ring. lia.
Qed.

(** What the driver writes for a request. *)
Lemma request_fields {V} `{VirtioDev.VirtioMmio V} (L : VirtioDev.queue_layout) lba :
  let hdr f := fld virtio_blk_req [f] (VirtioDev.QH L) in
  Virtio.fill_header (V := V) L lba =
    (Virtio.modmem (fun m => store32 m (hdr "type"%string) VirtioDev.VIRTIO_BLK_T_IN);;
     Virtio.modmem (fun m => store32 m (hdr "ioprio"%string) 0);;
     Virtio.modmem (fun m => store64 m (hdr "sector"%string) lba);;
     Virtio.modmem (fun m => store8 m (VirtioDev.QS L) 0xFF)) /\
  sizeof virtio_blk_req = 16.
Proof.
  intros hdr. split; [|done].
  assert (hdr "type"%string = VirtioDev.QH L) as -> by (unfold hdr, fld; cbn; lia). reflexivity.
Qed.

(** The descriptors and the rings. *)
Lemma ring_fields {V} `{VirtioDev.VirtioMmio V} (avail used want : Z) (spins : nat) :
  let av f := fld (virtq_avail VirtioDev.QNUM) [f] avail in
  let us f := fld (virtq_used VirtioDev.QNUM) [f] used in
  Virtio.publish (V := V) avail =
    (aidx ← Virtio.getmem (fun m => load16 m (av "idx"%string));
     Virtio.modmem (fun m => store16 m (av "ring"%string + 2 * (aidx mod VirtioDev.QNUM)) 0);;
     Virtio.barrier;;
     Virtio.modmem (fun m => store16 m (av "idx"%string) (u16 (aidx + 1)));;
     Virtio.barrier) /\
  Virtio.spin (V := V) (S spins) used want =
    (idx ← Virtio.getmem (fun m => load16 m (us "idx"%string));
     if idx =? want then mret tt else Virtio.barrier;; Virtio.spin spins used want) /\
  Diag.wait_used (V := V) (S spins) used =
    (idx ← Virtio.getmem (fun m => load16 m (us "idx"%string));
     if idx =? 0 then Virtio.barrier;; Diag.wait_used spins used else mret tt).
Proof. split_and!; reflexivity. Qed.

(** Struct layouts.  Numeric offsets of the models are the offsets of the fields in the
    structs of the sources: fields of the HFS+ volume header, of the header of the
    catalog tree and of file records, [parentID] of the catalog key, fields of the ELF
    header and [p_memsz] of the program header (in the three declarations), [next] of
    the descriptors and the request of the block device; an entry of the memory map has
    40 bytes. *)
Theorem layouts_agree {V} `{VirtioDev.VirtioMmio V} (SEC img : Z) (m : mem) (B : Payload.buffers)
    (L : VirtioDev.queue_layout) (c : VirtioDev.config) :
  Hfs.blockSize (Hfs.read_volume_header SEC m) = be32 m (fld HFSPlusVolumeHeader ["blockSize"%string] SEC) /\
  Hfs.catalog (Hfs.read_volume_header SEC m) =
    fork_fields m (fld HFSPlusVolumeHeader ["catalogFile"%string] SEC) /\
  (forall h, Hfs.firstLeafNode (Hfs.read_btree_header SEC m h) =
     be32 m (fld BTHeaderRec ["firstLeafNode"%string] (SEC + sizeof BTNodeDescriptor))) /\
  (forall rec, Hfs.fork_from_file_record m rec = fork_fields m (fld HFSPlusFileRecord ["dataFork"%string] rec) /\
     Payload.file_fork m rec = fork_fields m (fld payload_FileRecord ["dataFork"%string] rec)) /\
  (forall off, Payload.r_parent (Payload.read_rec B m off) =
     be32 m (fld HFSPlusCatalogKey ["parentID"%string] (Payload.SECBUF B + off))) /\
  BootLoader.e_entry (BootLoader.read_ehdr m img) = load32 m (fld Elf32_Ehdr ["e_entry"%string] img) /\
  BootLoader.e_phnum (BootLoader.read_ehdr m img) = load16 m (fld Elf32_Ehdr ["e_phnum"%string] img) /\
  BootLoader.p_memsz (BootLoader.read_phdr m img) = load32 m (fld Elf32_Phdr ["p_memsz"%string] img) /\
  Forall (fun f => offsetof bx_Elf32_Ehdr [f] = offsetof Elf32_Ehdr [f] /\
                   offsetof payload_Ehdr [f] = offsetof Elf32_Ehdr [f])
    ["e_machine"; "e_entry"; "e_phoff"; "e_phentsize"; "e_phnum"]%string /\
  (forall i, VirtioDev.desc_next c m i =
     load16 m (fld virtq_desc ["next"%string] (VirtioDev.desc_table c + sizeof virtq_desc * i))) /\
  (forall lba, Virtio.fill_header (V := V) L lba =
     (Virtio.modmem (fun m => store32 m (fld virtio_blk_req ["type"%string] (VirtioDev.QH L)) 0);;
      Virtio.modmem (fun m => store32 m (fld virtio_blk_req ["ioprio"%string] (VirtioDev.QH L)) 0);;
      Virtio.modmem (fun m => store64 m (fld virtio_blk_req ["sector"%string] (VirtioDev.QH L)) lba);;
      Virtio.modmem (fun m => store8 m (VirtioDev.QS L) 0xFF))) /\
  sizeof riscv32_xnu_memory_range = 40.
Proof.
  split_and!; try (rewrite (volume_header_fields SEC m); reflexivity).
  - intros h. by rewrite (btree_header_fields SEC m h).
  - apply file_record_fields.
  - intros off. by rewrite (catalog_key_fields B m off).
  - by rewrite (elf_header_fields m img).
  - by rewrite (elf_header_fields m img).
  - by rewrite (program_header_fields m img).
  - apply elf_declarations_agree.
  - intros i. apply queue_fields.
  - intros lba. apply request_fields.
  - reflexivity.
Qed.

End Layout.
