(* ===== verification/Demos.v ===== *)
(** The small stand-alone programs: src/payload.c, payload_hello.c,
    payload_return.c, payload_reboot.c, payload_srst.c, payload_menu.c,
    payload_sbi_info.c, kernel_hello.c, and the boot commands src/cmd_bootbin.c and
    src/cmd_bootelf.c.

    A program is run against the firmware: [sbi] gives what a call of the
    supervisor binary interface returns, or that it does not return.  A run is the
    trace of what is sent to the UART and of the calls made, and how it ends. *)

From S2P Require Import Prelude Print Fdt FdtList Layout.

Module Demos.

Import Print Fdt.

(** ** Runs *)

Inductive event :=
  | Tx (c : Z)
  | Ecall (eid fid a0 a1 : Z).

(** An endless loop, a return to the caller, a firmware call that does not come
    back, no more input to wait for, or a jump with the registers given. *)
Inductive ending :=
  | Loops
  | Returns (code : Z)
  | Resets
  | Waits
  | Jumps (entry a0 a1 : Z).

(** Computations that end early: [inr] is the end of the program. *)
Definition prog (A : Type) : Type := list event -> (A + ending) * list event.

#[global] Instance prog_ret : MRet prog := fun A a t => (inl a, t).

#[global] Instance prog_bind : MBind prog := fun A B f p t =>
  match p t with
  | (inl a, t) => f a t
  | (inr e, t) => (inr e, t)
  end.

Definition stop {A} (e : ending) : prog A := fun t => (inr e, t).

Definition putc (c : Z) : prog unit := fun t => (inl tt, t ++ [Tx c]).

Definition puts (s : list Z) : prog unit := fun t => (inl tt, t ++ (Tx <$> s)).

(** The whole run of a program. *)
Definition run {A} (p : prog A) : (A + ending) * list event := p [].

(** The text in a trace. *)
Definition text (t : list event) : list Z := omap (fun e => match e with Tx c => Some c | _ => None end) t.

(** The calls in a trace. *)
Definition calls (t : list event) : list (Z * Z * Z * Z) :=
  omap (fun e => match e with Ecall e f a b => Some (e, f, a, b) | _ => None end) t.

Lemma text_app t u : text (t ++ u) = text t ++ text u.
Proof. apply omap_app. Qed.

Lemma text_tx s : text (Tx <$> s) = s.
Proof. induction s as [|c s IH]; [done|]. cbn. f_equal. exact IH. Qed.

Lemma calls_app t u : calls (t ++ u) = calls t ++ calls u.
Proof. apply omap_app. Qed.

Lemma calls_tx s : calls (Tx <$> s) = [].
Proof. by induction s. Qed.

(** ** Firmware calls *)

Section Firmware.

(** [sbi eid fid a0 a1]: the registers [a0] and [a1] afterwards. *)
Context (sbi : Z -> Z -> Z -> Z -> option (Z * Z)).

(** [ecall] *)
Definition ecall (eid fid a0 a1 : Z) : prog (Z * Z) := fun t =>
  let t := t ++ [Ecall eid fid a0 a1] in
  match sbi eid fid a0 a1 with
  | Some r => (inl r, t)
  | None => (inr Resets, t)
  end.

Definition EID_SRST : Z := 0x53525354.

(** payload_srst.c *)
Definition srst_start : prog unit :=
  puts "\r\n[ELF] Hola + SRST!\r\n";;
  ecall EID_SRST 0 0 0;;
  stop Loops.

(** payload_reboot.c *)
Definition reboot_start : prog unit :=
  puts "\r\n[ELF] Hola + SRST (reboot)!\r\n";;
  ecall EID_SRST 0 1 0;;
  stop Loops.

(** payload_menu.c: the input is what successive polls of the line status find,
    [None] when no byte is there. *)
Fixpoint menu_loop (input : list (option Z)) : prog unit :=
  match input with
  | [] => stop Waits
  | None :: input => menu_loop input
  | Some c :: _ =>
      putc c;; puts "\r\n";;
      (if c =? 114 then puts "SRST reboot...\r\n";; ecall EID_SRST 0 1 0;; mret tt else mret tt);;
      (if c =? 112 then puts "SRST poweroff...\r\n";; ecall EID_SRST 0 0 0;; mret tt else mret tt);;
      puts "Volviendo al booter...\r\n";; stop (Returns 0)
  end.

Definition menu_start (input : list (option Z)) : prog unit :=
  puts "\r\n[ELF] Menu: (r)eboot, (p)oweroff, cualquier otra = volver\r\n> ";; menu_loop input.

(** payload_sbi_info.c *)
Definition sbi_line (label : list Z) (r : Z * Z) : prog unit :=
  puts label;; puts (puthex32 (u32 r.2));; puts " err=0x";; puts (puthex32 (u32 r.1));; puts "\r\n".

Definition sbi_info_start : prog unit :=
  puts "\r\n[SBI-INFO]\r\n";;
  v ← ecall 0x10 0 0 0;
  id ← ecall 0x10 1 0 0;
  iv ← ecall 0x10 2 0 0;
  mv ← ecall 0x10 4 0 0;
  ma ← ecall 0x10 5 0 0;
  mi ← ecall 0x10 6 0 0;
  sbi_line "spec      = 0x" v;;
  sbi_line "impl_id   = 0x" id;;
  sbi_line "impl_ver  = 0x" iv;;
  sbi_line "mvendorid = 0x" mv;;
  sbi_line "marchid   = 0x" ma;;
  sbi_line "mimpid    = 0x" mi;;
  sr ← ecall 0x10 3 EID_SRST 0;
  sbi_line "probe SRST= 0x" sr;;
  stop Loops.

End Firmware.

(** ** Programs without calls *)

(** payload_hello.c *)
Definition hello_start : prog unit := puts "\r\n[ELF] Hola desde payload ELF rv32!\r\n";; stop Loops.

(** payload_return.c *)
Definition return_start : prog unit := puts "\r\n[ELF] Volviendo al booter...\r\n";; stop (Returns 0).

(** kernel_hello.c *)
Definition kernel_hello_start : prog unit :=
  puts "\r\n[Kernel demo] Hola desde kernel.elf (RV32)\r\n";; stop Loops.

(** payload.c: [static const char* H="0123456789ABCDEF";] *)
Definition UHEX : list Z := "0123456789ABCDEF".

Fixpoint uhex_from (n : nat) (v : Z) : list Z :=
  match n with
  | O => []
  | S i => UHEX !!! Z.to_nat (Z.land (Z.shiftr v (Z.of_nat i * 4)) 0xF) :: uhex_from i v
  end.

Definition entry (m : mem) (hart dtb : Z) : prog unit :=
  puts "entry C; hart=";; puts (uhex_from 8 (u32 hart));;
  puts " dtb=";; puts (uhex_from 8 (u32 dtb));; puts "\r\n";;
  let magic := load32 m dtb in
  (if Layout.entry_bswap32 magic =? 0xD00DFEED then puts "DTB OK\r\n" else puts "DTB BAD\r\n");;
  mret tt.

(** ** Boot commands *)

(** cmd_bootbin.c: [jump_s(entry_va, 0, g_boot_args.dtb)] *)
Definition cmd_bootbin (dtb entry_va : Z) : prog Z := stop (Jumps entry_va 0 dtb).

(** cmd_bootelf.c; [elf_load_to_va] is another file's: the code it returns and the
    entry it stores. *)
Definition cmd_bootelf (elf_load_to_va : Z -> Z * Z) (dtb elf_addr : Z) : prog Z :=
  let '(rc, entry_va) := elf_load_to_va elf_addr in
  if negb (rc =? 0) then mret (-1) else stop (Jumps entry_va 0 dtb).

(** ** What they do *)

(** A program that only appends to the trace. *)
Lemma puts_bind {B} (s : list Z) (k : unit -> prog B) t : (puts s ≫= k) t = k tt (t ++ (Tx <$> s)).
Proof. done. Qed.

Lemma putc_bind {B} c (k : unit -> prog B) t : (putc c ≫= k) t = k tt (t ++ [Tx c]).
Proof. done. Qed.

Lemma ecall_bind {B} sbi eid fid a0 a1 (k : Z * Z -> prog B) t :
  (ecall sbi eid fid a0 a1 ≫= k) t =
    match sbi eid fid a0 a1 with
    | Some r => k r (t ++ [Ecall eid fid a0 a1])
    | None => (inr Resets, t ++ [Ecall eid fid a0 a1])
    end.
Proof. cbv [mbind prog_bind ecall]. by destruct (sbi eid fid a0 a1). Qed.

Create Rewrite HintDb demos.

#[export] Hint Rewrite text_app text_tx calls_app calls_tx app_nil_r : demos.

(** The calls of the menu for an answer, and how it ends. *)
Definition menu_calls (c : Z) : list (Z * Z * Z * Z) :=
  if c =? 114 then [(EID_SRST, 0, 1, 0)] else if c =? 112 then [(EID_SRST, 0, 0, 0)] else [].

Definition menu_ending (sbi : Z -> Z -> Z -> Z -> option (Z * Z)) (c : Z) : ending :=
  match head (menu_calls c) with
  | Some (e, f, a, b) => match sbi e f a b with Some _ => Returns 0 | None => Resets end
  | None => Returns 0
  end.

Lemma menu_loop_answer sbi k c input : forall t,
  let '(r, t') := menu_loop sbi (replicate k None ++ Some c :: input) t in
  r = inr (menu_ending sbi c) /\ calls t' = calls t ++ menu_calls c.
Proof.
  induction k as [|k IH]; intros t; cbn [replicate app menu_loop]; [|apply IH].
  rewrite putc_bind, puts_bind. unfold menu_ending, menu_calls. cbv [mbind prog_bind].
  destruct (Z.eqb_spec c 114) as [->|H1]; [|destruct (Z.eqb_spec c 112) as [->|H2]]; cbn [head].
  - cbn [Z.eqb Pos.eqb]. unfold puts, ecall. destruct (sbi EID_SRST 0 1 0) as [r|]; cbn;
      rewrite <- ?app_assoc, ?calls_app; autorewrite with demos; cbn; by autorewrite with demos.
  - cbn [Z.eqb Pos.eqb]. unfold puts, ecall. cbn. destruct (sbi EID_SRST 0 0 0) as [r|]; cbn;
      rewrite <- ?app_assoc, ?calls_app; autorewrite with demos; cbn; by autorewrite with demos.
  - unfold puts. cbn. autorewrite with demos. cbn. by autorewrite with demos.
Qed.

(** The menu of payload_menu.c: whatever the firmware does, and after any number of
    polls that find nothing, the answer "r" makes one call for a reboot, "p"
    one to power off and every other none; the program then returns 0 to the
    booter unless the firmware does not come back. *)
Theorem menu_answers sbi (k : nat) (c : Z) (input : list (option Z)) :
  let '(r, t) := run (menu_start sbi (replicate k None ++ Some c :: input)) in
  r = inr (menu_ending sbi c) /\ calls t = menu_calls c.
Proof.
  unfold run, menu_start. rewrite puts_bind. cbn [app].
  pose proof (menu_loop_answer sbi k c input
    (Tx <$> cstr "\r\n[ELF] Menu: (r)eboot, (p)oweroff, cualquier otra = volver\r\n> ")) as H.
  destruct (menu_loop _ _ _) as [r t]. rewrite calls_tx in H. exact H.
Qed.

(** [entry] of payload.c returns and says whether a blob starts at [dtb]. *)
Theorem entry_checks_magic (m : mem) (hart dtb : Z) (Hm : mem_ok m) :
  exists before, run (entry m hart dtb) = (inl tt, before ++
    (Tx <$> cstr (if be32 m dtb =? FDT_MAGIC then "DTB OK\r\n" else "DTB BAD\r\n"))).
Proof.
  unfold run, entry. rewrite !puts_bind. cbv zeta. rewrite Layout.entry_bswap32_bswap by auto with words.
  change (FdtList.bswap32 (load32 m dtb)) with (FdtList.word m dtb). rewrite FdtList.word_be32 by done.
  eexists. change 0xD00DFEED with FDT_MAGIC. destruct (be32 m dtb =? FDT_MAGIC); reflexivity.
Qed.

(** The lines of payload_sbi_info.c, from what the firmware returns. *)
Definition info_line (label : list Z) (r : Z * Z) : list Z :=
  label ++ puthex32 (u32 r.2) ++ " err=0x" ++ puthex32 (u32 r.1) ++ "\r\n".

Lemma sbi_line_bind {B} label r (k : unit -> prog B) t :
  (sbi_line label r ≫= k) t = k tt (t ++ (Tx <$> info_line label r)).
Proof.
  unfold info_line. rewrite !fmap_app. cbv [mbind prog_bind sbi_line puts]. by rewrite <- !app_assoc.
Qed.

(** On firmware that answers every call it prints the six identifiers and the probe
    of the reset extension, and has made exactly these calls. *)
Theorem sbi_info_reports (answer : Z -> Z -> Z * Z) :
  let '(r, t) := run (sbi_info_start (fun _ fid a0 _ => Some (answer fid a0))) in
  r = inr Loops /\
  text t = ("\r\n[SBI-INFO]\r\n" ++ info_line "spec      = 0x" (answer 0 0) ++
    info_line "impl_id   = 0x" (answer 1 0) ++ info_line "impl_ver  = 0x" (answer 2 0) ++
    info_line "mvendorid = 0x" (answer 4 0) ++ info_line "marchid   = 0x" (answer 5 0) ++
    info_line "mimpid    = 0x" (answer 6 0) ++ info_line "probe SRST= 0x" (answer 3 EID_SRST)) /\
  calls t = [(0x10, 0, 0, 0); (0x10, 1, 0, 0); (0x10, 2, 0, 0); (0x10, 4, 0, 0); (0x10, 5, 0, 0);
    (0x10, 6, 0, 0); (0x10, 3, EID_SRST, 0)].
Proof.
  unfold run, sbi_info_start.
  rewrite puts_bind, !ecall_bind, !sbi_line_bind, ecall_bind, sbi_line_bind. unfold stop.
  split; [done|]. rewrite !text_app, !text_tx, !calls_app, !calls_tx. split; [|reflexivity].
  cbn [text omap list_omap app]. by rewrite ?app_nil_r, <- ?app_assoc.
Qed.

(** The other programs, and the boot commands. *)
Lemma demos_end sbi (load : Z -> Z * Z) dtb a :
  (run hello_start).1 = inr Loops /\ (run kernel_hello_start).1 = inr Loops /\
  (run return_start).1 = inr (Returns 0) /\
  calls (run (srst_start sbi)).2 = [(EID_SRST, 0, 0, 0)] /\
  calls (run (reboot_start sbi)).2 = [(EID_SRST, 0, 1, 0)] /\
  (run (cmd_bootbin dtb a)).1 = inr (Jumps a 0 dtb) /\
  (run (cmd_bootelf load dtb a)).1 =
    (if (load a).1 =? 0 then inr (Jumps (load a).2 0 dtb) else inl (-1)).
Proof.
  unfold run, srst_start, reboot_start, cmd_bootelf. rewrite !puts_bind, !ecall_bind.
  split_and!; try done.
  - destruct (sbi _ _ _ _); unfold stop; cbn [snd]; autorewrite with demos; cbn [app]; by autorewrite with demos.
  - destruct (sbi _ _ _ _); unfold stop; cbn [snd]; autorewrite with demos; cbn [app]; by autorewrite with demos.
  - destruct (load a) as [rc e]. cbn [fst snd]. by destruct (rc =? 0).
Qed.

End Demos.
