(* ===== verification/User.v ===== *)
(** The user programs that test processes and pipes: src/userland/pipeline_producer.c,
    pipeline_consumer.c, gate15_pipeline_stress.c, gate15_pipe_stress.c,
    gate15_batch_stress.c, gate15_process_stress.c and gate15_tty_stress.c.

    A program is a tree of the system calls it makes, with a function of the
    answer at each.  The kernel that answers is not part of the repository: what
    is proved of a program is proved for all answers that POSIX allows, given as
    a relation ([must]).  Pipeline.v puts several processes together. *)

From S2P Require Import Prelude Print.

Module User.

Import Print.

(** ** Programs *)

Definition EINTR : Z := 4.

(** What [write] returns, or [errno]. *)
Inductive reply := Val (n : Z) | Err (errno : Z).

(** What [read] delivers, or [errno]; no bytes at the end of the file. *)
Inductive bytes_read := Data (l : list Z) | ReadErr (errno : Z).

(** What [waitpid] returns with the status it stores, or [errno]. *)
Inductive waited := Waited (pid status : Z) | WaitErr (errno : Z).

Inductive call : Type -> Type :=
  | Write (fd : Z) (b : list Z) : call reply
  | Read (fd n : Z) : call bytes_read
  | Pipe : call (option (Z * Z))
  | Close (fd : Z) : call Z
  | Dup2 (oldfd newfd : Z) : call Z
  | Fork : call Z
  | Waitpid (pid : Z) : call waited
  | Execve (path : list Z) : call unit
  | Tcgetattr : call (option Z)
  | Tcsetattr (lflag : Z) : call Z
  | Printf (text : list Z) : call unit.

(** [Halt] is [_exit]. *)
Inductive prog (A : Type) : Type :=
  | Ret (a : A)
  | Halt (code : Z)
  | Call {R : Type} (c : call R) (k : R -> prog A)
  | Bind {X : Type} (p : prog X) (k : X -> prog A)
  | Loop {S : Type} (body : S -> prog (S + A)) (s : S).

Arguments Ret {A} a.
Arguments Halt {A} code.
Arguments Call {A R} c k.
Arguments Bind {A X} p k.
Arguments Loop {A S} body s.

#[global] Instance prog_ret : MRet prog := fun A a => Ret a.

#[global] Instance prog_bind : MBind prog := fun A B f p => Bind p f.

Definition sys {R} (c : call R) : prog R := Call c Ret.

(** What a program does next. *)
Inductive act (A : Type) : Type :=
  | ADone (a : A)
  | AHalt (code : Z)
  | ATau (p : prog A)
  | ACall {R : Type} (c : call R) (k : R -> prog A).

Arguments ADone {A} a.
Arguments AHalt {A} code.
Arguments ATau {A} p.
Arguments ACall {A R} c k.

Definition bind_act {X A} (a : act X) (k : X -> prog A) : act A :=
  match a with
  | ADone x => ATau (k x)
  | AHalt code => AHalt code
  | ATau p => ATau (Bind p k)
  | ACall c k' => ACall c (fun r => Bind (k' r) k)
  end.

(** A turn of a loop, and the rest of it. *)
Definition turn {S A} (body : S -> prog (S + A)) (s : S) : prog A :=
  Bind (body s) (fun r => match r with inl s => Loop body s | inr a => Ret a end).

Fixpoint act_of {A} (p : prog A) : act A :=
  match p with
  | Ret a => ADone a
  | Halt code => AHalt code
  | Call c k => ACall c k
  | Bind p k => bind_act (act_of p) k
  | Loop body s => ATau (turn body s)
  end.

(** ** Total correctness

    [must env spawns Q w p]: with answers as [env] allows them in the world [w], the
    program always has an answer to go on with, ends after finitely many calls, and
    [Q] holds of what it returns ([inl]) or exits with ([inr]).  At a fork, [spawns]
    holds of the code the child is left with. *)

(** What is asked of a child does not depend on what follows: it does not get there. *)
Class Spawns {W} (spawns : forall A, W -> prog A -> Prop) : Prop :=
  { spawns_bind : forall A X w (p : prog X) (k : X -> prog A), spawns X w p -> spawns A w (Bind p k) }.

(** For programs that do not fork. *)
Definition no_child {W} (A : Type) (w : W) (p : prog A) : Prop := True.

#[global] Instance no_child_spawns {W} : Spawns (@no_child W).
Proof. done. Qed.

Section Must.
Context {W : Type} (env : forall R, W -> call R -> R -> W -> Prop).
Context (spawns : forall A, W -> prog A -> Prop) {Hspawns : Spawns spawns}.

Definition child_ok {A R} (w : W) (c : call R) : (R -> prog A) -> Prop :=
  match c in call R return (R -> prog A) -> Prop with Fork => fun k => spawns A w (k 0) | _ => fun _ => True end.

Definition local_ok {A} (Q : A + Z -> W -> Prop) (w : W) (p : prog A) : Prop :=
  match act_of p with
  | ADone a => Q (inl a) w
  | AHalt code => Q (inr code) w
  | ATau _ => True
  | ACall c k => (exists r w', env _ w c r w') /\ child_ok w c k
  end.

Definition local_step {A} (w : W) (p : prog A) (w' : W) (p' : prog A) : Prop :=
  match act_of p with
  | ATau q => w' = w /\ p' = q
  | ACall c k => exists r, env _ w c r w' /\ p' = k r
  | _ => False
  end.

Inductive must {A} (Q : A + Z -> W -> Prop) (w : W) (p : prog A) : Prop :=
  | Must : local_ok Q w p -> (forall w' p', local_step w p w' p' -> must Q w' p') -> must Q w p.

Lemma must_ret {A} (Q : A + Z -> W -> Prop) w a : Q (inl a) w -> must Q w (Ret a).
Proof. intros HQ. by constructor. Qed.

Lemma must_halt {A} (Q : A + Z -> W -> Prop) w code : Q (inr code) w -> must Q w (Halt code).
Proof. intros HQ. by constructor. Qed.

Lemma must_tau {A} (Q : A + Z -> W -> Prop) w p q : act_of p = ATau q -> must Q w q -> must Q w p.
Proof.
  intros E Hq. constructor; unfold local_ok, local_step; rewrite E; [done|]. by intros w' p' [-> ->].
Qed.

Lemma must_mono {A} (Q Q' : A + Z -> W -> Prop) w p :
  (forall r w, Q r w -> Q' r w) -> must Q w p -> must Q' w p.
Proof.
  intros HQ H. induction H as [w p Hok _ IH]. constructor; [|done].
  unfold local_ok in *. destruct (act_of p); auto.
Qed.

(** A call followed by the rest of the program. *)
Lemma must_call {A R} (Q : A + Z -> W -> Prop) w (c : call R) (k : R -> prog A) :
  (exists r w', env _ w c r w') -> child_ok w c (fun r => Bind (Ret r) k) ->
  (forall r w', env _ w c r w' -> must Q w' (k r)) -> must Q w (sys c ≫= k).
Proof.
  intros Hex Hc Hk. constructor; [by split|]. intros w' p' (r & He & ->).
  apply must_tau with (k r); [done | by apply Hk].
Qed.

Lemma must_bind {A X} (Q : A + Z -> W -> Prop) w (p : prog X) (k : X -> prog A) :
  must (fun r w => match r with inl x => must Q w (k x) | inr code => Q (inr code) w end) w p ->
  must Q w (p ≫= k).
Proof.
  intros H. change (p ≫= k) with (Bind p k). induction H as [w p Hok Hs IH].
  constructor.
  - unfold local_ok in *. cbn [act_of]. destruct (act_of p) as [x|code|q|R c k']; [done..|].
    destruct Hok as [Hex Hc]. split; [done|]. destruct c; try done. by apply spawns_bind.
  - intros w' p'. unfold local_ok, local_step in *. cbn [act_of].
    destruct (act_of p) as [x|code|q|R c k']; cbn [bind_act]; [|intros []| |].
    + intros [-> ->]. exact Hok.
    + intros [-> ->]. apply IH. by split.
    + intros (r & He & ->). apply IH. by exists r.
Qed.

(** A loop, with an invariant on its state and a measure that decreases. *)
Lemma must_loop {A S} (Q : A + Z -> W -> Prop) (I : nat -> S -> W -> Prop) (body : S -> prog (S + A)) :
  (forall n s w, I n s w ->
    must (fun r w => match r with
                     | inl (inl s') => exists n', (n' < n)%nat /\ I n' s' w
                     | inl (inr a) => Q (inl a) w
                     | inr code => Q (inr code) w
                     end) w (body s)) ->
  forall n s w, I n s w -> must Q w (Loop body s).
Proof.
  intros Hbody n. induction (lt_wf n) as [n _ IH]. intros s w HI.
  eapply must_tau; [reflexivity|]. apply must_bind. eapply must_mono; [|by apply Hbody].
  intros [[s'|a]|code] w'; cbn; [|apply must_ret|done].
  intros (n' & Hn & HI'). by apply (IH n' Hn).
Qed.

End Must.

(** ** The C library *)

Definition isspace (c : Z) : bool := (c =? 32) || ((9 <=? c) && (c <=? 13)).

Definition isdigit (c : Z) : bool := (48 <=? c) && (c <=? 57).

(** The longest prefix of characters that satisfy [f], and the rest. *)
Fixpoint span (f : Z -> bool) (s : list Z) : list Z * list Z :=
  match s with
  | [] => ([], [])
  | c :: s' => if f c then let '(a, b) := span f s' in (c :: a, b) else ([], s)
  end.

Definition digits_value (ds : list Z) : Z := fold_left (fun v d => 10 * v + (d - 48)) ds 0.

(** [strtoul(s, &end, 10)] with a 32-bit [unsigned long]: the value, what is left at
    [end] ([None] when there was no number and [end] is [s]), and [errno != 0]. *)
Definition strtoul (s : list Z) : Z * option (list Z) * bool :=
  let '(_, t) := span isspace s in
  let '(neg, t) := match t with
                   | 43 :: t' => (false, t')
                   | 45 :: t' => (true, t')
                   | _ => (false, t)
                   end in
  let '(ds, rest) := span isdigit t in
  match ds with
  | [] => (0, None, false)
  | _ =>
      let v := digits_value ds in
      if 4294967296 <=? v then (4294967295, Some rest, true)
      else ((if neg : bool then u32 (- v) else v), Some rest, false)
  end.

(** [errno == 0 && end != text && *end == '\0' && value != 0U && value <= maximum] *)
Definition count_ok (r : Z * option (list Z) * bool) (maximum : Z) : bool :=
  let '(value, rest, err) := r in
  negb err && match rest with Some [] => true | _ => false end && negb (value =? 0) && (value <=? maximum).

Lemma span_forall f s : Forall (fun c => f c = true) (span f s).1.
Proof.
  induction s as [|c s IH]; [constructor|]. cbn [span]. destruct (f c) eqn:E; [|constructor].
  destruct (span f s) as [a b]. by constructor.
Qed.

Lemma strtoul_range s v rest err : strtoul s = (v, rest, err) -> is_u32 v.
Proof.
  unfold strtoul. destruct (span isspace s) as [sp t].
  match goal with |- context [let '(_, _) := ?m in _] => destruct m as [neg t'] end.
  pose proof (span_forall isdigit t') as Hds. destruct (span isdigit t') as [ds t'']. cbn [fst] in Hds.
  assert (forall l a, Forall (fun c => isdigit c = true) l -> 0 <= a ->
    0 <= fold_left (fun v d => 10 * v + (d - 48)) l a) as Hpos.
  { induction l as [|d l IH]; intros a Hl Ha; [done|]. cbn [fold_left]. inversion Hl; subst.
    apply IH; [done|]. unfold isdigit in *. zbool. lia. }
  destruct ds as [|d ds]; [intros [= <- _ _]; mlia|].
  pose proof (Hpos (d :: ds) 0 Hds ltac:(lia)) as Hv. fold (digits_value (d :: ds)) in Hv.
  case_if; intros [= <- _ _]; [mlia|]. zbool. destruct neg; mlia.
Qed.

Definition WIFEXITED (status : Z) : bool := Z.land status 0x7f =? 0.

Definition WEXITSTATUS (status : Z) : Z := Z.land (Z.shiftr status 8) 0xff.

(** [%lu] and [%u] *)
Definition dec (v : Z) : list Z := putdec v.

(** ** Input and output in full *)

(** [write_all(fd, buffer, size)]; the four programs that have it agree. *)
Definition write_all (fd : Z) (buffer : list Z) : prog Z :=
  Loop (fun written : nat =>
    if decide (written < length buffer)%nat then
      result ← sys (Write fd (drop written buffer));
      match result with
      | Val n => if 0 <? n then Ret (inl (written + Z.to_nat n)%nat) else Ret (inr (-1))
      | Err errno => if errno =? EINTR then Ret (inl written) else Ret (inr (-1))
      end
    else Ret (inr 0)) 0%nat.

(** [write_all] writes all of its buffer, in however many pieces: [I k] holds when [k]
    bytes are written, and [sg] bounds the interruptions. *)
Lemma must_write_all {W} (env : forall R, W -> call R -> R -> W -> Prop) spawns `{!Spawns spawns} fd b
    (I : nat -> W -> Prop) (sg : W -> nat) w :
  (forall k w, I k w -> (k < length b)%nat ->
     (exists r w', env _ w (Write fd (drop k b)) r w') /\
     forall r w', env _ w (Write fd (drop k b)) r w' ->
       (exists n, (0 < n <= length b - k)%nat /\ r = Val (Z.of_nat n) /\ I (k + n)%nat w' /\ sg w' = sg w) \/
       (r = Err EINTR /\ I k w' /\ (sg w' < sg w)%nat)) ->
  I 0%nat w -> must env spawns (fun ret w' => ret = inl 0 /\ I (length b) w') w (write_all fd b).
Proof.
  intros Hstep H0. unfold write_all.
  apply (must_loop _ _ _ (fun n k w => (k <= length b)%nat /\ I k w /\ n = (length b - k + sg w)%nat))
    with (n := (length b - 0 + sg w)%nat); [|split_and!; done || lia].
  intros n k w' (Hk & HI & ->). case_decide as Hlt.
  - destruct (Hstep k w' HI Hlt) as [Hex Hans]. apply must_call; [done|done|].
    intros r w1 He. destruct (Hans r w1 He) as [(n & Hn & -> & HI' & Hsg)|(-> & HI' & Hsg)].
    + rewrite (proj2 (Z.ltb_lt 0 _)) by lia. apply must_ret. rewrite Nat2Z.id.
      eexists. split; [|split_and!; [lia | exact HI' | reflexivity]]. lia.
    + cbn [Z.eqb]. apply must_ret. eexists. split; [|split_and!; [exact Hk | exact HI' | reflexivity]]. lia.
  - apply must_ret. split; [done|]. by replace (length b) with k by lia.
Qed.

(** What is left of a buffer is not empty while bytes are missing. *)
Lemma drop_not_nil (k : nat) (b : list Z) : (k < length b)%nat -> drop k b <> [].
Proof. intros Hk E%(f_equal length). rewrite length_drop in E. cbn in E. lia. Qed.

(** [read_all(fd, buffer, size)]: the code and the bytes stored in [buffer]. *)
Definition read_all (fd : Z) (size : nat) : prog (Z * list Z) :=
  Loop (fun buffer : list Z =>
    if decide (length buffer < size)%nat then
      result ← sys (Read fd (Z.of_nat (size - length buffer)));
      match result with
      | Data (c :: l) => Ret (inl (buffer ++ c :: l))
      | ReadErr errno => if errno =? EINTR then Ret (inl buffer) else Ret (inr (-1, buffer))
      | Data [] => Ret (inr (-1, buffer))
      end
    else Ret (inr (0, buffer))) [].

(** [do { result = waitpid(pid, &status, 0); } while (result < 0 && errno == EINTR);] *)
Definition wait_loop (pid : Z) : prog waited :=
  Loop (fun _ : unit =>
    r ← sys (Waitpid pid);
    match r with
    | WaitErr errno => if errno =? EINTR then Ret (inl tt) else Ret (inr r)
    | Waited _ _ => Ret (inr r)
    end) tt.

(** [result == pid && WIFEXITED(status) && WEXITSTATUS(status) == 0] *)
Definition clean (pid : Z) (r : waited) : bool :=
  match r with
  | Waited result status => (result =? pid) && WIFEXITED status && (WEXITSTATUS status =? 0)
  | WaitErr _ => false
  end.

Definition wait_clean (pid : Z) : prog Z :=
  r ← wait_loop pid; Ret (if clean pid r then 0 else -1).

(** [for (round = 0U; round < rounds; round++)]: the code of an early return. *)
Definition rounds_loop (rounds : Z) (one : Z -> prog (option Z)) : prog (option Z) :=
  Loop (fun round : Z =>
    if round <? rounds then
      r ← one round;
      match r with Some code => Ret (inr (Some code)) | None => Ret (inl (round +! 1)) end
    else Ret (inr None)) 0.

Lemma must_rounds {W} (env : forall R, W -> call R -> R -> W -> Prop) spawns `{!Spawns spawns} rounds one
    (I : Z -> W -> Prop) (Q : option Z + Z -> W -> Prop) w :
  is_u32 rounds -> (forall w, I rounds w -> Q (inl None) w) ->
  (forall i w, 0 <= i < rounds -> I i w ->
     must env spawns (fun ret w' => match ret with inl None => I (i + 1) w' | _ => Q ret w' end) w (one i)) ->
  I 0 w -> must env spawns Q w (rounds_loop rounds one).
Proof.
  intros Hr Hend Hone H0. unfold rounds_loop.
  apply (must_loop _ _ _ (fun n i w => 0 <= i <= rounds /\ I i w /\ n = Z.to_nat (rounds - i)))
    with (n := Z.to_nat (rounds - 0)); [|split_and!; done || mlia].
  intros n i w' (Hi & HI & ->). case_if; zbool.
  - apply must_bind; [exact _|]. eapply must_mono; [|apply (Hone i w'); [lia | done]].
    intros [[code|]|code] w1 H; cbn in H; [by apply must_ret | | done].
    apply must_ret. rewrite (u32_small (i + 1)) by mlia.
    eexists. split; [|split_and!; [lia | lia | exact H | reflexivity]]. lia.
  - apply must_ret. apply Hend. by replace rounds with i by lia.
Qed.

(** ** The pipeline test (gate15_pipeline_stress.c) *)

Definition GATE15_PIPELINE_MAX_ROUNDS : Z := 100.

Definition GATE15_PIPELINE_BYTES : Z := 12288.

Definition GATE15_PIPELINE_CHUNK : Z := 256.

(** [buffer[i] = (uint8_t)(offset + i)] for the bytes of a buffer *)
Definition fill (offset : Z) (size : nat) : list Z := (fun i => u8 (offset + Z.of_nat i)) <$> seq 0 size.

(** The loop of the producers; [code] is what a failed write makes them return. *)
Definition produce (code : Z) : prog Z :=
  Loop (fun offset : Z =>
    if offset <? GATE15_PIPELINE_BYTES then
      rc ← write_all 1 (fill offset (Z.to_nat GATE15_PIPELINE_CHUNK));
      if negb (rc =? 0) then Ret (inr code) else Ret (inl (offset +! GATE15_PIPELINE_CHUNK))
    else Ret (inr 0)) 0.

Definition run_producer : prog Z := produce 10.

(** The loop over the bytes of a buffer; [None] is the early return. *)
Fixpoint check_bytes (total i checksum : Z) (l : list Z) : option Z :=
  match l with
  | [] => Some checksum
  | c :: l => if negb (c =? u8 (total +! i)) then None else check_bytes total (i +! 1) (checksum +! c) l
  end.

Definition run_consumer : prog Z :=
  Loop (fun '(total, checksum) =>
    count ← sys (Read 0 257);
    match count with
    | Data [] =>
        Ret (inr (if (total =? GATE15_PIPELINE_BYTES) && (checksum =? 1566720) then 0 else 13))
    | ReadErr errno => if errno =? EINTR then Ret (inl (total, checksum)) else Ret (inr 11)
    | Data l =>
        match check_bytes total 0 checksum l with
        | None => Ret (inr 12)
        | Some checksum => Ret (inl (total +! Z.of_nat (length l), checksum))
        end
    end) (0, 0).

(** The code of the two children. *)
Definition producer_child {A} (r w : Z) : prog A :=
  d ← sys (Dup2 w 1);
  if d <? 0 then Halt 92
  else sys (Close r);; sys (Close w);; code ← run_producer; Halt code.

Definition consumer_child {A} (r w : Z) : prog A :=
  d ← sys (Dup2 r 0);
  if d <? 0 then Halt 93
  else sys (Close r);; sys (Close w);; code ← run_consumer; Halt code.

(** [a() != 0 || b() != 0 || ...] of calls that return a code *)
Fixpoint any_fails (ps : list (prog Z)) : prog bool :=
  match ps with
  | [] => Ret false
  | p :: ps => rc ← p; if negb (rc =? 0) then Ret true else any_fails ps
  end.

(** The body of the loop of [main]. *)
Definition pipeline_round (_ : Z) : prog (option Z) :=
  fds ← sys Pipe;
  match fds with
  | None => Ret (Some 5)
  | Some (r, w) =>
      producer ← sys Fork;
      if producer =? 0 then producer_child r w
      else if producer <? 0 then Ret (Some 6)
      else
        consumer ← sys Fork;
        if consumer =? 0 then consumer_child r w
        else if consumer <? 0 then Ret (Some 7)
        else
          failed ← any_fails [sys (Close r); sys (Close w); wait_clean producer; wait_clean consumer];
          Ret (if failed : bool then Some 8 else None)
  end.

Definition pipeline_report (rounds : Z) : list Z :=
  "[process-gate-15] pipelines=" ++ dec rounds ++ " processes=" ++ dec (rounds *! 2) ++
  " transfer-bytes=" ++ dec (rounds *! GATE15_PIPELINE_BYTES) ++ " PASS\n".

Definition pipeline_stress (argv : list (list Z)) : prog Z :=
  match argv with
  | [_; arg] =>
      let '(rounds, rest, err) := strtoul arg in
      if negb (count_ok (rounds, rest, err) GATE15_PIPELINE_MAX_ROUNDS) then Ret 3
      else
        code ← rounds_loop rounds pipeline_round;
        match code with
        | Some code => Ret code
        | None => sys (Printf (pipeline_report rounds));; Ret 0
        end
  | _ => Ret 2
  end.

(** ** The shell pipeline (pipeline_producer.c, pipeline_consumer.c) *)

(** [main] of the producer. *)
Definition pipeline_producer (argv : list (list Z)) : prog Z :=
  match argv with
  | [_; arg] =>
      if decide (arg = cstr "--stderr")
      then rc ← write_all 2 "[pipeline-producer] stderr redirection PASS\n"; Ret (if rc =? 0 then 0 else 2)
      else produce 3
  | _ => produce 3
  end.

Definition PIPELINE_TOTAL_BYTES : Z := 12288.

Definition PIPELINE_EXPECTED_SUM : Z := 1566720.

(** The loop over the bytes of a buffer: the checksum and the mismatches. *)
Fixpoint count_bytes (text_mode : bool) (total i : Z) (acc : Z * Z) (l : list Z) : Z * Z :=
  match l with
  | [] => acc
  | c :: l =>
      let '(checksum, mismatches) := acc in
      count_bytes text_mode total (i +! 1)
        (checksum +! c,
         if negb text_mode && negb (c =? u8 (total +! i)) then mismatches +! 1 else mismatches) l
  end.

(** The loop that reads: the three counts, or [None] for the early return. *)
Definition consume (text_mode : bool) : prog (option (Z * Z * Z)) :=
  Loop (fun '(total, checksum, mismatches) =>
    count ← sys (Read 0 257);
    match count with
    | Data [] => Ret (inr (Some (total, checksum, mismatches)))
    | ReadErr errno =>
        if errno =? EINTR then Ret (inl (total, checksum, mismatches)) else Ret (inr None)
    | Data l =>
        let '(checksum, mismatches) := count_bytes text_mode total 0 (checksum, mismatches) l in
        Ret (inl (total +! Z.of_nat (length l), checksum, mismatches))
    end) (0, 0, 0).

(** The end of [main]: the report goes to [stdout]; it fits its buffer. *)
Definition consumer_report (report : list Z) : prog Z :=
  if decide (length report = 0%nat) then Ret 6
  else if decide (160 <= length report)%nat then Ret 6
  else rc ← write_all 1 report; Ret (if rc =? 0 then 0 else 6).

Definition pipeline_consumer (argv : list (list Z)) : prog Z :=
  let text_mode := match argv with [_; arg] => bool_decide (arg = cstr "--text") | _ => false end in
  counts ← consume text_mode;
  match counts with
  | None => Ret 4
  | Some (total, checksum, mismatches) =>
      if text_mode : bool
      then consumer_report ("[pipeline-consumer] redirected input bytes=" ++ dec total ++ " PASS\n")
      else if negb (total =? PIPELINE_TOTAL_BYTES) || negb (checksum =? PIPELINE_EXPECTED_SUM) ||
              negb (mismatches =? 0)
      then write_all 2 ("[pipeline-consumer] FAIL bytes=" ++ dec total ++ " checksum=" ++ dec checksum ++
             " mismatches=" ++ dec mismatches ++ "\n");; Ret 5
      else consumer_report ("[pipeline-consumer] bytes=" ++ dec total ++ " checksum=" ++ dec checksum ++
             " pattern=sequential PASS\n")
  end.

(** ** The pipe test (gate15_pipe_stress.c) *)

Definition GATE15_PIPE_BYTES : nat := 64.

Definition GATE15_PIPE_MAX_ROUNDS : Z := 1000.

Definition pipe_round (round : Z) : prog (option Z) :=
  let sent := fill round GATE15_PIPE_BYTES in
  fds ← sys Pipe;
  match fds with
  | None => Ret (Some 4)
  | Some (r, w) =>
      failed ← any_fails [write_all w sent; sys (Close w)];
      if failed : bool then Ret (Some 4)
      else
        '(rc, received) ← read_all r GATE15_PIPE_BYTES;
        if negb (rc =? 0) then Ret (Some 4)
        else
          failed ← any_fails [sys (Close r)];
          if failed : bool then Ret (Some 4)
          else Ret (if decide (received = sent) then None else Some 5)
  end.

(** [total_bytes] after the loop. *)
Fixpoint add_bytes (rounds : nat) (total : Z) : Z :=
  match rounds with O => total | S n => add_bytes n (total +! Z.of_nat GATE15_PIPE_BYTES) end.

Definition pipe_report (rounds : Z) : list Z :=
  "[process-gate-15] pipes=" ++ dec rounds ++ " bytes=" ++ dec (add_bytes (Z.to_nat rounds) 0) ++
  " alloc-close/read-write verified PASS\n".

Definition pipe_stress (argv : list (list Z)) : prog Z :=
  match argv with
  | [_; arg] =>
      let '(rounds, rest, err) := strtoul arg in
      if negb (count_ok (rounds, rest, err) GATE15_PIPE_MAX_ROUNDS) then Ret 3
      else
        code ← rounds_loop rounds pipe_round;
        match code with
        | Some code => Ret code
        | None => sys (Printf (pipe_report rounds));; Ret 0
        end
  | _ => Ret 2
  end.

(** ** Processes (gate15_batch_stress.c, gate15_process_stress.c) *)

Definition GATE15_BATCH_MAX : Z := 10.

Definition GATE15_BATCHES_MAX : Z := 10.

Definition parse_count (text : list Z) (maximum : Z) : Z :=
  let '(value, rest, err) := strtoul text in
  if count_ok (value, rest, err) maximum then value else 0.

(** [children[i] = fork()] for [i] from [length children] on; [inr] is an early return. *)
Fixpoint fork_children (n : nat) (children : list Z) : prog (list Z + Z) :=
  match n with
  | O => Ret (inl children)
  | S n =>
      pid ← sys Fork;
      if pid =? 0 then Halt 0
      else if pid <? 0 then Ret (inr 4)
      else fork_children n (children ++ [pid])
  end.

(** The loop that waits, for the last child first. *)
Fixpoint wait_children (children : list Z) (completed : Z) : prog (Z + Z) :=
  match children with
  | [] => Ret (inl completed)
  | pid :: children =>
      r ← wait_loop pid;
      if negb (clean pid r) then Ret (inr 5) else wait_children children (completed +! 1)
  end.

Definition batch_loop (batches width : Z) : prog (Z + Z) :=
  Loop (fun '(batch, completed) =>
    if batch <? batches then
      c ← fork_children (Z.to_nat width) [];
      match c with
      | inr code => Ret (inr (inr code))
      | inl children =>
          r ← wait_children (rev children) completed;
          match r with
          | inr code => Ret (inr (inr code))
          | inl completed => Ret (inl (batch +! 1, completed))
          end
      end
    else Ret (inr (inl completed))) (0, 0).

Definition batch_report (batches width completed : Z) : list Z :=
  "[process-gate-15] child-batches=" ++ dec batches ++ " batch-width=" ++ dec width ++
  " fork-exit-wait=" ++ dec completed ++ " zombies=0 PASS\n".

Definition batch_stress (argv : list (list Z)) : prog Z :=
  match argv with
  | [_; arg1; arg2] =>
      let batches := parse_count arg1 GATE15_BATCHES_MAX in
      let width := parse_count arg2 GATE15_BATCH_MAX in
      if (batches =? 0) || (width =? 0) then Ret 3
      else
        r ← batch_loop batches width;
        match r with
        | inr code => Ret code
        | inl completed => sys (Printf (batch_report batches width completed));; Ret 0
        end
  | _ => Ret 2
  end.

Definition GATE15_MAX_ROUNDS : Z := 1000.

Definition run_child (do_exec : bool) : prog Z :=
  if do_exec then sys (Execve "/bin/gate15-worker");; Ret 92 else Ret 0.

(** [while (waitpid(pid, &status, 0) < 0) { if (errno != EINTR) return 5; }] *)
Definition process_round (do_exec : bool) (_ : Z) : prog (option Z) :=
  pid ← sys Fork;
  if pid =? 0 then code ← run_child do_exec; Halt code
  else if pid <? 0 then Ret (Some 4)
  else
    r ← wait_loop pid;
    match r with
    | WaitErr _ => Ret (Some 5)
    | Waited _ status =>
        Ret (if negb (WIFEXITED status) || negb (WEXITSTATUS status =? 0) then Some 6 else None)
    end.

Definition process_report (do_exec : bool) (parsed : Z) : list Z :=
  "[process-gate-15] fork-" ++ (if do_exec then cstr "exec" else cstr "only") ++ "-exit-wait rounds=" ++
  dec parsed ++ " PASS\n".

Definition process_stress (argv : list (list Z)) : prog Z :=
  match argv with
  | [_; mode; arg] =>
      if negb (bool_decide (mode = cstr "fork")) && negb (bool_decide (mode = cstr "exec")) then Ret 2
      else
        let do_exec := bool_decide (mode = cstr "exec") in
        let '(parsed, rest, err) := strtoul arg in
        if negb (count_ok (parsed, rest, err) GATE15_MAX_ROUNDS) then Ret 3
        else
          code ← rounds_loop parsed (process_round do_exec);
          match code with
          | Some code => Ret code
          | None => sys (Printf (process_report do_exec parsed));; Ret 0
          end
  | _ => Ret 2
  end.

(** ** Terminal input (gate15_tty_stress.c) *)

Definition GATE15_TTY_LINES : Z := 1000.

Definition GATE15_TTY_BATCH : Z := 100.

Definition ECHO : Z := 8.

(** [read_line(line, capacity)]: the bytes read, or [None] for -1. *)
Definition read_line (capacity : Z) : prog (option (list Z)) :=
  Loop (fun _ : unit =>
    count ← sys (Read 0 (capacity - 1));
    match count with
    | Data (c :: l) => Ret (inr (Some (c :: l)))
    | ReadErr errno => if errno =? EINTR then Ret (inl tt) else Ret (inr None)
    | Data [] => Ret (inr None)
    end) tt.

(** What [strcmp] sees of a buffer. *)
Fixpoint upto_nul (l : list Z) : list Z :=
  match l with [] => [] | c :: l => if c =? 0 then [] else c :: upto_nul l end.

(** [snprintf(expected, sizeof(expected), "L%04u\n", line_index)] *)
Definition expected_line (index : Z) : list Z :=
  "L" ++ replicate (4 - length (dec index)) 48 ++ dec index ++ "\n".

(** [count != expected_count || strcmp(line, expected) != 0] *)
Definition line_ok (r : option (list Z)) (index : Z) : bool :=
  match r with
  | None => false
  | Some line =>
      bool_decide (length line = length (expected_line index)) &&
      bool_decide (upto_nul line = expected_line index)
  end.

Definition tty_round (original index : Z) : prog (option Z) :=
  r ← read_line 32;
  if negb (line_ok r index) then sys (Tcsetattr original);; Ret (Some 5)
  else if (index +! 1) mod GATE15_TTY_BATCH =? 0
  then sys (Printf ("[process-gate-15] tty-progress=" ++ dec (index +! 1) ++ "\n"));; Ret None
  else Ret None.

Definition tty_stress (argv : list (list Z)) : prog Z :=
  match argv with
  | [_; arg] =>
      if negb (bool_decide (arg = cstr "1000")) then Ret 2
      else
        attr ← sys Tcgetattr;
        match attr with
        | None => Ret 3
        | Some original =>
            rc ← sys (Tcsetattr (original &! not32 ECHO));
            if negb (rc =? 0) then Ret 4
            else
              sys (Printf ("[process-gate-15] tty-ready lines=" ++ dec GATE15_TTY_LINES ++ " batch=" ++
                dec GATE15_TTY_BATCH ++ "\n"));;
              code ← rounds_loop GATE15_TTY_LINES (tty_round original);
              match code with
              | Some code => Ret code
              | None =>
                  rc ← sys (Tcsetattr original);
                  if negb (rc =? 0) then Ret 6
                  else
                    sys (Printf "[process-gate-15] tty-lines=1000 content=validated canonical-blocking PASS\n");;
                    Ret 0
              end
        end
  | _ => Ret 2
  end.

End User.
