(* ===== verification/Pipeline.v ===== *)
(** Processes and pipes, and the pipeline test (src/userland/gate15_pipeline_stress.c)
    as a system of three processes.

    [ostep] is what POSIX says of the calls the program makes: a fork copies the
    descriptors, a pipe has room for [ROOM] bytes, writes and reads may be short,
    block and be interrupted, the end of the file is read when no process has the
    pipe open for writing, and a write with no reader kills.  Calls to pipe, fork, dup2
    and close are taken to succeed, and interruptions to be finitely many.  The theorem
    is about every interleaving. *)

From stdpp Require Import gmap.
From S2P Require Import Prelude Print User.

Module Pipeline.

Import User.

(** ** The system *)

Inductive fdesc := Terminal | PipeR (id : Z) | PipeW (id : Z).

Record proc := Proc {
  code : prog Z;
  fds : gmap Z fdesc;
  sigs : nat;
}.

Inductive pstate := Running (p : proc) | Zombie (status : Z).

Record os := Os {
  procs : Z -> option pstate;
  pipes : gmap Z (list Z);
  console : list Z;
}.

(** The table of processes with one entry changed. *)
Definition put (pid : Z) (s : option pstate) (f : Z -> option pstate) (q : Z) : option pstate :=
  if decide (q = pid) then s else f q.

Definition has_end (d : fdesc) (o : os) : Prop :=
  exists (pid : Z) (p : proc) (fd : Z), procs o pid = Some (Running p) /\ fds p !! fd = Some d.

Definition set_proc (pid : Z) (s : pstate) (o : os) : os := Os (put pid (Some s) (procs o)) (pipes o) (console o).

Definition set_pipe (id : Z) (buf : list Z) (o : os) : os := Os (procs o) (<[id := buf]> (pipes o)) (console o).

(** The end of a process: its descriptors are closed, the status is kept. *)
Definition exit (pid c : Z) (o : os) : os := set_proc pid (Zombie (Z.shiftl (Z.land c 0xff) 8)) o.

Section Posix.

(** The room in a pipe, and how many signals may interrupt a process. *)
Context (ROOM SIGS : nat).

(** A call of process [pid], which is [p], with the rest [k] of its code. *)
Definition answers {R} (o : os) (pid : Z) (p : proc) (c : call R) : (R -> prog Z) -> os -> Prop :=
  let go k' o := set_proc pid (Running (Proc k' (fds p) (sigs p))) o in
  let go_fds k' t o := set_proc pid (Running (Proc k' t (sigs p))) o in
  let interrupted k' o o' :=
    exists n, sigs p = S n /\ o' = set_proc pid (Running (Proc k' (fds p) n)) o in
  match c in call R return (R -> prog Z) -> os -> Prop with
  | Write fd b => fun k o' =>
      exists id buf, fds p !! fd = Some (PipeW id) /\ pipes o !! id = Some buf /\
      ((has_end (PipeR id) o /\ exists n, (0 < n <= length b)%nat /\ (length buf + n <= ROOM)%nat /\
          o' = go (k (Val (Z.of_nat n))) (set_pipe id (buf ++ take n b) o)) \/
       (~ has_end (PipeR id) o /\ o' = set_proc pid (Zombie 13) o) \/
       interrupted (k (Err EINTR)) o o')
  | Read fd n => fun k o' =>
      exists id buf, fds p !! fd = Some (PipeR id) /\ pipes o !! id = Some buf /\
      ((exists l buf', buf = l ++ buf' /\ l <> [] /\ Z.of_nat (length l) <= n /\
          o' = go (k (Data l)) (set_pipe id buf' o)) \/
       (buf = [] /\ ~ has_end (PipeW id) o /\ o' = go (k (Data [])) o) \/
       interrupted (k (ReadErr EINTR)) o o')
  | Pipe => fun k o' =>
      exists r w id, r <> w /\ fds p !! r = None /\ fds p !! w = None /\ pipes o !! id = None /\
      o' = go_fds (k (Some (r, w))) (<[r := PipeR id]> (<[w := PipeW id]> (fds p))) (set_pipe id [] o)
  | Close fd => fun k o' => is_Some (fds p !! fd) /\ o' = go_fds (k 0) (delete fd (fds p)) o
  | Dup2 a b => fun k o' => exists d, fds p !! a = Some d /\ o' = go_fds (k b) (<[b := d]> (fds p)) o
  | Fork => fun k o' =>
      exists child : Z, 0 < child /\ procs o child = None /\
      o' = set_proc child (Running (Proc (k 0) (fds p) SIGS)) (go (k child) o)
  | Waitpid child => fun k o' =>
      (exists st, procs o child = Some (Zombie st) /\
         o' = go (k (Waited child st)) (Os (put child None (procs o)) (pipes o) (console o))) \/
      interrupted (k (WaitErr EINTR)) o o'
  | Printf text => fun k o' => o' = go (k tt) (Os (procs o) (pipes o) (console o ++ text))
  | _ => fun _ _ => False
  end.

Definition proc_step (o : os) (pid : Z) (p : proc) (o' : os) : Prop :=
  match act_of (code p) with
  | ADone a => o' = exit pid a o
  | AHalt c => o' = exit pid c o
  | ATau q => o' = set_proc pid (Running (Proc q (fds p) (sigs p))) o
  | ACall c k => answers o pid p c k o'
  end.

Definition ostep (o o' : os) : Prop :=
  exists (pid : Z) (p : proc), procs o pid = Some (Running p) /\ proc_step o pid p o'.

(** However the processes are scheduled, the system gets to a state with [G]. *)
Inductive inevitably (G : os -> Prop) (o : os) : Prop :=
  | Now : G o -> inevitably G o
  | Later : (exists o', ostep o o') -> (forall o', ostep o o' -> inevitably G o') -> inevitably G o.

End Posix.

(** ** What the programs send and receive *)

Lemma length_fill o n : length (fill o n) = n.
Proof. unfold fill. by rewrite length_fmap, length_seq. Qed.

Lemma fill_app o n m : fill o n ++ fill (o + Z.of_nat n) m = fill o (n + m).
Proof.
  unfold fill. rewrite seq_app, fmap_app. f_equal. cbn [Nat.add].
  assert (seq n m = Nat.add n <$> seq 0 m) as -> by (rewrite fmap_add_seq; f_equal; lia).
  rewrite <- list_fmap_compose. apply list_fmap_ext. intros i x _. cbn. f_equal. lia.
Qed.

Lemma fill_split o n l rest : fill o n = l ++ rest ->
  l = fill o (length l) /\ rest = fill (o + Z.of_nat (length l)) (n - length l).
Proof.
  intros E. assert (length l <= n)%nat as Hl by (rewrite <- (length_fill o n), E, length_app; lia).
  replace n with (length l + (n - length l))%nat in E by lia. rewrite <- fill_app in E.
  apply app_inj_1 in E as [<- <-]; [|by rewrite length_fill]. by rewrite length_fill.
Qed.

(** What the producer writes; sealed, since it is never to be computed. *)
Definition stream_def : list Z := fill 0 (Z.to_nat GATE15_PIPELINE_BYTES).

Definition stream_aux : seal stream_def.
Proof. by eexists. Qed.

Definition stream : list Z := unseal stream_aux.

Lemma stream_eq : stream = fill 0 (Z.to_nat GATE15_PIPELINE_BYTES).
Proof. apply (seal_eq stream_aux). Qed.

(** *** The producer

    What it is told depends on how far it is: 0 at the start, then 1 with the pipe
    as descriptor 1, 2 and 3 with the other descriptors closed. *)
Record sender := Sender { s_stage : nat; s_out : list Z; s_sigs : nat }.

Definition send_env (r w : Z) (R : Type) (s : sender) (c : call R) : R -> sender -> Prop :=
  match c in call R return R -> sender -> Prop with
  | Dup2 a b => fun ret s' =>
      a = w /\ b = 1 /\ s_stage s = 0%nat /\ ret = b /\ s' = Sender 1 (s_out s) (s_sigs s)
  | Close fd => fun ret s' =>
      ret = 0 /\ ((fd = r /\ s_stage s = 1%nat /\ s' = Sender 2 (s_out s) (s_sigs s)) \/
                  (fd = w /\ s_stage s = 2%nat /\ s' = Sender 3 (s_out s) (s_sigs s)))
  | Write fd b => fun ret s' =>
      fd = 1 /\ s_stage s = 3%nat /\ b <> [] /\
      ((exists n, (0 < n <= length b)%nat /\ ret = Val (Z.of_nat n) /\
          s' = Sender 3 (s_out s ++ take n b) (s_sigs s)) \/
       (exists n, s_sigs s = S n /\ ret = Err EINTR /\ s' = Sender 3 (s_out s) n))
  | _ => fun _ _ => False
  end.

(** [write_all] writes all of its buffer, in however many pieces. *)
Lemma write_all_sends r w b s : s_stage s = 3%nat ->
  must (send_env r w) no_child (fun ret s' => ret = inl 0 /\ s_stage s' = 3%nat /\ s_out s' = s_out s ++ b) s
    (write_all 1 b).
Proof.
  intros Hs. eapply must_mono; [|apply (must_write_all _ _ 1 b (fun k s' => s_stage s' = 3%nat /\
    s_out s' = s_out s ++ take k b) s_sigs); [|by rewrite take_0, app_nil_r]].
  { intros ret s' (-> & H3 & Ho). by rewrite firstn_all in Ho. }
  intros k s' (H3 & Ho) Hk. pose proof (drop_not_nil k b Hk) as Hd. split.
  - exists (Val (Z.of_nat (length (drop k b)))). eexists. cbn. split_and!; try done.
    left. exists (length (drop k b)). rewrite length_drop. split; [lia | done].
  - intros ret s1 (_ & _ & _ & [(n & Hn & -> & ->)|(n & Hn & -> & ->)]); [left | right].
    + exists n. rewrite length_drop in Hn. cbn. by rewrite Ho, <- app_assoc, take_take_drop.
    + cbn. split_and!; try done. lia.
Qed.

Lemma produce_sends r w code s : s_stage s = 3%nat -> s_out s = [] ->
  must (send_env r w) no_child (fun ret s' => ret = inl 0 /\ s_out s' = stream) s (produce code).
Proof.
  intros Hs Ho. unfold produce.
  apply (must_loop _ _ _ (fun n offset s' => s_stage s' = 3%nat /\ 0 <= offset <= GATE15_PIPELINE_BYTES /\
    offset mod GATE15_PIPELINE_CHUNK = 0 /\ s_out s' = fill 0 (Z.to_nat offset) /\
    n = Z.to_nat (GATE15_PIPELINE_BYTES - offset)))
    with (n := Z.to_nat GATE15_PIPELINE_BYTES); [|by split_and!].
  unfold GATE15_PIPELINE_BYTES, GATE15_PIPELINE_CHUNK. intros n offset s' (H3 & Hb & Hmod & Ho' & ->). case_if; zbool.
  - apply must_bind; [exact _|]. eapply must_mono; [|by apply write_all_sends].
    intros ret s1 (-> & H3' & Ho1). cbn [negb Z.eqb]. apply must_ret. eexists. split; [|split_and!; try done].
    2-3: mlia.
    + mlia.
    + mlia.
    + rewrite Ho1, Ho'. rewrite <- (Z2Nat.id offset) at 2 by lia. rewrite <- (Z.add_0_l (Z.of_nat _)).
      rewrite fill_app. f_equal. mlia.
  - apply must_ret. split; [done|]. rewrite Ho', stream_eq. unfold GATE15_PIPELINE_BYTES. f_equal. lia.
Qed.

Definition sent {A} (ret : A + Z) (s : sender) : Prop := ret = inr 0 /\ s_out s = stream.

Lemma producer_child_sends {A} r w n : must (send_env r w) no_child sent (Sender 0 [] n) (producer_child (A := A) r w).
Proof.
  unfold producer_child. apply must_call; [eexists _, _; by split_and!|done|].
  intros d s1 (_ & _ & _ & -> & ->). cbn [Z.ltb Z.compare].
  apply must_call; [eexists _, _; split; [done|]; left; by split_and!|done|].
  intros d s2 (_ & [(_ & _ & ->)|(_ & [=] & _)]).
  apply must_call; [eexists _, _; split; [done|]; right; by split_and!|done|].
  intros d' s3 (_ & [(_ & [=] & _)|(_ & _ & ->)]).
  apply must_bind; [exact _|]. eapply must_mono; [|by apply produce_sends].
  intros ret s4 (-> & Ho). apply must_halt. by split.
Qed.

(** What was written is always the beginning of the stream. *)
Lemma sends_prefix {A} r w s (p : prog A) : must (send_env r w) no_child sent s p -> exists more, stream = s_out s ++ more.
Proof.
  induction 1 as [s p Hok _ IH]. unfold local_ok, local_step in *. destruct (act_of p) as [a|c|q|R c k].
  - destruct Hok as [_ ->]. exists []. by rewrite app_nil_r.
  - destruct Hok as [_ ->]. exists []. by rewrite app_nil_r.
  - by apply (IH s q).
  - destruct Hok as [(ret & s' & He) _]. destruct (IH s' (k ret)) as [more Hm]; [by exists ret|].
    rewrite Hm. destruct c; cbn in He; try done.
    + destruct He as (_ & _ & _ & [(n & _ & _ & ->)|(n & _ & _ & ->)]); cbn [s_out]; eexists;
        [by rewrite <- app_assoc | done].
    + destruct He as (_ & [(_ & _ & ->)|(_ & _ & ->)]); by exists more.
    + destruct He as (_ & _ & _ & _ & ->). by exists more.
Qed.

(** *** The consumer

    Stages as for the producer; 4 when the end of the file has been read. *)
Record receiver := Receiver { r_stage : nat; r_rest : list Z; r_sigs : nat }.

Definition recv_env (r w : Z) (R : Type) (s : receiver) (c : call R) : R -> receiver -> Prop :=
  match c in call R return R -> receiver -> Prop with
  | Dup2 a b => fun ret s' =>
      a = r /\ b = 0 /\ r_stage s = 0%nat /\ ret = b /\ s' = Receiver 1 (r_rest s) (r_sigs s)
  | Close fd => fun ret s' =>
      ret = 0 /\ ((fd = r /\ r_stage s = 1%nat /\ s' = Receiver 2 (r_rest s) (r_sigs s)) \/
                  (fd = w /\ r_stage s = 2%nat /\ s' = Receiver 3 (r_rest s) (r_sigs s)))
  | Read fd n => fun ret s' =>
      fd = 0 /\ r_stage s = 3%nat /\ 0 < n /\
      ((exists l rest, r_rest s = l ++ rest /\ l <> [] /\ Z.of_nat (length l) <= n /\ ret = Data l /\
          s' = Receiver 3 rest (r_sigs s)) \/
       (r_rest s = [] /\ ret = Data [] /\ s' = Receiver 4 [] (r_sigs s)) \/
       (exists n, r_sigs s = S n /\ ret = ReadErr EINTR /\ s' = Receiver 3 (r_rest s) n))
  | _ => fun _ _ => False
  end.

(** The checks of the consumer pass on the bytes of the stream. *)
Lemma check_bytes_fill n : forall total i checksum,
  0 <= total -> 0 <= i -> total + i + Z.of_nat n < 4294967296 ->
  check_bytes total i checksum (fill (total + i) n) =
    Some (fold_left (fun a c => a +! c) (fill (total + i) n) checksum).
Proof.
  induction n as [|n IH]; intros total i checksum Ht Hi Hn; [done|].
  replace (fill (total + i) (S n)) with (u8 (total + i) :: fill (total + (i + 1)) n).
  - cbn [check_bytes fold_left]. rewrite (u32_small (total + i)) by mlia. rewrite Z.eqb_refl. cbn [negb].
    rewrite (u32_small (i + 1)) by mlia. rewrite IH by lia. done.
  - change (S n) with (1 + n)%nat. rewrite <- fill_app. cbn. by rewrite Z.add_0_r, Z.add_assoc.
Qed.

Lemma stream_sum : fold_left (fun a c => a +! c) (fill 0 (Z.to_nat 12288)) 0 = 1566720.
Proof. vm_compute. reflexivity. Qed.

Definition received {A} (ret : A + Z) (s : receiver) : Prop := ret = inr 0 /\ r_stage s = 4%nat /\ r_rest s = [].

Lemma run_consumer_receives r w s : r_stage s = 3%nat -> r_rest s = stream ->
  must (recv_env r w) no_child (fun ret s' => ret = inl 0 /\ r_stage s' = 4%nat /\ r_rest s' = []) s run_consumer.
Proof.
  intros Hs Hr. rewrite stream_eq in Hr. unfold run_consumer.
  apply (must_loop _ _ _ (fun n '(total, checksum) s' => r_stage s' = 3%nat /\ 0 <= total <= GATE15_PIPELINE_BYTES /\
    r_rest s' = fill total (Z.to_nat (GATE15_PIPELINE_BYTES - total)) /\
    checksum = fold_left (fun a c => a +! c) (fill 0 (Z.to_nat total)) 0 /\
    n = (Z.to_nat (GATE15_PIPELINE_BYTES - total) + r_sigs s')%nat))
    with (n := (Z.to_nat GATE15_PIPELINE_BYTES + r_sigs s)%nat); [|by split_and!].
  unfold GATE15_PIPELINE_BYTES. intros n [total checksum] s' (H3 & Ht & Hrest & Hsum & ->). apply must_call; [|done|].
  { destruct (r_rest s') as [|c l] eqn:E.
    - exists (Data []), (Receiver 4 [] (r_sigs s')). cbn. split_and!; try done. right. left. done.
    - exists (Data [c]), (Receiver 3 l (r_sigs s')). cbn. split_and!; try done. left. by exists [c], l. }
  intros ret s1 (_ & _ & _ & [(l & rest & El & Hne & Hlen & -> & ->)|[(E & -> & ->)|(n & En & -> & ->)]]).
  - rewrite Hrest in El. destruct (fill_split _ _ _ _ El) as [El' Erest].
    assert (length l <= Z.to_nat (12288 - total))%nat as Hl.
    { rewrite <- (length_fill total (Z.to_nat (12288 - total))), El, length_app. lia. }
    pose proof (check_bytes_fill (length l) total 0 checksum) as Hc. rewrite Z.add_0_r, <- El' in Hc.
    destruct l as [|c l']; [done|]. rewrite Hc by lia. apply must_ret.
    eexists. split; [|split_and!; [done|mlia|mlia| |..]]; cycle -1; [done|..].
    + cbn [r_sigs length] in *. mlia.
    + cbn [r_rest]. rewrite Erest. f_equal; mlia.
    + rewrite Hsum, <- fold_left_app, El' at 1.
      rewrite <- (Z2Nat.id total) at 2 by lia. rewrite <- (Z.add_0_l (Z.of_nat (Z.to_nat total))), fill_app.
      do 2 f_equal. mlia.
  - rewrite Hrest in E. apply (f_equal length) in E. rewrite length_fill in E. cbn in E.
    assert (total = 12288) as -> by lia. rewrite Hsum, stream_sum. apply must_ret. clear. split_and!; reflexivity.
  - cbn [Z.eqb]. apply must_ret. eexists. split; [|split_and!; [done|lia|lia|done..]]. cbn [r_sigs]. lia.
Qed.

Lemma consumer_child_receives {A} r w n : must (recv_env r w) no_child received (Receiver 0 stream n) (consumer_child (A := A) r w).
Proof.
  unfold consumer_child. apply must_call; [eexists _, _; by split_and!|done|].
  intros d s1 (_ & _ & _ & -> & ->). cbn [Z.ltb Z.compare].
  apply must_call; [eexists _, _; split; [done|]; left; by split_and!|done|].
  intros d s2 (_ & [(_ & _ & ->)|(_ & [=] & _)]).
  apply must_call; [eexists _, _; split; [done|]; right; by split_and!|done|].
  intros d' s3 (_ & [(_ & [=] & _)|(_ & _ & ->)]).
  apply must_bind; [exact _|]. eapply must_mono; [|by apply run_consumer_receives].
  intros ret s4 (-> & Ho). apply must_halt. by split.
Qed.

(** *** The parent *)

(** Where it is in a round: descriptors [r] and [w] open, children [a] and [b]. *)
Inductive phase :=
  | Idle
  | Piped (r w : Z)
  | One (r w a : Z)
  | Two (r w a b : Z)
  | HalfClosed (r w a b : Z)
  | Closed (r w a b : Z)
  | Last (r w a b : Z).

Record parent := Parent { p_phase : phase; p_out : list Z; p_sigs : nat }.

(** The children are taken to exit with 0. *)
Definition parent_env (self : Z) (R : Type) (s : parent) (c : call R) : R -> parent -> Prop :=
  let next ph s' := s' = Parent ph (p_out s) (p_sigs s) in
  match c in call R return R -> parent -> Prop with
  | Pipe => fun ret s' => p_phase s = Idle /\ exists r w, ret = Some (r, w) /\ next (Piped r w) s'
  | Fork => fun ret s' => 0 < ret /\ ret <> self /\
      ((exists r w, p_phase s = Piped r w /\ next (One r w ret) s') \/
       (exists r w a, p_phase s = One r w a /\ ret <> a /\ next (Two r w a ret) s'))
  | Close fd => fun ret s' => ret = 0 /\ exists r w a b,
      ((p_phase s = Two r w a b /\ fd = r /\ next (HalfClosed r w a b) s') \/
       (p_phase s = HalfClosed r w a b /\ fd = w /\ next (Closed r w a b) s'))
  | Waitpid pid => fun ret s' => exists r w a b,
      (p_phase s = Closed r w a b /\ pid = a /\ ret = Waited a 0 /\ next (Last r w a b) s') \/
      (p_phase s = Last r w a b /\ pid = b /\ ret = Waited b 0 /\ next Idle s') \/
      (((p_phase s = Closed r w a b /\ pid = a) \/ (p_phase s = Last r w a b /\ pid = b)) /\
       exists n, p_sigs s = S n /\ ret = WaitErr EINTR /\ s' = Parent (p_phase s) (p_out s) n)
  | Printf text => fun _ s' =>
      p_phase s = Idle /\ s' = Parent Idle (p_out s ++ text) (p_sigs s)
  | _ => fun _ _ => False
  end.

(** A fork leaves the children with their parts. *)
Definition spawn (A : Type) (s : parent) (p : prog A) : Prop :=
  match p_phase s with
  | Piped r w => forall n, must (send_env r w) no_child sent (Sender 0 [] n) p
  | One r w _ => forall n, must (recv_env r w) no_child received (Receiver 0 stream n) p
  | _ => True
  end.

#[global] Instance spawn_spawns : Spawns spawn.
Proof.
  constructor. intros A X s p k. unfold spawn.
  destruct (p_phase s); [done| | |done..]; intros H n; (apply must_bind; [exact _|]);
    (eapply must_mono; [|apply H]); intros [x|c] s' [E Hs]; [discriminate E | | discriminate E |]; injection E as ->; by split.
Qed.

(** A wait for a child that exits with 0, with interruptions. *)
Lemma wait_clean_waits self pid s ph' :
  (exists r w a b, (p_phase s = Closed r w a b /\ pid = a /\ ph' = Last r w a b) \/
                   (p_phase s = Last r w a b /\ pid = b /\ ph' = Idle)) ->
  must (parent_env self) spawn (fun ret s' => ret = inl 0 /\ p_phase s' = ph' /\ p_out s' = p_out s) s (wait_clean pid).
Proof.
  intros Hph. unfold wait_clean. apply must_bind; [exact _|].
  assert (clean pid (Waited pid 0) = true) as Hclean by (cbn; by rewrite Z.eqb_refl).
  apply (must_loop _ _ _ (fun n _ s' => p_phase s' = p_phase s /\ p_out s' = p_out s /\ n = p_sigs s'))
    with (n := p_sigs s); [|done].
  intros n [] s' (E & Eo & ->). apply must_call; [|done|].
  - exists (Waited pid 0), (Parent ph' (p_out s') (p_sigs s')). cbn. rewrite E.
    destruct Hph as (r & w & a & b & [(-> & -> & ->)|(-> & -> & ->)]); exists r, w, a, b;
      [left | right; left]; done.
  - intros ret s1 (r & w & a & b & Hc). rewrite E in Hc.
    destruct Hph as (r0 & w0 & a0 & b0 & Hph).
    destruct Hc as [(Hp & -> & -> & ->)|[(Hp & -> & -> & ->)|(_ & n & En & -> & ->)]].
    + apply must_ret. rewrite Hclean. apply must_ret.
      destruct Hph as [(Hp' & _ & ->)|(Hp' & _)]; rewrite Hp' in Hp; [|done]. by simplify_eq.
    + apply must_ret. rewrite Hclean. apply must_ret.
      destruct Hph as [(Hp' & _)|(Hp' & _ & ->)]; rewrite Hp' in Hp; [done|]. by simplify_eq.
    + cbn [Z.eqb]. apply must_ret. eexists. split; [|by split_and!]. cbn. lia.
Qed.

Lemma pipeline_round_runs self i s : p_phase s = Idle ->
  must (parent_env self) spawn (fun ret s' => ret = inl None /\ p_phase s' = Idle /\ p_out s' = p_out s) s
    (pipeline_round i).
Proof.
  intros Hi. unfold pipeline_round. apply must_call; [eexists _, _; split; [done|]; by exists 3, 4|done|].
  intros fds s1 (_ & r & w & -> & ->). apply must_call.
  { exists (Z.abs self + 1). eexists. split_and!; [lia | lia |]. left. by exists r, w. }
  { intros n. eapply must_tau; [reflexivity|]. apply producer_child_sends. }
  intros a s2 (Ha & Hself & [(r' & w' & [= <- <-] & ->)|(? & ? & ? & [=] & _)]).
  rewrite (proj2 (Z.eqb_neq a 0)), (proj2 (Z.ltb_ge a 0)) by lia. apply must_call.
  { exists (Z.abs self + a + 1). eexists. split_and!; [lia | lia |]. right. exists r, w, a. cbn. split_and!; [done|lia|done]. }
  { intros n. eapply must_tau; [reflexivity|]. apply consumer_child_receives. }
  intros b s3 (Hb & Hself' & [(? & ? & [=] & _)|(r' & w' & a' & [= <- <- <-] & Hab & ->)]).
  rewrite (proj2 (Z.eqb_neq b 0)), (proj2 (Z.ltb_ge b 0)) by lia. cbn [any_fails].
  apply must_bind; [exact _|]. apply must_call; [|done|].
  { eexists _, _. split; [done|]. exists r, w, a, b. by left. }
  intros rc s4 (-> & r' & w' & a' & b' & [([= <- <- <- <-] & _ & ->)|([=] & _)]). cbn [negb Z.eqb].
  apply must_call; [|done|]. { eexists _, _. split; [done|]. exists r, w, a, b. by right. }
  intros rc s5 (-> & r' & w' & a' & b' & [([=] & _)|([= <- <- <- <-] & _ & ->)]). cbn [negb Z.eqb].
  apply must_bind; [exact _|]. eapply must_mono; [|apply (wait_clean_waits _ _ _ (Last r w a b)); exists r, w, a, b; by left].
  intros rc s6 (-> & Hp6 & Ho6). cbn [negb Z.eqb].
  apply must_bind; [exact _|]. eapply must_mono; [|apply (wait_clean_waits _ _ _ Idle); exists r, w, a, b; by right].
  intros rc s7 (-> & Hp7 & Ho7). cbn [negb Z.eqb]. do 2 apply must_ret. split_and!; [done..|].
  by rewrite Ho7, Ho6.
Qed.

Lemma pipeline_stress_runs self name arg rounds rest s :
  strtoul arg = (rounds, rest, false) -> count_ok (rounds, rest, false) GATE15_PIPELINE_MAX_ROUNDS = true ->
  p_phase s = Idle ->
  must (parent_env self) spawn (fun ret s' => ret = inl 0 /\ p_phase s' = Idle /\
    p_out s' = p_out s ++ pipeline_report rounds) s (pipeline_stress [name; arg]).
Proof.
  intros Harg Hok Hi. unfold pipeline_stress. rewrite Harg, Hok. cbn [negb].
  apply must_bind; [exact _|].
  apply (must_rounds _ _ _ _ (fun _ s' => p_phase s' = Idle /\ p_out s' = p_out s));
    [by eapply strtoul_range | | | by split].
  - intros s' [Hp Ho]. apply must_call; [by eexists tt, _|done|].
    intros [] s1 [_ ->]. apply must_ret. cbn. by rewrite Ho.
  - intros i s' _ [Hp Ho]. eapply must_mono; [|by apply pipeline_round_runs].
    intros ret s1 (-> & Hp1 & Ho1). by rewrite Ho1.
Qed.

End Pipeline.
