(* ===== verification/PipelineSpec.v ===== *)
(** The pipeline test as a whole: the parent, the producer and the consumer of
    Pipeline.v, interleaved in every way.

    What each process does by itself is known from Pipeline.v, given answers that
    fit its part.  Here it is shown that the system gives such answers, that
    some process can always go on, and so that all of them end. *)

From stdpp Require Import gmap.
From S2P Require Import Prelude Print User Pipeline.

Module PipelineSpec.

Import User Pipeline.

(** A process of a round, as seen from its own code. *)
Inductive local (W : Type) := NotYet | Live (s : W) (p : prog Z) | Gone | Reaped.

Arguments NotYet {W}.
Arguments Live {W} s p.
Arguments Gone {W}.
Arguments Reaped {W}.

(** A step of it. *)
Definition moves {W} (env : forall R, W -> call R -> R -> W -> Prop) (y' y : local W) : Prop :=
  match y, y' with
  | Live s p, Live s' p' => local_step env s p s' p'
  | Live s p, Gone => match act_of p with ADone _ | AHalt _ => True | _ => False end
  | _, _ => False
  end.

Definition fine {W} (env : forall R, W -> call R -> R -> W -> Prop) (spawns : forall A, W -> prog A -> Prop)
    (Q : Z + Z -> W -> Prop) (y : local W) : Prop :=
  match y with Live s p => must env spawns Q s p | _ => True end.

Lemma fine_acc {W} (env : forall R, W -> call R -> R -> W -> Prop) sp Q y : fine env sp Q y -> Acc (moves env) y.
Proof.
  destruct y as [|s p| |]; [constructor; intros y' []| |constructor; intros y' []..].
  cbn. induction 1 as [s p _ _ IH]. constructor. intros [|s' p'| |] Hy; [destruct Hy| | |destruct Hy].
  - by apply IH.
  - constructor. intros y' [].
Qed.

Lemma fine_moves {W} (env : forall R, W -> call R -> R -> W -> Prop) sp Q y y' :
  fine env sp Q y -> moves env y' y -> fine env sp Q y'.
Proof.
  destruct y as [|s p| |]; [intros _ []| |intros _ []..]. destruct y' as [|s' p'| |]; [intros _ []| |done..].
  cbn. intros [_ H] Hs. by apply H.
Qed.

(** Its entry in the table of processes. *)
Definition entry {W} (tab : W -> gmap Z fdesc) (sg : W -> nat) (y : local W) : option pstate :=
  match y with
  | NotYet | Reaped => None
  | Live s p => Some (Running (Proc p (tab s) (sg s)))
  | Gone => Some (Zombie 0)
  end.

Section Run.
Context (ROOM SIGS : nat) (Hroom : (0 < ROOM)%nat).

(** The process that runs the test, its descriptors, and what it prints. *)
Context (self : Z) (T : gmap Z fdesc) (OUT : list Z).
Context (HT : forall fd d, T !! fd = Some d -> d = Terminal) (HT0 : is_Some (T !! 0)) (HT1 : is_Some (T !! 1)).

Definition ends (r w id : Z) : gmap Z fdesc := <[r := PipeR id]> (<[w := PipeW id]> T).

Definition parent_table (id : Z) (s : parent) : gmap Z fdesc :=
  match p_phase s with
  | Idle | Closed _ _ _ _ | Last _ _ _ _ => T
  | Piped r w | One r w _ | Two r w _ _ => ends r w id
  | HalfClosed r w _ _ => delete r (ends r w id)
  end.

Definition child_table (r w id fd : Z) (d : fdesc) (stage : nat) : gmap Z fdesc :=
  match stage with
  | 0 => ends r w id
  | 1 => <[fd := d]> (ends r w id)
  | 2 => delete r (<[fd := d]> (ends r w id))
  | _ => delete w (delete r (<[fd := d]> (ends r w id)))
  end%nat.

Definition send_table (r w id : Z) (s : sender) : gmap Z fdesc := child_table r w id 1 (PipeW id) (s_stage s).

Definition recv_table (r w id : Z) (s : receiver) : gmap Z fdesc := child_table r w id 0 (PipeR id) (r_stage s).

(** The table of processes, with [a] and [b] the children. *)
Definition three (a b : Z) (x y z : option pstate) (q : Z) : option pstate :=
  if decide (q = self) then x else if decide (q = a) then y else if decide (q = b) then z else None.

Definition sent_by (y : local sender) : list Z :=
  match y with NotYet => [] | Live s _ => s_out s | _ => stream end.

Definition left_for (z : local receiver) : list Z :=
  match z with NotYet => stream | Live s _ => r_rest s | _ => [] end.

(** Which children there are in a phase. *)
Definition around (ph : phase) (y : local sender) (z : local receiver) : Prop :=
  match ph with
  | Idle | Piped _ _ => y = NotYet /\ z = NotYet
  | One _ _ _ => y <> NotYet /\ y <> Reaped /\ z = NotYet
  | Two _ _ _ _ | HalfClosed _ _ _ _ | Closed _ _ _ _ => y <> NotYet /\ y <> Reaped /\ z <> NotYet /\ z <> Reaped
  | Last _ _ _ _ => y = Reaped /\ z <> NotYet /\ z <> Reaped
  end.

Definition names (ph : phase) (r w a b : Z) : Prop :=
  match ph with
  | Idle => True
  | Piped r' w' => r' = r /\ w' = w
  | One r' w' a' => r' = r /\ w' = w /\ a' = a
  | Two r' w' a' b' | HalfClosed r' w' a' b' | Closed r' w' a' b' | Last r' w' a' b' =>
      r' = r /\ w' = w /\ a' = a /\ b' = b
  end.

(** The parent has closed its ends, and the producer has ended. *)
Definition no_writer (ph : phase) (y : local sender) : Prop :=
  (y = Gone \/ y = Reaped) /\ match ph with Closed _ _ _ _ | Last _ _ _ _ => True | _ => False end.

(** The consumer has seen the end of the file. *)
Definition at_end (z : local receiver) : Prop :=
  match z with Live s _ => r_stage s = 4%nat | Gone => True | _ => False end.

Record round_ok (s : parent) (y : local sender) (z : local receiver) (o : os) (r w a b id : Z)
    (buf more : list Z) : Prop := RoundOk {
  ro_fds : r <> w /\ T !! r = None /\ T !! w = None;
  ro_pids : a <> self /\ b <> self /\ a <> b;
  ro_names : names (p_phase s) r w a b;
  ro_around : around (p_phase s) y z;
  ro_sends : fine (send_env r w) no_child sent y;
  ro_receives : fine (recv_env r w) no_child received z;
  ro_pipe : pipes o !! id = Some buf;
  ro_sent : stream = sent_by y ++ more;
  ro_left : left_for z = buf ++ more;
  ro_end : at_end z -> no_writer (p_phase s) y;
}.

(** The table of processes of such a state. *)
Definition table (x : option pstate) (y : local sender) (z : local receiver) (r w a b id : Z) : Z -> option pstate :=
  three a b x (entry (send_table r w id) s_sigs y) (entry (recv_table r w id) r_sigs z).

(** *** Open ends *)

Lemma ends_r r w id : ends r w id !! r = Some (PipeR id).
Proof. apply lookup_insert_eq. Qed.

Lemma ends_w r w id : r <> w -> ends r w id !! w = Some (PipeW id).
Proof. intros. unfold ends. by rewrite lookup_insert_ne, lookup_insert_eq by done. Qed.

Lemma ends_closed r w id : r <> w -> T !! r = None -> T !! w = None -> delete w (delete r (ends r w id)) = T.
Proof.
  intros Hrw Hr Hw. apply map_eq. intros i. unfold ends.
  destruct (decide (i = w)) as [->|]; [by rewrite lookup_delete_eq|].
  rewrite lookup_delete_ne by done. destruct (decide (i = r)) as [->|]; [by rewrite lookup_delete_eq|].
  by rewrite lookup_delete_ne, !lookup_insert_ne by done.
Qed.

(** A child keeps its own end in every stage; the standard descriptors are open, so
    the ends are not among them. *)
Lemma child_keeps r w id fd d n :
  r <> w -> fd <> r -> fd <> w -> (d = PipeR id \/ d = PipeW id) -> exists fd', child_table r w id fd d n !! fd' = Some d.
Proof.
  intros Hrw Hr Hw Hd. destruct n as [|[|[|n]]]; cbn [child_table].
  - destruct Hd as [->| ->]; [exists r; apply ends_r | exists w; by apply ends_w].
  - exists fd. apply lookup_insert_eq.
  - exists fd. rewrite lookup_delete_ne by done. apply lookup_insert_eq.
  - exists fd. rewrite !lookup_delete_ne by done. apply lookup_insert_eq.
Qed.

(** At the end of the preparation it has no other. *)
Lemma child_only r w id fd d n fd' d' : r <> w -> (3 <= n)%nat ->
  child_table r w id fd d n !! fd' = Some d' -> d' = d \/ d' = Terminal.
Proof.
  intros Hrw Hn. destruct n as [|[|[|n]]]; try lia. cbn [child_table]. unfold ends.
  destruct (decide (fd' = w)) as [->|]; [by rewrite lookup_delete_eq|]. rewrite lookup_delete_ne by done.
  destruct (decide (fd' = r)) as [->|]; [by rewrite lookup_delete_eq|]. rewrite lookup_delete_ne by done.
  destruct (decide (fd' = fd)) as [->|]; [rewrite lookup_insert_eq; intros [= ->]; by left|].
  rewrite !lookup_insert_ne by done. intros H. right. by apply (HT fd').
Qed.

(** *** The table of processes *)

Ltac three_cases := unfold three, put in *; repeat case_decide; congruence || auto.

Lemma three_self a b x y z : three a b x y z self = x.
Proof. three_cases. Qed.

Lemma three_a a b x y z : a <> self -> three a b x y z a = y.
Proof. intros. three_cases. Qed.

Lemma three_b a b x y z : b <> self -> a <> b -> three a b x y z b = z.
Proof. intros. three_cases. Qed.

Lemma put_self a b x y z f st : (forall q, f q = three a b x y z q) ->
  forall q, put self st f q = three a b st y z q.
Proof. intros E q. specialize (E q). three_cases. Qed.

Lemma put_a a b x y z f st : a <> self -> (forall q, f q = three a b x y z q) ->
  forall q, put a st f q = three a b x st z q.
Proof. intros Ha E q. specialize (E q). three_cases. Qed.

Lemma put_b a b x y z f st : b <> self -> a <> b -> (forall q, f q = three a b x y z q) ->
  forall q, put b st f q = three a b x y st q.
Proof. intros Hb Hab E q. specialize (E q). three_cases. Qed.

Lemma three_running a b x y z q p : three a b x y z q = Some (Running p) ->
  (q = self /\ x = Some (Running p)) \/ (q = a /\ y = Some (Running p)) \/ (q = b /\ z = Some (Running p)).
Proof. intros E. three_cases. Qed.

(** The table shows the parent [x], which goes on with [p], and its children. *)
Definition shows (o : os) (s : parent) (p : prog Z) (y : local sender) (z : local receiver)
    (r w a b id : Z) : Prop :=
  forall q, procs o q = table (entry (parent_table id) p_sigs (Live s p)) y z r w a b id q.

Lemma shows_running o s p y z r w a b id q pr :
  shows o s p y z r w a b id -> procs o q = Some (Running pr) ->
  (q = self /\ pr = Proc p (parent_table id s) (p_sigs s)) \/
  (q = a /\ exists ss c, y = Live ss c /\ pr = Proc c (send_table r w id ss) (s_sigs ss)) \/
  (q = b /\ exists rs c, z = Live rs c /\ pr = Proc c (recv_table r w id rs) (r_sigs rs)).
Proof.
  intros Hsh Hq. rewrite Hsh in Hq. apply three_running in Hq as [[-> E]|[[-> E]|[-> E]]].
  - left. cbn in E. by injection E as <-.
  - right. left. destruct y as [|ss c| |]; try done. injection E as <-. by eauto.
  - right. right. destruct z as [|rs c| |]; try done. injection E as <-. by eauto.
Qed.

Section Round.
Context (s : parent) (p : prog Z) (y : local sender) (z : local receiver) (o : os).
Context (r w a b id : Z) (buf more : list Z).
Context (Hr : round_ok s y z o r w a b id buf more) (Hsh : shows o s p y z r w a b id).

Lemma at_self : procs o self = Some (Running (Proc p (parent_table id s) (p_sigs s))).
Proof. rewrite Hsh. apply three_self. Qed.

Lemma at_a : procs o a = entry (send_table r w id) s_sigs y.
Proof. rewrite Hsh. apply three_a. apply Hr. Qed.

Lemma at_b : procs o b = entry (recv_table r w id) r_sigs z.
Proof. rewrite Hsh. apply three_b; apply Hr. Qed.

Lemma std_fds : 0 <> r /\ 0 <> w /\ 1 <> r /\ 1 <> w.
Proof.
  destruct (ro_fds _ _ _ _ _ _ _ _ _ _ _ Hr) as (_ & Hr0 & Hw0). destruct HT0, HT1.
  split_and!; intros <-; congruence.
Qed.

(** Who has which end. *)
Lemma sender_has ss c : y = Live ss c -> has_end (PipeW id) o.
Proof.
  intros E. pose proof (ro_fds _ _ _ _ _ _ _ _ _ _ _ Hr) as (? & _). destruct std_fds as (? & ? & ? & ?).
  destruct (child_keeps r w id 1 (PipeW id) (s_stage ss)) as [fd Hfd]; [done..|by right|].
  eexists a, _, fd. split; [rewrite at_a, E; reflexivity | exact Hfd].
Qed.

Lemma receiver_has rs c : z = Live rs c -> has_end (PipeR id) o.
Proof.
  intros E. pose proof (ro_fds _ _ _ _ _ _ _ _ _ _ _ Hr) as (? & _). destruct std_fds as (? & ? & ? & ?).
  destruct (child_keeps r w id 0 (PipeR id) (r_stage rs)) as [fd Hfd]; [done..|by left|].
  eexists b, _, fd. split; [rewrite at_b, E; reflexivity | exact Hfd].
Qed.

(** The producer never writes to a pipe without a reader. *)
Lemma writer_has_reader ss c : y = Live ss c -> has_end (PipeR id) o.
Proof.
  intros Ey. pose proof (ro_names _ _ _ _ _ _ _ _ _ _ _ Hr) as Hn.
  pose proof (ro_around _ _ _ _ _ _ _ _ _ _ _ Hr) as Har. pose proof (ro_end _ _ _ _ _ _ _ _ _ _ _ Hr) as Hend.
  assert (z = NotYet \/ (exists rs c', z = Live rs c') \/ z = Gone \/ z = Reaped) as [Ez|[(rs & c' & Ez)|[Ez|Ez]]]
    by (destruct z; eauto).
  - assert (exists a', p_phase s = One r w a') as [a' Eph].
    { destruct (p_phase s); cbn in Hn, Har; try (exfalso; intuition congruence). destruct Hn as (-> & -> & _). by eexists. }
    eexists self, _, r. split; [apply at_self|]. cbn. unfold parent_table. rewrite Eph. apply ends_r.
  - by apply (receiver_has rs c').
  - rewrite Ez, Ey in Hend. destruct (Hend I) as [[?|?] _]; done.
  - exfalso. destruct (p_phase s); cbn in Har; intuition congruence.
Qed.

(** Nobody can write: the parent has closed its ends and the producer has ended. *)
Lemma unwritten : ~ has_end (PipeW id) o -> p_phase s <> Idle -> z <> NotYet -> no_writer (p_phase s) y.
Proof.
  intros Hno Hni Hz. destruct (ro_fds _ _ _ _ _ _ _ _ _ _ _ Hr) as [Hrw _].
  pose proof (ro_names _ _ _ _ _ _ _ _ _ _ _ Hr) as Hn. pose proof (ro_around _ _ _ _ _ _ _ _ _ _ _ Hr) as Har.
  assert (forall fd, parent_table id s !! fd <> Some (PipeW id)) as Hp.
  { intros fd E. apply Hno. eexists self, _, fd. split; [apply at_self | exact E]. }
  assert (forall ss c, y <> Live ss c) as Hy by (intros ss c E; by apply Hno, (sender_has ss c)).
  unfold parent_table in Hp. destruct (p_phase s); cbn in Hn, Har |- *; try (intuition congruence).
  - destruct Hn as (-> & -> & _). by destruct (Hp w (ends_w r w id Hrw)).
  - destruct Hn as (-> & -> & _). destruct (Hp w). rewrite lookup_delete_ne by done. by apply ends_w.
  - split; [|done]. destruct y as [|ss c| |]; [intuition congruence | by destruct (Hy ss c) | by left | by right].
  - split; [right; apply Har | done].
Qed.

End Round.

(** *** Steps of the producer *)

Lemma sender_goes s y' z o o' r w a b id buf more ss c buf' more' :
  round_ok s (Live ss c) z o r w a b id buf more ->
  y' <> NotYet -> y' <> Reaped -> fine (send_env r w) no_child sent y' ->
  pipes o' !! id = Some buf' -> stream = sent_by y' ++ more' -> left_for z = buf' ++ more' ->
  round_ok s y' z o' r w a b id buf' more'.
Proof.
  intros [Hf Hp Hn Har _ Hz _ _ _ Hend] Hy1 Hy2 Hfine Hpipe Hsent Hleft. split; try done.
  - destruct (p_phase s); cbn in *; intuition congruence.
  - intros E. destruct (Hend E) as [[?|?] _]; done.
Qed.

Lemma shows_a s p y y' z o o' r w a b id :
  a <> self -> shows o s p y z r w a b id ->
  procs o' = put a (entry (send_table r w id) s_sigs y') (procs o) -> shows o' s p y' z r w a b id.
Proof. intros Ha Hsh E q. rewrite E. by apply put_a with (y := entry (send_table r w id) s_sigs y). Qed.

(** A call of the producer that was answered, with what it put into the pipe. *)
Lemma sender_called {R} s p z o o' r w a b id buf more ss c (cl : call R) k ret ss' d :
  round_ok s (Live ss c) z o r w a b id buf more -> shows o s p (Live ss c) z r w a b id ->
  act_of c = ACall cl k -> send_env r w R ss cl ret ss' -> s_out ss' = s_out ss ++ d ->
  pipes o' !! id = Some (buf ++ d) -> console o' = console o ->
  procs o' = put a (Some (Running (Proc (k ret) (send_table r w id ss') (s_sigs ss')))) (procs o) ->
  exists y' buf' more', moves (send_env r w) y' (Live ss c) /\
    round_ok s y' z o' r w a b id buf' more' /\ shows o' s p y' z r w a b id /\ console o' = console o.
Proof.
  intros Hr Hsh Ec He Ho Hpipe Hcon Hprocs. pose proof (ro_sends _ _ _ _ _ _ _ _ _ _ _ Hr) as [_ Hst].
  assert (local_step (send_env r w) ss c ss' (k ret)) as Hmv by (unfold local_step; rewrite Ec; by exists ret).
  pose proof (Hst _ _ Hmv) as Hm'. destruct (sends_prefix _ _ _ _ Hm') as [more' Hmore].
  exists (Live ss' (k ret)), (buf ++ d), more'. split; [exact Hmv|]. split; [|split; [|done]].
  - eapply sender_goes; [exact Hr | discriminate | discriminate | exact Hm' | exact Hpipe | exact Hmore |].
    rewrite (ro_left _ _ _ _ _ _ _ _ _ _ _ Hr), <- app_assoc. f_equal.
    apply (app_inv_head (s_out ss)). rewrite app_assoc, <- Ho, <- Hmore.
    symmetry. apply (ro_sent _ _ _ _ _ _ _ _ _ _ _ Hr).
  - eapply shows_a; [apply Hr | exact Hsh | exact Hprocs].
Qed.

(** Every answer of the system to the producer fits its part. *)
Lemma sender_call {R} s p z o r w a b id buf more ss c (cl : call R) k o' ret s1 :
  round_ok s (Live ss c) z o r w a b id buf more -> shows o s p (Live ss c) z r w a b id ->
  act_of c = ACall cl k -> send_env r w R ss cl ret s1 ->
  answers ROOM SIGS o a (Proc c (send_table r w id ss) (s_sigs ss)) cl k o' ->
  exists y' buf' more', moves (send_env r w) y' (Live ss c) /\
    round_ok s y' z o' r w a b id buf' more' /\ shows o' s p y' z r w a b id /\ console o' = console o.
Proof.
  intros Hr Hsh Ec He. pose proof Hr as [(Hrw & _) _ _ _ _ _ Hpipe _ _ _].
  pose proof (std_fds _ _ _ _ _ _ _ _ _ _ _ _ Hr Hsh) as (_ & _ & H1r & H1w).
  assert (forall ret ss' d, send_env r w R ss cl ret ss' -> s_out ss' = s_out ss ++ d ->
    pipes o' !! id = Some (buf ++ d) -> console o' = console o ->
    procs o' = put a (Some (Running (Proc (k ret) (send_table r w id ss') (s_sigs ss')))) (procs o) ->
    exists y' buf' more', moves (send_env r w) y' (Live ss c) /\
      round_ok s y' z o' r w a b id buf' more' /\ shows o' s p y' z r w a b id /\ console o' = console o) as Hgo.
  { intros ret' ss' d. by apply (sender_called s p z o o' r w a b id buf more ss c cl k ret' ss' d). }
  destruct ss as [stage out sg]. destruct cl; cbn [send_env] in He; try (exfalso; exact He); cbn [answers].
  - destruct He as (-> & H3 & Hb & _). cbn in H3. subst stage. intros (id' & buf' & Efd & Ep & Hcase).
    cbn in Efd. rewrite !lookup_delete_ne, lookup_insert_eq in Efd by done. injection Efd as <-.
    rewrite Hpipe in Ep. injection Ep as <-.
    destruct Hcase as [(_ & n & Hn & _ & ->)|[(Hno & _)|(n & Hn & ->)]].
    + apply (Hgo (Val (Z.of_nat n)) (Sender 3 (out ++ take n b0) sg) (take n b0)); try done; [|apply lookup_insert_eq].
      cbn. split_and!; try done. left. by exists n.
    + destruct Hno. by eapply writer_has_reader.
    + apply (Hgo (Err EINTR) (Sender 3 out n) []); rewrite ?app_nil_r; try done.
      cbn. split_and!; try done. right. by exists n.
  - destruct He as (-> & [(-> & H3 & ->)|(-> & H3 & ->)]); cbn in H3; subst stage; intros [_ ->].
    + apply (Hgo 0 (Sender 2 out sg) []); rewrite ?app_nil_r; try done. cbn. split; [done|]. by left.
    + apply (Hgo 0 (Sender 3 out sg) []); rewrite ?app_nil_r; try done. cbn. split; [done|]. by right.
  - destruct He as (-> & -> & H3 & -> & ->). cbn in H3. subst stage. intros (d & Ed & ->).
    cbn in Ed. rewrite ends_w in Ed by done. injection Ed as <-.
    apply (Hgo 1 (Sender 1 out sg) []); rewrite ?app_nil_r; done.
Qed.

Lemma sender_step s p z o r w a b id buf more ss c o' :
  round_ok s (Live ss c) z o r w a b id buf more -> shows o s p (Live ss c) z r w a b id ->
  proc_step ROOM SIGS o a (Proc c (send_table r w id ss) (s_sigs ss)) o' ->
  exists y' buf' more', moves (send_env r w) y' (Live ss c) /\
    round_ok s y' z o' r w a b id buf' more' /\ shows o' s p y' z r w a b id /\ console o' = console o.
Proof.
  intros Hr Hsh. pose proof Hr as [(Hrw & _) (Ha & _) _ _ Hm _ Hpipe Hsent Hleft _]. cbn in Hm, Hsent.
  pose proof (std_fds _ _ _ _ _ _ _ _ _ _ _ _ Hr Hsh) as (_ & _ & H1r & H1w).
  pose proof Hm as [Hok Hst]. unfold local_ok, local_step in Hok, Hst. unfold proc_step.
  cbn [code]. destruct (act_of c) as [v|v|q|R cl k] eqn:Ec.
  - by destruct Hok as [[=] _].
  - destruct Hok as [[= ->] Ho]. intros ->. rewrite Ho in Hsent.
    assert (more = []) as -> by (apply (app_inv_head stream); by rewrite app_nil_r).
    exists Gone, buf, []. split; [by cbn; rewrite Ec|]. split; [|split; [|done]].
    + eapply sender_goes; [exact Hr | done..].
    + by eapply shows_a.
  - intros ->. exists (Live ss q), buf, more.
    split; [cbn; unfold local_step; by rewrite Ec|]. split; [|split; [|done]].
    + eapply sender_goes; [exact Hr | discriminate | discriminate | by apply Hst | exact Hpipe | exact Hsent | exact Hleft].
    + eapply shows_a; [exact Ha | exact Hsh | reflexivity].
  - destruct Hok as [(ret & s1 & He) _]. by apply (sender_call s p z o r w a b id buf more ss c cl k o' ret s1).
Qed.

(** *** Steps of the consumer *)

Lemma receiver_goes s y z' o o' r w a b id buf more rs c buf' :
  round_ok s y (Live rs c) o r w a b id buf more ->
  z' <> NotYet -> z' <> Reaped -> fine (recv_env r w) no_child received z' ->
  pipes o' !! id = Some buf' -> left_for z' = buf' ++ more -> (at_end z' -> no_writer (p_phase s) y) ->
  round_ok s y z' o' r w a b id buf' more.
Proof.
  intros [Hf Hp Hn Har Hy _ _ Hsent _ _] Hz1 Hz2 Hfine Hpipe Hleft Hend. split; try done.
  destruct (p_phase s); cbn in *; intuition congruence.
Qed.

Lemma shows_b s p y z z' o o' r w a b id :
  b <> self -> a <> b -> shows o s p y z r w a b id ->
  procs o' = put b (entry (recv_table r w id) r_sigs z') (procs o) -> shows o' s p y z' r w a b id.
Proof. intros Hb Hab Hsh E q. rewrite E. by apply put_b with (z := entry (recv_table r w id) r_sigs z). Qed.

Lemma receiver_called {R} s p y o o' r w a b id buf more rs c (cl : call R) k ret rs' buf' :
  round_ok s y (Live rs c) o r w a b id buf more -> shows o s p y (Live rs c) r w a b id ->
  act_of c = ACall cl k -> recv_env r w R rs cl ret rs' -> r_rest rs' = buf' ++ more ->
  (r_stage rs' = 4%nat -> no_writer (p_phase s) y) ->
  pipes o' !! id = Some buf' -> console o' = console o ->
  procs o' = put b (Some (Running (Proc (k ret) (recv_table r w id rs') (r_sigs rs')))) (procs o) ->
  exists z' buf', moves (recv_env r w) z' (Live rs c) /\
    round_ok s y z' o' r w a b id buf' more /\ shows o' s p y z' r w a b id /\ console o' = console o.
Proof.
  intros Hr Hsh Ec He Hrest Hend Hpipe Hcon Hprocs.
  pose proof (ro_receives _ _ _ _ _ _ _ _ _ _ _ Hr) as [_ Hst].
  assert (local_step (recv_env r w) rs c rs' (k ret)) as Hmv by (unfold local_step; rewrite Ec; by exists ret).
  exists (Live rs' (k ret)), buf'. split; [exact Hmv|]. split; [|split; [|done]].
  - eapply receiver_goes; [exact Hr | discriminate | discriminate | by apply Hst | exact Hpipe | exact Hrest | exact Hend].
  - eapply shows_b; [apply Hr | apply Hr | exact Hsh | exact Hprocs].
Qed.

Lemma receiver_call {R} s p y o r w a b id buf more rs c (cl : call R) k o' ret s1 :
  round_ok s y (Live rs c) o r w a b id buf more -> shows o s p y (Live rs c) r w a b id ->
  act_of c = ACall cl k -> recv_env r w R rs cl ret s1 ->
  answers ROOM SIGS o b (Proc c (recv_table r w id rs) (r_sigs rs)) cl k o' ->
  exists z' buf', moves (recv_env r w) z' (Live rs c) /\
    round_ok s y z' o' r w a b id buf' more /\ shows o' s p y z' r w a b id /\ console o' = console o.
Proof.
  intros Hr Hsh Ec He. pose proof Hr as [(Hrw & _) _ _ Har _ _ Hpipe Hsent Hleft Hend0].
  pose proof (std_fds _ _ _ _ _ _ _ _ _ _ _ _ Hr Hsh) as (H0r & H0w & _ & _).
  assert (p_phase s <> Idle) as Hni by (intros E; rewrite E in Har; by destruct Har).
  assert (forall ret rs' buf', recv_env r w R rs cl ret rs' -> r_rest rs' = buf' ++ more ->
    (r_stage rs' = 4%nat -> no_writer (p_phase s) y) ->
    pipes o' !! id = Some buf' -> console o' = console o ->
    procs o' = put b (Some (Running (Proc (k ret) (recv_table r w id rs') (r_sigs rs')))) (procs o) ->
    exists z' buf', moves (recv_env r w) z' (Live rs c) /\
      round_ok s y z' o' r w a b id buf' more /\ shows o' s p y z' r w a b id /\ console o' = console o) as Hgo.
  { intros ret' rs' buf'. by apply (receiver_called s p y o o' r w a b id buf more rs c cl k ret' rs' buf'). }
  assert (~ has_end (PipeW id) o -> no_writer (p_phase s) y) as Hun.
  { intros Hno. by apply (unwritten s p y (Live rs c) o r w a b id buf more Hr Hsh Hno). }
  destruct rs as [stage rest sg]. cbn in Hleft.
  destruct cl; cbn [recv_env] in He; try (exfalso; exact He); cbn [answers].
  - destruct He as (-> & H3 & Hn & _). cbn in H3. subst stage. intros (id' & buf' & Efd & Ep & Hcase).
    cbn in Efd. rewrite !lookup_delete_ne, lookup_insert_eq in Efd by done. injection Efd as <-.
    rewrite Hpipe in Ep. injection Ep as <-.
    destruct Hcase as [(l & buf1 & -> & Hl & Hlen & ->)|[(-> & Hno & ->)|(m & Hm & ->)]].
    + apply (Hgo (Data l) (Receiver 3 (buf1 ++ more) sg) buf1); try done; [|apply lookup_insert_eq].
      cbn. split_and!; try done. left. exists l, (buf1 ++ more). by rewrite Hleft, <- app_assoc.
    + destruct (Hun Hno) as [Hy _]. assert (more = []) as ->.
      { apply (app_inv_head stream). rewrite app_nil_r. destruct Hy as [->| ->]; by symmetry. }
      apply (Hgo (Data []) (Receiver 4 [] sg) []); try done; [|by intros _; apply Hun].
      cbn. split_and!; try done. right. by left.
    + apply (Hgo (ReadErr EINTR) (Receiver 3 rest m) buf); try done.
      cbn. split_and!; try done. right. right. by exists m.
  - destruct He as (-> & [(-> & H3 & ->)|(-> & H3 & ->)]); cbn in H3; subst stage; intros [_ ->].
    + apply (Hgo 0 (Receiver 2 rest sg) buf); try done. cbn. split; [done|]. by left.
    + apply (Hgo 0 (Receiver 3 rest sg) buf); try done. cbn. split; [done|]. by right.
  - destruct He as (-> & -> & H3 & -> & ->). cbn in H3. subst stage. intros (d & Ed & ->).
    cbn in Ed. rewrite ends_r in Ed. injection Ed as <-.
    by apply (Hgo 0 (Receiver 1 rest sg) buf).
Qed.

Lemma receiver_step s p y o r w a b id buf more rs c o' :
  round_ok s y (Live rs c) o r w a b id buf more -> shows o s p y (Live rs c) r w a b id ->
  proc_step ROOM SIGS o b (Proc c (recv_table r w id rs) (r_sigs rs)) o' ->
  exists z' buf', moves (recv_env r w) z' (Live rs c) /\
    round_ok s y z' o' r w a b id buf' more /\ shows o' s p y z' r w a b id /\ console o' = console o.
Proof.
  intros Hr Hsh. pose proof Hr as [_ (_ & Hb & Hab) _ _ _ Hm Hpipe Hsent Hleft Hend]. cbn in Hm, Hleft.
  pose proof Hm as [Hok Hst]. unfold local_ok, local_step in Hok, Hst. unfold proc_step.
  cbn [code]. destruct (act_of c) as [v|v|q|R cl k] eqn:Ec.
  - by destruct Hok as [[=] _].
  - destruct Hok as ([= ->] & H4 & Hrest). intros ->. rewrite Hrest in Hleft.
    destruct (app_eq_nil buf more (eq_sym Hleft)) as [-> ->].
    exists Gone, []. split; [by cbn; rewrite Ec|]. split; [|split; [|done]].
    + eapply receiver_goes; [exact Hr | done | done | done | exact Hpipe | done | by intros _; apply Hend].
    + by eapply shows_b.
  - intros ->. exists (Live rs q), buf.
    split; [cbn; unfold local_step; by rewrite Ec|]. split; [|split; [|done]].
    + eapply receiver_goes; [exact Hr | discriminate | discriminate | by apply Hst | exact Hpipe | exact Hleft | exact Hend].
    + eapply shows_b; [exact Hb | exact Hab | exact Hsh | reflexivity].
  - destruct Hok as [(ret & s1 & He) _]. by apply (receiver_call s p y o r w a b id buf more rs c cl k o' ret s1).
Qed.

(** *** Steps of the parent *)

Definition final (ret : Z + Z) (s : parent) : Prop := ret = inl 0 /\ p_phase s = Idle /\ p_out s = OUT.

(** The states of the system. *)
Definition state_ok (x : local parent) (y : local sender) (z : local receiver) (o : os) : Prop :=
  match x with
  | Live s p => must (parent_env self) spawn final s p /\ console o = p_out s /\
      ((p_phase s = Idle /\ y = NotYet /\ z = NotYet /\
        forall q, procs o q = three self self (Some (Running (Proc p T (p_sigs s)))) None None q) \/
       (p_phase s <> Idle /\ exists r w a b id buf more,
          round_ok s y z o r w a b id buf more /\ shows o s p y z r w a b id))
  | Gone => console o = OUT /\ forall q, procs o q = three self self (Some (Zombie 0)) None None q
  | _ => False
  end.

(** A call of the parent that was answered. *)
Lemma parent_called {R} s p (cl : call R) k ret s' :
  must (parent_env self) spawn final s p -> act_of p = ACall cl k -> parent_env self R s cl ret s' ->
  moves (parent_env self) (Live s' (k ret)) (Live s p) /\ must (parent_env self) spawn final s' (k ret).
Proof.
  intros [_ Hst] Ec He.
  assert (local_step (parent_env self) s p s' (k ret)) as Hmv by (unfold local_step; rewrite Ec; by exists ret).
  split; [exact Hmv | by apply Hst].
Qed.

(** A call that is not made in this phase. *)
Ltac wrong_phase H :=
  exfalso; revert H; clear; intros;
  repeat match goal with
  | H : _ /\ _ |- _ => destruct H
  | H : _ \/ _ |- _ => destruct H
  | H : exists _, _ |- _ => destruct H
  end; discriminate.

Lemma parent_idle_call {R} s p y z o (cl : call R) k o' ret s1 :
  state_ok (Live s p) y z o -> p_phase s = Idle -> act_of p = ACall cl k -> parent_env self R s cl ret s1 ->
  answers ROOM SIGS o self (Proc p T (p_sigs s)) cl k o' ->
  exists x' y' z', moves (parent_env self) x' (Live s p) /\ state_ok x' y' z' o'.
Proof.
  intros (Hm & Hcon & [(_ & -> & -> & Hprocs)|[? _]]) Hi Ec He; [|done].
  destruct cl; cbn [parent_env] in He; try (exfalso; exact He); cbn [answers]; rewrite Hi in He;
    try (wrong_phase He).
  - intros (r & w & id & Hrw & Hr & Hw & Hid & ->). cbn [fds] in Hr, Hw.
    destruct (parent_called s p _ k (Some (r, w)) (Parent (Piped r w) (p_out s) (p_sigs s)) Hm Ec) as [Hmv Hm'].
    { cbn. split; [done|]. by exists r, w. }
    eexists _, NotYet, NotYet. split; [exact Hmv|]. split; [exact Hm'|]. split; [done|]. right. split; [done|].
    exists r, w, (self + 1), (self + 2), id, [], stream. split.
    + split; cbn; try done; [split_and!; lia | apply lookup_insert_eq].
    + intros q. cbn. rewrite (put_self self self _ None None _ _ Hprocs). unfold table, three. cbn. by repeat case_decide.
  - intros ->. destruct (parent_called s p _ k tt (Parent Idle (p_out s ++ text) (p_sigs s)) Hm Ec) as [Hmv Hm'].
    { by cbn. }
    eexists _, NotYet, NotYet. split; [exact Hmv|]. split; [exact Hm'|]. split; [cbn; by rewrite Hcon|].
    left. split_and!; try done. cbn. by apply put_self with (x := Some (Running (Proc p T (p_sigs s)))).
Qed.

Lemma in_round s p y z o r w a b id buf more :
  must (parent_env self) spawn final s p -> console o = p_out s -> p_phase s <> Idle ->
  round_ok s y z o r w a b id buf more -> shows o s p y z r w a b id -> state_ok (Live s p) y z o.
Proof. intros Hm Hcon Hni Hr Hsh. split; [exact Hm|]. split; [done|]. right. split; [done|]. by eauto 10. Qed.

(** The forks: the child is left with its part. *)
Lemma parent_fork s p y z o r w a b id buf more (k : Z -> prog Z) o' :
  must (parent_env self) spawn final s p -> console o = p_out s -> act_of p = ACall Fork k ->
  round_ok s y z o r w a b id buf more -> shows o s p y z r w a b id ->
  answers ROOM SIGS o self (Proc p (parent_table id s) (p_sigs s)) Fork k o' ->
  exists x' y' z', moves (parent_env self) x' (Live s p) /\ state_ok x' y' z' o'.
Proof.
  intros Hm Hcon Ec Hr Hsh. pose proof (at_self _ _ _ _ _ _ _ _ _ _ Hsh) as Hs.
  pose proof (at_a _ _ _ _ _ _ _ _ _ _ _ _ Hr Hsh) as Hya.
  destruct Hr as [Hf Hp Hn Har Hy Hz Hpipe Hsent Hleft Hend].
  pose proof Hm as [Hok _]. unfold local_ok in Hok. rewrite Ec in Hok. destruct Hok as [(ret & s1 & He) Hch].
  cbn [child_ok] in Hch. unfold spawn in Hch. cbn [answers]. intros (child & Hpos & Hnone & ->).
  assert (child <> self) as Hcs by congruence.
  destruct He as (_ & _ & [(r' & w' & Eph & _)|(r' & w' & a' & Eph & _)]); rewrite Eph in *; cbn in Hn, Har.
  - destruct Hn as [-> ->], Har as [-> ->].
    destruct (parent_called s p _ k child (Parent (One r w child) (p_out s) (p_sigs s)) Hm Ec) as [Hmv Hm'].
    { cbn. split_and!; try done. left. by exists r, w. }
    eexists _, (Live (Sender 0 [] SIGS) (k 0)), NotYet. split; [exact Hmv|].
    eapply (in_round _ _ _ _ _ r w child (Z.abs self + child + 1) id buf more);
      [exact Hm' | done | discriminate | |].
    + split; cbn; done || apply Hch || (split_and!; lia).
    + intros q. cbn. unfold put. rewrite Hsh. unfold table, three, parent_table. cbn. rewrite Eph.
      repeat case_decide; done || congruence || lia.
  - destruct Hn as (-> & -> & ->), Har as (Hy1 & Hy2 & ->).
    assert (child <> a) as Hca by (intros ->; destruct y; cbn in *; congruence).
    destruct (parent_called s p _ k child (Parent (Two r w a child) (p_out s) (p_sigs s)) Hm Ec) as [Hmv Hm'].
    { cbn. split_and!; try done. right. by exists r, w, a. }
    eexists _, y, (Live (Receiver 0 stream SIGS) (k 0)). split; [exact Hmv|].
    eapply (in_round _ _ _ _ _ r w a child id buf more); [exact Hm' | done | discriminate | |].
    + split; cbn; done || apply Hch || (split_and!; done || apply Hp).
    + intros q. cbn. unfold put. rewrite Hsh. unfold table, three, parent_table. cbn. rewrite Eph.
      destruct Hp as (? & ? & ?). repeat case_decide; done || congruence.
Qed.

(** The descriptors of the parent after [close]. *)
Lemma parent_close s p y z o r w a b id buf more fd (k : Z -> prog Z) o' :
  must (parent_env self) spawn final s p -> console o = p_out s -> act_of p = ACall (Close fd) k ->
  round_ok s y z o r w a b id buf more -> shows o s p y z r w a b id ->
  answers ROOM SIGS o self (Proc p (parent_table id s) (p_sigs s)) (Close fd) k o' ->
  exists x' y' z', moves (parent_env self) x' (Live s p) /\ state_ok x' y' z' o'.
Proof.
  intros Hm Hcon Ec Hr Hsh. destruct Hr as [(Hrw & Hr0 & Hw0) Hp Hn Har Hy Hz Hpipe Hsent Hleft Hend].
  pose proof Hm as [Hok _]. unfold local_ok in Hok. rewrite Ec in Hok.
  destruct Hok as [(ret & s1 & _ & r' & w' & a' & b' & [(Eph & -> & _)|(Eph & -> & _)]) _];
    cbn [answers]; intros [_ ->]; rewrite Eph in *; cbn in Hn, Har, Hend; destruct Hn as (-> & -> & -> & ->).
  - destruct (parent_called s p _ k 0 (Parent (HalfClosed r w a b) (p_out s) (p_sigs s)) Hm Ec) as [Hmv Hm'].
    { cbn. split; [done|]. exists r, w, a, b. by left. }
    eexists _, y, z. split; [exact Hmv|].
    eapply (in_round _ _ _ _ _ r w a b id buf more); [exact Hm' | done | discriminate | |].
    + split; cbn; done.
    + intros q. cbn. rewrite (put_self a b _ _ _ _ _ Hsh). unfold table, parent_table. cbn. by rewrite Eph.
  - destruct (parent_called s p _ k 0 (Parent (Closed r w a b) (p_out s) (p_sigs s)) Hm Ec) as [Hmv Hm'].
    { cbn. split; [done|]. exists r, w, a, b. by right. }
    eexists _, y, z. split; [exact Hmv|].
    eapply (in_round _ _ _ _ _ r w a b id buf more); [exact Hm' | done | discriminate | |].
    + split; cbn; try done. intros E. by destruct (Hend E) as [_ []].
    + intros q. cbn. rewrite (put_self a b _ _ _ _ _ Hsh). unfold table, parent_table. cbn.
      by rewrite Eph, ends_closed.
Qed.

Lemma parent_wait s p y z o r w a b id buf more pid (k : waited -> prog Z) o' :
  must (parent_env self) spawn final s p -> console o = p_out s -> act_of p = ACall (Waitpid pid) k ->
  round_ok s y z o r w a b id buf more -> shows o s p y z r w a b id ->
  answers ROOM SIGS o self (Proc p (parent_table id s) (p_sigs s)) (Waitpid pid) k o' ->
  exists x' y' z', moves (parent_env self) x' (Live s p) /\ state_ok x' y' z' o'.
Proof.
  intros Hm Hcon Ec Hr Hsh. pose proof (at_a _ _ _ _ _ _ _ _ _ _ _ _ Hr Hsh) as Hya.
  pose proof (at_b _ _ _ _ _ _ _ _ _ _ _ _ Hr Hsh) as Hzb.
  pose proof Hr as [Hf (Ha & Hb & Hab) Hn Har Hy Hz Hpipe Hsent Hleft Hend].
  pose proof Hm as [Hok _]. unfold local_ok in Hok. rewrite Ec in Hok. destruct Hok as [(ret & s1 & He) _].
  assert ((p_phase s = Closed r w a b /\ pid = a) \/ (p_phase s = Last r w a b /\ pid = b)) as Hcase.
  { destruct He as (r' & w' & a' & b' & [(Eph & -> & _)|[(Eph & -> & _)|([(Eph & ->)|(Eph & ->)] & _)]]);
      rewrite Eph in *; cbn in Hn; destruct Hn as (-> & -> & -> & ->); [by left | by right | by left | by right]. }
  clear ret s1 He. cbn [answers]. intros [(st & Hst & ->)|(n & En & ->)].
  - destruct Hcase as [[Eph ->]|[Eph ->]]; rewrite Eph in *; cbn in Har.
    + rewrite Hya in Hst. destruct y as [| | |]; try done. injection Hst as <-.
      destruct (parent_called s p _ k (Waited a 0) (Parent (Last r w a b) (p_out s) (p_sigs s)) Hm Ec) as [Hmv Hm'].
      { exists r, w, a, b. by left. }
      eexists _, Reaped, z. split; [exact Hmv|].
      eapply (in_round _ _ _ _ _ r w a b id buf more); [exact Hm' | done | discriminate | |].
      * split; cbn; try done; [split_and!; [done | apply Har..] | by intros _; split; [right|]].
      * intros q. cbn. unfold put. rewrite Hsh. unfold table, three, parent_table. cbn. rewrite Eph.
        repeat case_decide; done || congruence.
    + rewrite Hzb in Hst. destruct z as [| | |]; try done. injection Hst as <-.
      destruct (parent_called s p _ k (Waited b 0) (Parent Idle (p_out s) (p_sigs s)) Hm Ec) as [Hmv Hm'].
      { exists r, w, a, b. right. by left. }
      eexists _, NotYet, NotYet. split; [exact Hmv|]. split; [exact Hm'|]. split; [done|].
      left. split_and!; try done. destruct Har as [-> _].
      intros q. cbn. unfold put. rewrite Hsh. unfold table, three, parent_table. cbn. rewrite Eph.
      repeat case_decide; done || congruence.
  - destruct (parent_called s p _ k (WaitErr EINTR) (Parent (p_phase s) (p_out s) n) Hm Ec) as [Hmv Hm'].
    { exists r, w, a, b. right. right. split; [exact Hcase|]. by exists n. }
    eexists _, y, z. split; [exact Hmv|].
    eapply (in_round _ _ _ _ _ r w a b id buf more);
      [exact Hm' | done | cbn; by destruct Hcase as [[-> _]|[-> _]] | by split|].
    intros q. cbn. by rewrite (put_self a b _ _ _ _ _ Hsh).
Qed.

Lemma parent_round_step s p y z o r w a b id buf more o' :
  must (parent_env self) spawn final s p -> console o = p_out s -> p_phase s <> Idle ->
  round_ok s y z o r w a b id buf more -> shows o s p y z r w a b id ->
  proc_step ROOM SIGS o self (Proc p (parent_table id s) (p_sigs s)) o' ->
  exists x' y' z', moves (parent_env self) x' (Live s p) /\ state_ok x' y' z' o'.
Proof.
  intros Hm Hcon Hni Hr Hsh. pose proof Hm as [Hok Hst]. unfold local_ok, local_step in Hok, Hst.
  unfold proc_step. cbn [code]. destruct (act_of p) as [v|v|q|R cl k] eqn:Ec.
  - by destruct Hok as (_ & ? & _).
  - by destruct Hok as (_ & ? & _).
  - intros ->. exists (Live s q), y, z. split; [cbn; unfold local_step; by rewrite Ec|].
    eapply (in_round _ _ _ _ _ r w a b id buf more); [by apply Hst | done | done | by destruct Hr; split|].
    intros q'. cbn. by rewrite (put_self a b _ _ _ _ _ Hsh).
  - destruct Hok as [(ret & s1 & He) _].
    destruct cl; try (exfalso; exact He); try (destruct He as [? _]; done).
    + by apply (parent_close s p y z o r w a b id buf more).
    + by apply (parent_fork s p y z o r w a b id buf more).
    + by apply (parent_wait s p y z o r w a b id buf more).
Qed.

Lemma parent_idle_step s p y z o o' :
  state_ok (Live s p) y z o -> p_phase s = Idle -> proc_step ROOM SIGS o self (Proc p T (p_sigs s)) o' ->
  exists x' y' z', moves (parent_env self) x' (Live s p) /\ state_ok x' y' z' o'.
Proof.
  intros Hs Hi. pose proof Hs as (Hm & Hcon & [(_ & -> & -> & Hprocs)|[? _]]); [|done].
  pose proof Hm as [Hok Hst]. unfold local_ok, local_step in Hok, Hst.
  unfold proc_step. cbn [code]. destruct (act_of p) as [v|v|q|R cl k] eqn:Ec.
  - destruct Hok as ([= ->] & _ & Ho). intros ->. exists Gone, NotYet, NotYet.
    split; [by cbn; rewrite Ec|]. split; [by cbn; rewrite Hcon|].
    intros q. cbn. by rewrite (put_self self self _ None None _ _ Hprocs).
  - by destruct Hok as ([=] & _).
  - intros ->. exists (Live s q), NotYet, NotYet. split; [cbn; unfold local_step; by rewrite Ec|].
    split; [by apply Hst|]. split; [done|]. left. split_and!; try done.
    intros q'. cbn. by rewrite (put_self self self _ None None _ _ Hprocs).
  - destruct Hok as [(ret & s1 & He) _]. by apply (parent_idle_call s p NotYet NotYet o cl k o' ret s1).
Qed.

(** *** Some process can always go on *)

(** The producer, unless the pipe is full. *)
Lemma sender_can s p z o r w a b id buf more ss c :
  round_ok s (Live ss c) z o r w a b id buf more -> shows o s p (Live ss c) z r w a b id ->
  (exists o', proc_step ROOM SIGS o a (Proc c (send_table r w id ss) (s_sigs ss)) o') \/ buf <> [].
Proof.
  intros Hr Hsh. pose proof Hr as [(Hrw & _) _ _ _ [Hok _] _ Hpipe _ _ _].
  pose proof (std_fds _ _ _ _ _ _ _ _ _ _ _ _ Hr Hsh) as (_ & _ & H1r & H1w).
  pose proof (writer_has_reader _ _ _ _ _ _ _ _ _ _ _ _ Hr Hsh ss c eq_refl) as Hrd.
  unfold proc_step. cbn [code]. unfold local_ok in Hok.
  destruct (act_of c) as [v|v|q|R cl k]; [left; by eexists..|]. destruct Hok as [(ret & s1 & He) _].
  destruct ss as [stage out sg]. destruct cl; try (exfalso; exact He); cbn [answers fds].
  - destruct He as (-> & H3 & Hb & _). cbn in H3. subst stage.
    destruct buf as [|x buf]; [left | by right]. eexists. exists id, [].
    split; [cbn; by rewrite !lookup_delete_ne, lookup_insert_eq|]. split; [done|].
    left. split; [done|]. exists 1%nat. cbn. split; [destruct b0; cbn; done || lia|]. split; [lia | reflexivity].
  - destruct He as (-> & [(-> & H3 & ->)|(-> & H3 & ->)]); cbn in H3; subst stage; left; eexists; (split; [|reflexivity]); cbn.
    + rewrite lookup_insert_ne, ends_r by done. by eexists.
    + rewrite lookup_delete_ne, lookup_insert_ne, ends_w by done. by eexists.
  - destruct He as (-> & -> & H3 & -> & ->). cbn in H3. subst stage. left. eexists. exists (PipeW id).
    split; [by apply ends_w | reflexivity].
Qed.

(** The consumer, unless it has to wait for what is to be written. *)
Lemma receiver_can s p y o r w a b id buf more rs c :
  round_ok s y (Live rs c) o r w a b id buf more -> shows o s p y (Live rs c) r w a b id ->
  (r_stage rs = 3%nat -> buf <> [] \/ ~ has_end (PipeW id) o) ->
  exists o', proc_step ROOM SIGS o b (Proc c (recv_table r w id rs) (r_sigs rs)) o'.
Proof.
  intros Hr Hsh Hcan. pose proof Hr as [(Hrw & _) _ _ _ _ [Hok _] Hpipe _ _ _].
  pose proof (std_fds _ _ _ _ _ _ _ _ _ _ _ _ Hr Hsh) as (H0r & H0w & _ & _).
  unfold proc_step. cbn [code]. unfold local_ok in Hok.
  destruct (act_of c) as [v|v|q|R cl k]; [by eexists..|]. destruct Hok as [(ret & s1 & He) _].
  destruct rs as [stage rest sg]. destruct cl; try (exfalso; exact He); cbn [answers fds].
  - destruct He as (-> & H3 & Hn & _). cbn in H3. subst stage.
    assert (child_table r w id 0 (PipeR id) 3 !! 0 = Some (PipeR id)) as Hfd
      by (cbn; by rewrite !lookup_delete_ne, lookup_insert_eq).
    destruct buf as [|x buf].
    + destruct (Hcan eq_refl) as [?|Hno]; [done|]. eexists. exists id, []. split; [exact Hfd|]. split; [done|].
      right. left. split; [done|]. split; [done | reflexivity].
    + eexists. exists id, (x :: buf). split; [exact Hfd|]. split; [done|].
      left. exists [x], buf. split; [done|]. split; [done|]. cbn. split; [lia | reflexivity].
  - destruct He as (-> & [(-> & H3 & ->)|(-> & H3 & ->)]); cbn in H3; subst stage; eexists; (split; [|reflexivity]); cbn.
    + rewrite lookup_insert_ne, ends_r by done. by eexists.
    + rewrite lookup_delete_ne, lookup_insert_ne, ends_w by done. by eexists.
  - destruct He as (-> & -> & H3 & -> & ->). cbn in H3. subst stage. eexists. exists (PipeR id).
    split; [by apply ends_r | reflexivity].
Qed.

(** When the producer is reaped, a consumer that reads is alone. *)
Lemma last_unwritten s p rs c o r w a b id buf more :
  round_ok s Reaped (Live rs c) o r w a b id buf more -> shows o s p Reaped (Live rs c) r w a b id ->
  p_phase s = Last r w a b -> r_stage rs = 3%nat -> ~ has_end (PipeW id) o.
Proof.
  intros Hr Hsh Eph H3 (pid & pr & fd & Hpid & Hfd).
  destruct (shows_running _ _ _ _ _ _ _ _ _ _ _ _ Hsh Hpid) as [(_ & ->)|[(_ & ss & c' & [=] & _)|(_ & rs' & c' & [= <- <-] & ->)]];
    cbn [fds] in Hfd.
  - unfold parent_table in Hfd. rewrite Eph in Hfd. by apply HT in Hfd.
  - unfold recv_table in Hfd. apply child_only in Hfd; [|apply Hr | lia]. by destruct Hfd.
Qed.

Lemma steps o pid pr : procs o pid = Some (Running pr) ->
  (exists o', proc_step ROOM SIGS o pid pr o') -> exists o', ostep ROOM SIGS o o'.
Proof. intros Hp [o' Ho]. exists o', pid, pr. by split. Qed.

(** The parent waits only for a child that runs, and then one of the two can go on. *)
Lemma waiting_can s p y z o r w a b id buf more pid (k : waited -> prog Z) s1 ret :
  round_ok s y z o r w a b id buf more -> shows o s p y z r w a b id ->
  act_of p = ACall (Waitpid pid) k -> parent_env self _ s (Waitpid pid) ret s1 ->
  exists o', ostep ROOM SIGS o o'.
Proof.
  intros Hr Hsh Ec He. pose proof (at_self _ _ _ _ _ _ _ _ _ _ Hsh) as Hs.
  pose proof (at_a _ _ _ _ _ _ _ _ _ _ _ _ Hr Hsh) as Hya. pose proof (at_b _ _ _ _ _ _ _ _ _ _ _ _ Hr Hsh) as Hzb.
  pose proof Hr as [_ _ Hn Har _ _ _ _ _ Hend].
  assert (forall st, procs o pid = Some (Zombie st) -> exists o', ostep ROOM SIGS o o') as Hreap.
  { intros st Hst. eapply steps; [exact Hs|]. unfold proc_step. cbn [code]. rewrite Ec.
    eexists. left. exists st. split; [exact Hst | reflexivity]. }
  assert ((p_phase s = Closed r w a b /\ pid = a) \/ (p_phase s = Last r w a b /\ pid = b)) as Hcase.
  { destruct He as (r' & w' & a' & b' & [(Eph & -> & _)|[(Eph & -> & _)|([(Eph & ->)|(Eph & ->)] & _)]]);
      rewrite Eph in *; cbn in Hn; destruct Hn as (-> & -> & -> & ->); [by left | by right | by left | by right]. }
  destruct Hcase as [[Eph ->]|[Eph ->]]; rewrite Eph in *; cbn in Har.
  - destruct y as [|ss c| |]; [by destruct Har| |by apply (Hreap 0)|by destruct Har as (_ & ? & _)].
    destruct (sender_can _ _ _ _ _ _ _ _ _ _ _ _ _ Hr Hsh) as [Ho|Hbuf]; [by eapply steps|].
    destruct z as [|rs c'| |]; [by destruct Har as (_ & _ & ? & _)| |by destruct (Hend I) as [[?|?] _]|by destruct Har as (_ & _ & _ & ?)].
    eapply steps; [exact Hzb|]. eapply receiver_can; [exact Hr | exact Hsh | by left].
  - destruct Har as (-> & Hz1 & Hz2). destruct z as [|rs c| |]; [done| |by apply (Hreap 0)|done].
    eapply steps; [exact Hzb|]. eapply receiver_can; [exact Hr | exact Hsh |].
    intros H3. right. by eapply last_unwritten.
Qed.

Lemma parent_can s p y z o : state_ok (Live s p) y z o -> exists o', ostep ROOM SIGS o o'.
Proof.
  intros ([Hok _] & _ & [(Hi & _ & _ & Hprocs)|(Hni & r & w & a & b & id & buf & more & Hr & Hsh)]).
  - eapply steps; [rewrite Hprocs; apply three_self|]. unfold proc_step. cbn [code]. unfold local_ok in Hok.
    destruct (act_of p) as [v|v|q|R cl k]; [by eexists..|]. destruct Hok as [(ret & s1 & He) _].
    destruct cl; cbn [parent_env] in He; try (exfalso; exact He); rewrite Hi in He; try (wrong_phase He); cbn [answers fds].
    + clear He ret s1. pose proof (is_fresh (dom T)) as F1. set (r := fresh (dom T)) in *.
      pose proof (is_fresh ({[r]} ∪ dom T)) as F2. set (w := fresh ({[r]} ∪ dom T)) in *.
      pose proof (is_fresh (dom (pipes o))) as F3. set (id := fresh (dom (pipes o))) in *.
      eexists. exists r, w, id. apply not_elem_of_dom in F1, F3. split; [set_solver|]. split; [done|].
      split; [apply not_elem_of_dom; set_solver|]. split; [done | reflexivity].
    + by eexists.
  - pose proof (at_self _ _ _ _ _ _ _ _ _ _ Hsh) as Hs. unfold local_ok in Hok.
    destruct (act_of p) as [v|v|q|R cl k] eqn:Ec;
      [eapply steps; [exact Hs|]; unfold proc_step; cbn [code]; rewrite Ec; by eexists..|].
    destruct Hok as [(ret & s1 & He) _]. pose proof Hr as [(Hrw & _) Hp Hn _ _ _ _ _ _ _].
    destruct cl; try (exfalso; exact He); try (destruct He as [? _]; done);
      [| |by eapply (waiting_can s p y z o r w a b id buf more)];
      (eapply steps; [exact Hs|]); unfold proc_step; cbn [code]; rewrite Ec; cbn [answers fds].
    + destruct He as (_ & r' & w' & a' & b' & [(Eph & -> & _)|(Eph & -> & _)]); unfold parent_table; rewrite Eph in *;
        destruct Hn as (-> & -> & _); eexists; (split; [|reflexivity]).
      * rewrite ends_r. by eexists.
      * rewrite lookup_delete_ne, ends_w by done. by eexists.
    + eexists. exists (Z.abs self + Z.abs a + Z.abs b + 1). split; [lia|]. split; [|reflexivity].
      rewrite Hsh. unfold table, three. rewrite !decide_False by lia. done.
Qed.

(** *** Every run *)

Definition all_done (o : os) : Prop :=
  console o = OUT /\ forall q, procs o q = three self self (Some (Zombie 0)) None None q.

(** The three processes, by induction on the steps each of them has left. *)
Lemma round_ends s p r w a b id :
  (forall x', moves (parent_env self) x' (Live s p) -> forall y z o, state_ok x' y z o -> inevitably ROOM SIGS all_done o) ->
  must (parent_env self) spawn final s p -> p_phase s <> Idle ->
  forall y, Acc (moves (send_env r w)) y -> forall z, Acc (moves (recv_env r w)) z ->
  forall o buf more, console o = p_out s -> round_ok s y z o r w a b id buf more -> shows o s p y z r w a b id ->
  inevitably ROOM SIGS all_done o.
Proof.
  intros IHx Hm Hni y Hy. induction Hy as [y _ IHy]. intros z Hz. induction Hz as [z Hz IHz].
  intros o buf more Hcon Hr Hsh. apply Later.
  { apply (parent_can s p y z). by eapply in_round. }
  intros o' (pid & pr & Hpid & Hstep).
  destruct (shows_running _ _ _ _ _ _ _ _ _ _ _ _ Hsh Hpid) as
    [(-> & ->)|[(-> & ss & c & -> & ->)|(-> & rs & c & -> & ->)]].
  - destruct (parent_round_step s p y z o r w a b id buf more o') as (x' & y' & z' & Hmv & Hok); try assumption.
    by apply (IHx x' Hmv y' z').
  - destruct (sender_step s p z o r w a b id buf more ss c o') as (y' & buf' & more' & Hmv & Hr' & Hsh' & Hcon');
      try assumption.
    apply (IHy y' Hmv z) with (buf := buf') (more := more'); try assumption; [by constructor | by rewrite Hcon'].
  - destruct (receiver_step s p y o r w a b id buf more rs c o') as (z' & buf' & Hmv & Hr' & Hsh' & Hcon');
      try assumption.
    apply (IHz z' Hmv) with (buf := buf') (more := more); try assumption. by rewrite Hcon'.
Qed.

Lemma system_ends x : Acc (moves (parent_env self)) x -> forall y z o,
  state_ok x y z o -> inevitably ROOM SIGS all_done o.
Proof.
  induction 1 as [x _ IHx]. intros y z o Hok. destruct x as [|s p| |]; [destruct Hok| |by apply Now|destruct Hok].
  pose proof Hok as (Hm & Hcon & [(Hi & -> & -> & Hprocs)|(Hni & r & w & a & b & id & buf & more & Hr & Hsh)]).
  - apply Later; [by apply (parent_can s p NotYet NotYet)|]. intros o' (pid & pr & Hpid & Hstep).
    rewrite Hprocs in Hpid. apply three_running in Hpid as [[-> [= <-]]|[[_ [=]]|[_ [=]]]].
    destruct (parent_idle_step s p NotYet NotYet o o') as (x' & y' & z' & Hmv & Hok'); try assumption.
    by apply (IHx x' Hmv y' z').
  - eapply (round_ends s p r w a b id); try eassumption.
    + eapply fine_acc. apply Hr.
    + eapply fine_acc. apply Hr.
Qed.

End Run.

Lemma inevitably_mono ROOM SIGS (G G' : os -> Prop) o :
  (forall o, G o -> G' o) -> inevitably ROOM SIGS G o -> inevitably ROOM SIGS G' o.
Proof. intros HG H. induction H as [o Ho|o Hex _ IH]; [by apply Now, HG | by apply Later]. Qed.

(** C27: the pipeline test.  Started with a number of rounds from 1 to 100, on a
    system with room for at least one byte in a pipe, the program and the two
    processes of each round end in every interleaving, however short the reads and
    writes are and whatever calls are interrupted (each process finitely often): no
    schedule blocks, no child is killed or left behind, every child exits with 0,
    and so does the test, with its report as the only thing printed. *)
Theorem pipeline_stress_passes (ROOM SIGS sigs0 : nat) (self : Z) (T : gmap Z fdesc) (o : os)
    (name arg : list Z) (rounds : Z) (rest : option (list Z))
    (Hroom : (0 < ROOM)%nat)
    (HT : forall fd d, T !! fd = Some d -> d = Terminal) (HT0 : is_Some (T !! 0)) (HT1 : is_Some (T !! 1))
    (Harg : strtoul arg = (rounds, rest, false))
    (Hcount : count_ok (rounds, rest, false) GATE15_PIPELINE_MAX_ROUNDS = true)
    (Hprocs : forall q, procs o q =
       if decide (q = self) then Some (Running (Proc (pipeline_stress [name; arg]) T sigs0)) else None) :
  inevitably ROOM SIGS
    (fun o' => console o' = console o ++ pipeline_report rounds /\
       forall q, procs o' q = if decide (q = self) then Some (Zombie 0) else None) o.
Proof.
  assert (forall x q, three self self self x None None q = if decide (q = self) then x else None) as Hone
    by (intros x q; unfold three; by repeat case_decide).
  pose proof (pipeline_stress_runs self name arg rounds rest (Parent Idle (console o) sigs0) Harg Hcount eq_refl) as Hm.
  apply (inevitably_mono _ _ (all_done self (console o ++ pipeline_report rounds))).
  { intros o' [Hcon Hq]. split; [done|]. intros q. by rewrite Hq. }
  eapply (system_ends ROOM SIGS Hroom self T) with
    (x := Live (Parent Idle (console o) sigs0) (pipeline_stress [name; arg])) (y := NotYet) (z := NotYet); try assumption.
  - eapply fine_acc. exact Hm.
  - split; [exact Hm|]. split; [done|]. left. split_and!; try done. intros q. by rewrite Hone.
Qed.

(** The test with 100 rounds on a system with pipes of 4096 bytes, where each process
    may be interrupted three times. *)
Definition terminal_fds : gmap Z fdesc := <[0 := Terminal]> (<[1 := Terminal]> {[2 := Terminal]}).

Definition start_os : os :=
  Os (fun q => if decide (q = 7)
               then Some (Running (Proc (pipeline_stress [cstr "gate15-pipelines"; cstr "100"]) terminal_fds 3)) else None) ∅ [].

Lemma pipeline_stress_passes_witness :
  inevitably 4096 3
    (fun o' => console o' = "[process-gate-15] pipelines=100 processes=200 transfer-bytes=1228800 PASS\n" /\
       forall q, procs o' q = if decide (q = 7) then Some (Zombie 0) else None) start_os.
Proof.
  refine (pipeline_stress_passes 4096 3 3 7 terminal_fds start_os "gate15-pipelines" "100" 100 (Some []) _ _ _ _ _ _ _).
  - lia.
  - intros fd d. unfold terminal_fds. rewrite !lookup_insert_Some, lookup_singleton_Some.
    intuition congruence.
  - by eexists.
  - by eexists.
  - vm_compute. reflexivity.
  - vm_compute. reflexivity.
  - done.
Defined.

End PipelineSpec.
