(* ===== verification/UserSpec.v ===== *)
(** What the user programs of User.v do by themselves, for all answers POSIX allows
    to the calls they make: the consumer of the shell pipeline, the pipe test, the
    tests of processes and of terminal input.  The pipeline test is in Pipeline.v
    and PipelineSpec.v. *)

From S2P Require Import Prelude Print User Pipeline.

Module UserSpec.

Import User Pipeline.

(** ** The consumer *)

(** A file to read from, what is written to the descriptors 1 and 2, and the signals
    that may still come. *)
Record filter := Filter { f_in : list Z; f_out : list Z; f_err : list Z; f_sigs : nat }.

Definition filter_env (R : Type) (s : filter) (c : call R) : R -> filter -> Prop :=
  match c in call R return R -> filter -> Prop with
  | Read fd n => fun ret s' => fd = 0 /\ 0 < n /\
      ((exists l rest, f_in s = l ++ rest /\ l <> [] /\ Z.of_nat (length l) <= n /\ ret = Data l /\
          s' = Filter rest (f_out s) (f_err s) (f_sigs s)) \/
       (f_in s = [] /\ ret = Data [] /\ s' = s) \/
       (exists n, f_sigs s = S n /\ ret = ReadErr EINTR /\ s' = Filter (f_in s) (f_out s) (f_err s) n))
  | Write fd b => fun ret s' => (fd = 1 \/ fd = 2) /\ b <> [] /\
      ((exists n, (0 < n <= length b)%nat /\ ret = Val (Z.of_nat n) /\
          s' = if fd =? 1 then Filter (f_in s) (f_out s ++ take n b) (f_err s) (f_sigs s)
               else Filter (f_in s) (f_out s) (f_err s ++ take n b) (f_sigs s)) \/
       (exists n, f_sigs s = S n /\ ret = Err EINTR /\ s' = Filter (f_in s) (f_out s) (f_err s) n))
  | _ => fun _ _ => False
  end.

(** What has gone to descriptor [fd]. *)
Definition written (fd : Z) (s : filter) : list Z := if fd =? 1 then f_out s else f_err s.

Lemma write_all_writes fd b s : fd = 1 \/ fd = 2 ->
  must filter_env no_child (fun ret s' => ret = inl 0 /\ f_in s' = f_in s /\
    written fd s' = written fd s ++ b /\ written (3 - fd) s' = written (3 - fd) s) s (write_all fd b).
Proof.
  intros Hfd. eapply must_mono; [|apply (must_write_all _ _ fd b (fun k s' => f_in s' = f_in s /\
    written fd s' = written fd s ++ take k b /\ written (3 - fd) s' = written (3 - fd) s) f_sigs);
    [|by rewrite take_0, app_nil_r]].
  { intros ret s' (-> & Hi & Ho & He). rewrite firstn_all in Ho. by split_and!. }
  intros k s' (Hi & Ho & He) Hk. pose proof (drop_not_nil k b Hk) as Hd. split.
  - exists (Val (Z.of_nat (length (drop k b)))). eexists. split; [done|]. split; [done|].
    left. exists (length (drop k b)). rewrite length_drop. split; [lia|]. by split.
  - intros ret s1 (_ & _ & [(n & Hn & -> & ->)|(n & Hn & -> & ->)]); [left | right].
    + exists n. rewrite length_drop in Hn. split; [lia|]. split; [done|].
      rewrite <- take_take_drop, app_assoc, <- Ho, <- Hi, <- He. by destruct Hfd as [->| ->].
    + cbn. split_and!; try done. lia.
Qed.

(** The bytes of [l] that are not what the stream has from offset [o] on. *)
Fixpoint wrong (o : Z) (l : list Z) : Z :=
  match l with [] => 0 | c :: l => (if c =? u8 o then 0 else 1) + wrong (o + 1) l end.

Definition sum32 (a : Z) (l : list Z) : Z := fold_left (fun a c => a +! c) l a.

Lemma wrong_bounds o l : 0 <= wrong o l <= Z.of_nat (length l).
Proof.
  revert o. induction l as [|c l IH]; intros o; cbn [wrong length]; [lia|]. specialize (IH (o + 1)).
  destruct (c =? u8 o); lia.
Qed.

Lemma wrong_app o l l' : wrong o (l ++ l') = wrong o l + wrong (o + Z.of_nat (length l)) l'.
Proof.
  revert o. induction l as [|c l IH]; intros o; cbn [app wrong length].
  { by rewrite Z.add_0_r. }
  rewrite IH. replace (o + 1 + Z.of_nat (length l)) with (o + Z.of_nat (S (length l))) by lia. lia.
Qed.

Lemma fill_S o n : fill o (S n) = u8 o :: fill (o + 1) n.
Proof. change (S n) with (1 + n)%nat. rewrite <- fill_app. cbn. by rewrite Z.add_0_r. Qed.

(** Nothing is wrong in the stream, and only there. *)
Lemma wrong_fill l o : wrong o l = 0 <-> l = fill o (length l).
Proof.
  revert o. induction l as [|c l IH]; intros o; [done|]. cbn [wrong length]. rewrite fill_S.
  pose proof (wrong_bounds (o + 1) l) as Hb. destruct (Z.eqb_spec c (u8 o)) as [->|Hc].
  - split; [intros E; f_equal; apply IH; lia | intros [= E]; apply IH in E; lia].
  - split; [lia | by intros [= -> _]].
Qed.

Lemma count_bytes_counts l : forall total i checksum mismatches,
  0 <= total -> 0 <= i -> total + i + Z.of_nat (length l) < 4294967296 ->
  0 <= mismatches -> mismatches + Z.of_nat (length l) < 4294967296 ->
  count_bytes false total i (checksum, mismatches) l = (sum32 checksum l, mismatches + wrong (total + i) l).
Proof.
  induction l as [|c l IH]; intros total i checksum mis Ht Hi Hn Hm Hl; cbn [count_bytes wrong length] in *.
  - cbn. f_equal. lia.
  - rewrite (u32_small (i + 1)) by mlia. rewrite (u32_small (total + i)) by mlia. cbn [negb andb].
    destruct (Z.eqb_spec c (u8 (total + i))); cbn [negb].
    + rewrite IH by lia. cbn. f_equal. replace (total + (i + 1)) with (total + i + 1) by lia. lia.
    + rewrite (u32_small (mis + 1)) by mlia. rewrite IH by lia. cbn. f_equal.
      replace (total + (i + 1)) with (total + i + 1) by lia. lia.
Qed.

(** The counts of the consumer at the end of the file. *)
Lemma consume_counts s : Z.of_nat (length (f_in s)) < 4294967296 ->
  must filter_env no_child (fun ret s' =>
    ret = inl (Some (Z.of_nat (length (f_in s)), sum32 0 (f_in s), wrong 0 (f_in s))) /\
    f_out s' = f_out s /\ f_err s' = f_err s) s (consume false).
Proof.
  intros Hlen. unfold consume.
  apply (must_loop _ _ _ (fun n '(total, checksum, mis) s' => exists inp, f_in s = inp ++ f_in s' /\
    total = Z.of_nat (length inp) /\ checksum = sum32 0 inp /\ mis = wrong 0 inp /\
    f_out s' = f_out s /\ f_err s' = f_err s /\ n = (length (f_in s') + f_sigs s')%nat))
    with (n := (length (f_in s) + f_sigs s)%nat); [|by exists []].
  intros n [[total checksum] mis] s' (inp & Hin & -> & -> & -> & Ho & He & ->).
  apply must_call; [|done|].
  { destruct (f_in s') as [|c l] eqn:E.
    - exists (Data []), s'. cbn. split_and!; try done. right. by left.
    - exists (Data [c]). eexists. cbn. split_and!; try done. left. exists [c], l. by split_and!. }
  intros ret s1 (_ & _ & [(l & rest & El & Hne & _ & -> & ->)|[(E & -> & ->)|(n & En & -> & ->)]]).
  - assert (length inp + length l <= length (f_in s))%nat as Hl by (rewrite Hin, El, !length_app; lia).
    pose proof (wrong_bounds 0 inp) as Hb. destruct l as [|c l]; [done|].
    rewrite count_bytes_counts by lia. apply must_ret. eexists. split; [|exists (inp ++ c :: l); split_and!; try done].
    + cbn [f_in f_sigs]. rewrite El, length_app. cbn. lia.
    + cbn [f_in]. by rewrite <- app_assoc, <- El.
    + rewrite u32_small by mlia. rewrite length_app. lia.
    + unfold sum32. by rewrite fold_left_app.
    + rewrite wrong_app. f_equal. f_equal. lia.
  - apply must_ret. rewrite Hin, E, app_nil_r. by rewrite Ho, He.
  - cbn [Z.eqb]. apply must_ret. eexists. split; [|exists inp; split_and!; try done]. cbn. lia.
Qed.

Lemma consumer_report_writes report s : (0 < length report < 160)%nat ->
  must filter_env no_child (fun ret s' => ret = inl 0 /\ f_out s' = f_out s ++ report /\ f_err s' = f_err s) s
    (consumer_report report).
Proof.
  intros Hl. unfold consumer_report. rewrite !decide_False by lia. apply must_bind; [exact _|].
  eapply must_mono; [|apply write_all_writes; by left]. intros ret s' (-> & _ & Ho & He). by apply must_ret.
Qed.

Definition pass_line : list Z := "[pipeline-consumer] bytes=12288 checksum=1566720 pattern=sequential PASS\n".

(** The consumer of the shell pipeline (pipeline_consumer.c), without [--text]: for
    every file of less than 4 GiB on its input it ends; it returns 0 with the line
    that says so exactly when the file is what the producer writes, and else 5,
    with nothing on its output. *)
Theorem pipeline_consumer_accepts (name input : list Z) (sigs : nat)
    (Hlen : Z.of_nat (length input) < 4294967296) :
  must filter_env no_child (fun ret s' =>
    (input = stream /\ ret = inl 0 /\ f_out s' = pass_line /\ f_err s' = []) \/
    (input <> stream /\ ret = inl 5 /\ f_out s' = [])) (Filter input [] [] sigs) (pipeline_consumer [name]).
Proof.
  unfold pipeline_consumer. apply must_bind; [exact _|]. eapply must_mono; [|by apply consume_counts].
  intros ret s (-> & Ho & He). cbn [f_in f_out f_err] in *.
  assert (input = stream <-> Z.of_nat (length input) = 12288 /\ wrong 0 input = 0) as Hiff.
  { rewrite wrong_fill, stream_eq. unfold GATE15_PIPELINE_BYTES.
    split; [intros ->; by rewrite length_fill | intros [El ->]; f_equal; lia]. }
  unfold PIPELINE_TOTAL_BYTES, PIPELINE_EXPECTED_SUM.
  destruct (decide (input = stream)) as [Hi|Hi].
  - destruct (proj1 Hiff Hi) as [-> ->]. rewrite Hi, stream_eq. unfold sum32, GATE15_PIPELINE_BYTES.
    rewrite stream_sum. cbn [Z.eqb Pos.eqb negb orb].
    assert ("[pipeline-consumer] bytes=" ++ dec 12288 ++ " checksum=" ++ dec 1566720 ++
      " pattern=sequential PASS\n" = pass_line) as -> by (vm_compute; reflexivity).
    eapply must_mono; [|apply (consumer_report_writes pass_line s); vm_compute; lia].
    intros ret s' (-> & Ho' & He'). left. rewrite Ho', He', Ho, He. by split_and!.
  - destruct (_ || _) eqn:E.
    + apply must_bind; [exact _|]. eapply must_mono; [|apply write_all_writes; by right].
      intros ret s' (-> & _ & _ & Ho'). apply must_ret. right.
      change (f_out s' = f_out s) in Ho'. by rewrite Ho', Ho.
    + destruct Hi. apply Hiff. zbool. by split.
Qed.

Lemma pipeline_consumer_accepts_example :
  must filter_env no_child (fun ret s' =>
    ([7] = stream /\ ret = inl 0 /\ f_out s' = pass_line /\ f_err s' = []) \/
    ([7] <> stream /\ ret = inl 5 /\ f_out s' = [])) (Filter [7] [] [] 2)
    (pipeline_consumer [cstr "pipeline-consumer"]).
Proof. apply (pipeline_consumer_accepts _ [7] 2). cbn. lia. Qed.

(** ** Processes *)

(** The children that have not been waited for, how many have, whether a fork or a
    child has failed, and what was printed. *)
Record family := Family {
  unwaited : list Z;
  reaped : Z;
  fork_failed : bool;
  child_failed : bool;
  printed : list Z;
  signals : nat;
}.

Definition family_env (R : Type) (s : family) (c : call R) : R -> family -> Prop :=
  match c in call R return R -> family -> Prop with
  | Fork => fun ret s' =>
      (0 < ret /\ s' = Family (unwaited s ++ [ret]) (reaped s) (fork_failed s) (child_failed s) (printed s) (signals s)) \/
      (ret = -1 /\ s' = Family (unwaited s) (reaped s) true (child_failed s) (printed s) (signals s))
  | Waitpid pid => fun ret s' => pid ∈ unwaited s /\
      ((exists l1 l2 st, unwaited s = l1 ++ pid :: l2 /\ ret = Waited pid st /\
          s' = Family (l1 ++ l2) (reaped s + 1) (fork_failed s) (child_failed s || negb (clean pid ret))
                 (printed s) (signals s)) \/
       (exists n, signals s = S n /\ ret = WaitErr EINTR /\
          s' = Family (unwaited s) (reaped s) (fork_failed s) (child_failed s) (printed s) n))
  | Printf text => fun _ s' =>
      s' = Family (unwaited s) (reaped s) (fork_failed s) (child_failed s) (printed s ++ text) (signals s)
  | _ => fun _ _ => False
  end.

(** A child: [execve] comes back only when it has failed. *)
Definition exec_env (R : Type) (failed : bool) (c : call R) : R -> bool -> Prop :=
  match c in call R return R -> bool -> Prop with Execve _ => fun _ failed' => failed' = true | _ => fun _ _ => False end.

(** It exits at once, with 0 unless [execve] has failed. *)
Definition quits (A : Type) (s : family) (p : prog A) : Prop :=
  must exec_env no_child (fun ret failed => ret = inr (if failed : bool then 92 else 0)) false p.

#[global] Instance quits_spawns : Spawns quits.
Proof.
  constructor. intros A X s p k H. apply must_bind; [exact _|]. eapply must_mono; [|exact H].
  intros [x|c] failed E; [discriminate E|]. injection E as ->. done.
Qed.

(** The end of a wait: the child is no longer there. *)
Lemma wait_loop_waits pid s : pid ∈ unwaited s ->
  must family_env quits (fun ret s' => exists l1 l2 st, unwaited s = l1 ++ pid :: l2 /\ ret = inl (Waited pid st) /\
    unwaited s' = l1 ++ l2 /\ reaped s' = reaped s + 1 /\ fork_failed s' = fork_failed s /\
    child_failed s' = child_failed s || negb (clean pid (Waited pid st)) /\ printed s' = printed s) s (wait_loop pid).
Proof.
  intros Hpid. unfold wait_loop.
  apply (must_loop _ _ _ (fun n _ s' => unwaited s' = unwaited s /\ reaped s' = reaped s /\
    fork_failed s' = fork_failed s /\ child_failed s' = child_failed s /\ printed s' = printed s /\ n = signals s'))
    with (n := signals s); [|by split_and!].
  intros n [] s' (Eu & Er & Ef & Ec & Ep & ->). apply must_call; [|done|].
  - apply list_elem_of_split in Hpid as Hsplit. destruct Hsplit as (l1 & l2 & Hs).
    exists (Waited pid 0). eexists. cbn. rewrite Eu. split; [done|]. left. exists l1, l2, 0. by split_and!.
  - intros ret s1 (_ & [(l1 & l2 & st & Hs & -> & ->)|(n & En & -> & ->)]).
    + apply must_ret. cbn [unwaited reaped fork_failed child_failed printed].
      exists l1, l2, st. rewrite <- Eu, Er, Ef, Ec, Ep. by split_and!.
    + cbn [Z.eqb]. apply must_ret. eexists. split; [|split_and!; done]. cbn. lia.
Qed.

(** The children of a batch, all in [unwaited]. *)
Lemma fork_children_forks n : forall children s, unwaited s = children ->
  must family_env quits (fun ret s' => reaped s' = reaped s /\ child_failed s' = child_failed s /\ printed s' = printed s /\
    ((exists more, ret = inl (inl (children ++ more)) /\ length more = n /\ unwaited s' = children ++ more /\
        fork_failed s' = fork_failed s) \/
     (ret = inl (inr 4) /\ fork_failed s' = true))) s (fork_children n children).
Proof.
  induction n as [|n IH]; intros children s Hu; cbn [fork_children].
  - apply must_ret. split_and!; try done. left. exists []. by rewrite app_nil_r.
  - apply must_call.
    + exists (-1). eexists. by right.
    + eapply must_tau; [reflexivity|]. by apply must_halt.
    + intros pid s1 [[Hpos ->]|[-> ->]].
      * rewrite (proj2 (Z.eqb_neq pid 0)), (proj2 (Z.ltb_ge pid 0)) by lia.
        eapply must_mono; [|apply IH; cbn; by rewrite Hu].
        intros ret s' (Er & Ec & Ep & H). cbn in Er, Ec, Ep. split_and!; try done.
        destruct H as [(more & -> & El & Eu & Ef)|[-> Ef]]; [left | by right].
        exists (pid :: more). rewrite <- app_assoc in *. cbn in *. split_and!; [done | lia | done | done].
      * cbn [Z.eqb Z.ltb Z.compare]. apply must_ret. split_and!; try done. by right.
Qed.

Lemma wait_children_waits children : forall completed s, unwaited s ≡ₚ children ->
  0 <= completed -> completed + Z.of_nat (length children) < 4294967296 ->
  must family_env quits (fun ret s' => fork_failed s' = fork_failed s /\ printed s' = printed s /\
    ((ret = inl (inl (completed + Z.of_nat (length children))) /\ unwaited s' = [] /\
      reaped s' = reaped s + Z.of_nat (length children) /\ child_failed s' = child_failed s) \/
     (ret = inl (inr 5) /\ child_failed s' = true))) s (wait_children children completed).
Proof.
  induction children as [|pid children IH]; intros completed s Hu Hc Hn; cbn [wait_children length].
  - apply must_ret. apply Permutation_nil_r in Hu. split_and!; try done. left.
    rewrite !Z.add_0_r. by split_and!.
  - apply must_bind; [exact _|]. eapply must_mono; [|apply wait_loop_waits; rewrite Hu; by left].
    intros ret s1 (l1 & l2 & st & Hs & -> & Eu & Er & Ef & Ec & Ep). destruct (clean pid (Waited pid st)) eqn:Ecl.
    + cbn [negb]. rewrite u32_small by (cbn in Hn; mlia). cbn [length] in Hn.
      assert (unwaited s1 ≡ₚ children) as Hu1.
      { rewrite Eu. apply (Permutation_cons_inv (a := pid)). by rewrite Permutation_middle, <- Hs. }
      eapply must_mono; [|by apply IH; [exact Hu1 | lia | lia]].
      intros ret s' (Ef' & Ep' & H). rewrite Ef', Ep', Ef, Ep. split_and!; try done.
      cbn [negb] in Ec. rewrite orb_false_r in Ec.
      destruct H as [(-> & Eu' & Er' & Ec')|[-> Ec']]; [left | by right].
      rewrite Er', Er, Ec', Ec. split_and!; [f_equal; f_equal; lia | done | lia | done].
    + cbn [negb]. apply must_ret. rewrite Ef, Ep. split_and!; try done. right. rewrite Ec. by rewrite orb_true_r.
Qed.

Lemma parse_count_range text maximum : 0 <= parse_count text maximum /\ (0 <= maximum -> parse_count text maximum <= maximum).
Proof.
  unfold parse_count. destruct (strtoul text) as [[v rest] err] eqn:E. apply strtoul_range in E.
  destruct (count_ok _ _) eqn:Ec; [|lia]. unfold count_ok in Ec. zbool. mlia.
Qed.

Lemma batch_loop_runs batches width s : 0 <= batches <= GATE15_BATCHES_MAX -> 0 <= width <= GATE15_BATCH_MAX ->
  unwaited s = [] -> reaped s = 0 -> fork_failed s = false -> child_failed s = false ->
  must family_env quits (fun ret s' => printed s' = printed s /\
    ((ret = inl (inl (batches * width)) /\ unwaited s' = [] /\ reaped s' = batches * width /\
      fork_failed s' = false /\ child_failed s' = false) \/
     (ret = inl (inr 4) /\ fork_failed s' = true) \/ (ret = inl (inr 5) /\ child_failed s' = true)))
    s (batch_loop batches width).
Proof.
  unfold GATE15_BATCHES_MAX, GATE15_BATCH_MAX. intros Hb Hw Hu Hr Hf Hc. unfold batch_loop.
  apply (must_loop _ _ _ (fun n '(batch, completed) s' => 0 <= batch <= batches /\ completed = batch * width /\
    unwaited s' = [] /\ reaped s' = completed /\ fork_failed s' = false /\ child_failed s' = false /\
    printed s' = printed s /\ n = Z.to_nat (batches - batch))) with (n := Z.to_nat batches);
    [|split_and!; done || lia || (f_equal; lia)].
  intros n [batch completed] s' (Hn & -> & Hu' & Hr' & Hf' & Hc' & Hp' & ->). case_if; zbool.
  - apply must_bind; [exact _|]. eapply must_mono; [|by apply fork_children_forks].
    intros ret s1 (Er1 & Ec1 & Ep1 & [(more & -> & El & Eu & Ef)|[-> Ef]]).
    + rewrite app_nil_l in *. apply must_bind; [exact _|].
      eapply must_mono; [|apply wait_children_waits; [by rewrite Eu, <- Permutation_rev | nia |
        rewrite length_rev, El; nia]].
      intros ret s2 (Ef2 & Ep2 & H). rewrite length_rev, El, Z2Nat.id in H by lia.
      destruct H as [(-> & Eu2 & Er2 & Ec2)|[-> Ec2]]; apply must_ret.
      * rewrite (u32_small (batch + 1)) by mlia. eexists. split; [|split_and!; try reflexivity; try congruence; lia].
        lia.
      * split; [congruence|]. right. by right.
    + apply must_ret. split; [congruence|]. right. by left.
  - apply must_ret. assert (batch = batches) as -> by lia. split; [done|]. left. by split_and!.
Qed.

(** The batches (gate15_batch_stress.c).  Whatever forks fail, children exit with and
    waits are interrupted, the test ends.  It returns 0, with its report, only when
    every fork has succeeded and every child has been waited for and has exited
    with 0: no zombies are left, as it says.  Else it returns 4 or 5 for the reason
    it has. *)
Theorem batch_stress_reaps (name arg1 arg2 : list Z) (out : list Z) (sigs : nat)
    (H1 : parse_count arg1 GATE15_BATCHES_MAX <> 0) (H2 : parse_count arg2 GATE15_BATCH_MAX <> 0) :
  let batches := parse_count arg1 GATE15_BATCHES_MAX in
  let width := parse_count arg2 GATE15_BATCH_MAX in
  must family_env quits (fun ret s' =>
    (ret = inl 0 /\ unwaited s' = [] /\ reaped s' = batches * width /\ fork_failed s' = false /\
     child_failed s' = false /\ printed s' = out ++ batch_report batches width (batches * width)) \/
    (ret = inl 4 /\ fork_failed s' = true) \/ (ret = inl 5 /\ child_failed s' = true))
    (Family [] 0 false false out sigs) (batch_stress [name; arg1; arg2]).
Proof.
  intros batches width. unfold batch_stress. fold batches width.
  rewrite (proj2 (Z.eqb_neq batches 0)), (proj2 (Z.eqb_neq width 0)) by done. cbn [orb].
  destruct (parse_count_range arg1 GATE15_BATCHES_MAX) as [Hb1 Hb2].
  destruct (parse_count_range arg2 GATE15_BATCH_MAX) as [Hw1 Hw2].
  specialize (Hb2 ltac:(unfold GATE15_BATCHES_MAX; lia)). specialize (Hw2 ltac:(unfold GATE15_BATCH_MAX; lia)).
  apply must_bind; [exact _|]. eapply must_mono; [|by apply batch_loop_runs; try split].
  intros ret s (Hp & [(-> & Hu & Hr & Hf & Hc)|[(-> & Hf)|(-> & Hc)]]).
  - apply must_call; [by eexists tt, _|done|]. intros [] s' ->. apply must_ret. left. cbn. rewrite Hp. by split_and!.
  - apply must_ret. right. by left.
  - apply must_ret. right. by right.
Qed.

(** A batch of one: what the theorem says of [gate15-batches 1 10]. *)
Lemma batch_stress_reaps_example :
  must family_env quits (fun ret s' =>
    (ret = inl 0 /\ unwaited s' = [] /\ reaped s' = 10 /\ fork_failed s' = false /\ child_failed s' = false /\
     printed s' = "[process-gate-15] child-batches=1 batch-width=10 fork-exit-wait=10 zombies=0 PASS\n") \/
    (ret = inl 4 /\ fork_failed s' = true) \/ (ret = inl 5 /\ child_failed s' = true))
    (Family [] 0 false false [] 2) (batch_stress [cstr "gate15-batches"; cstr "1"; cstr "10"]).
Proof.
  pose proof (batch_stress_reaps (cstr "gate15-batches") (cstr "1") (cstr "10") [] 2) as H. cbv zeta in H.
  assert (parse_count (cstr "1") GATE15_BATCHES_MAX = 1) as E1 by (vm_compute; reflexivity).
  assert (parse_count (cstr "10") GATE15_BATCH_MAX = 10) as E2 by (vm_compute; reflexivity).
  rewrite E1, E2 in H. eapply must_mono; [|apply H; lia].
  intros ret s' [(Hr & Hu & Hre & Hf & Hc & Hp)|?]; [left | by right]. rewrite Hp.
  split_and!; [exact Hr | exact Hu | exact Hre | exact Hf | exact Hc |]. vm_compute. reflexivity.
Qed.

(** A round of the process test: its child is waited for. *)
Lemma process_round_waits do_exec i s : unwaited s = [] -> child_failed s = false ->
  must family_env quits (fun ret s' => printed s' = printed s /\
    ((ret = inl None /\ unwaited s' = [] /\ reaped s' = reaped s + 1 /\ fork_failed s' = fork_failed s /\
      child_failed s' = false) \/
     (ret = inl (Some 4) /\ fork_failed s' = true) \/ (ret = inl (Some 6) /\ child_failed s' = true)))
    s (process_round do_exec i).
Proof.
  intros Hu Hc. unfold process_round. apply must_call.
  - exists (-1). eexists. by right.
  - eapply must_tau; [reflexivity|]. cbn [Z.eqb]. unfold run_child. destruct do_exec.
    + apply must_bind; [exact _|]. apply must_call; [by eexists tt, true|done|].
      intros [] failed ->. apply must_ret. by apply must_halt.
    + apply must_bind; [exact _|]. apply must_ret. by apply must_halt.
  - intros pid s1 [[Hpos ->]|[-> ->]].
    + rewrite (proj2 (Z.eqb_neq pid 0)), (proj2 (Z.ltb_ge pid 0)) by lia.
      apply must_bind; [exact _|]. eapply must_mono; [|apply wait_loop_waits; cbn; rewrite Hu; by left].
      intros ret s2 (l1 & l2 & st & Hs & -> & Eu & Er & Ef & Ec & Ep). cbn in Hs, Eu, Er, Ef, Ec, Ep.
      rewrite Hu in Hs. apply must_ret. split; [done|]. rewrite Hc, Z.eqb_refl in Ec. cbn [orb andb] in Ec.
      destruct (WIFEXITED st && (WEXITSTATUS st =? 0)) eqn:E.
      * left. apply andb_true_iff in E as [E1 E2]. rewrite E1, E2 in *. cbn [negb orb].
        destruct l1 as [|x [|y l1]]; destruct l2; try discriminate Hs. by split_and!.
      * right. right. split; [|done]. destruct (WIFEXITED st); [|done]. cbn [andb negb orb] in *. by rewrite E.
    + cbn [Z.eqb Z.ltb Z.compare]. apply must_ret. split; [done|]. right. by left.
Qed.

(** The process test (gate15_process_stress.c), in both modes: it returns 0 only when
    every child of every round has been waited for and has exited with 0. *)
Theorem process_stress_reaps (name mode arg : list Z) (parsed : Z) (rest : option (list Z)) (out : list Z) (sigs : nat)
    (Hmode : mode = cstr "fork" \/ mode = cstr "exec") (Harg : strtoul arg = (parsed, rest, false))
    (Hcount : count_ok (parsed, rest, false) GATE15_MAX_ROUNDS = true) :
  must family_env quits (fun ret s' =>
    (ret = inl 0 /\ unwaited s' = [] /\ reaped s' = parsed /\ fork_failed s' = false /\ child_failed s' = false /\
     printed s' = out ++ process_report (bool_decide (mode = cstr "exec")) parsed) \/
    (ret = inl 4 /\ fork_failed s' = true) \/ (ret = inl 6 /\ child_failed s' = true))
    (Family [] 0 false false out sigs) (process_stress [name; mode; arg]).
Proof.
  unfold process_stress.
  assert (negb (bool_decide (mode = cstr "fork")) && negb (bool_decide (mode = cstr "exec")) = false) as ->.
  { destruct Hmode as [E|E]; rewrite (bool_decide_eq_true_2 _ E); [done | by rewrite andb_false_r]. }
  rewrite Harg, Hcount. cbn [negb]. apply must_bind; [exact _|].
  apply (must_rounds _ _ _ _ (fun i s' => unwaited s' = [] /\ reaped s' = i /\ fork_failed s' = false /\
    child_failed s' = false /\ printed s' = out)); [by eapply strtoul_range | | | by split_and!].
  - intros s (Hu & Hre & Hf & Hc & Hp). apply must_call; [by eexists tt, _|done|]. intros [] s' ->.
    apply must_ret. left. cbn. rewrite Hp. by split_and!.
  - intros i s Hi (Hu & Hre & Hf & Hc & Hp). eapply must_mono; [|by apply process_round_waits].
    intros ret s1 (Hp1 & [(-> & Hu1 & Hr1 & Hf1 & Hc1)|[(-> & Hf1)|(-> & Hc1)]]).
    + split_and!; congruence.
    + apply must_ret. right. by left.
    + apply must_ret. right. by right.
Qed.

(** ** One process and a pipe *)

Section OnePipe.

(** The room in the pipe. *)
Context (ROOM : nat).

(** The descriptors while the pipe is open, whether it can still be written to, and
    what is in it. *)
Record channel := Channel {
  c_fds : option (Z * Z);
  c_writable : bool;
  c_data : list Z;
  c_printed : list Z;
  c_sigs : nat;
}.

Definition channel_env (R : Type) (s : channel) (c : call R) : R -> channel -> Prop :=
  match c in call R return R -> channel -> Prop with
  | Pipe => fun ret s' => c_fds s = None /\ exists r w, r <> w /\ ret = Some (r, w) /\
      s' = Channel (Some (r, w)) true [] (c_printed s) (c_sigs s)
  | Write fd b => fun ret s' => exists r, c_fds s = Some (r, fd) /\ c_writable s = true /\ b <> [] /\
      ((exists n, (0 < n <= length b)%nat /\ (length (c_data s) + n <= ROOM)%nat /\ ret = Val (Z.of_nat n) /\
          s' = Channel (c_fds s) true (c_data s ++ take n b) (c_printed s) (c_sigs s)) \/
       (exists n, c_sigs s = S n /\ ret = Err EINTR /\ s' = Channel (c_fds s) true (c_data s) (c_printed s) n))
  | Read fd n => fun ret s' => exists w, c_fds s = Some (fd, w) /\ 0 < n /\
      ((exists l rest, c_data s = l ++ rest /\ l <> [] /\ Z.of_nat (length l) <= n /\ ret = Data l /\
          s' = Channel (c_fds s) (c_writable s) rest (c_printed s) (c_sigs s)) \/
       (c_data s = [] /\ c_writable s = false /\ ret = Data [] /\ s' = s) \/
       (exists n, c_sigs s = S n /\ ret = ReadErr EINTR /\
          s' = Channel (c_fds s) (c_writable s) (c_data s) (c_printed s) n))
  | Close fd => fun ret s' => ret = 0 /\ exists r w, c_fds s = Some (r, w) /\
      ((fd = w /\ c_writable s = true /\ s' = Channel (c_fds s) false (c_data s) (c_printed s) (c_sigs s)) \/
       (fd = r /\ c_writable s = false /\ s' = Channel None false [] (c_printed s) (c_sigs s)))
  | Printf text => fun _ s' =>
      s' = Channel (c_fds s) (c_writable s) (c_data s) (c_printed s ++ text) (c_sigs s)
  | _ => fun _ _ => False
  end.

Lemma write_all_fills r w b s : (length (c_data s) + length b <= ROOM)%nat ->
  c_fds s = Some (r, w) -> c_writable s = true ->
  must channel_env no_child (fun ret s' => ret = inl 0 /\ c_fds s' = Some (r, w) /\ c_writable s' = true /\
    c_data s' = c_data s ++ b /\ c_printed s' = c_printed s) s (write_all w b).
Proof.
  intros Hroom Hfds Hw. eapply must_mono; [|apply (must_write_all _ _ w b (fun k s' => c_fds s' = Some (r, w) /\
    c_writable s' = true /\ c_data s' = c_data s ++ take k b /\ c_printed s' = c_printed s) c_sigs);
    [|by rewrite take_0, app_nil_r]].
  { intros ret s' (-> & Hf & Hw' & Hd & Hp). rewrite firstn_all in Hd. by split_and!. }
  intros k s' (Hf & Hw' & Hd & Hp) Hk. pose proof (drop_not_nil k b Hk) as Hn. split.
  - exists (Val 1). eexists. exists r. split_and!; try done. left. exists 1%nat.
    rewrite Hd, length_app, length_take, length_drop. split; [lia|]. split; [lia | by split].
  - intros ret s1 (r' & _ & _ & _ & [(n & Hn' & _ & -> & ->)|(n & Hn' & -> & ->)]); [left | right].
    + exists n. rewrite length_drop in Hn'. cbn. rewrite Hd, <- app_assoc, take_take_drop. split; [lia|]. by split_and!.
    + cbn. split_and!; try done. lia.
Qed.

Lemma read_all_drains r w size s : c_fds s = Some (r, w) -> length (c_data s) = size ->
  must channel_env no_child (fun ret s' => ret = inl (0, c_data s) /\ c_fds s' = Some (r, w) /\
    c_writable s' = c_writable s /\ c_printed s' = c_printed s) s (read_all r size).
Proof.
  intros Hfds Hsize. unfold read_all.
  apply (must_loop _ _ _ (fun n buffer s' => c_data s = buffer ++ c_data s' /\ c_fds s' = Some (r, w) /\
    c_writable s' = c_writable s /\ c_printed s' = c_printed s /\ n = (length (c_data s') + c_sigs s')%nat))
    with (n := (length (c_data s) + c_sigs s)%nat); [|by split_and!].
  intros n buffer s' (Hd & Hf & Hw & Hp & ->).
  assert (length buffer + length (c_data s') = size)%nat as Hl by (rewrite <- Hsize, Hd, length_app; lia).
  case_decide as Hlt.
  - apply must_call; [|done|].
    + destruct (c_data s') as [|c l] eqn:E; [cbn in Hl; lia|]. exists (Data [c]). eexists. exists w.
      split_and!; [done | lia |]. left. exists [c], l. rewrite E. split_and!; try done. cbn. lia.
    + intros ret s1 (w' & _ & _ & [(l & rest & El & Hne & _ & -> & ->)|[(E & _)|(n & En & -> & ->)]]).
      * destruct l as [|c l]; [done|]. apply must_ret. eexists. split; [|split_and!; try done].
        { cbn [c_data c_sigs]. rewrite El, length_app. cbn. lia. }
        { cbn [c_data]. by rewrite <- app_assoc, <- El. }
      * rewrite E in Hl. cbn in Hl. lia.
      * cbn [Z.eqb]. apply must_ret. eexists. split; [|split_and!; try done]. cbn. lia.
  - apply must_ret. assert (c_data s' = []) as E by (apply nil_length_inv; lia).
    rewrite Hd, E, app_nil_r. by split_and!.
Qed.

Lemma pipe_round_passes i s : (GATE15_PIPE_BYTES <= ROOM)%nat -> c_fds s = None ->
  must channel_env no_child (fun ret s' => ret = inl None /\ c_fds s' = None /\ c_printed s' = c_printed s) s
    (pipe_round i).
Proof.
  intros Hroom Hf. unfold pipe_round. apply must_call; [|done|].
  { exists (Some (3, 4)). eexists. split; [done|]. by exists 3, 4. }
  intros fds s1 (_ & r & w & Hrw & -> & ->). cbn [any_fails]. apply must_bind; [exact _|].
  apply must_bind; [exact _|]. eapply must_mono; [|apply (write_all_fills r w); [by rewrite length_fill | done | done]].
  intros ret s2 (-> & Hf2 & Hw2 & Hd2 & Hp2). cbn [negb Z.eqb]. apply must_call; [|done|].
  { eexists 0, _. split; [done|]. exists r, w. split; [done|]. by left. }
  intros ret s3 (-> & r' & w' & E & [(_ & _ & ->)|(_ & ? & _)]); [|congruence]. clear r' w' E.
  cbn [negb Z.eqb]. apply must_ret. apply must_bind; [exact _|].
  eapply must_mono; [|apply (read_all_drains r w GATE15_PIPE_BYTES); [done | cbn; rewrite Hd2; apply length_fill]].
  intros ret s4 (-> & Hf4 & Hw4 & Hp4). cbn [negb Z.eqb]. apply must_bind; [exact _|]. apply must_call; [|done|].
  { eexists 0, _. split; [done|]. exists r, w. split; [done|]. by right. }
  intros ret s5 (-> & r'' & w'' & E' & [(_ & E5 & _)|(_ & _ & ->)]); [rewrite Hw4 in E5; discriminate E5|].
  cbn [negb Z.eqb]. do 2 apply must_ret. cbn [c_data c_fds c_printed] in *. rewrite Hd2. rewrite decide_True by done.
  rewrite Hp4, Hp2. by split_and!.
Qed.

(** The pipe test (gate15_pipe_stress.c): when a pipe has room for 64 bytes, every
    number of rounds from 1 to 1000 ends with 0 and the report, whatever is written
    and read at a time. *)
Theorem pipe_stress_passes (name arg : list Z) (rounds : Z) (rest : option (list Z)) (out : list Z) (sigs : nat)
    (Hroom : (GATE15_PIPE_BYTES <= ROOM)%nat) (Harg : strtoul arg = (rounds, rest, false))
    (Hcount : count_ok (rounds, rest, false) GATE15_PIPE_MAX_ROUNDS = true) :
  must channel_env no_child (fun ret s' => ret = inl 0 /\ c_fds s' = None /\ c_printed s' = out ++ pipe_report rounds)
    (Channel None false [] out sigs) (pipe_stress [name; arg]).
Proof.
  unfold pipe_stress. rewrite Harg, Hcount. cbn [negb]. apply must_bind; [exact _|].
  apply (must_rounds _ _ _ _ (fun _ s' => c_fds s' = None /\ c_printed s' = out));
    [by eapply strtoul_range | | | by split].
  - intros s [Hf Hp]. apply must_call; [by eexists tt, _|done|]. intros [] s' ->. apply must_ret. cbn. by rewrite Hp.
  - intros i s _ [Hf Hp]. eapply must_mono; [|by apply pipe_round_passes].
    intros ret s1 (-> & Hf1 & Hp1). by rewrite Hp1.
Qed.

End OnePipe.

(** ** Terminal input *)

(** The lines typed, the local flags of the terminal, and what was printed. *)
Record tty := Tty { t_lines : list (list Z); t_lflag : Z; t_printed : list Z; t_sigs : nat }.

(** A read of a terminal in canonical mode gives one line. *)
Definition tty_env (R : Type) (s : tty) (c : call R) : R -> tty -> Prop :=
  match c in call R return R -> tty -> Prop with
  | Read fd n => fun ret s' => fd = 0 /\
      ((exists l rest, t_lines s = l :: rest /\ Z.of_nat (length l) <= n /\ ret = Data l /\
          s' = Tty rest (t_lflag s) (t_printed s) (t_sigs s)) \/
       (t_lines s = [] /\ ret = Data [] /\ s' = s) \/
       (exists n, t_sigs s = S n /\ ret = ReadErr EINTR /\ s' = Tty (t_lines s) (t_lflag s) (t_printed s) n))
  | Tcgetattr => fun ret s' => ret = Some (t_lflag s) /\ s' = s
  | Tcsetattr a => fun ret s' => ret = 0 /\ s' = Tty (t_lines s) a (t_printed s) (t_sigs s)
  | Printf text => fun _ s' => s' = Tty (t_lines s) (t_lflag s) (t_printed s ++ text) (t_sigs s)
  | _ => fun _ _ => False
  end.

Definition typed (l : list Z) : Prop := l <> [] /\ (length l <= 31)%nat.

Lemma read_line_reads s : Forall typed (t_lines s) ->
  must tty_env no_child (fun ret s' => t_lflag s' = t_lflag s /\ t_printed s' = t_printed s /\
    ret = inl (head (t_lines s)) /\ t_lines s' = tail (t_lines s)) s (read_line 32).
Proof.
  intros Hl. unfold read_line.
  apply (must_loop _ _ _ (fun n _ s' => t_lines s' = t_lines s /\ t_lflag s' = t_lflag s /\ t_printed s' = t_printed s /\
    n = t_sigs s')) with (n := t_sigs s); [|by split_and!].
  intros n [] s' (El & Ef & Ep & ->). apply must_call; [|done|].
  { destruct (t_lines s) as [|l rest] eqn:E.
    - exists (Data []), s'. split; [done|]. right. left. by rewrite El.
    - exists (Data l). eexists. split; [done|]. left. exists l, rest. rewrite El.
      apply Forall_cons_1 in Hl as [[_ Hlen] _]. split_and!; try done. lia. }
  intros ret s1 (_ & [(l & rest & E & _ & -> & ->)|[(E & -> & ->)|(n & En & -> & ->)]]); try rewrite El in E.
  - rewrite E in Hl. apply Forall_cons_1 in Hl as [[Hne _] _]. destruct l as [|c l]; [done|].
    apply must_ret. cbn. rewrite E. by split_and!.
  - apply must_ret. rewrite E, El, E. by split_and!.
  - cbn [Z.eqb]. apply must_ret. eexists. split; [|split_and!; done]. cbn. lia.
Qed.

Lemma upto_nul_short l : (length (upto_nul l) <= length l)%nat.
Proof. induction l as [|c l IH]; cbn; [lia|]. case_if; cbn; lia. Qed.

Lemma upto_nul_all l : length (upto_nul l) = length l -> upto_nul l = l.
Proof.
  induction l as [|c l IH]; cbn; [done|]. pose proof (upto_nul_short l). case_if; cbn; [lia|].
  intros [= E]. by rewrite IH.
Qed.

Definition expected_lines (n : nat) : list (list Z) := (fun i => expected_line (Z.of_nat i)) <$> seq 0 n.

Lemma expected_no_nul :
  Forall (fun i => upto_nul (expected_line (Z.of_nat i)) = expected_line (Z.of_nat i)) (seq 0 1000).
Proof. by_computation. Qed.

(** The comparison with [strcmp] is equality with the expected line. *)
Lemma line_ok_exact l i : (i < 1000)%nat -> line_ok (Some l) (Z.of_nat i) = true <-> l = expected_line (Z.of_nat i).
Proof.
  intros Hi. unfold line_ok. rewrite andb_true_iff, !bool_decide_eq_true.
  assert (upto_nul (expected_line (Z.of_nat i)) = expected_line (Z.of_nat i)) as Hu.
  { apply (proj1 (Forall_forall _ _) expected_no_nul). apply elem_of_seq. lia. }
  split; [|by intros ->]. intros [El Eu]. rewrite <- Eu. symmetry. apply upto_nul_all. by rewrite Eu.
Qed.

Lemma expected_lines_S n : expected_lines (S n) = expected_lines n ++ [expected_line (Z.of_nat n)].
Proof. unfold expected_lines. by rewrite seq_S, fmap_app. Qed.

Lemma expected_lines_lookup n i : (i < n)%nat -> expected_lines n !! i = Some (expected_line (Z.of_nat i)).
Proof. intros Hi. unfold expected_lines. rewrite list_lookup_fmap, lookup_seq_lt by done. done. Qed.

Lemma length_expected_lines n : length (expected_lines n) = n.
Proof. unfold expected_lines. by rewrite length_fmap, length_seq. Qed.

(** What a round makes of the next line. *)
Lemma tty_round_checks original i s : 0 <= i < 1000 -> Forall typed (t_lines s) ->
  must tty_env no_child (fun ret s' =>
    (ret = inl None /\ head (t_lines s) = Some (expected_line i) /\ t_lines s' = tail (t_lines s) /\
       t_lflag s' = t_lflag s) \/
    (ret = inl (Some 5) /\ head (t_lines s) <> Some (expected_line i) /\ t_lflag s' = original))
    s (tty_round original i).
Proof.
  intros Hi Hl. unfold tty_round. apply must_bind; [exact _|]. eapply must_mono; [|by apply read_line_reads].
  intros ret s1 (Hf1 & Hp1 & -> & Hl1).
  assert (line_ok (head (t_lines s)) i = true <-> head (t_lines s) = Some (expected_line i)) as Hok.
  { destruct (t_lines s) as [|l rest]; cbn [head]; [done|].
    rewrite <- (Z2Nat.id i), line_ok_exact by lia. split; [by intros -> | by intros [= ->]]. }
  destruct (line_ok (head (t_lines s)) i) eqn:E; cbn [negb].
  - assert (forall s2, t_lines s2 = t_lines s1 -> t_lflag s2 = t_lflag s1 ->
      (head (t_lines s) = Some (expected_line i) /\ t_lines s2 = tail (t_lines s) /\ t_lflag s2 = t_lflag s)) as Hs2.
    { intros s2 E1 E2. split; [by apply Hok|]. by rewrite E1, E2, Hl1, Hf1. }
    case_if.
    + apply must_call; [by eexists tt, _|done|]. intros [] s2 ->. apply must_ret. left. split; [done|]. by apply Hs2.
    + apply must_ret. left. split; [done|]. by apply Hs2.
  - apply must_call; [by eexists 0, _|done|]. intros rc s2 [_ ->]. apply must_ret. right.
    split_and!; try done. intros H. by apply Hok in H.
Qed.

(** The terminal test (gate15_tty_stress.c).  On any lines of at most 31 bytes it ends
    with the flags of the terminal as they were; it returns 0 exactly when the
    first thousand lines are L0000 to L0999, and else 5. *)
Theorem tty_stress_checks (name : list Z) (lines : list (list Z)) (lflag : Z) (out : list Z) (sigs : nat)
    (Hlines : Forall typed lines) :
  must tty_env no_child (fun ret s' => t_lflag s' = lflag /\
    ((ret = inl 0 /\ exists rest, lines = expected_lines 1000 ++ rest) \/
     (ret = inl 5 /\ ~ exists rest, lines = expected_lines 1000 ++ rest)))
    (Tty lines lflag out sigs) (tty_stress [name; cstr "1000"]).
Proof.
  unfold tty_stress. rewrite bool_decide_eq_true_2 by done. cbn [negb].
  apply must_call; [by eexists _, _|done|]. intros attr s1 [-> ->]. cbn [t_lflag].
  apply must_call; [by eexists 0, _|done|]. intros rc s2 [-> ->]. cbn [negb Z.eqb].
  apply must_call; [by eexists tt, _|done|]. intros [] s3 ->. apply must_bind; [exact _|].
  apply (must_rounds _ _ _ _ (fun i s => exists done, lines = done ++ t_lines s /\ done = expected_lines (Z.to_nat i))).
  - unfold GATE15_TTY_LINES. mlia.
  - intros s (l & Hl & ->). apply must_call; [by eexists 0, _|done|]. intros rc s4 [-> ->]. cbn [negb Z.eqb].
    apply must_call; [by eexists tt, _|done|]. intros [] s5 ->. apply must_ret. split; [done|]. left. split; [done|].
    by eexists.
  - intros i s Hi (l & Hl & ->). unfold GATE15_TTY_LINES in Hi.
    eapply must_mono; [|apply tty_round_checks; [done | rewrite Hl in Hlines; by apply Forall_app in Hlines as [_ ?]]].
    intros ret s4 [(-> & Hh & Ht & Hf)|(-> & Hh & Hf)].
    + destruct (t_lines s) as [|x rest] eqn:Es; [done|]. injection Hh as ->.
      eexists. split; [|reflexivity]. rewrite Ht, Hl. replace (Z.to_nat (i + 1)) with (S (Z.to_nat i)) by lia.
      rewrite expected_lines_S, <- app_assoc, Z2Nat.id by lia. done.
    + apply must_ret. split; [done|]. right. split; [done|]. intros [rest E]. apply Hh. rewrite Hl in E.
      rewrite head_lookup. apply (f_equal (lookup (Z.to_nat i))) in E.
      rewrite lookup_app_r, length_expected_lines, Nat.sub_diag in E by (rewrite length_expected_lines; lia).
      rewrite E, lookup_app_l by (rewrite length_expected_lines; lia).
      rewrite expected_lines_lookup, Z2Nat.id by lia. done.
  - by exists [].
Qed.

End UserSpec.
